(** * WooCommerce synchronisation engine: a shallow embedding

    The development follows the TypeScript sources
    - [services/WooCommerceService.ts] (remote client, payload types),
    - [services/SyncService.ts] (sync pass and retention pass),
    - [models/Order.ts], [models/Product.ts] (Mongoose collections),
    - [jobs/SyncScheduler.ts] (scheduled and manual entry points).

    Asynchronous functions are run sequentially (every call is awaited in the
    sources), as computations over an explicit [World]: the two Mongoose
    collections, the ObjectId generator, the trace of remote and database
    calls, and the log.  Everything outside the program (the remote shop, the
    database driver's failures, the wall clock, Date parsing) is read from an
    [Env]. *)

From Stdlib Require Import ZArith List String Bool Arith Lia.
Import ListNotations.

Set Implicit Arguments.

(* ===================================================================== *)
(** * Remote payloads (WooCommerceService.ts) *)
(* ===================================================================== *)

(** JavaScript numbers that hold identifiers and quantities are integers
    here; strings are [string]; a [Date] is its epoch time in milliseconds. *)
Definition Date := Z.

Module Billing.
Record t := {
  first_name : string; last_name : string;
  address_1 : string; address_2 : string;
  city : string; state : string; postcode : string; country : string;
  email : string; phone : string }.
End Billing.

Module Shipping.
Record t := {
  first_name : string; last_name : string;
  address_1 : string; address_2 : string;
  city : string; state : string; postcode : string; country : string }.
End Shipping.

Module LineItem.
Record t := {
  product_id : Z; name : string; quantity : Z;
  total : string; price : string; sku : string }.
End LineItem.

Module WooCommerceOrder.
Record t := {
  id : Z; number : string; order_key : string; status : string;
  date_created : string; date_modified : string;
  total : string; customer_id : Z; customer_note : string;
  billing : Billing.t; shipping : Shipping.t;
  line_items : list LineItem.t }.
End WooCommerceOrder.

Module Dimensions.
Record t := { length : string; width : string; height : string }.
End Dimensions.

Module Image.
Record t := { id : Z; src : string; name : string; alt : string }.
End Image.

(** Categories and tags have the same shape. *)
Module Term.
Record t := { id : Z; name : string; slug : string }.
End Term.

Module WooCommerceProduct.
Record t := {
  id : Z; name : string; slug : string; type : string; status : string;
  featured : bool; catalog_visibility : string;
  description : string; short_description : string; sku : string;
  price : string; regular_price : string; sale_price : string;
  on_sale : bool; purchasable : bool; total_sales : Z;
  virtual : bool; downloadable : bool;
  tax_status : string; tax_class : string;
  manage_stock : bool; stock_quantity : Z; stock_status : string;
  backorders : string; backorders_allowed : bool; backordered : bool;
  sold_individually : bool; weight : string; dimensions : Dimensions.t;
  shipping_required : bool; shipping_taxable : bool;
  shipping_class : string; shipping_class_id : Z;
  reviews_allowed : bool; average_rating : string; rating_count : Z;
  images : list Image.t; categories : list Term.t; tags : list Term.t;
  date_created : string; date_modified : string }.
End WooCommerceProduct.

(* ===================================================================== *)
(** * Local documents (models/Order.ts, models/Product.ts) *)
(* ===================================================================== *)

(** The fields [syncOrder] writes ([orderData]). *)
Module Order.
Record t := {
  wooCommerceId : Z; number : string; order_key : string; status : string;
  date_created : Date; total : string; customer_id : Z;
  customer_note : string;
  billing : Billing.t; shipping : Shipping.t;
  line_items : list LineItem.t;
  last_modified : Date }.
End Order.

(** The fields [syncProduct] writes ([productData]). *)
Module Product.
Record t := {
  wooCommerceId : Z; name : string; slug : string; type : string;
  status : string; featured : bool; catalog_visibility : string;
  description : string; short_description : string; sku : string;
  price : string; regular_price : string; sale_price : string;
  on_sale : bool; purchasable : bool; total_sales : Z;
  virtual : bool; downloadable : bool;
  tax_status : string; tax_class : string;
  manage_stock : bool; stock_quantity : Z; stock_status : string;
  backorders : string; backorders_allowed : bool; backordered : bool;
  sold_individually : bool; weight : string; dimensions : Dimensions.t;
  shipping_required : bool; shipping_taxable : bool;
  shipping_class : string; shipping_class_id : Z;
  reviews_allowed : bool; average_rating : string; rating_count : Z;
  images : list Image.t; categories : list Term.t; tags : list Term.t;
  date_created : Date; date_modified : Date }.
End Product.

(** A stored document: the ObjectId Mongo assigns on insert, and the fields
    the sync service writes.  What Mongoose maintains by itself on every
    write (the [createdAt] and [updatedAt] stamps of [timestamps: true], the
    ObjectIds of embedded subdocuments) is not part of the document here; no
    operation of the sync service or of the scheduler reads it, except
    [getSyncStats] for its log line. *)
Record Doc (D : Type) := { _id : nat; fields : D }.

(* ===================================================================== *)
(** * A Mongoose collection as a list of documents *)
(* ===================================================================== *)

Section Collection.
Context {D : Type}.
Variable key : D -> Z.

Definition has_key (k : Z) (d : Doc D) : bool := (key (fields d) =? k)%Z.

(** [Model.findOne(filter)]: the first matching document, or null. *)
Definition findOne (p : Doc D -> bool) (c : list (Doc D)) : option (Doc D) :=
  find p c.

(** [Model.find(filter)]: all matching documents. *)
Definition findAll (p : Doc D -> bool) (c : list (Doc D)) : list (Doc D) :=
  filter p c.

(** The update half of [findOneAndUpdate]: the first match gets the new
    fields and keeps its ObjectId. *)
Fixpoint updateFirst (p : Doc D -> bool) (d : D) (c : list (Doc D))
  : list (Doc D) :=
  match c with
  | [] => []
  | x :: c' =>
      if p x then {| _id := _id x; fields := d |} :: c'
      else x :: updateFirst p d c'
  end.

(** [findOneAndUpdate({wooCommerceId: k}, d, {upsert: true})]: update the
    first match, or insert a new document under a fresh ObjectId. *)
Definition upsert (k : Z) (d : D) (fresh : nat) (c : list (Doc D))
  : list (Doc D) :=
  if existsb (has_key k) c then updateFirst (has_key k) d c
  else c ++ [{| _id := fresh; fields := d |}].

(** [findOneAndDelete(filter)] / [findByIdAndDelete(id)]: remove the first
    match; nothing happens when there is none. *)
Fixpoint deleteFirst (p : Doc D -> bool) (c : list (Doc D)) : list (Doc D) :=
  match c with
  | [] => []
  | x :: c' => if p x then c' else x :: deleteFirst p c'
  end.

Definition keys (c : list (Doc D)) : list Z := map (fun x => key (fields x)) c.
End Collection.

(* ===================================================================== *)
(** * Calls, errors, log, world and environment *)
(* ===================================================================== *)

(** Calls that leave the process: HTTP requests and database operations. *)
Inductive Call :=
| FetchOrders (page perPage : nat) (after : string)
| FetchProduct (productId : Z)
| TestConnection
| OrderFindOneAndUpdate (wooCommerceId : Z)
| ProductFindOne (wooCommerceId : Z)
| ProductFindOneAndUpdate (wooCommerceId : Z)
| OrderFind (last_modified_lt : Date)
| OrderFindByIdAndDelete (id : nat)
| OrderFindOneByProduct (product_id : Z)
| ProductFindOneAndDelete (wooCommerceId : Z)
| OrderCount
| ProductCount
| OrderFindLatest.

(** A call and whether it came back ([true]) or threw ([false]); for the
    connectivity test, what it answered. *)
Definition Event := (Call * bool)%type.

(** A thrown JavaScript [Error] is identified by the call that failed. *)
Inductive Error := Failed (c : Call).

Inductive Level := INFO | DEBUG | ERROR.

(** The two winston loggers: SyncService.ts and SyncScheduler.ts. *)
Inductive Logger := SyncServiceLog | SchedulerLog.

Inductive Message :=
| StartingOrderSync
| FetchingOrdersPage (page : nat)
| NoMoreOrders
| SyncedOrder (id : Z)
| ErrorSyncingOrder (id : Z) (e : Error)
| OrderSyncCompleted (synced errors : nat)
| FatalErrorDuringOrderSync (e : Error)
| SyncedProductFromOrder (productId orderId : Z)
| ErrorSyncingProductFromOrder (productId orderId : Z) (e : Error)
| StartingCleanup
| FoundOrdersToDelete (n : nat)
| DeletedOrder (wooCommerceId : Z)
| ErrorDeletingOrder (wooCommerceId : Z) (e : Error)
| CleanupCompleted (deletedOrders deletedProducts : nat)
| ErrorDuringCleanup (e : Error)
| DeletedUnusedProduct (productId : Z)
| ErrorCheckingProduct (productId : Z) (e : Error)
| ConnectionTest (isConnected : bool)
| ConnectionTestFailed (e : Error)
| ErrorGettingSyncStats (e : Error)
| StartingDailySync
| ConnectionFailedSkippingSync
| DailySyncCompleted (synced errors : nat)
| SyncStatistics (totalOrders totalProducts : nat)
| DailySyncFailed (e : Error)
| StartingCleanupProcess
| CleanupCompletedSuccessfully (deletedOrders deletedProducts : nat)
| CleanupFailed (e : Error)
| ManualSyncTriggered
| ManualCleanupTriggered.

Record World := {
  db_orders : list (Doc Order.t);
  db_products : list (Doc Product.t);
  next_id : nat;
  trace : list Event;               (* newest first *)
  logs : list (Logger * Level * Message)   (* newest first *)
}.

(** The time a call is made at: the number of calls made before it. *)
Definition clock (w : World) : nat := List.length (trace w).

Record Env := {
  (** response of GET /orders at a given time; [None] is a failed request *)
  remote_orders : nat -> nat -> nat -> string -> option (list WooCommerceOrder.t);
  (** response of GET /products/:id *)
  remote_product : nat -> Z -> option WooCommerceProduct.t;
  (** whether GET /products?per_page=1 answers with status 200 *)
  remote_alive : nat -> bool;
  (** whether the database operation made at a given time throws *)
  db_fault : nat -> Call -> bool;
  (** [new Date(s)] *)
  parseDate : string -> Date;
  (** the ISO string of the date 240 days before the pass starts *)
  afterDate : string;
  (** the date three months before the retention pass starts *)
  threeMonthsAgo : Date
}.

(* ===================================================================== *)
(** * The computation monad: state, exceptions and fuel *)
(* ===================================================================== *)

Inductive Outcome (A : Type) :=
| Ret (a : A)
| Throw (e : Error)
| OutOfFuel.
Arguments Throw {A} e.
Arguments OutOfFuel {A}.

Definition M (A : Type) := World -> Outcome A * World.

Definition ret {A} (a : A) : M A := fun w => (Ret a, w).

Definition bind {A B} (m : M A) (k : A -> M B) : M B :=
  fun w =>
    match m w with
    | (Ret a, w') => k a w'
    | (Throw e, w') => (Throw e, w')
    | (OutOfFuel, w') => (OutOfFuel, w')
    end.

Definition throw {A} (e : Error) : M A := fun w => (Throw e, w).

(** [try { m } catch (e) { h e }]; running out of fuel is not an exception. *)
Definition try_catch {A} (m : M A) (h : Error -> M A) : M A :=
  fun w =>
    match m w with
    | (Throw e, w') => h e w'
    | r => r
    end.

Declare Scope m_scope.
Delimit Scope m_scope with m.
Notation "x <- c1 ;; c2" := (bind c1 (fun x => c2))
  (at level 61, c1 at next level, right associativity) : m_scope.
Notation "' pat <- c1 ;; c2" := (bind c1 (fun x => match x with pat => c2 end))
  (at level 61, pat pattern, c1 at next level, right associativity) : m_scope.
Notation "c1 ;; c2" := (bind c1 (fun _ => c2))
  (at level 61, right associativity) : m_scope.
Open Scope m_scope.

(** [for (const x of l) { s = body s x }], with the loop's local variables
    as the accumulator. *)
Fixpoint for_of {A S} (body : S -> A -> M S) (l : list A) (s : S) : M S :=
  match l with
  | [] => ret s
  | x :: l' => s' <- body s x ;; for_of body l' s'
  end.

Definition add_log (entry : Logger * Level * Message) (w : World) : World :=
  {| db_orders := db_orders w; db_products := db_products w;
     next_id := next_id w; trace := trace w; logs := entry :: logs w |}.

Definition log (lg : Logger) (lvl : Level) (msg : Message) : M unit :=
  fun w => (Ret tt, add_log (lg, lvl, msg) w).

Definition record_call (c : Call) (ok : bool) (w : World) : World :=
  {| db_orders := db_orders w; db_products := db_products w;
     next_id := next_id w; trace := (c, ok) :: trace w; logs := logs w |}.

Definition set_orders (c : list (Doc Order.t)) (w : World) : World :=
  {| db_orders := c; db_products := db_products w;
     next_id := next_id w; trace := trace w; logs := logs w |}.

Definition set_products (c : list (Doc Product.t)) (w : World) : World :=
  {| db_orders := db_orders w; db_products := c;
     next_id := next_id w; trace := trace w; logs := logs w |}.

Definition bump_id (w : World) : World :=
  {| db_orders := db_orders w; db_products := db_products w;
     next_id := S (next_id w); trace := trace w; logs := logs w |}.

(** ** What the writes do to the world *)

(** An upsert keyed on [wooCommerceId]; the ObjectId generator advances when
    a document is inserted. *)
Definition upsert_order (id : Z) (d : Order.t) (w : World) : World :=
  let c := upsert Order.wooCommerceId id d (next_id w) (db_orders w) in
  if existsb (has_key Order.wooCommerceId id) (db_orders w)
  then set_orders c w
  else bump_id (set_orders c w).

Definition upsert_product (id : Z) (d : Product.t) (w : World) : World :=
  let c := upsert Product.wooCommerceId id d (next_id w) (db_products w) in
  if existsb (has_key Product.wooCommerceId id) (db_products w)
  then set_products c w
  else bump_id (set_products c w).

Definition delete_order (id : nat) (w : World) : World :=
  set_orders (deleteFirst (fun o => _id o =? id) (db_orders w)) w.

Definition delete_product (id : Z) (w : World) : World :=
  set_products (deleteFirst (has_key Product.wooCommerceId id) (db_products w)) w.

(** A JavaScript [Set] of numbers: no duplicates, iterated in insertion
    order. *)
Module JsSet.
Definition has (x : Z) (s : list Z) : bool := existsb (Z.eqb x) s.
Definition add (x : Z) (s : list Z) : list Z :=
  if has x s then s else s ++ [x].
(** [new Set(array)] *)
Definition of_array (l : list Z) : list Z :=
  fold_left (fun s x => add x s) l [].
End JsSet.

(** [s || ''] on strings. *)
Definition or_empty (s : string) : string :=
  match s with EmptyString => EmptyString | _ => s end.

Definition perPage : nat := 100.

Definition references (productId : Z) (o : Doc Order.t) : bool :=
  existsb (fun item => (LineItem.product_id item =? productId)%Z)
          (Order.line_items (fields o)).

(* ===================================================================== *)
(** * WooCommerceService.ts and the Mongoose models, as primitives *)
(* ===================================================================== *)

Section Service.
Variable env : Env.

(** ** Remote client *)

Definition fetchOrders (page perPage : nat) (after : string)
  : M (list WooCommerceOrder.t) :=
  fun w =>
    let c := FetchOrders page perPage after in
    match remote_orders env (clock w) page perPage after with
    | Some data => (Ret data, record_call c true w)
    | None => (Throw (Failed c), record_call c false w)
    end.

Definition fetchProduct (productId : Z) : M WooCommerceProduct.t :=
  fun w =>
    let c := FetchProduct productId in
    match remote_product env (clock w) productId with
    | Some data => (Ret data, record_call c true w)
    | None => (Throw (Failed c), record_call c false w)
    end.

(** [WooCommerceService.testConnection]: a failed request is caught and
    answered with [false]. *)
Definition WooCommerceService_testConnection : M bool :=
  fun w =>
    let ok := remote_alive env (clock w) in
    (Ret ok, record_call TestConnection ok w).

(** ** Database operations *)

Definition db_call {A} (c : Call) (run : World -> A * World) : M A :=
  fun w =>
    if db_fault env (clock w) c then (Throw (Failed c), record_call c false w)
    else let (a, w') := run w in (Ret a, record_call c true w').

(** [Order.findOneAndUpdate({wooCommerceId}, orderData, {upsert: true})] *)
Definition Order_findOneAndUpdate (wooCommerceId : Z) (orderData : Order.t)
  : M unit :=
  db_call (OrderFindOneAndUpdate wooCommerceId)
          (fun w => (tt, upsert_order wooCommerceId orderData w)).

(** [Product.findOneAndUpdate({wooCommerceId}, productData, {upsert: true})] *)
Definition Product_findOneAndUpdate (wooCommerceId : Z) (productData : Product.t)
  : M unit :=
  db_call (ProductFindOneAndUpdate wooCommerceId)
          (fun w => (tt, upsert_product wooCommerceId productData w)).

(** [Product.findOne({wooCommerceId})] *)
Definition Product_findOne (wooCommerceId : Z) : M (option (Doc Product.t)) :=
  db_call (ProductFindOne wooCommerceId) (fun w =>
    (findOne (has_key Product.wooCommerceId wooCommerceId) (db_products w), w)).

(** [Order.find({last_modified: {$lt: date}})] *)
Definition Order_find (date : Date) : M (list (Doc Order.t)) :=
  db_call (OrderFind date) (fun w =>
    (findAll (fun o => (Order.last_modified (fields o) <? date)%Z) (db_orders w), w)).

(** [Order.findByIdAndDelete(id)] *)
Definition Order_findByIdAndDelete (id : nat) : M unit :=
  db_call (OrderFindByIdAndDelete id) (fun w => (tt, delete_order id w)).

(** [Order.findOne({'line_items.product_id': productId})] *)
Definition Order_findOne_by_product (productId : Z) : M (option (Doc Order.t)) :=
  db_call (OrderFindOneByProduct productId) (fun w =>
    (findOne (references productId) (db_orders w), w)).

(** [Product.findOneAndDelete({wooCommerceId})] *)
Definition Product_findOneAndDelete (wooCommerceId : Z) : M unit :=
  db_call (ProductFindOneAndDelete wooCommerceId)
          (fun w => (tt, delete_product wooCommerceId w)).

Definition Order_countDocuments : M nat :=
  db_call OrderCount (fun w => (List.length (db_orders w), w)).

Definition Product_countDocuments : M nat :=
  db_call ProductCount (fun w => (List.length (db_products w), w)).

(** [Order.findOne().sort({updatedAt: -1})]; only whether it throws is
    modelled, since the write stamps Mongoose keeps are not. *)
Definition Order_findLatest : M unit :=
  db_call OrderFindLatest (fun w => (tt, w)).

(* =================================================================== *)
(** * SyncService.ts *)
(* =================================================================== *)

Definition orderData_of (wooOrder : WooCommerceOrder.t) : Order.t :=
  {| Order.wooCommerceId := WooCommerceOrder.id wooOrder;
     Order.number := WooCommerceOrder.number wooOrder;
     Order.order_key := WooCommerceOrder.order_key wooOrder;
     Order.status := WooCommerceOrder.status wooOrder;
     Order.date_created := parseDate env (WooCommerceOrder.date_created wooOrder);
     Order.total := WooCommerceOrder.total wooOrder;
     Order.customer_id := WooCommerceOrder.customer_id wooOrder;
     Order.customer_note := or_empty (WooCommerceOrder.customer_note wooOrder);
     Order.billing := WooCommerceOrder.billing wooOrder;
     Order.shipping := WooCommerceOrder.shipping wooOrder;
     Order.line_items := WooCommerceOrder.line_items wooOrder;
     Order.last_modified := parseDate env (WooCommerceOrder.date_modified wooOrder) |}.

Definition productData_of (wooProduct : WooCommerceProduct.t) : Product.t :=
  {| Product.wooCommerceId := WooCommerceProduct.id wooProduct;
     Product.name := WooCommerceProduct.name wooProduct;
     Product.slug := WooCommerceProduct.slug wooProduct;
     Product.type := WooCommerceProduct.type wooProduct;
     Product.status := WooCommerceProduct.status wooProduct;
     Product.featured := WooCommerceProduct.featured wooProduct;
     Product.catalog_visibility := WooCommerceProduct.catalog_visibility wooProduct;
     Product.description := WooCommerceProduct.description wooProduct;
     Product.short_description := WooCommerceProduct.short_description wooProduct;
     Product.sku := WooCommerceProduct.sku wooProduct;
     Product.price := WooCommerceProduct.price wooProduct;
     Product.regular_price := WooCommerceProduct.regular_price wooProduct;
     Product.sale_price := WooCommerceProduct.sale_price wooProduct;
     Product.on_sale := WooCommerceProduct.on_sale wooProduct;
     Product.purchasable := WooCommerceProduct.purchasable wooProduct;
     Product.total_sales := WooCommerceProduct.total_sales wooProduct;
     Product.virtual := WooCommerceProduct.virtual wooProduct;
     Product.downloadable := WooCommerceProduct.downloadable wooProduct;
     Product.tax_status := WooCommerceProduct.tax_status wooProduct;
     Product.tax_class := WooCommerceProduct.tax_class wooProduct;
     Product.manage_stock := WooCommerceProduct.manage_stock wooProduct;
     Product.stock_quantity := WooCommerceProduct.stock_quantity wooProduct;
     Product.stock_status := WooCommerceProduct.stock_status wooProduct;
     Product.backorders := WooCommerceProduct.backorders wooProduct;
     Product.backorders_allowed := WooCommerceProduct.backorders_allowed wooProduct;
     Product.backordered := WooCommerceProduct.backordered wooProduct;
     Product.sold_individually := WooCommerceProduct.sold_individually wooProduct;
     Product.weight := WooCommerceProduct.weight wooProduct;
     Product.dimensions := WooCommerceProduct.dimensions wooProduct;
     Product.shipping_required := WooCommerceProduct.shipping_required wooProduct;
     Product.shipping_taxable := WooCommerceProduct.shipping_taxable wooProduct;
     Product.shipping_class := WooCommerceProduct.shipping_class wooProduct;
     Product.shipping_class_id := WooCommerceProduct.shipping_class_id wooProduct;
     Product.reviews_allowed := WooCommerceProduct.reviews_allowed wooProduct;
     Product.average_rating := WooCommerceProduct.average_rating wooProduct;
     Product.rating_count := WooCommerceProduct.rating_count wooProduct;
     Product.images := WooCommerceProduct.images wooProduct;
     Product.categories := WooCommerceProduct.categories wooProduct;
     Product.tags := WooCommerceProduct.tags wooProduct;
     Product.date_created := parseDate env (WooCommerceProduct.date_created wooProduct);
     Product.date_modified := parseDate env (WooCommerceProduct.date_modified wooProduct) |}.

(** [syncProduct] *)
Definition syncProduct (wooProduct : WooCommerceProduct.t) : M unit :=
  let productData := productData_of wooProduct in
  Product_findOneAndUpdate (WooCommerceProduct.id wooProduct) productData.

(** The body of the loop of [syncProductsFromOrder], for one identifier. *)
Definition backfillProduct (orderId productId : Z) : M unit :=
  try_catch
    (existingProduct <- Product_findOne productId ;;
     match existingProduct with
     | Some _ => ret tt
     | None =>
         wooProduct <- fetchProduct productId ;;
         syncProduct wooProduct ;;
         log SyncServiceLog DEBUG (SyncedProductFromOrder productId orderId)
     end)
    (fun e =>
       log SyncServiceLog ERROR (ErrorSyncingProductFromOrder productId orderId e)).

(** [syncProductsFromOrder] *)
Definition syncProductsFromOrder (wooOrder : WooCommerceOrder.t) : M unit :=
  let productIds :=
    JsSet.of_array (map LineItem.product_id (WooCommerceOrder.line_items wooOrder)) in
  for_of (fun _ productId => backfillProduct (WooCommerceOrder.id wooOrder) productId)
         productIds tt.

(** [syncOrder] *)
Definition syncOrder (wooOrder : WooCommerceOrder.t) : M unit :=
  let orderData := orderData_of wooOrder in
  Order_findOneAndUpdate (WooCommerceOrder.id wooOrder) orderData ;;
  syncProductsFromOrder wooOrder.

(** One round of the [for] loop of [syncOrders]; the accumulator holds the
    local variables [synced] and [errors]. *)
Definition syncOrders_record (counts : nat * nat) (wooOrder : WooCommerceOrder.t)
  : M (nat * nat) :=
  let (synced, errors) := counts in
  try_catch
    (syncOrder wooOrder ;;
     log SyncServiceLog DEBUG (SyncedOrder (WooCommerceOrder.id wooOrder)) ;;
     ret (S synced, errors))
    (fun e =>
       log SyncServiceLog ERROR (ErrorSyncingOrder (WooCommerceOrder.id wooOrder) e) ;;
       ret (synced, S errors)).

(** The [for] loop of [syncOrders] over one fetched page. *)
Definition syncOrders_page (orders : list WooCommerceOrder.t)
  : nat * nat -> M (nat * nat) :=
  for_of syncOrders_record orders.

(** The [while (true)] loop of [syncOrders]; one unit of fuel per round. *)
Fixpoint syncOrders_loop (fuel : nat) (page synced errors : nat)
  : M (nat * nat) :=
  match fuel with
  | O => fun w => (OutOfFuel, w)
  | S fuel' =>
      log SyncServiceLog INFO (FetchingOrdersPage page) ;;
      orders <- fetchOrders page perPage (afterDate env) ;;
      if List.length orders =? 0 then
        log SyncServiceLog INFO NoMoreOrders ;;
        ret (synced, errors)
      else
        ' (synced', errors') <- syncOrders_page orders (synced, errors) ;;
        if List.length orders <? perPage then ret (synced', errors')
        else syncOrders_loop fuel' (S page) synced' errors'
  end.

(** [syncOrders]; the result is [(synced, errors)]. *)
Definition syncOrders (fuel : nat) : M (nat * nat) :=
  log SyncServiceLog INFO StartingOrderSync ;;
  try_catch
    (' (synced, errors) <- syncOrders_loop fuel 1 0 0 ;;
     log SyncServiceLog INFO (OrderSyncCompleted synced errors) ;;
     ret (synced, errors))
    (fun e =>
       log SyncServiceLog ERROR (FatalErrorDuringOrderSync e) ;;
       throw e).

(** One round of the loop of [cleanupUnusedProducts]. *)
Definition cleanupUnusedProducts_id (deletedProducts : nat) (productId : Z)
  : M nat :=
  try_catch
    (orderWithProduct <- Order_findOne_by_product productId ;;
     match orderWithProduct with
     | None =>
         Product_findOneAndDelete productId ;;
         log SyncServiceLog DEBUG (DeletedUnusedProduct productId) ;;
         ret (S deletedProducts)
     | Some _ => ret deletedProducts
     end)
    (fun e =>
       log SyncServiceLog ERROR (ErrorCheckingProduct productId e) ;;
       ret deletedProducts).

(** [cleanupUnusedProducts] *)
Definition cleanupUnusedProducts (productIds : list Z) : M nat :=
  for_of cleanupUnusedProducts_id productIds 0.

(** One round of the first loop of [cleanupOldOrders].  The accumulator
    holds [deletedOrders] and the set [productIdsToCheck]; the set is a
    mutable object, so what [forEach] added stays when the deletion
    throws. *)
Definition cleanupOldOrders_record (acc : nat * list Z) (order : Doc Order.t)
  : M (nat * list Z) :=
  let (deletedOrders, productIdsToCheck) := acc in
  let productIdsToCheck' :=
    fold_left (fun s item => JsSet.add (LineItem.product_id item) s)
              (Order.line_items (fields order)) productIdsToCheck in
  try_catch
    (Order_findByIdAndDelete (_id order) ;;
     log SyncServiceLog DEBUG (DeletedOrder (Order.wooCommerceId (fields order))) ;;
     ret (S deletedOrders, productIdsToCheck'))
    (fun e =>
       log SyncServiceLog ERROR
           (ErrorDeletingOrder (Order.wooCommerceId (fields order)) e) ;;
       ret (deletedOrders, productIdsToCheck')).

(** The first loop of [cleanupOldOrders]. *)
Definition cleanupOldOrders_delete (ordersToDelete : list (Doc Order.t))
  : M (nat * list Z) :=
  for_of cleanupOldOrders_record ordersToDelete (0, []).

(** [cleanupOldOrders]; the result is [(deletedOrders, deletedProducts)]. *)
Definition cleanupOldOrders : M (nat * nat) :=
  log SyncServiceLog INFO StartingCleanup ;;
  try_catch
    (ordersToDelete <- Order_find (threeMonthsAgo env) ;;
     log SyncServiceLog INFO (FoundOrdersToDelete (List.length ordersToDelete)) ;;
     ' (deletedOrders, productIdsToCheck) <- cleanupOldOrders_delete ordersToDelete ;;
     deletedProducts <- cleanupUnusedProducts productIdsToCheck ;;
     log SyncServiceLog INFO (CleanupCompleted deletedOrders deletedProducts) ;;
     ret (deletedOrders, deletedProducts))
    (fun e =>
       log SyncServiceLog ERROR (ErrorDuringCleanup e) ;;
       throw e).

(** [SyncService.testConnection] *)
Definition testConnection : M bool :=
  try_catch
    (isConnected <- WooCommerceService_testConnection ;;
     log SyncServiceLog INFO (ConnectionTest isConnected) ;;
     ret isConnected)
    (fun e =>
       log SyncServiceLog ERROR (ConnectionTestFailed e) ;;
       ret false).

(** [getSyncStats]: the three queries of [Promise.all] are all issued; the
    result is [(totalOrders, totalProducts)]. *)
Definition getSyncStats : M (nat * nat) :=
  try_catch
    (fun w =>
       match Order_countDocuments w with
       | (r1, w1) =>
         match Product_countDocuments w1 with
         | (r2, w2) =>
           match Order_findLatest w2 with
           | (r3, w3) =>
             match r1, r2, r3 with
             | Ret totalOrders, Ret totalProducts, Ret _ =>
                 (Ret (totalOrders, totalProducts), w3)
             | Throw e, _, _ => (Throw e, w3)
             | _, Throw e, _ => (Throw e, w3)
             | _, _, Throw e => (Throw e, w3)
             | _, _, _ => (OutOfFuel, w3)
             end
           end
         end
       end)
    (fun e =>
       log SyncServiceLog ERROR (ErrorGettingSyncStats e) ;;
       throw e).

(* =================================================================== *)
(** * SyncScheduler.ts *)
(* =================================================================== *)

(** [runDailySync] *)
Definition runDailySync (fuel : nat) : M unit :=
  log SchedulerLog INFO StartingDailySync ;;
  try_catch
    (isConnected <- testConnection ;;
     if negb isConnected then
       log SchedulerLog ERROR ConnectionFailedSkippingSync ;;
       ret tt
     else
       ' (synced, errors) <- syncOrders fuel ;;
       log SchedulerLog INFO (DailySyncCompleted synced errors) ;;
       ' (totalOrders, totalProducts) <- getSyncStats ;;
       log SchedulerLog INFO (SyncStatistics totalOrders totalProducts))
    (fun e => log SchedulerLog ERROR (DailySyncFailed e)).

(** [runCleanup] *)
Definition runCleanup : M unit :=
  log SchedulerLog INFO StartingCleanupProcess ;;
  try_catch
    (' (deletedOrders, deletedProducts) <- cleanupOldOrders ;;
     log SchedulerLog INFO (CleanupCompletedSuccessfully deletedOrders deletedProducts))
    (fun e => log SchedulerLog ERROR (CleanupFailed e)).

(** [triggerManualSync] *)
Definition triggerManualSync (fuel : nat) : M (nat * nat) :=
  log SchedulerLog INFO ManualSyncTriggered ;;
  syncOrders fuel.

(** [triggerManualCleanup] *)
Definition triggerManualCleanup : M (nat * nat) :=
  log SchedulerLog INFO ManualCleanupTriggered ;;
  cleanupOldOrders.

End Service.

(* ===================================================================== *)
(** * Views of the trace *)
(* ===================================================================== *)

(** The page numbers requested from GET /orders, oldest first. *)
Definition pages_requested (tr : list Event) : list nat :=
  flat_map (fun ev => match fst ev with
                      | FetchOrders page _ _ => [page]
                      | _ => []
                      end) (rev tr).

(** The order upserts attempted, oldest first, each with whether it came
    back. *)
Definition order_upserts (tr : list Event) : list (Z * bool) :=
  flat_map (fun ev => match fst ev with
                      | OrderFindOneAndUpdate id => [(id, snd ev)]
                      | _ => []
                      end) (rev tr).

(** How many of them came back ([true]) or threw ([false]). *)
Definition count_outcome (ok : bool) (l : list (Z * bool)) : nat :=
  List.length (filter (fun x => Bool.eqb (snd x) ok) l).

(** A sequence of sync passes, each against its own environment and with its
    own fuel. *)
Definition run_passes (passes : list (Env * nat)) (w : World) : World :=
  fold_left (fun w p => snd (syncOrders (fst p) (snd p) w)) passes w.

(** What a store holds for an identifier. *)
Definition stored {D : Type} (key : D -> Z) (k : Z) (c : list (Doc D)) : list (Doc D) :=
  filter (has_key key k) c.

(* ===================================================================== *)
(** * Sample data for the scenarios *)
(* ===================================================================== *)

Module Sample.
Open Scope string_scope.

Definition billing : Billing.t :=
  {| Billing.first_name := "Asha"; Billing.last_name := "Rai";
     Billing.address_1 := "1 Main Road"; Billing.address_2 := "";
     Billing.city := "Pokhara"; Billing.state := "Gandaki";
     Billing.postcode := "33700"; Billing.country := "NP";
     Billing.email := "asha@example.org"; Billing.phone := "" |}.

Definition shipping : Shipping.t :=
  {| Shipping.first_name := "Asha"; Shipping.last_name := "Rai";
     Shipping.address_1 := "1 Main Road"; Shipping.address_2 := "";
     Shipping.city := "Pokhara"; Shipping.state := "Gandaki";
     Shipping.postcode := "33700"; Shipping.country := "NP" |}.

Definition item (productId : Z) : LineItem.t :=
  {| LineItem.product_id := productId; LineItem.name := "item";
     LineItem.quantity := 1; LineItem.total := "10.00";
     LineItem.price := "10.00"; LineItem.sku := "" |}.

(** A remote order with the given identifier, modification date and
    referenced products. *)
Definition order (id : Z) (modified : string) (productIds : list Z)
  : WooCommerceOrder.t :=
  {| WooCommerceOrder.id := id; WooCommerceOrder.number := "n";
     WooCommerceOrder.order_key := "wc_order"; WooCommerceOrder.status := "completed";
     WooCommerceOrder.date_created := "old"; WooCommerceOrder.date_modified := modified;
     WooCommerceOrder.total := "10.00"; WooCommerceOrder.customer_id := 1;
     WooCommerceOrder.customer_note := "";
     WooCommerceOrder.billing := billing; WooCommerceOrder.shipping := shipping;
     WooCommerceOrder.line_items := map item productIds |}.

Definition product (id : Z) (name : string) : WooCommerceProduct.t :=
  {| WooCommerceProduct.id := id; WooCommerceProduct.name := name;
     WooCommerceProduct.slug := name; WooCommerceProduct.type := "simple";
     WooCommerceProduct.status := "publish"; WooCommerceProduct.featured := false;
     WooCommerceProduct.catalog_visibility := "visible";
     WooCommerceProduct.description := ""; WooCommerceProduct.short_description := "";
     WooCommerceProduct.sku := ""; WooCommerceProduct.price := "10.00";
     WooCommerceProduct.regular_price := "10.00"; WooCommerceProduct.sale_price := "";
     WooCommerceProduct.on_sale := false; WooCommerceProduct.purchasable := true;
     WooCommerceProduct.total_sales := 0; WooCommerceProduct.virtual := false;
     WooCommerceProduct.downloadable := false;
     WooCommerceProduct.tax_status := "taxable"; WooCommerceProduct.tax_class := "";
     WooCommerceProduct.manage_stock := false; WooCommerceProduct.stock_quantity := 0;
     WooCommerceProduct.stock_status := "instock"; WooCommerceProduct.backorders := "no";
     WooCommerceProduct.backorders_allowed := false;
     WooCommerceProduct.backordered := false;
     WooCommerceProduct.sold_individually := false; WooCommerceProduct.weight := "";
     WooCommerceProduct.dimensions :=
       {| Dimensions.length := ""; Dimensions.width := ""; Dimensions.height := "" |};
     WooCommerceProduct.shipping_required := true;
     WooCommerceProduct.shipping_taxable := true;
     WooCommerceProduct.shipping_class := ""; WooCommerceProduct.shipping_class_id := 0;
     WooCommerceProduct.reviews_allowed := true;
     WooCommerceProduct.average_rating := "0"; WooCommerceProduct.rating_count := 0;
     WooCommerceProduct.images := []; WooCommerceProduct.categories := [];
     WooCommerceProduct.tags := [];
     WooCommerceProduct.date_created := "old"; WooCommerceProduct.date_modified := "old" |}.

(** [n] orders with identifiers [first], [first + 1], ..., each for
    product 7. *)
Definition orders_from (first : Z) (n : nat) : list WooCommerceOrder.t :=
  map (fun i => order (first + Z.of_nat i) "recent" [7%Z]) (seq 0 n).

(** Dates: "old" is day 0, anything else day 200; the retention threshold
    is day 110. *)
Definition parse (s : string) : Date :=
  if String.eqb s "old" then 0%Z else 200%Z.

(** A shop that serves [pages] at all times, knows every product, and a
    database that never fails. *)
Definition shop (pages : nat -> option (list WooCommerceOrder.t)) : Env :=
  {| remote_orders := fun _ page _ _ => pages page;
     remote_product := fun _ id => Some (product id "p");
     remote_alive := fun _ => true;
     db_fault := fun _ _ => false;
     parseDate := parse;
     afterDate := "2026-03-07T00:00:00.000Z";
     threeMonthsAgo := 110%Z |}.

Definition empty_world : World :=
  {| db_orders := []; db_products := []; next_id := 0; trace := []; logs := [] |}.

(** 150 orders served as a page of 100 and a page of 50. *)
Definition pages150 (page : nat) : option (list WooCommerceOrder.t) :=
  match page with
  | 1 => Some (orders_from 1 100)
  | 2 => Some (orders_from 101 50)
  | _ => Some []
  end.

(** An order last modified long ago for products 7 and 8, and two recent
    ones for products 8 and 9. *)
Definition pages_retention (page : nat) : option (list WooCommerceOrder.t) :=
  match page with
  | 1 => Some [order 1 "old" [7%Z; 8%Z]; order 2 "recent" [8%Z];
               order 3 "recent" [9%Z]]
  | _ => Some []
  end.

(** The world after syncing them into an empty store. *)
Definition world_retention : World :=
  snd (syncOrders (shop pages_retention) 2 empty_world).

(** The same stream as a total function of the page number. *)
Definition stream150 (page : nat) : list WooCommerceOrder.t :=
  match page with
  | 1 => orders_from 1 100
  | 2 => orders_from 101 50
  | _ => []
  end.

(** The shop of the 150 orders, unreachable. *)
Definition offline : Env :=
  {| remote_orders := fun _ page _ _ => pages150 page;
     remote_product := fun _ id => Some (product id "p");
     remote_alive := fun _ => false;
     db_fault := fun _ _ => false;
     parseDate := parse;
     afterDate := "2026-03-07T00:00:00.000Z";
     threeMonthsAgo := 110%Z |}.

(** A shop that serves [pages] and whose product requests all fail. *)
Definition shop_without_products (pages : nat -> option (list WooCommerceOrder.t))
  : Env :=
  {| remote_orders := fun _ page _ _ => pages page;
     remote_product := fun _ _ => None;
     remote_alive := fun _ => true;
     db_fault := fun _ _ => false;
     parseDate := parse;
     afterDate := "2026-03-07T00:00:00.000Z";
     threeMonthsAgo := 110%Z |}.

(** One recent order, for product 9. *)
Definition pages_one (page : nat) : option (list WooCommerceOrder.t) :=
  match page with
  | 1 => Some [order 1 "recent" [9%Z]]
  | _ => Some []
  end.

(** A database that fails to write order 2, and a page of three orders. *)
Definition flaky : Env :=
  {| remote_orders := fun _ page _ _ =>
       match page with
       | 1 => Some [order 1 "recent" [7%Z]; order 2 "recent" [8%Z];
                    order 3 "recent" [9%Z]]
       | _ => Some []
       end;
     remote_product := fun _ id => Some (product id "p");
     remote_alive := fun _ => true;
     db_fault := fun _ c => match c with
                            | OrderFindOneAndUpdate 2 => true
                            | _ => false
                            end;
     parseDate := parse;
     afterDate := "2026-03-07T00:00:00.000Z";
     threeMonthsAgo := 110%Z |}.

(** A full page, then a request that fails. *)
Definition pages_broken (page : nat) : option (list WooCommerceOrder.t) :=
  match page with
  | 1 => Some (orders_from 1 100)
  | _ => None
  end.

(** A shop whose every page is full. *)
Definition endless : Env := shop (fun _ => Some (orders_from 1 100)).
End Sample.

(* ===================================================================== *)
(** * Reasoning about computations *)
(* ===================================================================== *)

(** A triple: from a world satisfying [P], the computation ends in an outcome
    and a world related by [Q]. *)
Definition hoare {A} (P : World -> Prop) (m : M A)
           (Q : Outcome A -> World -> Prop) : Prop :=
  forall w, P w -> Q (fst (m w)) (snd (m w)).

(** An invariant of the world, whatever the outcome. *)
Definition preserves {A} (I : World -> Prop) (m : M A) : Prop :=
  hoare I m (fun _ => I).



(* ===================================================================== *)
(** * The atomic steps of the two passes *)
(* ===================================================================== *)

(** Worlds reached by finitely many steps. *)
Inductive reach (step : World -> World -> Prop) (w : World) : World -> Prop :=
| reach_refl : reach step w w
| reach_next w1 w2 : reach step w w1 -> step w1 w2 -> reach step w w2.

(** The calls made while the products of a fetched record are backfilled. *)
Definition backfill_call (c : Call) : bool :=
  match c with
  | FetchProduct _ | ProductFindOne _ | ProductFindOneAndUpdate _ => true
  | _ => false
  end.

Definition backfill_read (c : Call) : bool :=
  match c with
  | FetchProduct _ | ProductFindOne _ => true
  | _ => false
  end.

(** The calls made while one fetched record is processed. *)
Definition record_level_call (c : Call) : bool :=
  match c with
  | OrderFindOneAndUpdate _ => true
  | _ => backfill_call c
  end.

(** What backfilling can do to the world in one step: write a log entry,
    make a call that fails, read, or upsert a product under its own
    [wooCommerceId]. *)
Inductive backfill_step : World -> World -> Prop :=
| backfill_logged e w : backfill_step w (add_log e w)
| backfill_failed c w :
    backfill_call c = true -> backfill_step w (record_call c false w)
| backfill_read_ok c w :
    backfill_read c = true -> backfill_step w (record_call c true w)
| backfill_product_written d w :
    backfill_step w (record_call (ProductFindOneAndUpdate (Product.wooCommerceId d)) true
                                 (upsert_product (Product.wooCommerceId d) d w)).

(** The steps of processing a fetched record: those of the backfill, and the
    upsert of the order under its own [wooCommerceId]. *)
Inductive record_step : World -> World -> Prop :=
| record_backfill w w' : backfill_step w w' -> record_step w w'
| record_order_failed id w :
    record_step w (record_call (OrderFindOneAndUpdate id) false w)
| record_order_written d w :
    record_step w (record_call (OrderFindOneAndUpdate (Order.wooCommerceId d)) true
                               (upsert_order (Order.wooCommerceId d) d w)).

(** The steps of a sync pass: those of its records, and the page requests. *)
Inductive sync_step : World -> World -> Prop :=
| sync_record w w' : record_step w w' -> sync_step w w'
| sync_page page pp after ok w :
    sync_step w (record_call (FetchOrders page pp after) ok w).

Definition sync_call (c : Call) : bool :=
  match c with
  | FetchOrders _ _ _ => true
  | _ => record_level_call c
  end.

(** No identifier is stored twice, and every identifier whose upsert came
    back since the trace was [base] is stored. *)
Record one_per_id (base : list Event) (w : World) : Prop := {
  orders_nodup : NoDup (keys Order.wooCommerceId (db_orders w));
  products_nodup : NoDup (keys Product.wooCommerceId (db_products w));
  written_stored :
    exists new,
      trace w = new ++ base
      /\ (forall id, In (OrderFindOneAndUpdate id, true) new ->
                     In id (keys Order.wooCommerceId (db_orders w)))
      /\ (forall id, In (ProductFindOneAndUpdate id, true) new ->
                     In id (keys Product.wooCommerceId (db_products w)))
}.

Definition delete_call (c : Call) : bool :=
  match c with
  | OrderFind _ | OrderFindByIdAndDelete _ => true
  | _ => false
  end.

(** The first phase of retention: select the stale orders, delete them. *)
Inductive delete_step : World -> World -> Prop :=
| delete_logged e w : delete_step w (add_log e w)
| delete_failed c w : delete_call c = true -> delete_step w (record_call c false w)
| delete_found date w : delete_step w (record_call (OrderFind date) true w)
| delete_done id w :
    delete_step w (record_call (OrderFindByIdAndDelete id) true (delete_order id w)).

Definition prune_call (candidates : list Z) (c : Call) : Prop :=
  match c with
  | OrderFindOneByProduct id | ProductFindOneAndDelete id => In id candidates
  | _ => False
  end.

(** The second phase: for a candidate identifier, look for an order that
    references it; delete the product only when the lookup found none. *)
Inductive prune_step (candidates : list Z) : World -> World -> Prop :=
| prune_logged e w : prune_step candidates w (add_log e w)
| prune_failed c w :
    prune_call candidates c -> prune_step candidates w (record_call c false w)
| prune_checked id w :
    In id candidates ->
    prune_step candidates w (record_call (OrderFindOneByProduct id) true w)
| prune_done id w :
    In id candidates ->
    findOne (references id) (db_orders w) = None ->
    prune_step candidates w
               (record_call (ProductFindOneAndDelete id) true (delete_product id w)).

(** The orders [cleanupOldOrders] selects in a world. *)
Definition ordersToDelete_of (env : Env) (w : World) : list (Doc Order.t) :=
  findAll (fun o => (Order.last_modified (fields o) <? threeMonthsAgo env)%Z)
          (db_orders w).

(** The set its first loop builds from them. *)
Definition productIdsToCheck_of (ordersToDelete : list (Doc Order.t)) (s : list Z)
  : list Z :=
  fold_left (fun s order =>
               fold_left (fun s item => JsSet.add (LineItem.product_id item) s)
                         (Order.line_items (fields order)) s)
            ordersToDelete s.

(** The calls made between an earlier world and a later one, newest first. *)
Definition calls_during (w w' : World) : list Event :=
  firstn (List.length (trace w') - List.length (trace w)) (trace w').

(* ===================================================================== *)
(** * Repeated upserts *)
(* ===================================================================== *)

(** [c'] is [c] after upserting the documents of [l] in turn, each under its
    own identifier and, when inserted, under some ObjectId. *)
Inductive upserted {D : Type} (key : D -> Z)
  : list D -> list (Doc D) -> list (Doc D) -> Prop :=
| upserted_nil c : upserted key [] c c
| upserted_cons d l fresh c c' :
    upserted key l (upsert key (key d) d fresh c) c' ->
    upserted key (d :: l) c c'.

(** Updating in place, for the documents of [l] in turn. *)
Definition replay {D : Type} (key : D -> Z) (l : list D) (c : list (Doc D))
  : list (Doc D) :=
  fold_left (fun c d => updateFirst (has_key key (key d)) d c) l c.

(** What the writes of [l] leave in one document. *)
Definition last_write {D : Type} (key : D -> Z) (x : Doc D) (l : list D) : Doc D :=
  fold_left (fun x d => if (key (fields x) =? key d)%Z
                        then {| _id := _id x; fields := d |} else x) l x.

(** The records a pass with the given fuel reads from a shop that answers
    the request for page [p] with [pages p], starting at [page]. *)
Fixpoint fetched (pages : nat -> option (list WooCommerceOrder.t))
         (fuel page : nat) : list WooCommerceOrder.t :=
  match fuel with
  | O => []
  | S fuel' =>
      match pages page with
      | None => []
      | Some data =>
          if List.length data =? 0 then []
          else if List.length data <? perPage then data
               else data ++ fetched pages fuel' (S page)
      end
  end.

(** The two collections of a world. *)
Definition stores (w : World) : list (Doc Order.t) * list (Doc Product.t) :=
  (db_orders w, db_products w).

(** The product identifiers [syncProductsFromOrder] visits for a record. *)
Definition productIds_of (wooOrder : WooCommerceOrder.t) : list Z :=
  JsSet.of_array (map LineItem.product_id (WooCommerceOrder.line_items wooOrder)).

(** The environment answers the same request the same way at all times:
    the remote data does not change and the database fails, where it fails,
    every time.  Products are served under the identifier they were asked
    by. *)
Record steady (env : Env) : Prop := {
  steady_orders : forall t t' page,
      remote_orders env t page perPage (afterDate env)
      = remote_orders env t' page perPage (afterDate env);
  steady_products : forall t t' id, remote_product env t id = remote_product env t' id;
  steady_ids : forall t id wooProduct,
      remote_product env t id = Some wooProduct ->
      WooCommerceProduct.id wooProduct = id;
  steady_db : forall t t' c, db_fault env t c = db_fault env t' c
}.

(** The upsert of this record comes back. *)
Definition writable (env : Env) (wooOrder : WooCommerceOrder.t) : bool :=
  negb (db_fault env 0 (OrderFindOneAndUpdate (WooCommerceOrder.id wooOrder))).

(** The backfill of this identifier cannot succeed: the lookup throws, the
    shop does not serve the product, or the write throws. *)
Definition backfill_blocked (env : Env) (id : Z) : bool :=
  db_fault env 0 (ProductFindOne id)
  || match remote_product env 0 id with
     | None => true
     | Some wooProduct =>
         db_fault env 0 (ProductFindOneAndUpdate (WooCommerceProduct.id wooProduct))
     end.

(** Nothing is left to backfill for an identifier: it is stored, or its
    backfill cannot succeed. *)
Definition settled (env : Env) (products : list (Doc Product.t)) (id : Z) : Prop :=
  In id (keys Product.wooCommerceId products) \/ backfill_blocked env id = true.

(* ===================================================================== *)
(** * More views of a retention pass and of a sync pass *)
(* ===================================================================== *)

(** The ObjectIds of the order deletions that came back, oldest first. *)
Definition order_deletes (tr : list Event) : list nat :=
  flat_map (fun ev => match ev with
                      | (OrderFindByIdAndDelete id, true) => [id]
                      | _ => []
                      end) (rev tr).

(** The identifiers of the product deletions that came back, oldest
    first. *)
Definition product_deletes (tr : list Event) : list Z :=
  flat_map (fun ev => match ev with
                      | (ProductFindOneAndDelete id, true) => [id]
                      | _ => []
                      end) (rev tr).

(** The filter of [cleanupOldOrders]: [last_modified < threeMonthsAgo]. *)
Definition stale (env : Env) (o : Doc Order.t) : bool :=
  (Order.last_modified (fields o) <? threeMonthsAgo env)%Z.

(** [Order.findByIdAndDelete], for the identifiers of [ids] in turn. *)
Definition delete_orders (ids : list nat) (c : list (Doc Order.t))
  : list (Doc Order.t) :=
  fold_left (fun c id => deleteFirst (fun o => _id o =? id) c) ids c.

(** The ObjectIds of a collection.  MongoDB stores no ObjectId twice in a
    collection. *)
Definition object_ids {D : Type} (c : list (Doc D)) : list nat := map (@_id D) c.

(** GET /products/:id answers, when it answers, with the product of that
    identifier. *)
Definition serves_requested_product (env : Env) : Prop :=
  forall t id wooProduct,
    remote_product env t id = Some wooProduct -> WooCommerceProduct.id wooProduct = id.

(** The database never throws. *)
Definition db_reliable (env : Env) : Prop := forall t c, db_fault env t c = false.

(** The world the loop of [syncProductsFromOrder] leaves after the
    identifiers [ids]. *)
Definition backfill_loop (env : Env) (orderId : Z) (ids : list Z) (w : World)
  : World :=
  snd (for_of (fun _ productId => backfillProduct env orderId productId) ids tt w).

Module Sample2.
(** The three orders of [Sample.pages_retention] synced while the shop serves
    no product: the orders are stored, no product is. *)
Definition world_without_products : World :=
  snd (syncOrders (Sample.shop_without_products Sample.pages_retention) 2
                  Sample.empty_world).

(** The shop of [Sample.pages_retention] after every product was renamed. *)
Definition renamed : Env :=
  {| remote_orders := fun _ page _ _ => Sample.pages_retention page;
     remote_product := fun _ id => Some (Sample.product id "renamed");
     remote_alive := fun _ => true;
     db_fault := fun _ _ => false;
     parseDate := Sample.parse;
     afterDate := "2026-03-07T00:00:00.000Z";
     threeMonthsAgo := 110%Z |}.
End Sample2.

(** The orders of [w] are those of [base] updated in place, followed by
    orders inserted since: the ObjectIds of [base] are where they were, and
    what is stored under an identifier is as in [base] unless an upsert of
    that identifier came back since. *)
Definition orders_in_place (base w : World) : Prop :=
  (exists added, object_ids (db_orders w) = object_ids (db_orders base) ++ added)
  /\ exists new,
       trace w = new ++ trace base
       /\ forall id,
            ~ In (OrderFindOneAndUpdate id, true) new ->
            stored Order.wooCommerceId id (db_orders w)
            = stored Order.wooCommerceId id (db_orders base).

(** The products of [w] are those of [base], unchanged, followed by products
    inserted since. *)
Definition products_kept (base : list (Doc Product.t)) (w : World) : Prop :=
  exists added, db_products w = base ++ added.

(* ===================================================================== *)
(** * SyncScheduler.ts: starting, stopping and reporting *)
(* ===================================================================== *)

From Stdlib Require Import Ascii Permutation Sorted.

(** What the program uses of node-cron. *)
Module Cron.
(** The callbacks the scheduler registers. *)
Inductive Callback := RunDailySync | RunCleanup.

Record ScheduledTask := {
  expression : string;
  timezone : string;
  callback : Callback;
  running : bool }.

(** [cron.schedule(expression, callback, {timezone})]: a new task, started;
    the handle of a task is its position among the tasks ever created. *)
Definition schedule (expression timezone : string) (callback : Callback)
           (tasks : list ScheduledTask) : nat * list ScheduledTask :=
  (List.length tasks,
   tasks ++ [{| expression := expression; timezone := timezone;
                callback := callback; running := true |}]).

(** [task.stop()] *)
Fixpoint stop (handle : nat) (tasks : list ScheduledTask) : list ScheduledTask :=
  match tasks, handle with
  | [], _ => []
  | t :: tasks', O =>
      {| expression := expression t; timezone := timezone t;
         callback := callback t; running := false |} :: tasks'
  | t :: tasks', S handle' => t :: stop handle' tasks'
  end.

(** One field of a five-field expression: [*] or a number. *)
Inductive Field := Any | Exactly (n : nat).

(** The minute an expression is matched against, on the clock of the
    task's time zone; [weekday] 0 is Sunday. *)
Record Minute := {
  minute : nat; hour : nat; day_of_month : nat; month : nat; weekday : nat }.

Definition digit (c : ascii) : option nat :=
  let n := nat_of_ascii c in
  if (48 <=? n) && (n <=? 57) then Some (n - 48) else None.

(** A field written as a decimal number. *)
Fixpoint number (s : string) (acc : nat) : option nat :=
  match s with
  | EmptyString => Some acc
  | String c s' =>
      match digit c with
      | Some d => number s' (10 * acc + d)
      | None => None
      end
  end.

Definition field (s : string) : option Field :=
  match s with
  | EmptyString => None
  | String "*" EmptyString => Some Any
  | _ => option_map Exactly (number s 0)
  end.

(** The words of an expression, separated by single spaces. *)
Fixpoint words (s : string) (word : string) : list string :=
  match s with
  | EmptyString => [word]
  | String " " s' => word :: words s' EmptyString
  | String c s' => words s' (word ++ String c EmptyString)
  end.

Definition matches (f : Field) (n : nat) : bool :=
  match f with Any => true | Exactly m => n =? m end.

(** Whether a task with a five-field expression (minute, hour, day of
    month, month, day of week) made of [*] and numbers is due at a minute;
    an expression of another form is never due here. *)
Definition due (expression : string) (t : Minute) : bool :=
  match map field (words expression EmptyString) with
  | [Some mi; Some h; Some dom; Some mo; Some dow] =>
      matches mi (minute t) && matches h (hour t) && matches dom (day_of_month t)
      && matches mo (month t) && matches dow (weekday t)
  | _ => false
  end.
End Cron.

(** A [Date] is an instant: the milliseconds since 1970-01-01T00:00Z, a
    Thursday.  Its local-time accessors read and set it through the time
    zone of the process.  The dates here are readings of the clock and the
    days around them, well within the range of [Date]. *)
Module JsDate.
(** The time zone of the process, as the engine knows it: the offset of
    local time from UTC, in milliseconds, at an instant, and the offset with
    which a local time is read back as an instant.  The two differ around a
    change of the offset, where a local time is skipped or comes twice. *)
Record Zone := { offset_at : Z -> Z; offset_of_local : Z -> Z }.

Definition msPerDay : Z := 86400000.
Definition msPerHour : Z := 3600000.

(** The day a time lies in, and the time within that day. *)
Definition Day (t : Z) : Z := (t / msPerDay)%Z.
Definition TimeWithinDay (t : Z) : Z := (t mod msPerDay)%Z.

Section InZone.
Variable zone : Zone.

(** The local time of an instant, and the instant of a local time. *)
Definition LocalTime (t : Z) : Z := (t + offset_at zone t)%Z.
Definition UTC (l : Z) : Z := (l - offset_of_local zone l)%Z.

(** [d.getDay()]: 0 is Sunday. *)
Definition getDay (d : Z) : Z := ((Day (LocalTime d) + 4) mod 7)%Z.

(** [d.setDate(d.getDate() + k)]: the local day [k] days on, at the same
    local time of day. *)
Definition addDays (k : Z) (d : Z) : Z :=
  let t := LocalTime d in
  UTC ((Day t + k) * msPerDay + TimeWithinDay t)%Z.

(** [d.setHours(h, 0, 0, 0)] *)
Definition setHours (h : Z) (d : Z) : Z :=
  let t := LocalTime d in
  UTC (Day t * msPerDay + h * msPerHour)%Z.
End InZone.

(** A zone whose offset never changes. *)
Definition fixed (zone : Zone) : Prop :=
  exists c, (forall t, offset_at zone t = c) /\ (forall l, offset_of_local zone l = c).
End JsDate.

Module SyncScheduler.
(** The fields of the scheduler object, the tasks of node-cron and the log
    of the scheduler (newest first). *)
Record State := {
  syncJob : option nat;
  cleanupJob : option nat;
  tasks : list Cron.ScheduledTask;
  journal : list (Level * string) }.

(** [new SyncScheduler()], in a process that has scheduled nothing. *)
Definition create : State :=
  {| syncJob := None; cleanupJob := None; tasks := []; journal := [] |}.

Definition info (msg : string) (s : State) : State :=
  {| syncJob := syncJob s; cleanupJob := cleanupJob s; tasks := tasks s;
     journal := (INFO, msg) :: journal s |}.

(** [start] *)
Definition start (s : State) : State :=
  let s := info "Starting sync scheduler..." s in
  let (syncJob', tasks1) :=
    Cron.schedule "* 12 * * *" "Asia/Kathmandu" Cron.RunDailySync (tasks s) in
  let (cleanupJob', tasks2) :=
    Cron.schedule "0 2 * * 0" "UTC" Cron.RunCleanup tasks1 in
  let s := {| syncJob := Some syncJob'; cleanupJob := Some cleanupJob';
              tasks := tasks2; journal := journal s |} in
  let s := info "Sync scheduler started successfully" s in
  let s := info "Daily sync scheduled for 12:00 PM UTC" s in
  info "Cleanup job scheduled for Sundays at 2:00 AM UTC" s.

(** [stop] *)
Definition stop (s : State) : State :=
  let s := info "Stopping sync scheduler..." s in
  let s :=
    match syncJob s with
    | Some job =>
        info "Daily sync job stopped"
             {| syncJob := syncJob s; cleanupJob := cleanupJob s;
                tasks := Cron.stop job (tasks s); journal := journal s |}
    | None => s
    end in
  let s :=
    match cleanupJob s with
    | Some job =>
        info "Cleanup job stopped"
             {| syncJob := syncJob s; cleanupJob := cleanupJob s;
                tasks := Cron.stop job (tasks s); journal := journal s |}
    | None => s
    end in
  info "Sync scheduler stopped" s.

(** The result of [getStatus]; the two times are the dates whose
    [toISOString()] it returns. *)
Record Status := {
  isRunning : bool;
  nextSyncTime : Z;
  nextCleanupTime : Z }.

(** [getStatus], called at the instant [now] in a process whose time zone is
    [zone]. *)
Definition getStatus (zone : JsDate.Zone) (s : State) (now : Z) : Status :=
  let tomorrow := JsDate.setHours zone 12 (JsDate.addDays zone 1 now) in
  let daysUntilSunday := Z.rem (7 - JsDate.getDay zone now) 7 in
  let nextSunday :=
    JsDate.setHours zone 2 (JsDate.addDays zone daysUntilSunday now) in
  {| isRunning := match syncJob s, cleanupJob s with
                  | Some _, Some _ => true
                  | _, _ => false
                  end;
     nextSyncTime := tomorrow;
     nextCleanupTime := nextSunday |}.

(** The tasks node-cron would run. *)
Definition active (s : State) : list Cron.ScheduledTask :=
  filter Cron.running (tasks s).
End SyncScheduler.

(* ===================================================================== *)
(** * JavaScript numbers and strings, as the controllers use them *)
(* ===================================================================== *)

Module Js.
(** The values the pagination arithmetic produces: the doubles that hold an
    integer, negative zero, the infinities and NaN.  [Int z] is the double
    that holds the integer [z]; the integers a double holds are those of
    magnitude up to 2^53 and, beyond, the results of [fl].  [Int 0] is
    positive zero. *)
Inductive number := Int (z : Z) | NegZero | Infinity | NegInfinity | NaN.

(** The double nearest to an integer, the one with the even significand of
    53 bits when two are as near: what an arithmetic operation rounds its
    exact result to, and what a numeral is read as.  A result of magnitude
    2^1024 or more is an infinity. *)
Definition fl (z : Z) : number :=
  let a := Z.abs z in
  if (a <? 2 ^ 53)%Z then Int z
  else
    let e := (Z.log2 a - 52)%Z in
    let q := (a / 2 ^ e)%Z in
    let r := (a mod 2 ^ e)%Z in
    let q' := if (2 ^ e <? 2 * r)%Z || ((2 * r =? 2 ^ e)%Z && Z.odd q)
              then (q + 1)%Z else q in
    let m := (q' * 2 ^ e)%Z in
    if (2 ^ 1024 <=? m)%Z then (if (z <? 0)%Z then NegInfinity else Infinity)
    else Int (Z.sgn z * m).

Definition is_white_space (c : ascii) : bool :=
  existsb (Nat.eqb (nat_of_ascii c)) [9; 10; 11; 12; 13; 32; 160].

(** Leading white space removed. *)
Fixpoint trimStart (s : string) : string :=
  match s with
  | String c s' => if is_white_space c then trimStart s' else s
  | EmptyString => s
  end.

Definition digit (c : ascii) : option Z :=
  let n := nat_of_ascii c in
  if (48 <=? n) && (n <=? 57) then Some (Z.of_nat (n - 48)) else None.

(** The value of the longest prefix of decimal digits, read after [acc];
    [None] when no digit has been seen. *)
Fixpoint digits (s : string) (acc : Z) (seen : bool) : option Z :=
  match s with
  | String c s' =>
      match digit c with
      | Some d => digits s' (10 * acc + d) true
      | None => if seen then Some acc else None
      end
  | EmptyString => if seen then Some acc else None
  end.

(** [parseInt(s, 10)] *)
Definition parseInt (s : string) : number :=
  let s := trimStart s in
  let (negative, s) :=
    match s with
    | String "-" s' => (true, s')
    | String "+" s' => (false, s')
    | _ => (false, s)
    end in
  match digits s 0 false with
  | None => NaN
  | Some n => if negative then (if (n =? 0)%Z then NegZero else fl (- n)) else fl n
  end.

Definition is_zero (a : number) : bool :=
  match a with Int 0 | NegZero => true | _ => false end.

Definition is_negative (a : number) : bool :=
  match a with
  | Int z => (z <? 0)%Z
  | NegZero | NegInfinity => true
  | Infinity | NaN => false
  end.

(** The integer a finite number stands for. *)
Definition integer (a : number) : option Z :=
  match a with Int z => Some z | NegZero => Some 0%Z | _ => None end.

(** [a - 1] *)
Definition minus_one (a : number) : number :=
  match a with
  | Int z => fl (z - 1)
  | NegZero => Int (-1)
  | other => other
  end.

(** [a * b] *)
Definition times (a b : number) : number :=
  match a, b with
  | NaN, _ | _, NaN => NaN
  | _, _ =>
      let negative := xorb (is_negative a) (is_negative b) in
      match integer a, integer b with
      | Some x, Some y =>
          if (x * y =? 0)%Z then (if negative then NegZero else Int 0)
          else fl (x * y)
      | _, _ =>
          if is_zero a || is_zero b then NaN
          else if negative then NegInfinity else Infinity
      end
  end.

(** [Math.ceil(total / b)] for a count [total], which is below 2^53: the
    rounding of the quotient then never crosses an integer. *)
Definition ceil_div (total : nat) (b : number) : number :=
  match b with
  | NaN => NaN
  | Infinity => Int 0
  | NegInfinity => NegZero
  | Int 0 => if total =? 0 then NaN else Infinity
  | NegZero => if total =? 0 then NaN else NegInfinity
  | Int l =>
      if (0 <? l)%Z then Int ((Z.of_nat total + l - 1) / l)
      else if (Z.of_nat total / (- l) =? 0)%Z then NegZero
           else Int (- (Z.of_nat total / (- l)))
  end.

(** [a < b] *)
Definition lt (a b : number) : bool :=
  match a, b with
  | NaN, _ | _, NaN => false
  | _, NegInfinity | Infinity, _ => false
  | NegInfinity, _ | _, Infinity => true
  | _, _ =>
      match integer a, integer b with
      | Some x, Some y => (x <? y)%Z
      | _, _ => false
      end
  end.

(** [a > b] *)
Definition gt (a b : number) : bool := lt b a.

(** The decimal digits of a natural number, most significant first, put
    before [rest]. *)
Fixpoint decimal (fuel : nat) (n : Z) (rest : string) : string :=
  match fuel with
  | O => rest
  | S fuel' =>
      let rest' := String (ascii_of_nat (48 + Z.to_nat (n mod 10))) rest in
      if (n <? 10)%Z then rest' else decimal fuel' (n / 10) rest'
  end.

(** The numeral of a natural number. *)
Definition numeral (n : Z) : string :=
  decimal (S (Z.to_nat (Z.log2 n))) n EmptyString.

(** The number of decimal digits of a natural number. *)
Definition digit_count (n : Z) : Z := Z.of_nat (String.length (numeral n)).

(** The numeral of fewest significant digits that is read as the double
    [x], a positive integer of [n] digits; among the numerals of [k]
    significant digits, the one nearest to [x]. *)
Fixpoint shortest (fuel : nat) (k : Z) (n x : Z) : Z :=
  match fuel with
  | O => x
  | S fuel' =>
      let scale := (10 ^ (n - k))%Z in
      let below := (x / scale * scale)%Z in
      let above := (below + scale)%Z in
      let reads v := match fl v with Int y => (y =? x)%Z | _ => false end in
      match reads below, reads above with
      | true, true => if (x - below <=? above - x)%Z then below else above
      | true, false => below
      | false, true => above
      | false, false => shortest fuel' (k + 1)%Z n x
      end
  end.

(** A numeral without its zeros at the end. *)
Fixpoint significand (fuel : nat) (v : Z) : Z :=
  match fuel with
  | O => v
  | S fuel' => if (v mod 10 =? 0)%Z then significand fuel' (v / 10)%Z else v
  end.

(** The exponent form [d.ddde+n] of a numeral [v]. *)
Definition exponent_form (v : Z) : string :=
  let n := digit_count v in
  match numeral (significand (Z.to_nat n) v) with
  | String d EmptyString => String d ("e+" ++ numeral (n - 1))%string
  | String d rest => String d ("." ++ rest ++ "e+" ++ numeral (n - 1))%string
  | EmptyString => EmptyString
  end.

(** [x.toString()] for a positive integer a double holds: its numeral below
    10^21, and from there on the exponent form of the shortest numeral that
    is read as it. *)
Definition unsigned (x : Z) : string :=
  if (x <? 10 ^ 21)%Z then numeral x
  else exponent_form (shortest (Z.to_nat (digit_count x)) 1 (digit_count x) x).

(** [a.toString()] *)
Definition toString (a : number) : string :=
  match a with
  | Int z => if (z <? 0)%Z then String "-" (unsigned (- z)) else unsigned z
  | NegZero => "0"%string
  | Infinity => "Infinity"%string
  | NegInfinity => "-Infinity"%string
  | NaN => "NaN"%string
  end.

(** A string is truthy when it is not empty; [undefined] is not. *)
Definition truthy (s : option string) : bool :=
  match s with
  | Some (String _ _) => true
  | _ => false
  end.
End Js.

(* ===================================================================== *)
(** * The HTTP interface: OrderController.ts and ProductController.ts *)
(* ===================================================================== *)

(** The handlers read the two collections and write nothing.  A request
    carries the query string and the route parameters as strings, each key
    given once.  What lies outside the program is read from a [Driver]. *)

Module Http.
Record Request := {
  query : list (string * string);     (* [req.query] *)
  params : list (string * string) }.  (* [req.params] *)

(** [object[key]]; [None] is [undefined]. *)
Fixpoint lookup (key : string) (l : list (string * string)) : option string :=
  match l with
  | [] => None
  | (k, v) :: l' => if String.eqb k key then Some v else lookup key l'
  end.

(** The [pagination] object of a page of results; the two last fields are
    [None] where the handler does not send them. *)
Record Pagination := {
  currentPage : Js.number;
  totalPages : Js.number;
  totalItems : nat;
  itemsPerPage : Js.number;
  hasNextPage : option bool;
  hasPrevPage : option bool }.

(** A product as the handlers send it: the stored document, with
    [orderCount] where it was asked for. *)
Record ProductView := { product : Doc Product.t; orderCount : option nat }.

(** A group of the aggregation of [getCategories]. *)
Record CategoryCount := {
  category_id : Z; category_name : string; category_slug : string; count : nat }.

Inductive Body :=
| OrdersPage (orders : list (Doc Order.t)) (pagination : Pagination)
| ProductsPage (products : list ProductView) (pagination : Pagination)
| OneOrder (order : Doc Order.t)
| OneProduct (product : ProductView)
| Categories (categories : list CategoryCount)
| ErrorMessage (error : string).

(** What the handler sent with [res.status(..).json(..)] ([res.json] sends
    status 200), and the label it wrote with [console.error], if any. *)
Record Response := { status : nat; body : Body; console_error : option string }.

Definition json (b : Body) : Response :=
  {| status := 200; body := b; console_error := None |}.

Definition failure (code : nat) (label message : string) : Response :=
  {| status := code; body := ErrorMessage message; console_error := Some label |}.
End Http.

Module Mongo.
(** The database operations the handlers issue. *)
Inductive Operation :=
| FindOrders | CountOrders | FindOrderById
| FindProducts | CountProducts | FindProductById
| CountOrdersOfProduct (wooCommerceId : Z)
| AggregateCategories.

Record Driver := {
  (** [new RegExp(pattern, 'i')]: [None] when the pattern is not a regular
      expression (a SyntaxError is thrown), else the test of the
      expression on a string *)
  regExp : string -> option (string -> bool);
  (** the order in which the database returns documents for a sort on a
      field, descending or ascending *)
  sort_orders : string -> bool -> list (Doc Order.t) -> list (Doc Order.t);
  sort_products : string -> bool -> list (Doc Product.t) -> list (Doc Product.t);
  (** the ObjectId a string denotes, if it denotes one *)
  objectId : string -> option nat;
  (** whether an operation fails for a reason of its own (connection lost,
      timeout) *)
  fails : Operation -> bool;
  (** whether the database accepts a NaN as [skip] or [limit], and reads it
      as 0 *)
  accepts_nan : bool
}.

(** The fields of an order a text search looks at. *)
Inductive OrderField :=
| Number | BillingFirstName | BillingLastName | BillingEmail
| ShippingFirstName | ShippingLastName | LineItemsName | CustomerNote.

(** The strings a field path denotes in an order; the path into
    [line_items] denotes the names of all its items. *)
Definition order_field (f : OrderField) (o : Order.t) : list string :=
  match f with
  | Number => [Order.number o]
  | BillingFirstName => [Billing.first_name (Order.billing o)]
  | BillingLastName => [Billing.last_name (Order.billing o)]
  | BillingEmail => [Billing.email (Order.billing o)]
  | ShippingFirstName => [Shipping.first_name (Order.shipping o)]
  | ShippingLastName => [Shipping.last_name (Order.shipping o)]
  | LineItemsName => map LineItem.name (Order.line_items o)
  | CustomerNote => [Order.customer_note o]
  end.

(** The entries of the filter a handler builds for the order collection;
    a document matches a filter when it matches all its entries. *)
Inductive OrderCondition :=
| OrderTextIn (fields : list OrderField) (test : string -> bool)   (* [$or] *)
| OrderStatusIs (status : string)
| OrderHasProduct (product_id : Js.number)
| OrderCustomerIs (customer_id : Js.number).

Definition order_matches (c : OrderCondition) (o : Doc Order.t) : bool :=
  match c with
  | OrderTextIn fs test =>
      existsb (fun f => existsb test (order_field f (fields o))) fs
  | OrderStatusIs s => String.eqb (Order.status (fields o)) s
  | OrderHasProduct n =>
      match Js.integer n with
      | Some id => references id o
      | None => false
      end
  | OrderCustomerIs n =>
      match Js.integer n with
      | Some id => (Order.customer_id (fields o) =? id)%Z
      | None => false
      end
  end.

(** Mongoose refuses to cast NaN to the Number of a schema path. *)
Definition order_cast_fails (c : OrderCondition) : bool :=
  match c with
  | OrderHasProduct Js.NaN | OrderCustomerIs Js.NaN => true
  | _ => false
  end.

Inductive ProductField := Name | Sku | Description | ShortDescription.

Definition product_field (f : ProductField) (p : Product.t) : string :=
  match f with
  | Name => Product.name p
  | Sku => Product.sku p
  | Description => Product.description p
  | ShortDescription => Product.short_description p
  end.

Inductive ProductCondition :=
| ProductTextIn (fields : list ProductField) (test : string -> bool)
| ProductStatusIs (status : string)
| ProductFeaturedIs (featured : bool)
| ProductCategoryNameMatches (test : string -> bool).

Definition product_matches (c : ProductCondition) (p : Doc Product.t) : bool :=
  match c with
  | ProductTextIn fs test => existsb (fun f => test (product_field f (fields p))) fs
  | ProductStatusIs s => String.eqb (Product.status (fields p)) s
  | ProductFeaturedIs b => Bool.eqb (Product.featured (fields p)) b
  | ProductCategoryNameMatches test =>
      existsb (fun c => test (Term.name c)) (Product.categories (fields p))
  end.

(** [.skip(skip).limit(limit)] on a list of results.  A negative [skip] is
    rejected by the database; a [limit] of 0 is no limit, and a negative
    [limit] is that of its absolute value.  [None] is a rejected query. *)
Definition window {D : Type} (drv : Driver) (skip limit : Js.number) (l : list D)
  : option (list D) :=
  let skipped :=
    match skip with
    | Js.Int s => if (0 <=? s)%Z then Some (skipn (Z.to_nat s) l) else None
    | Js.NegZero => Some l
    | Js.NaN => if accepts_nan drv then Some l else None
    | _ => None
    end in
  match skipped with
  | None => None
  | Some l' =>
      match limit with
      | Js.Int 0 | Js.NegZero => Some l'
      | Js.Int n => Some (firstn (Z.to_nat (Z.abs n)) l')
      | Js.NaN => if accepts_nan drv then Some l' else None
      | _ => None
      end
  end.

Section Queries.
Variable drv : Driver.
Variable orders : list (Doc Order.t).
Variable products : list (Doc Product.t).

Definition matching_orders (filter_ : list OrderCondition) : list (Doc Order.t) :=
  filter (fun o => forallb (fun c => order_matches c o) filter_) orders.

Definition matching_products (filter_ : list ProductCondition)
  : list (Doc Product.t) :=
  filter (fun p => forallb (fun c => product_matches c p) filter_) products.

(** [Order.find(filter).sort({[sortBy]: dir}).skip(skip).limit(limit).lean()] *)
Definition Order_find (filter_ : list OrderCondition) (sortBy : string)
           (descending : bool) (skip limit : Js.number)
  : option (list (Doc Order.t)) :=
  if fails drv FindOrders || existsb order_cast_fails filter_ then None
  else window drv skip limit
              (sort_orders drv sortBy descending (matching_orders filter_)).

(** [Order.countDocuments(filter)] *)
Definition Order_countDocuments (filter_ : list OrderCondition) : option nat :=
  if fails drv CountOrders || existsb order_cast_fails filter_ then None
  else Some (List.length (matching_orders filter_)).

(** [Order.findById(id).lean()]: [None] is a rejected query, [Some None] is
    [null]. *)
Definition Order_findById (id : string) : option (option (Doc Order.t)) :=
  if fails drv FindOrderById then None
  else match objectId drv id with
       | None => None
       | Some n => Some (find (fun o => _id o =? n) orders)
       end.

Definition Product_find (filter_ : list ProductCondition) (sortBy : string)
           (descending : bool) (skip limit : Js.number)
  : option (list (Doc Product.t)) :=
  if fails drv FindProducts then None
  else window drv skip limit
              (sort_products drv sortBy descending (matching_products filter_)).

Definition Product_countDocuments (filter_ : list ProductCondition) : option nat :=
  if fails drv CountProducts then None
  else Some (List.length (matching_products filter_)).

Definition Product_findById (id : string) : option (option (Doc Product.t)) :=
  if fails drv FindProductById then None
  else match objectId drv id with
       | None => None
       | Some n => Some (find (fun p => _id p =? n) products)
       end.
End Queries.
End Mongo.

Module OrderController.
Import Http Mongo.
Local Open Scope string_scope.

Section Handlers.
Variable drv : Driver.
Variable orders : list (Doc Order.t).

(** [const { page = 1 } = req.query; parseInt(page, 10)] *)
Definition number_or (default : Z) (given : option string) : Js.number :=
  match given with
  | Some s => Js.parseInt s
  | None => Js.Int default
  end.

(** The filter of [getOrders]; [None] when [new RegExp] throws. *)
Definition getOrders_filter (req : Request) : option (list OrderCondition) :=
  let search := lookup "search" (query req) in
  let status := lookup "status" (query req) in
  let productId := lookup "productId" (query req) in
  match
    (if Js.truthy search then
       match search with
       | Some s =>
           option_map
             (fun searchRegex =>
                [OrderTextIn [Number; BillingFirstName; BillingLastName; BillingEmail;
                              ShippingFirstName; ShippingLastName; LineItemsName]
                             searchRegex])
             (regExp drv s)
       | None => Some []
       end
     else Some [])
  with
  | None => None
  | Some text =>
      Some (text
            ++ (if Js.truthy status then
                  match status with Some s => [OrderStatusIs s] | None => [] end
                else [])
            ++ (if Js.truthy productId then
                  match productId with
                  | Some s => [OrderHasProduct (Js.parseInt s)]
                  | None => []
                  end
                else []))%list
  end.

(** [getOrders] *)
Definition getOrders (req : Request) : Response :=
  let pageNum := number_or 1 (lookup "page" (query req)) in
  let limitNum := number_or 20 (lookup "limit" (query req)) in
  let skip := Js.times (Js.minus_one pageNum) limitNum in
  let sortBy :=
    match lookup "sortBy" (query req) with Some s => s | None => "date_created" end in
  let sortOrder :=
    match lookup "sortOrder" (query req) with Some s => s | None => "desc" end in
  match getOrders_filter req with
  | None => failure 500 "Error fetching orders:" "Failed to fetch orders"
  | Some filter_ =>
      match Order_find drv orders filter_ sortBy (String.eqb sortOrder "desc")
                       skip limitNum,
            Order_countDocuments drv orders filter_ with
      | Some found, Some total =>
          let totalPages := Js.ceil_div total limitNum in
          json (OrdersPage found
                  {| currentPage := pageNum;
                     totalPages := totalPages;
                     totalItems := total;
                     itemsPerPage := limitNum;
                     hasNextPage := Some (Js.lt pageNum totalPages);
                     hasPrevPage := Some (Js.gt pageNum (Js.Int 1)) |})
      | _, _ => failure 500 "Error fetching orders:" "Failed to fetch orders"
      end
  end.

(** [getOrderById]; [id] is [req.params.id], which the route [/:id] binds. *)
Definition getOrderById (id : string) : Response :=
  match Order_findById drv orders id with
  | Some (Some order) => json (OneOrder order)
  | Some None =>
      {| status := 404; body := ErrorMessage "Order not found"; console_error := None |}
  | None => failure 500 "Error fetching order:" "Failed to fetch order"
  end.

(** [getOrdersByCustomer]; [customerId] is [req.params.customerId]. *)
Definition getOrdersByCustomer (customerId : string) (req : Request) : Response :=
  let pageNum := number_or 1 (lookup "page" (query req)) in
  let limitNum := number_or 20 (lookup "limit" (query req)) in
  let skip := Js.times (Js.minus_one pageNum) limitNum in
  let filter_ := [OrderCustomerIs (Js.parseInt customerId)] in
  match Order_find drv orders filter_ "date_created" true skip limitNum,
        Order_countDocuments drv orders filter_ with
  | Some found, Some total =>
      json (OrdersPage found
              {| currentPage := pageNum;
                 totalPages := Js.ceil_div total limitNum;
                 totalItems := total;
                 itemsPerPage := limitNum;
                 hasNextPage := None;
                 hasPrevPage := None |})
  | _, _ =>
      failure 500 "Error fetching customer orders:" "Failed to fetch customer orders"
  end.
End Handlers.
End OrderController.

Module ProductController.
Import Http Mongo.
Local Open Scope string_scope.

Section Handlers.
Variable drv : Driver.
Variable orders : list (Doc Order.t).
Variable products : list (Doc Product.t).

(** [getProductOrderCount]:
    [Order.countDocuments({'line_items.product_id': wooCommerceId})] *)
Definition getProductOrderCount (wooCommerceId : Z) : option nat :=
  if fails drv (CountOrdersOfProduct wooCommerceId) then None
  else Some (List.length (filter (references wooCommerceId) orders)).

(** [addOrderCounts]: [Promise.all] over the products; [None] when a count
    is rejected. *)
Fixpoint addOrderCounts (found : list (Doc Product.t)) : option (list ProductView) :=
  match found with
  | [] => Some []
  | p :: found' =>
      match getProductOrderCount (Product.wooCommerceId (fields p)),
            addOrderCounts found' with
      | Some n, Some views => Some ({| product := p; orderCount := Some n |} :: views)
      | _, _ => None
      end
  end.

Definition plain (found : list (Doc Product.t)) : list ProductView :=
  map (fun p => {| product := p; orderCount := None |}) found.

(** The filter of [getProducts]; [None] when [new RegExp] throws. *)
Definition getProducts_filter (req : Request) : option (list ProductCondition) :=
  let search := lookup "search" (query req) in
  let status := lookup "status" (query req) in
  let featured := lookup "featured" (query req) in
  match
    (if Js.truthy search then
       match search with
       | Some s =>
           option_map
             (fun searchRegex =>
                [ProductTextIn [Name; Sku; Description; ShortDescription] searchRegex])
             (regExp drv s)
       | None => Some []
       end
     else Some [])
  with
  | None => None
  | Some text =>
      Some (text
            ++ (if Js.truthy status then
                  match status with Some s => [ProductStatusIs s] | None => [] end
                else [])
            ++ (match featured with
                | Some s => [ProductFeaturedIs (String.eqb s "true")]
                | None => []
                end))%list
  end.

(** [getProducts] *)
Definition getProducts (req : Request) : Response :=
  let pageNum := OrderController.number_or 1 (lookup "page" (query req)) in
  let limitNum := OrderController.number_or 20 (lookup "limit" (query req)) in
  let skip := Js.times (Js.minus_one pageNum) limitNum in
  let sortBy :=
    match lookup "sortBy" (query req) with Some s => s | None => "name" end in
  let sortOrder :=
    match lookup "sortOrder" (query req) with Some s => s | None => "asc" end in
  let includeOrderCount :=
    match lookup "includeOrderCount" (query req) with Some s => s | None => "false" end in
  match getProducts_filter req with
  | None => failure 500 "Error fetching products:" "Failed to fetch products"
  | Some filter_ =>
      match Product_find drv products filter_ sortBy (String.eqb sortOrder "desc")
                         skip limitNum,
            Product_countDocuments drv products filter_ with
      | Some found, Some total =>
          match (if String.eqb includeOrderCount "true" then addOrderCounts found
                 else Some (plain found)) with
          | Some productsWithOrderCount =>
              let totalPages := Js.ceil_div total limitNum in
              json (ProductsPage productsWithOrderCount
                      {| currentPage := pageNum;
                         totalPages := totalPages;
                         totalItems := total;
                         itemsPerPage := limitNum;
                         hasNextPage := Some (Js.lt pageNum totalPages);
                         hasPrevPage := Some (Js.gt pageNum (Js.Int 1)) |})
          | None => failure 500 "Error fetching products:" "Failed to fetch products"
          end
      | _, _ => failure 500 "Error fetching products:" "Failed to fetch products"
      end
  end.

(** [getProductById]; [id] is [req.params.id]. *)
Definition getProductById (id : string) (req : Request) : Response :=
  let includeOrderCount :=
    match lookup "includeOrderCount" (query req) with Some s => s | None => "false" end in
  match Product_findById drv products id with
  | Some (Some p) =>
      if String.eqb includeOrderCount "true" then
        match getProductOrderCount (Product.wooCommerceId (fields p)) with
        | Some n => json (OneProduct {| product := p; orderCount := Some n |})
        | None => failure 500 "Error fetching product:" "Failed to fetch product"
        end
      else json (OneProduct {| product := p; orderCount := None |})
  | Some None =>
      {| status := 404; body := ErrorMessage "Product not found";
         console_error := None |}
  | None => failure 500 "Error fetching product:" "Failed to fetch product"
  end.

(** [getProductsByCategory]; [category] is [req.params.category]. *)
Definition getProductsByCategory (category : string) (req : Request) : Response :=
  let pageNum := OrderController.number_or 1 (lookup "page" (query req)) in
  let limitNum := OrderController.number_or 20 (lookup "limit" (query req)) in
  let skip := Js.times (Js.minus_one pageNum) limitNum in
  match regExp drv category with
  | None =>
      failure 500 "Error fetching products by category:"
              "Failed to fetch products by category"
  | Some categoryRegex =>
      let filter_ := [ProductCategoryNameMatches categoryRegex] in
      match Product_find drv products filter_ "name" false skip limitNum,
            Product_countDocuments drv products filter_ with
      | Some found, Some total =>
          json (ProductsPage (plain found)
                  {| currentPage := pageNum;
                     totalPages := Js.ceil_div total limitNum;
                     totalItems := total;
                     itemsPerPage := limitNum;
                     hasNextPage := None;
                     hasPrevPage := None |})
      | _, _ =>
          failure 500 "Error fetching products by category:"
                  "Failed to fetch products by category"
      end
  end.

(** The stages of the pipeline of [getCategories]. *)

(** [$unwind: '$categories']: one entry per category of each product. *)
Definition unwind (l : list (Doc Product.t)) : list Term.t :=
  flat_map (fun p => Product.categories (fields p)) l.

(** [$group] by category id, with the name and slug of the first entry and
    the number of entries; the groups are in the order their first entries
    come in. *)
Fixpoint add_to_group (c : Term.t) (groups : list CategoryCount)
  : list CategoryCount :=
  match groups with
  | [] => [{| category_id := Term.id c; category_name := Term.name c;
              category_slug := Term.slug c; count := 1 |}]
  | g :: groups' =>
      if (category_id g =? Term.id c)%Z then
        {| category_id := category_id g; category_name := category_name g;
           category_slug := category_slug g; count := S (count g) |} :: groups'
      else g :: add_to_group c groups'
  end.

Definition group (entries : list Term.t) : list CategoryCount :=
  fold_left (fun groups c => add_to_group c groups) entries [].

(** [$sort: {count: -1}]; groups of equal count stay in their order. *)
Fixpoint insert_by_count (g : CategoryCount) (l : list CategoryCount)
  : list CategoryCount :=
  match l with
  | [] => [g]
  | h :: l' => if (count h <=? count g)%nat then g :: h :: l'
               else h :: insert_by_count g l'
  end.

Definition sort_by_count (l : list CategoryCount) : list CategoryCount :=
  fold_right insert_by_count [] l.

(** [getCategories] *)
Definition getCategories : Response :=
  if fails drv AggregateCategories then
    failure 500 "Error fetching categories:" "Failed to fetch categories"
  else json (Categories (sort_by_count (group (unwind products)))).
End Handlers.
End ProductController.

(* ===================================================================== *)
(** * The client of the interface (services/api.ts) *)
(* ===================================================================== *)

Module Client.
Local Open Scope string_scope.

(** The entries [orderService.getOrders] puts into its [URLSearchParams],
    in order; [None] is an argument left out.  The page and the page size
    are numbers of [Js.number]. *)
Definition orderService_getOrders (page limit : Js.number)
           (search status productId : option string) : list (string * string) :=
  ([("page", Js.toString page); ("limit", Js.toString limit)]
   ++ (if Js.truthy search then
         match search with Some s => [("search", s)] | None => [] end
       else [])
   ++ (if Js.truthy status
          && negb (match status with Some s => String.eqb s "all" | None => false end)
       then match status with Some s => [("status", s)] | None => [] end
       else [])
   ++ (if Js.truthy productId then
         match productId with Some s => [("productId", s)] | None => [] end
       else []))%list.

(** [orderService.searchOrders]: the same request, with the text as
    [search]. *)
Definition orderService_searchOrders (query : string) (page limit : Js.number)
           (status : option string) : list (string * string) :=
  orderService_getOrders page limit (Some query) status None.

(** The entries of [productService.getProducts]. *)
Definition productService_getProducts (page limit : Js.number)
           (search : option string)
  : list (string * string) :=
  ([("page", Js.toString page); ("limit", Js.toString limit)]
   ++ (if Js.truthy search then
         match search with Some s => [("search", s)] | None => [] end
       else []))%list.
End Client.

(* ===================================================================== *)
(** * Views of a response *)
(* ===================================================================== *)

(** The orders of a page of results; none when the response is not a
    page. *)
Definition page_orders (r : Http.Response) : list (Doc Order.t) :=
  match Http.body r with
  | Http.OrdersPage found _ => found
  | _ => []
  end.

(** The [sortBy] and the direction [getOrders] reads from a request. *)
Definition orders_sort_key (req : Http.Request) : string :=
  match Http.lookup "sortBy" (Http.query req) with
  | Some s => s
  | None => "date_created"%string
  end.

Definition orders_sort_descending (req : Http.Request) : bool :=
  String.eqb (match Http.lookup "sortOrder" (Http.query req) with
              | Some s => s
              | None => "desc"%string
              end) "desc".

(** The matches of a filter in the order the database returns them for the
    sort of a request. *)
Definition sorted_matches (drv : Mongo.Driver) (orders : list (Doc Order.t))
           (req : Http.Request) (filter_ : list Mongo.OrderCondition)
  : list (Doc Order.t) :=
  Mongo.sort_orders drv (orders_sort_key req) (orders_sort_descending req)
                    (Mongo.matching_orders orders filter_).

(** The request for page [p] with [n] results per page, written as the
    client writes them, and further entries. *)
Definition page_request (p n : Z) (rest : list (string * string)) : Http.Request :=
  {| Http.query := ("page"%string, Js.toString (Js.Int p))
                   :: ("limit"%string, Js.toString (Js.Int n)) :: rest;
     Http.params := [] |}.

(** The database is reached and sorts without losing or inventing
    documents. *)
Record well_behaved (drv : Mongo.Driver) : Prop := {
  reaches : forall op, Mongo.fails drv op = false;
  sorts_orders : forall key descending l,
      Permutation (Mongo.sort_orders drv key descending l) l;
  sorts_products : forall key descending l,
      Permutation (Mongo.sort_products drv key descending l) l
}.

(** The count of the group of an identifier; 0 when there is none. *)
Definition group_count (id : Z) (groups : list Http.CategoryCount) : nat :=
  match find (fun g => (Http.category_id g =? id)%Z) groups with
  | Some g => Http.count g
  | None => 0
  end.

(** What holds of the groups of [getCategories] after the entries [seen]. *)
Definition grouped (seen : list Term.t) (groups : list Http.CategoryCount) : Prop :=
  NoDup (map Http.category_id groups)
  /\ (forall id, group_count id groups = count_occ Z.eq_dec (map Term.id seen) id)
  /\ (forall g, In g groups ->
        1 <= Http.count g
        /\ exists c, In c seen /\ Term.id c = Http.category_id g
                     /\ Term.name c = Http.category_name g
                     /\ Term.slug c = Http.category_slug g)
  /\ list_sum (map Http.count groups) = List.length seen.

Module Sample3.
Local Open Scope string_scope.
(** A zone that keeps the offset +05:45 of Asia/Kathmandu. *)
Definition kathmandu : JsDate.Zone :=
  {| JsDate.offset_at := fun _ => 20700000%Z;
     JsDate.offset_of_local := fun _ => 20700000%Z |}.

(** A driver that reaches the database, returns documents in the order of
    the collection, reads an ObjectId off a decimal string, and knows the
    regular expressions without special characters: such a pattern matches
    the strings that contain it; "(" is not a regular expression. *)
Definition contains (pattern s : string) : bool :=
  match index 0 pattern s with Some _ => true | None => false end.

Definition driver : Mongo.Driver :=
  {| Mongo.regExp := fun pattern =>
       if contains "(" pattern then None else Some (contains pattern);
     Mongo.sort_orders := fun _ _ l => l;
     Mongo.sort_products := fun _ _ l => l;
     Mongo.objectId := fun s =>
       match Js.parseInt s with
       | Js.Int z => if (0 <=? z)%Z then Some (Z.to_nat z) else None
       | _ => None
       end;
     Mongo.fails := fun _ => false;
     Mongo.accepts_nan := false |}.

(** The orders and products stored after the three sample orders were
    synced. *)
Definition orders : list (Doc Order.t) :=
  Eval vm_compute in db_orders Sample.world_retention.
Definition products : list (Doc Product.t) :=
  Eval vm_compute in db_products Sample.world_retention.
End Sample3.
(* ===================================================================== *)
(** * Rules for triples *)
(* ===================================================================== *)

Section Rules.
Context {A B : Type}.

Lemma hoare_ret (P : World -> Prop) (a : A) Q :
  (forall w, P w -> Q (Ret a) w) -> hoare P (ret a) Q.
Proof. unfold hoare, ret; auto. Qed.

Lemma hoare_throw (P : World -> Prop) e (Q : Outcome A -> World -> Prop) :
  (forall w, P w -> Q (Throw e) w) -> hoare P (throw e) Q.
Proof. unfold hoare, throw; auto. Qed.

Lemma hoare_bind (P : World -> Prop) (m : M A) (k : A -> M B)
      (R : Outcome A -> World -> Prop) (Q : Outcome B -> World -> Prop) :
  hoare P m R ->
  (forall a, hoare (R (Ret a)) (k a) Q) ->
  (forall e w, R (Throw e) w -> Q (Throw e) w) ->
  (forall w, R OutOfFuel w -> Q OutOfFuel w) ->
  hoare P (bind m k) Q.
Proof.
  unfold hoare, bind; intros Hm Hk He Ho w Hw.
  specialize (Hm w Hw).
  destruct (m w) as [[a|e|] w']; simpl in *; [apply Hk; assumption | auto | auto].
Qed.

Lemma hoare_try_catch (P : World -> Prop) (m : M A) (h : Error -> M A)
      (R Q : Outcome A -> World -> Prop) :
  hoare P m R ->
  (forall e, hoare (R (Throw e)) (h e) Q) ->
  (forall a w, R (Ret a) w -> Q (Ret a) w) ->
  (forall w, R OutOfFuel w -> Q OutOfFuel w) ->
  hoare P (try_catch m h) Q.
Proof.
  unfold hoare, try_catch; intros Hm Hh Hr Ho w Hw.
  specialize (Hm w Hw).
  destruct (m w) as [[a|e|] w']; simpl in *; [auto | apply Hh; assumption | auto].
Qed.

(** A loop whose body keeps [Inv] when it completes an iteration and
    establishes [Q] when it leaves the loop abruptly. *)
Lemma hoare_for_of {S} (Inv : S -> World -> Prop) (body : S -> A -> M S)
      (Q : Outcome S -> World -> Prop) (l : list A) :
  (forall s x, In x l ->
     hoare (Inv s) (body s x)
           (fun r w => match r with
                       | Ret s' => Inv s' w
                       | Throw e => Q (Throw e) w
                       | OutOfFuel => Q OutOfFuel w
                       end)) ->
  (forall s w, Inv s w -> Q (Ret s) w) ->
  forall s, hoare (Inv s) (for_of body l s) Q.
Proof.
  intros Hbody Hend. revert Hbody.
  induction l as [|x l IH]; intros Hbody s; simpl.
  - intros w Hw. apply Hend, Hw.
  - unfold hoare, bind. intros w Hw.
    assert (Hb := Hbody s x (or_introl eq_refl) w Hw).
    destruct (body s x w) as [[s'|e|] w']; simpl in *; [| assumption | assumption].
    apply IH; [intros; apply Hbody; simpl; auto | assumption].
Qed.

End Rules.

Lemma preserves_ret {A} (I : World -> Prop) (a : A) : preserves I (ret a).
Proof. apply hoare_ret; auto. Qed.

Lemma preserves_throw {A} (I : World -> Prop) e : preserves I (@throw A e).
Proof. apply hoare_throw; auto. Qed.

Lemma preserves_bind {A B} (I : World -> Prop) (m : M A) (k : A -> M B) :
  preserves I m -> (forall a, preserves I (k a)) -> preserves I (bind m k).
Proof. intros Hm Hk. eapply hoare_bind; [exact Hm | exact Hk | auto | auto]. Qed.

Lemma preserves_try_catch {A} (I : World -> Prop) (m : M A) h :
  preserves I m -> (forall e, preserves I (h e)) -> preserves I (try_catch m h).
Proof. intros Hm Hh. eapply hoare_try_catch; [exact Hm | exact Hh | auto | auto]. Qed.

Lemma preserves_for_of {A S} (I : World -> Prop) (body : S -> A -> M S) l s :
  (forall s x, In x l -> preserves I (body s x)) -> preserves I (for_of body l s).
Proof.
  intros Hb. apply (hoare_for_of (fun _ => I)); auto.
  intros s' x Hx w Hw. specialize (Hb s' x Hx w Hw).
  destruct (fst (body s' x w)); auto.
Qed.

Lemma preserves_log (I : World -> Prop) lg lvl msg :
  (forall e w, I w -> I (add_log e w)) -> preserves I (log lg lvl msg).
Proof. intros H w Hw. apply H, Hw. Qed.

Lemma preserves_if {B} (I : World -> Prop) (b : bool) (f g : M B) :
  preserves I f -> preserves I g -> preserves I (if b then f else g).
Proof. destruct b; auto. Qed.

Section Primitives.
Variable env : Env.

Lemma hoare_db_call {A} (P : World -> Prop) c (run : World -> A * World) Q :
  (forall w, P w -> db_fault env (clock w) c = true ->
             Q (Throw (Failed c)) (record_call c false w)) ->
  (forall w, P w -> db_fault env (clock w) c = false ->
             Q (Ret (fst (run w))) (record_call c true (snd (run w)))) ->
  hoare P (db_call env c run) Q.
Proof.
  intros Hf Hs w Hw. unfold db_call.
  destruct (db_fault env (clock w) c) eqn:E.
  - apply Hf; auto.
  - specialize (Hs w Hw E). destruct (run w); exact Hs.
Qed.

Lemma preserves_db_call {A} (I : World -> Prop) c (run : World -> A * World) :
  (forall w, I w -> I (record_call c false w)) ->
  (forall w, I w -> I (record_call c true (snd (run w)))) ->
  preserves I (db_call env c run).
Proof. intros; apply hoare_db_call; auto. Qed.

Lemma hoare_fetchOrders (P : World -> Prop) page pp after Q :
  (forall w, P w -> remote_orders env (clock w) page pp after = None ->
     Q (Throw (Failed (FetchOrders page pp after)))
       (record_call (FetchOrders page pp after) false w)) ->
  (forall w data, P w -> remote_orders env (clock w) page pp after = Some data ->
     Q (Ret data) (record_call (FetchOrders page pp after) true w)) ->
  hoare P (fetchOrders env page pp after) Q.
Proof.
  intros Hf Hs w Hw. unfold fetchOrders.
  destruct (remote_orders env (clock w) page pp after) eqn:E; simpl; auto.
Qed.

Lemma hoare_fetchProduct (P : World -> Prop) id Q :
  (forall w, P w -> remote_product env (clock w) id = None ->
     Q (Throw (Failed (FetchProduct id))) (record_call (FetchProduct id) false w)) ->
  (forall w data, P w -> remote_product env (clock w) id = Some data ->
     Q (Ret data) (record_call (FetchProduct id) true w)) ->
  hoare P (fetchProduct env id) Q.
Proof.
  intros Hf Hs w Hw. unfold fetchProduct.
  destruct (remote_product env (clock w) id) eqn:E; simpl; auto.
Qed.

End Primitives.

(* ===================================================================== *)
(** * Collections *)
(* ===================================================================== *)

Section CollectionFacts.
Context {D : Type}.
Variable key : D -> Z.

Lemma existsb_has_key k (c : list (Doc D)) :
  existsb (has_key key k) c = true <-> In k (keys key c).
Proof.
  unfold keys, has_key. rewrite existsb_exists, in_map_iff. split.
  - intros [x [Hx Hk]]. exists x. split; [apply Z.eqb_eq, Hk | exact Hx].
  - intros [x [Hk Hx]]. exists x. split; [exact Hx | apply Z.eqb_eq, Hk].
Qed.

Lemma existsb_has_key_false k (c : list (Doc D)) :
  existsb (has_key key k) c = false <-> ~ In k (keys key c).
Proof.
  rewrite <- existsb_has_key. destruct (existsb (has_key key k) c); split; congruence.
Qed.

(** Updating in place keeps the identifiers, provided the new fields carry
    the identifier that was looked up. *)
Lemma keys_updateFirst k d (c : list (Doc D)) :
  key d = k -> keys key (updateFirst (has_key key k) d c) = keys key c.
Proof.
  intros Hd. induction c as [|x c IH]; simpl; [reflexivity|].
  unfold has_key at 1. destruct (key (fields x) =? k)%Z eqn:E; simpl.
  - apply Z.eqb_eq in E. congruence.
  - f_equal. exact IH.
Qed.

Lemma keys_upsert k d fresh (c : list (Doc D)) :
  key d = k ->
  keys key (upsert key k d fresh c) =
    if existsb (has_key key k) c then keys key c else keys key c ++ [k].
Proof.
  intros Hd. unfold upsert. destruct (existsb (has_key key k) c).
  - apply keys_updateFirst, Hd.
  - unfold keys. rewrite map_app. simpl. rewrite Hd. reflexivity.
Qed.

Lemma In_keys_upsert k d fresh (c : list (Doc D)) k' :
  key d = k ->
  In k' (keys key (upsert key k d fresh c)) <-> k' = k \/ In k' (keys key c).
Proof.
  intros Hd. rewrite keys_upsert by exact Hd.
  destruct (existsb (has_key key k) c) eqn:E.
  - apply existsb_has_key in E. split; [auto | intros [->|]; auto].
  - rewrite in_app_iff. simpl. split; intros H; intuition congruence.
Qed.

Lemma NoDup_keys_upsert k d fresh (c : list (Doc D)) :
  key d = k -> NoDup (keys key c) -> NoDup (keys key (upsert key k d fresh c)).
Proof.
  intros Hd Hc. rewrite keys_upsert by exact Hd.
  destruct (existsb (has_key key k) c) eqn:E; [exact Hc|].
  apply existsb_has_key_false in E.
  apply NoDup_rev in Hc. rewrite <- (rev_involutive (keys key c ++ [k])).
  apply NoDup_rev. rewrite rev_app_distr. simpl. constructor.
  - rewrite <- in_rev. exact E.
  - exact Hc.
Qed.
End CollectionFacts.

(* ===================================================================== *)
(** * A sync pass moves by sync steps *)
(* ===================================================================== *)

Lemma reach_trans step w1 w2 w3 :
  reach step w1 w2 -> reach step w2 w3 -> reach step w1 w3.
Proof. intros H12 H23. induction H23; [assumption | econstructor; eauto]. Qed.

Lemma reach_invariant step (I : World -> Prop) w w' :
  (forall w1 w2, step w1 w2 -> I w1 -> I w2) -> reach step w w' -> I w -> I w'.
Proof. intros Hs Hr Hw. induction Hr; eauto. Qed.

Section BackfillSteps.
Variable env : Env.
Variable I : World -> Prop.
Hypothesis I_step : forall w1 w2, backfill_step w1 w2 -> I w1 -> I w2.

Local Ltac step_with c := intros; eapply I_step; [apply c; reflexivity | assumption].

Lemma backfill_log lg lvl msg : preserves I (log lg lvl msg).
Proof. apply preserves_log. intros; eapply I_step; [apply backfill_logged | assumption]. Qed.

Lemma backfill_fetchProduct id : preserves I (fetchProduct env id).
Proof.
  apply hoare_fetchProduct; [step_with backfill_failed | step_with backfill_read_ok].
Qed.

Lemma backfill_Product_findOne id : preserves I (Product_findOne env id).
Proof.
  apply preserves_db_call; [step_with backfill_failed | step_with backfill_read_ok].
Qed.

Lemma backfill_syncProduct wooProduct : preserves I (syncProduct env wooProduct).
Proof.
  apply preserves_db_call; [step_with backfill_failed|].
  intros w Hw. eapply I_step; [|exact Hw].
  apply (backfill_product_written (productData_of env wooProduct)).
Qed.

Lemma backfill_backfillProduct orderId productId :
  preserves I (backfillProduct env orderId productId).
Proof.
  apply preserves_try_catch; [|intros; apply backfill_log].
  apply preserves_bind; [apply backfill_Product_findOne|].
  intros [doc|]; [apply preserves_ret|].
  apply preserves_bind; [apply backfill_fetchProduct|]. intros wooProduct.
  apply preserves_bind; [apply backfill_syncProduct|]. intros _. apply backfill_log.
Qed.

Lemma backfill_syncProductsFromOrder wooOrder :
  preserves I (syncProductsFromOrder env wooOrder).
Proof. apply preserves_for_of. intros; apply backfill_backfillProduct. Qed.
End BackfillSteps.

Section RecordSteps.
Variable env : Env.
Variable I : World -> Prop.
Hypothesis I_step : forall w1 w2, record_step w1 w2 -> I w1 -> I w2.

Lemma I_backfill_step w1 w2 : backfill_step w1 w2 -> I w1 -> I w2.
Proof. intros H. apply I_step, record_backfill, H. Qed.

Lemma record_log lg lvl msg : preserves I (log lg lvl msg).
Proof. apply backfill_log, I_backfill_step. Qed.

Lemma record_syncOrder wooOrder : preserves I (syncOrder env wooOrder).
Proof.
  apply preserves_bind;
    [|intros; apply backfill_syncProductsFromOrder, I_backfill_step].
  apply preserves_db_call.
  - intros w Hw. eapply I_step; [apply record_order_failed | exact Hw].
  - intros w Hw. eapply I_step; [|exact Hw].
    apply (record_order_written (orderData_of env wooOrder)).
Qed.

Lemma record_syncOrders_record c wooOrder :
  preserves I (syncOrders_record env c wooOrder).
Proof.
  destruct c as [synced errors]. unfold syncOrders_record. apply preserves_try_catch.
  - apply preserves_bind; [apply record_syncOrder|]. intros _.
    apply preserves_bind; [apply record_log|]. intros _. apply preserves_ret.
  - intros e. apply preserves_bind; [apply record_log|]. intros _. apply preserves_ret.
Qed.

Lemma record_syncOrders_page orders c : preserves I (syncOrders_page env orders c).
Proof. apply preserves_for_of. intros; apply record_syncOrders_record. Qed.
End RecordSteps.

Section SyncSteps.
Variable env : Env.
Variable I : World -> Prop.
Hypothesis I_step : forall w1 w2, sync_step w1 w2 -> I w1 -> I w2.

Lemma I_record_step w1 w2 : record_step w1 w2 -> I w1 -> I w2.
Proof. intros H. apply I_step, sync_record, H. Qed.

Lemma sync_log lg lvl msg : preserves I (log lg lvl msg).
Proof. apply record_log, I_record_step. Qed.

Lemma sync_fetchOrders page pp after : preserves I (fetchOrders env page pp after).
Proof.
  apply hoare_fetchOrders; intros; (eapply I_step; [apply sync_page | assumption]).
Qed.

Lemma sync_syncOrders_loop fuel :
  forall page synced errors, preserves I (syncOrders_loop env fuel page synced errors).
Proof.
  induction fuel as [|fuel IH]; intros page synced errors; simpl.
  - intros w Hw. exact Hw.
  - apply preserves_bind; [apply sync_log|]. intros _.
    apply preserves_bind; [apply sync_fetchOrders|]. intros orders.
    apply preserves_if.
    + apply preserves_bind; [apply sync_log|]. intros _. apply preserves_ret.
    + apply preserves_bind; [apply record_syncOrders_page, I_record_step|].
      intros [s e]. apply preserves_if; [apply preserves_ret | apply IH].
Qed.

Lemma sync_syncOrders fuel : preserves I (syncOrders env fuel).
Proof.
  apply preserves_bind; [apply sync_log|]. intros _.
  apply preserves_try_catch.
  - apply preserves_bind; [apply sync_syncOrders_loop|]. intros [s e].
    apply preserves_bind; [apply sync_log|]. intros _. apply preserves_ret.
  - intros e. apply preserves_bind; [apply sync_log|]. intros _. apply preserves_throw.
Qed.
End SyncSteps.

(** Every world the processing of a record ends in is reached by record
    steps. *)
Lemma syncOrders_record_reach env c wooOrder w :
  reach record_step w (snd (syncOrders_record env c wooOrder w)).
Proof.
  assert (H : preserves (reach record_step w) (syncOrders_record env c wooOrder)).
  { apply record_syncOrders_record. intros w1 w2 Hs Hr. econstructor; eauto. }
  apply H. constructor.
Qed.

Lemma syncOrders_page_reach env orders c w :
  reach record_step w (snd (syncOrders_page env orders c w)).
Proof.
  assert (H : preserves (reach record_step w) (syncOrders_page env orders c)).
  { apply record_syncOrders_page. intros w1 w2 Hs Hr. econstructor; eauto. }
  apply H. constructor.
Qed.

Lemma syncProductsFromOrder_reach env wooOrder w :
  reach backfill_step w (snd (syncProductsFromOrder env wooOrder w)).
Proof.
  assert (H : preserves (reach backfill_step w) (syncProductsFromOrder env wooOrder)).
  { apply backfill_syncProductsFromOrder. intros w1 w2 Hs Hr. econstructor; eauto. }
  apply H. constructor.
Qed.

Lemma backfillProduct_reach env orderId productId w :
  reach backfill_step w (snd (backfillProduct env orderId productId w)).
Proof.
  assert (H : preserves (reach backfill_step w) (backfillProduct env orderId productId)).
  { apply backfill_backfillProduct. intros w1 w2 Hs Hr. econstructor; eauto. }
  apply H. constructor.
Qed.

(** Every world a sync pass ends in is reached by sync steps. *)
Lemma syncOrders_reach env fuel w :
  reach sync_step w (snd (syncOrders env fuel w)).
Proof.
  assert (H : preserves (reach sync_step w) (syncOrders env fuel)).
  { apply sync_syncOrders. intros w1 w2 Hs Hr. econstructor; eauto. }
  apply H. constructor.
Qed.

Lemma run_passes_reach passes : forall w, reach sync_step w (run_passes passes w).
Proof.
  induction passes as [|[env fuel] passes IH]; intros w; simpl.
  - constructor.
  - eapply reach_trans; [apply syncOrders_reach | apply IH].
Qed.

(* ===================================================================== *)
(** * What the writes do to each component of the world *)
(* ===================================================================== *)

Lemma db_orders_upsert_order id d w :
  db_orders (upsert_order id d w) =
    upsert Order.wooCommerceId id d (next_id w) (db_orders w).
Proof. unfold upsert_order. destruct (existsb _ _); reflexivity. Qed.

Lemma db_products_upsert_order id d w :
  db_products (upsert_order id d w) = db_products w.
Proof. unfold upsert_order. destruct (existsb _ _); reflexivity. Qed.

Lemma trace_upsert_order id d w : trace (upsert_order id d w) = trace w.
Proof. unfold upsert_order. destruct (existsb _ _); reflexivity. Qed.

Lemma logs_upsert_order id d w : logs (upsert_order id d w) = logs w.
Proof. unfold upsert_order. destruct (existsb _ _); reflexivity. Qed.

Lemma db_products_upsert_product id d w :
  db_products (upsert_product id d w) =
    upsert Product.wooCommerceId id d (next_id w) (db_products w).
Proof. unfold upsert_product. destruct (existsb _ _); reflexivity. Qed.

Lemma db_orders_upsert_product id d w :
  db_orders (upsert_product id d w) = db_orders w.
Proof. unfold upsert_product. destruct (existsb _ _); reflexivity. Qed.

Lemma trace_upsert_product id d w : trace (upsert_product id d w) = trace w.
Proof. unfold upsert_product. destruct (existsb _ _); reflexivity. Qed.

Lemma logs_upsert_product id d w : logs (upsert_product id d w) = logs w.
Proof. unfold upsert_product. destruct (existsb _ _); reflexivity. Qed.

Create Rewrite HintDb world.
#[export] Hint Rewrite db_orders_upsert_order db_products_upsert_order
  trace_upsert_order logs_upsert_order db_products_upsert_product
  db_orders_upsert_product trace_upsert_product logs_upsert_product : world.

(** The number of documents stored under an identifier. *)
Lemma length_stored {D} (key : D -> Z) k (c : list (Doc D)) :
  List.length (stored key k c) = count_occ Z.eq_dec (keys key c) k.
Proof.
  unfold stored, keys, has_key. induction c as [|x c IH]; simpl; [reflexivity|].
  destruct (Z.eq_dec (key (fields x)) k) as [E|E].
  - apply Z.eqb_eq in E. rewrite E. simpl. f_equal. exact IH.
  - apply Z.eqb_neq in E. rewrite E. exact IH.
Qed.

Lemma stored_at_most_one {D} (key : D -> Z) k (c : list (Doc D)) :
  NoDup (keys key c) -> List.length (stored key k c) <= 1.
Proof.
  intros H. rewrite length_stored.
  rewrite (NoDup_count_occ Z.eq_dec) in H. apply H.
Qed.

Lemma stored_exactly_one {D} (key : D -> Z) k (c : list (Doc D)) :
  NoDup (keys key c) -> In k (keys key c) -> List.length (stored key k c) = 1.
Proof.
  intros H Hin. rewrite length_stored.
  apply (NoDup_count_occ' Z.eq_dec); assumption.
Qed.

(** ** The invariant behind "one record per remote identifier" *)

Lemma one_per_id_backfill_step base w1 w2 :
  backfill_step w1 w2 -> one_per_id base w1 -> one_per_id base w2.
Proof.
  intros Hs [Ho Hp [new [Ht [Hwo Hwp]]]].
  destruct Hs as [e w | c w Hc | c w Hc | d w].
  - constructor; simpl; try assumption. exists new. auto.
  - constructor; simpl; try assumption. exists ((c, false) :: new).
    rewrite Ht. split; [reflexivity|]. split.
    + intros id [Heq|Hin]; [discriminate | auto].
    + intros id [Heq|Hin]; [discriminate | auto].
  - constructor; simpl; try assumption. exists ((c, true) :: new).
    rewrite Ht. split; [reflexivity|]. split.
    + intros id [Heq|Hin]; [inversion Heq; subst c; discriminate | auto].
    + intros id [Heq|Hin]; [inversion Heq; subst c; discriminate | auto].
  - constructor; simpl; autorewrite with world; try assumption.
    + apply NoDup_keys_upsert; [reflexivity | assumption].
    + exists ((ProductFindOneAndUpdate (Product.wooCommerceId d), true) :: new).
      rewrite Ht. split; [reflexivity|]. split.
      * intros id [Heq|Hin]; [discriminate | auto].
      * intros id Hin. apply In_keys_upsert; [reflexivity|].
        destruct Hin as [Heq|Hin]; [inversion Heq; auto | auto].
Qed.

Lemma one_per_id_record_step base w1 w2 :
  record_step w1 w2 -> one_per_id base w1 -> one_per_id base w2.
Proof.
  intros [w w' Hs | id w | d w] H.
  - eapply one_per_id_backfill_step; eauto.
  - destruct H as [Ho Hp [new [Ht [Hwo Hwp]]]].
    constructor; simpl; try assumption.
    exists ((OrderFindOneAndUpdate id, false) :: new).
    rewrite Ht. split; [reflexivity|]. split.
    + intros id' [Heq|Hin]; [discriminate | auto].
    + intros id' [Heq|Hin]; [discriminate | auto].
  - destruct H as [Ho Hp [new [Ht [Hwo Hwp]]]].
    constructor; simpl; autorewrite with world; try assumption.
    + apply NoDup_keys_upsert; [reflexivity | assumption].
    + exists ((OrderFindOneAndUpdate (Order.wooCommerceId d), true) :: new).
      rewrite Ht. split; [reflexivity|]. split.
      * intros id Hin. apply In_keys_upsert; [reflexivity|].
        destruct Hin as [Heq|Hin]; [inversion Heq; auto | auto].
      * intros id [Heq|Hin]; [discriminate | auto].
Qed.

Lemma one_per_id_step base w1 w2 :
  sync_step w1 w2 -> one_per_id base w1 -> one_per_id base w2.
Proof.
  intros [w w' Hs | page pp after ok w] H.
  - eapply one_per_id_record_step; eauto.
  - destruct H as [Ho Hp [new [Ht [Hwo Hwp]]]].
    constructor; simpl; try assumption.
    exists ((FetchOrders page pp after, ok) :: new).
    rewrite Ht. split; [reflexivity|]. split.
    + intros id [Heq|Hin]; [discriminate | auto].
    + intros id [Heq|Hin]; [discriminate | auto].
Qed.


(* ===================================================================== *)
(** * A retention pass moves by delete steps, then by prune steps *)
(* ===================================================================== *)

Lemma calls_during_app w w' new :
  trace w' = new ++ trace w -> calls_during w w' = new.
Proof.
  intros H. unfold calls_during. rewrite H, length_app.
  replace (List.length new + List.length (trace w) - List.length (trace w))
    with (List.length new + 0) by lia.
  rewrite firstn_app_2. simpl. apply app_nil_r.
Qed.

Section DeleteFirst.
Context {D : Type}.

Lemma In_deleteFirst_or (p : Doc D -> bool) c x :
  In x c -> In x (deleteFirst p c) \/ p x = true.
Proof.
  induction c as [|y c IH]; simpl; [auto|].
  intros [Heq|Hin].
  - subst y. destruct (p x) eqn:E; simpl; auto.
  - destruct (p y); simpl; [auto|]. destruct (IH Hin); auto.
Qed.

Lemma filter_deleteFirst (p q : Doc D -> bool) c :
  (forall x, p x = true -> q x = false) ->
  filter q (deleteFirst p c) = filter q c.
Proof.
  intros H. induction c as [|y c IH]; simpl; [reflexivity|].
  destruct (p y) eqn:E; simpl.
  - rewrite (H y E). reflexivity.
  - rewrite IH. reflexivity.
Qed.
End DeleteFirst.

Lemma stored_delete_other id id' (c : list (Doc Product.t)) :
  id <> id' ->
  stored Product.wooCommerceId id' (deleteFirst (has_key Product.wooCommerceId id) c)
  = stored Product.wooCommerceId id' c.
Proof.
  intros Hne. apply filter_deleteFirst. unfold has_key. intros x Hx.
  apply Z.eqb_eq in Hx. apply Z.eqb_neq. congruence.
Qed.

(** ** JavaScript sets *)

Lemma JsSet_has_In x s : JsSet.has x s = true <-> In x s.
Proof.
  unfold JsSet.has. rewrite existsb_exists. split.
  - intros [y [Hy E]]. apply Z.eqb_eq in E. subst y. exact Hy.
  - intros H. exists x. split; [exact H | apply Z.eqb_refl].
Qed.

Lemma JsSet_add_In x y s : In y (JsSet.add x s) <-> y = x \/ In y s.
Proof.
  unfold JsSet.add. destruct (JsSet.has x s) eqn:E.
  - apply JsSet_has_In in E. split; [auto | intros [->|]; auto].
  - rewrite in_app_iff. simpl. intuition.
Qed.

Lemma JsSet_add_NoDup x s : NoDup s -> NoDup (JsSet.add x s).
Proof.
  intros H. unfold JsSet.add. destruct (JsSet.has x s) eqn:E; [exact H|].
  assert (Hx : ~ In x s).
  { intros Hin. apply JsSet_has_In in Hin. congruence. }
  apply NoDup_rev in H. rewrite <- (rev_involutive (s ++ [x])).
  apply NoDup_rev. rewrite rev_app_distr. simpl. constructor; [|exact H].
  rewrite <- in_rev. exact Hx.
Qed.

Lemma JsSet_add_all_In (items : list LineItem.t) : forall s y,
  In y (fold_left (fun s item => JsSet.add (LineItem.product_id item) s) items s)
  <-> In y s \/ exists item, In item items /\ LineItem.product_id item = y.
Proof.
  induction items as [|i items IH]; intros s y; simpl.
  - split; [auto | intros [H|[item [[] _]]]; exact H].
  - rewrite IH, JsSet_add_In. split.
    + intros [[->|H]|[item [Hi He]]]; eauto.
    + intros [H|[item [[->|Hi] He]]]; eauto.
Qed.

Lemma JsSet_of_array_In l y : In y (JsSet.of_array l) <-> In y l.
Proof.
  unfold JsSet.of_array.
  assert (G : forall s, In y (fold_left (fun s x => JsSet.add x s) l s) <-> In y s \/ In y l).
  { induction l as [|x l IH]; intros s; simpl; [intuition|].
    rewrite IH, JsSet_add_In. intuition. }
  rewrite G. simpl. intuition.
Qed.

Lemma JsSet_of_array_NoDup l : NoDup (JsSet.of_array l).
Proof.
  unfold JsSet.of_array.
  assert (G : forall s, NoDup s -> NoDup (fold_left (fun s x => JsSet.add x s) l s)).
  { induction l as [|x l IH]; intros s Hs; simpl; [exact Hs|].
    apply IH, JsSet_add_NoDup, Hs. }
  apply G. constructor.
Qed.

Lemma references_iff id o :
  references id o = true <->
  exists item, In item (Order.line_items (fields o)) /\ LineItem.product_id item = id.
Proof.
  unfold references. rewrite existsb_exists. split.
  - intros [item [Hi E]]. exists item. split; [exact Hi | apply Z.eqb_eq, E].
  - intros [item [Hi E]]. exists item. split; [exact Hi | apply Z.eqb_eq, E].
Qed.

(** The candidate set holds exactly the products the selected orders
    reference. *)
Lemma productIdsToCheck_of_In (l : list (Doc Order.t)) : forall s y,
  In y (productIdsToCheck_of l s)
  <-> In y s \/ exists o, In o l /\ references y o = true.
Proof.
  unfold productIdsToCheck_of.
  induction l as [|o l IH]; intros s y; simpl.
  - split; [auto | intros [H|[o [[] _]]]; exact H].
  - rewrite IH, JsSet_add_all_In. split.
    + intros [[H|H]|[o' [Ho' Hr]]]; eauto.
      right. exists o. split; [auto | apply references_iff, H].
    + intros [H|[o' [[->|Ho'] Hr]]]; eauto.
      left. right. apply references_iff, Hr.
Qed.

(** ** The two loops *)

Lemma for_of_cons {A S} (body : S -> A -> M S) x l s w :
  for_of body (x :: l) s w =
    match body s x w with
    | (Ret s', w') => for_of body l s' w'
    | (Throw e, w') => (Throw e, w')
    | (OutOfFuel, w') => (OutOfFuel, w')
    end.
Proof. reflexivity. Qed.

(** A loop whose every round returns and moves by steps returns and moves by
    steps. *)
Lemma for_of_reach {A S} (step : World -> World -> Prop) (body : S -> A -> M S)
      (l : list A) :
  (forall s x w, In x l ->
     exists s', fst (body s x w) = Ret s' /\ reach step w (snd (body s x w))) ->
  forall s w,
    exists s', fst (for_of body l s w) = Ret s'
               /\ reach step w (snd (for_of body l s w)).
Proof.
  induction l as [|x l IH]; intros Hbody s w.
  - exists s. split; [reflexivity | constructor].
  - rewrite for_of_cons.
    destruct (Hbody s x w (or_introl eq_refl)) as [s1 [Hr Hw]].
    destruct (body s x w) as [r w1]; simpl in *; subst r.
    destruct (IH (fun s x w Hx => Hbody s x w (or_intror Hx)) s1 w1) as [s' [Hr' Hw']].
    exists s'. split; [exact Hr' | eapply reach_trans; eauto].
Qed.

Lemma reach_snoc step w w1 w2 :
  step w1 w2 -> reach step w w1 -> reach step w w2.
Proof. intros; econstructor; eauto. Qed.

Lemma cleanupOldOrders_record_step env n ids o w :
  exists n',
    fst (cleanupOldOrders_record env (n, ids) o w)
      = Ret (n', productIdsToCheck_of [o] ids)
    /\ reach delete_step w (snd (cleanupOldOrders_record env (n, ids) o w)).
Proof.
  unfold cleanupOldOrders_record, try_catch, bind, Order_findByIdAndDelete,
    db_call, log, ret.
  destruct (db_fault env (clock w) (OrderFindByIdAndDelete (_id o))); simpl;
    eexists; (split; [reflexivity|]).
  - eapply reach_snoc; [apply delete_logged|].
    eapply reach_snoc; [apply delete_failed; reflexivity|]. constructor.
  - eapply reach_snoc; [apply delete_logged|].
    eapply reach_snoc; [apply delete_done|]. constructor.
Qed.

Lemma cleanupOldOrders_delete_loop env (l : list (Doc Order.t)) : forall n ids w,
  exists n',
    fst (for_of (cleanupOldOrders_record env) l (n, ids) w)
      = Ret (n', productIdsToCheck_of l ids)
    /\ reach delete_step w (snd (for_of (cleanupOldOrders_record env) l (n, ids) w)).
Proof.
  induction l as [|o l IH]; intros n ids w.
  - exists n. split; [reflexivity | constructor].
  - rewrite for_of_cons.
    destruct (cleanupOldOrders_record_step env n ids o w) as [n1 [Hr Hw]].
    destruct (cleanupOldOrders_record env (n, ids) o w) as [r w1]; simpl in Hr, Hw.
    subst r. destruct (IH n1 (productIdsToCheck_of [o] ids) w1) as [n' [Hr' Hw']].
    exists n'. split; [exact Hr' | eapply reach_trans; eauto].
Qed.

Lemma cleanupUnusedProducts_id_step env candidates n id w :
  In id candidates ->
  exists n',
    fst (cleanupUnusedProducts_id env n id w) = Ret n'
    /\ reach (prune_step candidates) w (snd (cleanupUnusedProducts_id env n id w)).
Proof.
  intros Hid.
  unfold cleanupUnusedProducts_id, try_catch, bind, Order_findOne_by_product,
    Product_findOneAndDelete, db_call, log, ret.
  destruct (db_fault env (clock w) (OrderFindOneByProduct id)); simpl.
  - eexists; split; [reflexivity|].
    eapply reach_snoc; [apply prune_logged|].
    eapply reach_snoc; [apply prune_failed; exact Hid|]. constructor.
  - destruct (findOne (references id) (db_orders w)) eqn:Efind; simpl.
    + eexists; split; [reflexivity|].
      eapply reach_snoc; [apply prune_checked; exact Hid|]. constructor.
    + destruct (db_fault env _ (ProductFindOneAndDelete id)); simpl;
        (eexists; split; [reflexivity|]).
      * eapply reach_snoc; [apply prune_logged|].
        eapply reach_snoc; [apply prune_failed; exact Hid|].
        eapply reach_snoc; [apply prune_checked; exact Hid|]. constructor.
      * eapply reach_snoc; [apply prune_logged|].
        eapply reach_snoc; [apply prune_done; [exact Hid | exact Efind]|].
        eapply reach_snoc; [apply prune_checked; exact Hid|]. constructor.
Qed.

Lemma cleanupUnusedProducts_loop env candidates (ids : list Z) :
  incl ids candidates ->
  forall n w,
  exists n',
    fst (for_of (cleanupUnusedProducts_id env) ids n w) = Ret n'
    /\ reach (prune_step candidates) w
             (snd (for_of (cleanupUnusedProducts_id env) ids n w)).
Proof.
  intros Hincl. apply for_of_reach.
  intros s x w Hx. apply cleanupUnusedProducts_id_step. apply Hincl, Hx.
Qed.

(** ** The pass: delete steps first, prune steps after *)

Lemma cleanupOldOrders_phases env w :
  exists w1,
    reach delete_step w w1
    /\ reach (prune_step (productIdsToCheck_of (ordersToDelete_of env w) [])) w1
             (snd (cleanupOldOrders env w)).
Proof.
  unfold cleanupOldOrders, cleanupOldOrders_delete, cleanupUnusedProducts.
  unfold bind at 1. unfold log at 1. unfold try_catch at 1. unfold bind at 1.
  unfold Order_find, db_call.
  change (clock (add_log (SyncServiceLog, INFO, StartingCleanup) w)) with (clock w).
  destruct (db_fault env (clock w) (OrderFind (threeMonthsAgo env))).
  - eexists. split; [|apply reach_refl].
    unfold bind, log, throw; simpl.
    eapply reach_snoc; [apply delete_logged|].
    eapply reach_snoc; [apply delete_failed; reflexivity|].
    eapply reach_snoc; [apply delete_logged|]. constructor.
  - cbn [fst snd db_orders add_log].
    fold (ordersToDelete_of env w).
    set (l := ordersToDelete_of env w).
    unfold bind at 1. unfold log at 1. unfold bind at 1.
    match goal with |- context [for_of (cleanupOldOrders_record env) l (0, []) ?wA] =>
      destruct (cleanupOldOrders_delete_loop env l 0 [] wA) as [n1 [Hr1 Hw1]];
      destruct (for_of (cleanupOldOrders_record env) l (0, []) wA) as [r1 w1] eqn:E1
    end.
    simpl in Hr1, Hw1. subst r1.
    exists w1. split.
    + eapply reach_trans; [|exact Hw1].
      eapply reach_snoc; [apply delete_logged|].
      eapply reach_snoc; [apply delete_found|].
      eapply reach_snoc; [apply delete_logged|]. constructor.
    + unfold bind at 1.
      destruct (cleanupUnusedProducts_loop env (candidates := productIdsToCheck_of l [])
                  (incl_refl _) 0 w1) as [n2 [Hr2 Hw2]].
      destruct (for_of (cleanupUnusedProducts_id env) (productIdsToCheck_of l []) 0 w1)
        as [r2 w2] eqn:E2.
      simpl in Hr2, Hw2. subst r2. unfold bind, log, ret. simpl.
      eapply reach_snoc; [apply prune_logged | exact Hw2].
Qed.

(** ** What delete steps and prune steps can change *)

Lemma delete_reach_facts w w1 :
  reach delete_step w w1 ->
  db_products w1 = db_products w
  /\ exists new, trace w1 = new ++ trace w
                 /\ forall ev, In ev new -> delete_call (fst ev) = true.
Proof.
  induction 1 as [|w1 w2 Hr [IHp [new [IHt IHc]]] Hs].
  - split; [reflexivity|]. exists []. split; [reflexivity | intros ev []].
  - destruct Hs as [e w1 | c w1 Hc | date w1 | id w1]; simpl.
    + split; [exact IHp|]. exists new. auto.
    + split; [exact IHp|]. exists ((c, false) :: new). rewrite IHt.
      split; [reflexivity|]. intros ev [<-|Hin]; auto.
    + split; [exact IHp|]. exists ((OrderFind date, true) :: new). rewrite IHt.
      split; [reflexivity|]. intros ev [<-|Hin]; auto.
    + split; [exact IHp|]. exists ((OrderFindByIdAndDelete id, true) :: new).
      rewrite IHt. split; [reflexivity|]. intros ev [<-|Hin]; auto.
Qed.

Lemma prune_reach_facts candidates w1 w' :
  reach (prune_step candidates) w1 w' ->
  db_orders w' = db_orders w1
  /\ (exists new,
        trace w' = new ++ trace w1
        /\ (forall ev, In ev new -> prune_call candidates (fst ev))
        /\ (forall id, In (ProductFindOneAndDelete id, true) new ->
                       findOne (references id) (db_orders w1) = None))
  /\ (forall id, ~ In id candidates ->
        stored Product.wooCommerceId id (db_products w')
        = stored Product.wooCommerceId id (db_products w1))
  /\ (forall doc, In doc (db_products w1) ->
        In doc (db_products w')
        \/ (In (Product.wooCommerceId (fields doc)) candidates
            /\ findOne (references (Product.wooCommerceId (fields doc)))
                       (db_orders w1) = None)).
Proof.
  induction 1 as [|w2 w3 Hr [IHo [[new [IHt [IHc IHd]]] [IHs IHp]]] Hs].
  - split; [reflexivity|]. split; [|split; auto].
    exists []. split; [reflexivity|]. split; intros ? [].
  - destruct Hs as [e w2 | c w2 Hc | id w2 Hid | id w2 Hid Hnone]; simpl.
    + split; [exact IHo|]. split; [|split; assumption]. exists new. auto.
    + split; [exact IHo|]. split; [|split; assumption].
      exists ((c, false) :: new). rewrite IHt. split; [reflexivity|]. split.
      * intros ev [<-|Hin]; auto.
      * intros id [Heq|Hin]; [discriminate | auto].
    + split; [exact IHo|]. split; [|split; assumption].
      exists ((OrderFindOneByProduct id, true) :: new). rewrite IHt.
      split; [reflexivity|]. split.
      * intros ev [<-|Hin]; auto.
      * intros id' [Heq|Hin]; [discriminate | auto].
    + split; [exact IHo|]. split; [|split].
      * exists ((ProductFindOneAndDelete id, true) :: new). rewrite IHt.
        split; [reflexivity|]. split.
        -- intros ev [<-|Hin]; auto.
        -- intros id' [Heq|Hin]; [|auto]. inversion Heq; subst id'.
           rewrite <- IHo. exact Hnone.
      * intros id' Hid'. rewrite <- (IHs id' Hid').
        apply stored_delete_other. intros ->. contradiction.
      * intros doc Hdoc. destruct (IHp doc Hdoc) as [Hin|Hgone]; [|auto].
        destruct (In_deleteFirst_or (has_key Product.wooCommerceId id) _ _ Hin)
          as [Hkept|Hkey]; [auto|].
        right. unfold has_key in Hkey. apply Z.eqb_eq in Hkey. rewrite Hkey.
        split; [exact Hid|]. rewrite <- IHo. exact Hnone.
Qed.

(** The facts of both phases, for the whole pass. *)
Lemma cleanupOldOrders_facts env w :
  let w' := snd (cleanupOldOrders env w) in
  let candidates := productIdsToCheck_of (ordersToDelete_of env w) [] in
  (exists phase1 phase2,
      calls_during w w' = phase2 ++ phase1
      /\ (forall ev, In ev phase1 -> delete_call (fst ev) = true)
      /\ (forall ev, In ev phase2 -> prune_call candidates (fst ev))
      /\ (forall id, In (ProductFindOneAndDelete id, true) phase2 ->
                     findOne (references id) (db_orders w') = None))
  /\ (forall id, ~ In id candidates ->
        stored Product.wooCommerceId id (db_products w')
        = stored Product.wooCommerceId id (db_products w))
  /\ (forall doc, In doc (db_products w) ->
        In doc (db_products w')
        \/ (In (Product.wooCommerceId (fields doc)) candidates
            /\ findOne (references (Product.wooCommerceId (fields doc)))
                       (db_orders w') = None)).
Proof.
  intros w' candidates.
  destruct (cleanupOldOrders_phases env w) as [w1 [H1 H2]].
  destruct (delete_reach_facts H1) as [Hp1 [new1 [Ht1 Hc1]]].
  destruct (prune_reach_facts H2) as [Ho2 [[new2 [Ht2 [Hc2 Hd2]]] [Hs2 Hg2]]].
  fold w' in Ho2, Ht2, Hs2, Hg2. fold candidates in Hc2, Hs2, Hg2.
  split; [|split].
  - exists new1, new2. split; [|split; [exact Hc1 | split; [exact Hc2|]]].
    + apply calls_during_app. rewrite Ht2, Ht1. apply app_assoc.
    + intros id Hin. rewrite Ho2. apply Hd2, Hin.
  - intros id Hid. rewrite (Hs2 id Hid), Hp1. reflexivity.
  - intros doc Hdoc. rewrite <- Hp1 in Hdoc. rewrite Ho2. apply Hg2, Hdoc.
Qed.

(* ===================================================================== *)
(** * What record steps and sync steps can change *)
(* ===================================================================== *)

Lemma upsert_order_keeps_keys d w id :
  In id (keys Order.wooCommerceId (db_orders w)) ->
  In id (keys Order.wooCommerceId
              (db_orders (upsert_order (Order.wooCommerceId d) d w))).
Proof.
  intros H. rewrite db_orders_upsert_order.
  apply In_keys_upsert; [reflexivity | auto].
Qed.

Lemma upsert_product_keeps_keys d w id :
  In id (keys Product.wooCommerceId (db_products w)) ->
  In id (keys Product.wooCommerceId
              (db_products (upsert_product (Product.wooCommerceId d) d w))).
Proof.
  intros H. rewrite db_products_upsert_product.
  apply In_keys_upsert; [reflexivity | auto].
Qed.

(** Backfill steps leave the orders alone, extend the trace by backfill
    calls, and never remove a product identifier. *)
Lemma backfill_reach_facts w w' :
  reach backfill_step w w' ->
  db_orders w' = db_orders w
  /\ (exists new,
        trace w' = new ++ trace w
        /\ (forall ev, In ev new -> backfill_call (fst ev) = true))
  /\ (forall id, In id (keys Product.wooCommerceId (db_products w)) ->
                 In id (keys Product.wooCommerceId (db_products w'))).
Proof.
  induction 1 as [|w1 w2 Hr [IHo [[new [IHt IHc]] IHp]] Hs].
  - split; [reflexivity|]. split; [|auto].
    exists []. split; [reflexivity | intros ? []].
  - destruct Hs as [e w1 | c w1 Hc | c w1 Hc | d w1]; simpl.
    + split; [exact IHo|]. split; [|assumption]. exists new. auto.
    + split; [exact IHo|]. split; [|assumption]. exists ((c, false) :: new).
      rewrite IHt. split; [reflexivity|]. intros ev [<-|Hin]; auto.
    + split; [exact IHo|]. split; [|assumption]. exists ((c, true) :: new).
      rewrite IHt. split; [reflexivity|]. intros ev [<-|Hin]; auto.
      simpl. destruct c; try discriminate; reflexivity.
    + split; [rewrite db_orders_upsert_product; exact IHo|]. split.
      * exists ((ProductFindOneAndUpdate (Product.wooCommerceId d), true) :: new).
        rewrite trace_upsert_product, IHt. split; [reflexivity|].
        intros ev [<-|Hin]; auto.
      * intros id Hid. apply upsert_product_keeps_keys; auto.
Qed.

(** Record steps extend the trace by record-level calls, never remove an
    identifier from either collection, and leave every order whose upsert
    came back stored. *)
Lemma record_reach_facts w w' :
  reach record_step w w' ->
  (exists new,
      trace w' = new ++ trace w
      /\ (forall ev, In ev new -> record_level_call (fst ev) = true)
      /\ (forall id, In (OrderFindOneAndUpdate id, true) new ->
                     In id (keys Order.wooCommerceId (db_orders w'))))
  /\ (forall id, In id (keys Order.wooCommerceId (db_orders w)) ->
                 In id (keys Order.wooCommerceId (db_orders w')))
  /\ (forall id, In id (keys Product.wooCommerceId (db_products w)) ->
                 In id (keys Product.wooCommerceId (db_products w'))).
Proof.
  induction 1 as [|w1 w2 Hr [[new [IHt [IHc IHw]]] [IHo IHp]] Hs].
  - split; [|split; auto]. exists []. split; [reflexivity|]. split; intros ? [].
  - destruct Hs as [w1 w2 Hs | id w1 | d w1].
    + assert (H1 : reach backfill_step w1 w2) by (econstructor; [constructor | exact Hs]).
      destruct (backfill_reach_facts H1) as [Ho1 [[new1 [Ht1 Hc1]] Hp1]].
      split; [|split].
      * exists (new1 ++ new). rewrite Ht1, IHt, app_assoc. split; [reflexivity|]. split.
        -- intros ev Hin. apply in_app_or in Hin. destruct Hin as [Hin|Hin]; [|auto].
           specialize (Hc1 ev Hin). unfold record_level_call. rewrite Hc1.
           destruct (fst ev); reflexivity.
        -- intros id Hin. rewrite Ho1. apply in_app_or in Hin.
           destruct Hin as [Hin|Hin]; [|auto].
           specialize (Hc1 _ Hin). discriminate.
      * intros id Hid. rewrite Ho1. auto.
      * auto.
    + simpl. split; [|split; assumption].
      exists ((OrderFindOneAndUpdate id, false) :: new). rewrite IHt.
      split; [reflexivity|]. split.
      * intros ev [<-|Hin]; auto.
      * intros id' [Heq|Hin]; [discriminate | auto].
    + split; [|split].
      * exists ((OrderFindOneAndUpdate (Order.wooCommerceId d), true) :: new).
        simpl. rewrite trace_upsert_order, IHt. split; [reflexivity|]. split.
        -- intros ev [<-|Hin]; auto.
        -- intros id Hin. rewrite db_orders_upsert_order.
           apply In_keys_upsert; [reflexivity|].
           destruct Hin as [Heq|Hin]; [inversion Heq; auto | auto].
      * intros id Hid. apply upsert_order_keeps_keys; auto.
      * intros id Hid. simpl. rewrite db_products_upsert_order. auto.
Qed.

Lemma sync_reach_facts w w' :
  reach sync_step w w' ->
  (exists new,
      trace w' = new ++ trace w
      /\ (forall ev, In ev new -> sync_call (fst ev) = true)
      /\ (forall id, In (OrderFindOneAndUpdate id, true) new ->
                     In id (keys Order.wooCommerceId (db_orders w'))))
  /\ (forall id, In id (keys Order.wooCommerceId (db_orders w)) ->
                 In id (keys Order.wooCommerceId (db_orders w')))
  /\ (forall id, In id (keys Product.wooCommerceId (db_products w)) ->
                 In id (keys Product.wooCommerceId (db_products w'))).
Proof.
  induction 1 as [|w1 w2 Hr [[new [IHt [IHc IHw]]] [IHo IHp]] Hs].
  - split; [|split; auto]. exists []. split; [reflexivity|]. split; intros ? [].
  - destruct Hs as [w1 w2 Hs | page pp after ok w1].
    + assert (H1 : reach record_step w1 w2) by (econstructor; [constructor | exact Hs]).
      destruct (record_reach_facts H1) as [[new1 [Ht1 [Hc1 Hw1]]] [Ho1 Hp1]].
      split; [|split; auto].
      exists (new1 ++ new). rewrite Ht1, IHt, app_assoc. split; [reflexivity|]. split.
      * intros ev Hin. apply in_app_or in Hin. destruct Hin as [Hin|Hin]; [|auto].
        specialize (Hc1 ev Hin). unfold sync_call. rewrite Hc1.
        destruct (fst ev); reflexivity.
      * intros id Hin. apply in_app_or in Hin. destruct Hin as [Hin|Hin]; auto.
    + simpl. split; [|split; assumption].
      exists ((FetchOrders page pp after, ok) :: new). rewrite IHt.
      split; [reflexivity|]. split.
      * intros ev [<-|Hin]; auto.
      * intros id [Heq|Hin]; [discriminate | auto].
Qed.

(* ===================================================================== *)
(** * Processing records never throws *)
(* ===================================================================== *)

Lemma backfillProduct_returns env orderId productId w :
  fst (backfillProduct env orderId productId w) = Ret tt.
Proof.
  unfold backfillProduct, try_catch, bind, Product_findOne, fetchProduct, syncProduct,
    Product_findOneAndUpdate, db_call, log, ret.
  destruct (db_fault env (clock w) (ProductFindOne productId)); simpl; [reflexivity|].
  destruct (findOne _ (db_products w)); simpl; [reflexivity|].
  destruct (remote_product env _ productId); simpl; [|reflexivity].
  destruct (db_fault env _ _); reflexivity.
Qed.

Lemma for_of_unit_returns {A} (body : unit -> A -> M unit) (l : list A) :
  (forall x w, fst (body tt x w) = Ret tt) ->
  forall w, fst (for_of body l tt w) = Ret tt.
Proof.
  intros Hb. induction l as [|x l IH]; intros w; [reflexivity|].
  rewrite for_of_cons. specialize (Hb x w).
  destruct (body tt x w) as [r w1]; simpl in Hb; subst r. apply IH.
Qed.

Lemma syncProductsFromOrder_returns env wooOrder w :
  fst (syncProductsFromOrder env wooOrder w) = Ret tt.
Proof.
  unfold syncProductsFromOrder. apply for_of_unit_returns.
  intros; apply backfillProduct_returns.
Qed.

(** One round of the loop: the record counts as synced when its own upsert
    came back, and as an error when it threw; whatever happens to the
    products it references changes neither. *)
Lemma syncOrders_record_counts env synced errors wooOrder w :
  fst (syncOrders_record env (synced, errors) wooOrder w)
  = Ret (if db_fault env (clock w) (OrderFindOneAndUpdate (WooCommerceOrder.id wooOrder))
         then (synced, S errors) else (S synced, errors)).
Proof.
  unfold syncOrders_record, syncOrder, Order_findOneAndUpdate, db_call, try_catch, bind.
  destruct (db_fault env (clock w) _); [reflexivity|].
  match goal with |- context [syncProductsFromOrder env wooOrder ?w1] =>
    assert (H := syncProductsFromOrder_returns env wooOrder w1);
    destruct (syncProductsFromOrder env wooOrder w1) as [r w2] end.
  simpl in H. subst r. reflexivity.
Qed.

Lemma syncOrders_record_returns env c wooOrder w :
  exists c', fst (syncOrders_record env c wooOrder w) = Ret c'.
Proof. destruct c as [s e]. rewrite syncOrders_record_counts. eauto. Qed.

Lemma syncOrders_page_returns env orders : forall c w,
  exists c', fst (syncOrders_page env orders c w) = Ret c'.
Proof.
  unfold syncOrders_page. induction orders as [|o orders IH]; intros c w.
  - exists c. reflexivity.
  - rewrite for_of_cons. destruct (syncOrders_record_returns env c o w) as [c1 H1].
    destruct (syncOrders_record env c o w) as [r w1]; simpl in H1; subst r. apply IH.
Qed.

(* ===================================================================== *)
(** * The rounds of the [while] loop *)
(* ===================================================================== *)

Lemma syncOrders_loop_fetch_failed env fuel page synced errors w :
  remote_orders env (clock w) page perPage (afterDate env) = None ->
  syncOrders_loop env (S fuel) page synced errors w =
    (Throw (Failed (FetchOrders page perPage (afterDate env))),
     record_call (FetchOrders page perPage (afterDate env)) false
                 (add_log (SyncServiceLog, INFO, FetchingOrdersPage page) w)).
Proof.
  intros H. cbn [syncOrders_loop]. unfold bind at 1. unfold log at 1.
  unfold bind at 1. unfold fetchOrders.
  change (clock (add_log (SyncServiceLog, INFO, FetchingOrdersPage page) w))
    with (clock w).
  rewrite H. reflexivity.
Qed.

Lemma syncOrders_loop_round env fuel page synced errors w data :
  remote_orders env (clock w) page perPage (afterDate env) = Some data ->
  syncOrders_loop env (S fuel) page synced errors w =
    if List.length data =? 0 then
      (Ret (synced, errors),
       add_log (SyncServiceLog, INFO, NoMoreOrders)
         (record_call (FetchOrders page perPage (afterDate env)) true
            (add_log (SyncServiceLog, INFO, FetchingOrdersPage page) w)))
    else
      match syncOrders_page env data (synced, errors)
              (record_call (FetchOrders page perPage (afterDate env)) true
                 (add_log (SyncServiceLog, INFO, FetchingOrdersPage page) w)) with
      | (Ret (synced', errors'), w2) =>
          if List.length data <? perPage then (Ret (synced', errors'), w2)
          else syncOrders_loop env fuel (S page) synced' errors' w2
      | (Throw err, w2) => (Throw err, w2)
      | (OutOfFuel, w2) => (OutOfFuel, w2)
      end.
Proof.
  intros H. cbn [syncOrders_loop]. unfold bind at 1. unfold log at 1.
  unfold bind at 1. unfold fetchOrders.
  change (clock (add_log (SyncServiceLog, INFO, FetchingOrdersPage page) w))
    with (clock w).
  rewrite H. destruct (List.length data =? 0); [reflexivity|].
  unfold bind.
  destruct (syncOrders_page env data (synced, errors) _) as [[[s' e']|err|] w2];
    try reflexivity.
  destruct (List.length data <? perPage); reflexivity.
Qed.

(** The wrapper around the loop. *)
Lemma syncOrders_of_loop env fuel w :
  syncOrders env fuel w =
    match syncOrders_loop env fuel 1 0 0 (add_log (SyncServiceLog, INFO, StartingOrderSync) w) with
    | (Ret (synced, errors), w') =>
        (Ret (synced, errors),
         add_log (SyncServiceLog, INFO, OrderSyncCompleted synced errors) w')
    | (Throw e, w') =>
        (Throw e, add_log (SyncServiceLog, ERROR, FatalErrorDuringOrderSync e) w')
    | (OutOfFuel, w') => (OutOfFuel, w')
    end.
Proof.
  unfold syncOrders. unfold bind at 1. unfold log at 1. unfold try_catch, bind.
  destruct (syncOrders_loop env fuel 1 0 0 _) as [[[s e]|err|] w']; reflexivity.
Qed.

(** ** Page requests in the trace *)

Lemma pages_requested_app a b :
  pages_requested (a ++ b) = pages_requested b ++ pages_requested a.
Proof. unfold pages_requested. rewrite rev_app_distr, flat_map_app. reflexivity. Qed.

Lemma pages_requested_record_level new :
  (forall ev, In ev new -> record_level_call (fst ev) = true) ->
  pages_requested new = [].
Proof.
  intros H. induction new as [|[c ok] new IH]; [reflexivity|].
  change ((c, ok) :: new) with ([(c, ok)] ++ new). rewrite pages_requested_app.
  rewrite IH by (intros; apply H; simpl; auto). simpl.
  specialize (H (c, ok) (or_introl eq_refl)). destruct c; try discriminate; reflexivity.
Qed.

(** ** Termination at the first short page *)

Lemma syncOrders_loop_terminates env (pages : nat -> list WooCommerceOrder.t) :
  forall n page synced errors w fuel,
    (forall t p, page <= p <= page + n ->
                 remote_orders env t p perPage (afterDate env) = Some (pages p)) ->
    (forall p, page <= p < page + n -> perPage <= List.length (pages p)) ->
    List.length (pages (page + n)) < perPage ->
    n < fuel ->
    exists r w',
      syncOrders_loop env fuel page synced errors w = (Ret r, w')
      /\ exists new, trace w' = new ++ trace w
                     /\ pages_requested new = seq page (S n).
Proof.
  induction n as [|n IH]; intros page s e w fuel Hserve Hfull Hshort Hfuel;
    (destruct fuel as [|fuel]; [lia|]);
    rewrite (syncOrders_loop_round env fuel page s e w (data := pages page))
      by (apply Hserve; lia).
  - rewrite Nat.add_0_r in Hshort.
    destruct (List.length (pages page) =? 0).
    + do 2 eexists. split; [reflexivity|]. simpl.
      exists [(FetchOrders page perPage (afterDate env), true)]. split; reflexivity.
    + match goal with |- context [syncOrders_page env ?d ?c ?w1] =>
        destruct (syncOrders_page_returns env d c w1) as [[s' e'] Hr];
        assert (Hw := syncOrders_page_reach env d c w1);
        destruct (syncOrders_page env d c w1) as [r w2] end.
      simpl in Hr, Hw. subst r.
      apply Nat.ltb_lt in Hshort. rewrite Hshort.
      do 2 eexists. split; [reflexivity|].
      destruct (record_reach_facts Hw) as [[new [Ht [Hc _]]] _].
      exists (new ++ [(FetchOrders page perPage (afterDate env), true)]).
      rewrite Ht. simpl. rewrite <- app_assoc. split; [reflexivity|].
      rewrite pages_requested_app, (pages_requested_record_level _ Hc). reflexivity.
  - assert (Hlen : perPage <= List.length (pages page)) by (apply Hfull; lia).
    assert (E0 : (List.length (pages page) =? 0) = false).
    { apply Nat.eqb_neq. unfold perPage in Hlen. lia. }
    assert (E1 : (List.length (pages page) <? perPage) = false).
    { apply Nat.ltb_ge. exact Hlen. }
    rewrite E0.
    match goal with |- context [syncOrders_page env ?d ?c ?w1] =>
      destruct (syncOrders_page_returns env d c w1) as [[s' e'] Hr];
      assert (Hw := syncOrders_page_reach env d c w1);
      destruct (syncOrders_page env d c w1) as [r w2] end.
    simpl in Hr, Hw. subst r. rewrite E1.
    destruct (IH (S page) s' e' w2 fuel) as [r [w' [Hrun [new' [Ht' Hp']]]]].
    + intros t p Hp. apply Hserve. lia.
    + intros p Hp. apply Hfull. lia.
    + replace (S page + n) with (page + S n) by lia. exact Hshort.
    + lia.
    + exists r, w'. split; [exact Hrun|].
      destruct (record_reach_facts Hw) as [[new [Ht [Hc _]]] _].
      exists (new' ++ new ++ [(FetchOrders page perPage (afterDate env), true)]).
      rewrite Ht', Ht. simpl. rewrite <- !app_assoc. split; [reflexivity|].
      rewrite !pages_requested_app, (pages_requested_record_level _ Hc), Hp'.
      reflexivity.
Qed.

(** ** A shop whose every page is full *)

Lemma length_orders_from first n : List.length (Sample.orders_from first n) = n.
Proof. unfold Sample.orders_from. rewrite length_map, length_seq. reflexivity. Qed.

Lemma syncOrders_loop_endless : forall fuel page synced errors w,
  fst (syncOrders_loop Sample.endless fuel page synced errors w) = OutOfFuel
  /\ exists new,
       trace (snd (syncOrders_loop Sample.endless fuel page synced errors w))
       = new ++ trace w
       /\ pages_requested new = seq page fuel.
Proof.
  induction fuel as [|fuel IH]; intros page s e w.
  - split; [reflexivity|]. exists []. split; reflexivity.
  - rewrite (syncOrders_loop_round Sample.endless fuel page s e w
               (data := Sample.orders_from 1 100)) by reflexivity.
    rewrite length_orders_from.
    change (100 =? 0) with false. change (100 <? perPage) with false.
    match goal with |- context [syncOrders_page ?env ?d ?c ?w1] =>
      destruct (syncOrders_page_returns env d c w1) as [[s' e'] Hr];
      assert (Hw := syncOrders_page_reach env d c w1);
      destruct (syncOrders_page env d c w1) as [r w2] end.
    simpl in Hr, Hw. subst r.
    destruct (IH (S page) s' e' w2) as [Hout [new' [Ht' Hp']]].
    split; [exact Hout|].
    destruct (record_reach_facts Hw) as [[new [Ht [Hc _]]] _].
    exists (new' ++ new ++ [(FetchOrders page perPage (afterDate Sample.endless), true)]).
    rewrite Ht', Ht. simpl. rewrite <- !app_assoc. split; [reflexivity|].
    rewrite !pages_requested_app, (pages_requested_record_level _ Hc), Hp'.
    reflexivity.
Qed.

(* ===================================================================== *)
(** * Symbolic runs of the loop bodies *)
(* ===================================================================== *)

Lemma findOne_has_key_None {D} (key : D -> Z) k (c : list (Doc D)) :
  findOne (has_key key k) c = None <-> ~ In k (keys key c).
Proof.
  rewrite <- existsb_has_key_false. unfold findOne.
  induction c as [|x c IH]; simpl; [tauto|].
  destruct (has_key key k x); simpl; [split; discriminate | exact IH].
Qed.

Lemma findOne_has_key_Some {D} (key : D -> Z) k (c : list (Doc D)) :
  In k (keys key c) -> exists doc, findOne (has_key key k) c = Some doc.
Proof.
  intros H. destruct (findOne (has_key key k) c) eqn:E; [eauto|].
  apply findOne_has_key_None in E. contradiction.
Qed.

(** [backfillProduct], run. *)
Lemma backfillProduct_run env orderId productId w :
  backfillProduct env orderId productId w =
    if db_fault env (clock w) (ProductFindOne productId) then
      (Ret tt,
       add_log (SyncServiceLog, ERROR,
                ErrorSyncingProductFromOrder productId orderId
                  (Failed (ProductFindOne productId)))
         (record_call (ProductFindOne productId) false w))
    else
      match findOne (has_key Product.wooCommerceId productId) (db_products w) with
      | Some _ => (Ret tt, record_call (ProductFindOne productId) true w)
      | None =>
          match remote_product env (S (clock w)) productId with
          | None =>
              (Ret tt,
               add_log (SyncServiceLog, ERROR,
                        ErrorSyncingProductFromOrder productId orderId
                          (Failed (FetchProduct productId)))
                 (record_call (FetchProduct productId) false
                    (record_call (ProductFindOne productId) true w)))
          | Some wooProduct =>
              if db_fault env (S (S (clock w)))
                          (ProductFindOneAndUpdate (WooCommerceProduct.id wooProduct))
              then
                (Ret tt,
                 add_log (SyncServiceLog, ERROR,
                          ErrorSyncingProductFromOrder productId orderId
                            (Failed (ProductFindOneAndUpdate
                                       (WooCommerceProduct.id wooProduct))))
                   (record_call
                      (ProductFindOneAndUpdate (WooCommerceProduct.id wooProduct)) false
                      (record_call (FetchProduct productId) true
                         (record_call (ProductFindOne productId) true w))))
              else
                (Ret tt,
                 add_log (SyncServiceLog, DEBUG,
                          SyncedProductFromOrder productId orderId)
                   (record_call
                      (ProductFindOneAndUpdate (WooCommerceProduct.id wooProduct)) true
                      (upsert_product (WooCommerceProduct.id wooProduct)
                         (productData_of env wooProduct)
                         (record_call (FetchProduct productId) true
                            (record_call (ProductFindOne productId) true w)))))
          end
      end.
Proof.
  unfold backfillProduct, syncProduct, Product_findOne, Product_findOneAndUpdate,
    fetchProduct, db_call, try_catch, bind, log, ret.
  destruct (db_fault env (clock w) (ProductFindOne productId)); [reflexivity|].
  cbn [fst snd].
  destruct (findOne _ (db_products w)); [reflexivity|].
  change (clock (record_call (ProductFindOne productId) true w)) with (S (clock w)).
  destruct (remote_product env (S (clock w)) productId) as [wooProduct|]; [|reflexivity].
  change (clock (record_call (FetchProduct productId) true
                   (record_call (ProductFindOne productId) true w)))
    with (S (S (clock w))).
  destruct (db_fault env (S (S (clock w))) _); reflexivity.
Qed.

(** One round of the [for] loop of [syncOrders], run. *)
Lemma syncOrders_record_run env synced errors wooOrder w :
  syncOrders_record env (synced, errors) wooOrder w =
    if db_fault env (clock w) (OrderFindOneAndUpdate (WooCommerceOrder.id wooOrder)) then
      (Ret (synced, S errors),
       add_log (SyncServiceLog, ERROR,
                ErrorSyncingOrder (WooCommerceOrder.id wooOrder)
                  (Failed (OrderFindOneAndUpdate (WooCommerceOrder.id wooOrder))))
         (record_call (OrderFindOneAndUpdate (WooCommerceOrder.id wooOrder)) false w))
    else
      (Ret (S synced, errors),
       add_log (SyncServiceLog, DEBUG, SyncedOrder (WooCommerceOrder.id wooOrder))
         (snd (syncProductsFromOrder env wooOrder
                 (record_call (OrderFindOneAndUpdate (WooCommerceOrder.id wooOrder)) true
                    (upsert_order (WooCommerceOrder.id wooOrder)
                       (orderData_of env wooOrder) w))))).
Proof.
  unfold syncOrders_record, syncOrder, Order_findOneAndUpdate, db_call, try_catch, bind.
  destruct (db_fault env (clock w) _); [reflexivity|].
  cbn [fst snd].
  match goal with |- context [syncProductsFromOrder env wooOrder ?w1] =>
    assert (H := syncProductsFromOrder_returns env wooOrder w1);
    destruct (syncProductsFromOrder env wooOrder w1) as [r w2] end.
  simpl in H. subst r. reflexivity.
Qed.

(* ===================================================================== *)
(** * Counting: one upsert per record, one count per upsert *)
(* ===================================================================== *)

Lemma order_upserts_app a b :
  order_upserts (a ++ b) = order_upserts b ++ order_upserts a.
Proof. unfold order_upserts. rewrite rev_app_distr, flat_map_app. reflexivity. Qed.

Lemma order_upserts_backfill new :
  (forall ev, In ev new -> backfill_call (fst ev) = true) -> order_upserts new = [].
Proof.
  intros H. induction new as [|[c ok] new IH]; [reflexivity|].
  change ((c, ok) :: new) with ([(c, ok)] ++ new). rewrite order_upserts_app.
  rewrite IH by (intros; apply H; simpl; auto). simpl.
  specialize (H (c, ok) (or_introl eq_refl)). destruct c; try discriminate; reflexivity.
Qed.

Lemma order_upserts_In id ok new :
  In (id, ok) (order_upserts new) <-> In (OrderFindOneAndUpdate id, ok) new.
Proof.
  unfold order_upserts. rewrite in_flat_map. split.
  - intros [[c ok'] [Hin Hev]]. apply in_rev in Hin. simpl in Hev.
    destruct c; simpl in Hev; try contradiction.
    destruct Hev as [Heq|[]]. inversion Heq; subst. exact Hin.
  - intros Hin. exists (OrderFindOneAndUpdate id, ok). split.
    + apply in_rev in Hin. exact Hin.
    + simpl. auto.
Qed.

Lemma count_outcome_app ok a b :
  count_outcome ok (a ++ b) = count_outcome ok a + count_outcome ok b.
Proof. unfold count_outcome. rewrite filter_app, length_app. reflexivity. Qed.

Lemma count_outcome_total l :
  count_outcome true l + count_outcome false l = List.length l.
Proof.
  unfold count_outcome. induction l as [|[id [|]] l IH]; simpl; lia.
Qed.

(** One round: one upsert is attempted for the record and counted by its
    outcome; the record is stored when the upsert came back. *)
Lemma syncOrders_record_effect env synced errors wooOrder w :
  exists new ok,
    trace (snd (syncOrders_record env (synced, errors) wooOrder w)) = new ++ trace w
    /\ order_upserts new = [(WooCommerceOrder.id wooOrder, ok)]
    /\ fst (syncOrders_record env (synced, errors) wooOrder w)
       = Ret (if ok then (S synced, errors) else (synced, S errors))
    /\ ok = negb (db_fault env (clock w)
                           (OrderFindOneAndUpdate (WooCommerceOrder.id wooOrder)))
    /\ (ok = true ->
        In (WooCommerceOrder.id wooOrder)
           (keys Order.wooCommerceId
                 (db_orders (snd (syncOrders_record env (synced, errors) wooOrder w))))).
Proof.
  rewrite syncOrders_record_run.
  destruct (db_fault env (clock w) _).
  - exists [(OrderFindOneAndUpdate (WooCommerceOrder.id wooOrder), false)], false.
    repeat split; try reflexivity. discriminate.
  - match goal with |- context [syncProductsFromOrder env wooOrder ?w1] =>
      destruct (backfill_reach_facts (syncProductsFromOrder_reach env wooOrder w1))
        as [Ho [[new [Ht Hc]] _]] end.
    exists (new ++ [(OrderFindOneAndUpdate (WooCommerceOrder.id wooOrder), true)]), true.
    cbn [fst snd add_log trace db_orders]. split; [|split; [|split; [|split]]].
    + rewrite Ht. simpl. rewrite trace_upsert_order, <- app_assoc. reflexivity.
    + rewrite order_upserts_app, (order_upserts_backfill _ Hc). reflexivity.
    + reflexivity.
    + reflexivity.
    + intros _. rewrite Ho. simpl. rewrite db_orders_upsert_order.
      apply In_keys_upsert; [reflexivity | auto].
Qed.

(** A page: one upsert per record, in page order, each counted by its
    outcome; every record whose upsert came back is stored at the end. *)
Lemma syncOrders_page_effect env orders : forall synced errors w,
  exists new,
    trace (snd (syncOrders_page env orders (synced, errors) w)) = new ++ trace w
    /\ map fst (order_upserts new) = map WooCommerceOrder.id orders
    /\ fst (syncOrders_page env orders (synced, errors) w)
       = Ret (synced + count_outcome true (order_upserts new),
              errors + count_outcome false (order_upserts new))
    /\ (forall id, In (id, true) (order_upserts new) ->
          In id (keys Order.wooCommerceId
                      (db_orders (snd (syncOrders_page env orders (synced, errors) w))))).
Proof.
  unfold syncOrders_page. induction orders as [|o orders IH]; intros s e w.
  - exists []. simpl. repeat split; try reflexivity.
    + unfold count_outcome, order_upserts. simpl. rewrite !Nat.add_0_r. reflexivity.
    + intros id [].
  - rewrite for_of_cons.
    destruct (syncOrders_record_effect env s e o w) as [new1 [ok [Ht1 [Hu1 [Hr1 [_ Hin1]]]]]].
    assert (Hreach1 := syncOrders_record_reach env (s, e) o w).
    destruct (syncOrders_record env (s, e) o w) as [r1 w1].
    simpl in Ht1, Hr1, Hin1, Hreach1. subst r1.
    destruct (IH (fst (if ok then (S s, e) else (s, S e)))
                 (snd (if ok then (S s, e) else (s, S e))) w1)
      as [new [Ht [Hu [Hr Hin]]]].
    assert (Hpage := syncOrders_page_reach env orders
                       (if ok then (S s, e) else (s, S e)) w1).
    unfold syncOrders_page in Hpage.
    replace (fst (if ok then (S s, e) else (s, S e)),
             snd (if ok then (S s, e) else (s, S e)))
      with (if ok then (S s, e) else (s, S e)) in * by (destruct ok; reflexivity).
    exists (new ++ new1). split; [|split; [|split]].
    + rewrite Ht, Ht1, app_assoc. reflexivity.
    + rewrite order_upserts_app, map_app, Hu1, Hu. reflexivity.
    + rewrite Hr, order_upserts_app, !count_outcome_app, Hu1.
      destruct ok; simpl; f_equal; f_equal; unfold count_outcome; simpl; lia.
    + intros id Hid. rewrite order_upserts_app in Hid. apply in_app_or in Hid.
      destruct Hid as [Hid|Hid]; [|auto].
      rewrite Hu1 in Hid. destruct Hid as [Heq|[]]. inversion Heq; subst id ok.
      apply (proj1 (proj2 (record_reach_facts Hpage))). auto.
Qed.

Lemma syncOrders_loop_reach env fuel page synced errors w :
  reach sync_step w (snd (syncOrders_loop env fuel page synced errors w)).
Proof.
  assert (H : preserves (reach sync_step w)
                        (syncOrders_loop env fuel page synced errors)).
  { apply sync_syncOrders_loop. intros w1 w2 Hs Hr. econstructor; eauto. }
  apply H. constructor.
Qed.

(** The loop: the counters it returns are the counters it started with plus
    the upserts that came back and the upserts that threw. *)
Lemma syncOrders_loop_counts env : forall fuel page synced errors w,
  exists new,
    trace (snd (syncOrders_loop env fuel page synced errors w)) = new ++ trace w
    /\ forall synced' errors',
         fst (syncOrders_loop env fuel page synced errors w) = Ret (synced', errors') ->
         synced' = synced + count_outcome true (order_upserts new)
         /\ errors' = errors + count_outcome false (order_upserts new).
Proof.
  induction fuel as [|fuel IH]; intros page s e w.
  - exists []. split; [reflexivity | discriminate].
  - destruct (remote_orders env (clock w) page perPage (afterDate env)) as [data|] eqn:E.
    + rewrite (syncOrders_loop_round env fuel page s e w E).
      destruct (List.length data =? 0).
      * exists [(FetchOrders page perPage (afterDate env), true)].
        split; [reflexivity|]. intros s' e' H. inversion H; subst.
        unfold count_outcome, order_upserts; simpl. lia.
      * match goal with |- context [syncOrders_page env data (s, e) ?w1] =>
          destruct (syncOrders_page_effect env data s e w1) as [new1 [Ht1 [_ [Hr1 _]]]];
          destruct (syncOrders_page env data (s, e) w1) as [r1 w2] end.
        simpl in Ht1, Hr1. subst r1.
        destruct (List.length data <? perPage).
        -- exists (new1 ++ [(FetchOrders page perPage (afterDate env), true)]).
           split; [simpl; rewrite Ht1, <- app_assoc; reflexivity|].
           intros s' e' H. inversion H; subst.
           rewrite order_upserts_app. simpl. auto.
        -- destruct (IH (S page) (s + count_outcome true (order_upserts new1))
                        (e + count_outcome false (order_upserts new1)) w2)
             as [new [Ht Hr]].
           exists (new ++ new1 ++ [(FetchOrders page perPage (afterDate env), true)]).
           split; [rewrite Ht, Ht1; simpl; rewrite <- !app_assoc; reflexivity|].
           intros s' e' H. destruct (Hr s' e' H) as [Hs He].
           rewrite !order_upserts_app, !count_outcome_app.
           change (order_upserts [(FetchOrders page perPage (afterDate env), true)])
             with (@nil (Z * bool)).
           change (count_outcome true []) with 0. change (count_outcome false []) with 0.
           lia.
    + rewrite (syncOrders_loop_fetch_failed env fuel page s e w E).
      exists [(FetchOrders page perPage (afterDate env), false)].
      split; [reflexivity | discriminate].
Qed.

(** The pass: [synced] is the number of order upserts that came back and
    [errors] the number that threw. *)
Lemma syncOrders_counts env fuel w synced errors w' :
  syncOrders env fuel w = (Ret (synced, errors), w') ->
  synced = count_outcome true (order_upserts (calls_during w w'))
  /\ errors = count_outcome false (order_upserts (calls_during w w')).
Proof.
  rewrite syncOrders_of_loop. intros H.
  destruct (syncOrders_loop_counts env fuel 1 0 0
              (add_log (SyncServiceLog, INFO, StartingOrderSync) w)) as [new [Ht Hr]].
  destruct (syncOrders_loop env fuel 1 0 0 _) as [[[s e]|err|] w1];
    inversion H; subst.
  simpl in Ht. erewrite calls_during_app by (simpl; exact Ht).
  apply (Hr synced errors eq_refl).
Qed.

(* ===================================================================== *)
(** * What a pass throws, and what it leaves behind *)
(* ===================================================================== *)

(** The loop throws only the error of a failed page request, and that
    request is the last call it made. *)
Lemma syncOrders_loop_throws env : forall fuel page synced errors w err w',
  syncOrders_loop env fuel page synced errors w = (Throw err, w') ->
  exists p earlier,
    err = Failed (FetchOrders p perPage (afterDate env))
    /\ trace w' = ((FetchOrders p perPage (afterDate env), false) :: earlier) ++ trace w.
Proof.
  induction fuel as [|fuel IH]; intros page s e w err w' H.
  - discriminate.
  - destruct (remote_orders env (clock w) page perPage (afterDate env)) as [data|] eqn:E.
    + rewrite (syncOrders_loop_round env fuel page s e w E) in H.
      destruct (List.length data =? 0); [discriminate|].
      match type of H with context [syncOrders_page env data (s, e) ?w1] =>
        destruct (syncOrders_page_returns env data (s, e) w1) as [[s' e'] Hr];
        assert (Hw := syncOrders_page_reach env data (s, e) w1);
        destruct (syncOrders_page env data (s, e) w1) as [r w2] end.
      simpl in Hr, Hw. subst r.
      destruct (List.length data <? perPage); [discriminate|].
      destruct (IH _ _ _ _ _ _ H) as [p [earlier [He Ht]]].
      destruct (record_reach_facts Hw) as [[new [Hnew _]] _].
      exists p, (earlier ++ new ++ [(FetchOrders page perPage (afterDate env), true)]).
      split; [exact He|]. rewrite Ht, Hnew. simpl. rewrite <- !app_assoc. reflexivity.
    + rewrite (syncOrders_loop_fetch_failed env fuel page s e w E) in H.
      inversion H; subst. exists page, []. split; reflexivity.
Qed.

(** A record whose upsert cannot fail is stored once its page is done. *)
Lemma syncOrders_page_stores env orders : forall c w o,
  In o orders ->
  (forall t, db_fault env t (OrderFindOneAndUpdate (WooCommerceOrder.id o)) = false) ->
  In (WooCommerceOrder.id o)
     (keys Order.wooCommerceId (db_orders (snd (syncOrders_page env orders c w)))).
Proof.
  unfold syncOrders_page. induction orders as [|x orders IH]; intros [s e] w o Hin Hok.
  - destruct Hin.
  - rewrite for_of_cons.
    destruct (syncOrders_record_effect env s e x w) as [new1 [ok [_ [_ [Hr1 [Hok1 Hin1]]]]]].
    destruct (syncOrders_record env (s, e) x w) as [r1 w1].
    simpl in Hr1, Hin1. subst r1.
    destruct Hin as [->|Hin].
    + rewrite Hok in Hok1. specialize (Hin1 Hok1).
      apply (proj1 (proj2 (record_reach_facts
                             (syncOrders_page_reach env orders
                                (if ok then (S s, e) else (s, S e)) w1)))).
      exact Hin1.
    + apply IH; assumption.
Qed.

(** Full pages, then a page request that fails: the pass throws the error of
    that request, and the records of the pages before it are stored. *)
Lemma syncOrders_loop_broken env (pages : nat -> list WooCommerceOrder.t) :
  forall n page synced errors w fuel,
    (forall t p, page <= p < page + n ->
                 remote_orders env t p perPage (afterDate env) = Some (pages p)) ->
    (forall p, page <= p < page + n -> perPage <= List.length (pages p)) ->
    (forall t, remote_orders env t (page + n) perPage (afterDate env) = None) ->
    n < fuel ->
    exists w',
      syncOrders_loop env fuel page synced errors w
      = (Throw (Failed (FetchOrders (page + n) perPage (afterDate env))), w')
      /\ forall p o,
           page <= p < page + n -> In o (pages p) ->
           (forall t, db_fault env t (OrderFindOneAndUpdate (WooCommerceOrder.id o))
                      = false) ->
           In (WooCommerceOrder.id o) (keys Order.wooCommerceId (db_orders w')).
Proof.
  induction n as [|n IH]; intros page s e w fuel Hserve Hfull Hfail Hfuel;
    (destruct fuel as [|fuel]; [lia|]).
  - rewrite Nat.add_0_r in *.
    rewrite (syncOrders_loop_fetch_failed env fuel page s e w (Hfail _)).
    eexists. split; [reflexivity|]. intros p o Hp. lia.
  - rewrite (syncOrders_loop_round env fuel page s e w (data := pages page))
      by (apply Hserve; lia).
    assert (Hlen : perPage <= List.length (pages page)) by (apply Hfull; lia).
    assert (E0 : (List.length (pages page) =? 0) = false).
    { apply Nat.eqb_neq. unfold perPage in Hlen. lia. }
    assert (E1 : (List.length (pages page) <? perPage) = false).
    { apply Nat.ltb_ge. exact Hlen. }
    rewrite E0.
    match goal with |- context [syncOrders_page env ?d ?c ?w1] =>
      destruct (syncOrders_page_returns env d c w1) as [[s' e'] Hr];
      assert (Hstores := syncOrders_page_stores env d c w1);
      destruct (syncOrders_page env d c w1) as [r w2] end.
    simpl in Hr, Hstores. subst r. rewrite E1.
    destruct (IH (S page) s' e' w2 fuel) as [w' [Hrun Hkept]].
    + intros t p Hp. apply Hserve. lia.
    + intros p Hp. apply Hfull. lia.
    + intros t. replace (S page + n) with (page + S n) by lia. apply Hfail.
    + lia.
    + exists w'. replace (page + S n) with (S page + n) by lia.
      split; [exact Hrun|]. intros p o Hp Ho Hok.
      destruct (Nat.eq_dec p page) as [->|Hne].
      * assert (Hreach := syncOrders_loop_reach env fuel (S page) s' e' w2).
        rewrite Hrun in Hreach. simpl in Hreach.
        apply (proj1 (proj2 (sync_reach_facts Hreach))). apply Hstores; assumption.
      * apply (Hkept p o); [lia | assumption | assumption].
Qed.

(* ===================================================================== *)
(** * Upserting the same documents again *)
(* ===================================================================== *)

Section Replay.
Context {D : Type}.
Variable key : D -> Z.

Lemma updateFirst_app_l (p : Doc D -> bool) d (c c' : list (Doc D)) :
  existsb p c = true -> updateFirst p d (c ++ c') = updateFirst p d c ++ c'.
Proof.
  induction c as [|x c IH]; simpl; [discriminate|].
  destruct (p x); simpl; [reflexivity|]. intros H. rewrite IH by exact H. reflexivity.
Qed.

Lemma updateFirst_app_r (p : Doc D -> bool) d (c c' : list (Doc D)) :
  existsb p c = false -> updateFirst p d (c ++ c') = c ++ updateFirst p d c'.
Proof.
  induction c as [|x c IH]; simpl; [reflexivity|].
  destruct (p x); simpl; [discriminate|]. intros H. rewrite IH by exact H. reflexivity.
Qed.

Lemma replay_nil l : replay key l [] = [].
Proof. unfold replay. induction l as [|d l IH]; simpl; auto. Qed.

Lemma last_write_id l : forall x, _id (last_write key x l) = _id x.
Proof.
  unfold last_write. induction l as [|d l IH]; intros x; simpl; [reflexivity|].
  rewrite IH. destruct (key (fields x) =? key d)%Z; reflexivity.
Qed.

Lemma last_write_key l : forall x,
  key (fields (last_write key x l)) = key (fields x).
Proof.
  unfold last_write. induction l as [|d l IH]; intros x; simpl; [reflexivity|].
  rewrite IH. destruct (key (fields x) =? key d)%Z eqn:E; [|reflexivity].
  simpl. apply Z.eqb_eq in E. congruence.
Qed.

Lemma last_write_snoc l d x :
  last_write key x (l ++ [d]) =
    if (key (fields x) =? key d)%Z
    then {| _id := _id x; fields := d |}
    else last_write key x l.
Proof.
  unfold last_write. rewrite fold_left_app. simpl.
  fold (last_write key x l). rewrite last_write_key, last_write_id. reflexivity.
Qed.

Lemma last_write_idem l : forall x,
  last_write key (last_write key x l) l = last_write key x l.
Proof.
  induction l as [|d l IH] using rev_ind; intros x; [reflexivity|].
  rewrite (last_write_snoc l d (last_write key x (l ++ [d]))).
  rewrite last_write_key, last_write_id.
  rewrite (last_write_snoc l d x).
  destruct (key (fields x) =? key d)%Z eqn:E; [reflexivity | apply IH].
Qed.

Lemma replay_step d l (c : list (Doc D)) :
  replay key (d :: l) c = replay key l (updateFirst (has_key key (key d)) d c).
Proof. reflexivity. Qed.

Lemma last_write_step d l (x : Doc D) :
  last_write key x (d :: l) =
    last_write key (if (key (fields x) =? key d)%Z
                    then {| _id := _id x; fields := d |} else x) l.
Proof. reflexivity. Qed.

(** The first document takes the writes to its identifier; the rest of the
    collection takes the others. *)
Lemma replay_cons l : forall x c,
  replay key l (x :: c) =
    last_write key x l
    :: replay key (filter (fun d => negb (key (fields x) =? key d)%Z) l) c.
Proof.
  induction l as [|d l IH]; intros x c; [reflexivity|].
  rewrite replay_step, last_write_step. cbn [updateFirst filter].
  change (has_key key (key d) x) with (key (fields x) =? key d)%Z.
  destruct (key (fields x) =? key d)%Z eqn:E; cbn [negb].
  - rewrite IH. cbn [fields]. apply Z.eqb_eq in E. rewrite <- E. reflexivity.
  - rewrite IH, replay_step. reflexivity.
Qed.

Lemma replay_idem : forall c l, replay key l (replay key l c) = replay key l c.
Proof.
  induction c as [|x c IH]; intros l.
  - rewrite replay_nil. apply replay_nil.
  - rewrite replay_cons, replay_cons, last_write_key, last_write_idem, IH. reflexivity.
Qed.

Lemma upserted_keys l c c' :
  upserted key l c c' -> forall k, In k (keys key c) -> In k (keys key c').
Proof.
  induction 1 as [c | d l fresh c c' H IH]; intros k Hk; [exact Hk|].
  apply IH. apply In_keys_upsert; [reflexivity | auto].
Qed.

(** Upserting is updating in place, in a collection that already holds the
    documents that were inserted. *)
Lemma upserted_replay l c c' :
  upserted key l c c' ->
  (exists inserted, c' = replay key l (c ++ inserted))
  /\ forall d, In d l -> In (key d) (keys key c').
Proof.
  induction 1 as [c | d l fresh c c' H [[inserted IH] IHk]].
  - split; [exists []; rewrite app_nil_r; reflexivity | intros d []].
  - split.
    + unfold upsert in IH. destruct (existsb (has_key key (key d)) c) eqn:E.
      * exists inserted. rewrite IH. unfold replay. simpl.
        rewrite updateFirst_app_l by exact E. reflexivity.
      * exists ({| _id := fresh; fields := d |} :: inserted).
        rewrite IH. unfold replay. simpl.
        rewrite (updateFirst_app_r _ _ _ _ E). simpl.
        change (has_key key (key d) {| _id := fresh; fields := d |})
          with (key d =? key d)%Z.
        rewrite Z.eqb_refl, <- app_assoc. reflexivity.
    + intros d' [<-|Hd'].
      * apply (upserted_keys H). apply In_keys_upsert; [reflexivity | auto].
      * apply IHk, Hd'.
Qed.

Lemma upserted_present l c c' :
  upserted key l c c' ->
  (forall d, In d l -> In (key d) (keys key c)) ->
  c' = replay key l c.
Proof.
  induction 1 as [c | d l fresh c c' H IH]; intros Hk; [reflexivity|].
  assert (E : existsb (has_key key (key d)) c = true).
  { apply existsb_has_key, Hk. simpl. auto. }
  unfold upsert in H, IH. rewrite E in H, IH.
  rewrite IH; [reflexivity|].
  intros d' Hd'. rewrite keys_updateFirst by reflexivity. apply Hk. simpl. auto.
Qed.

(** Upserting the same documents a second time changes nothing. *)
Lemma upserted_twice l c c1 c2 :
  upserted key l c c1 -> upserted key l c1 c2 -> c2 = c1.
Proof.
  intros H1 H2. destruct (upserted_replay H1) as [[inserted Hc1] Hk].
  rewrite (upserted_present H2 Hk). rewrite Hc1. apply replay_idem.
Qed.

Lemma upserted_app l1 l2 c c1 c2 :
  upserted key l1 c c1 -> upserted key l2 c1 c2 -> upserted key (l1 ++ l2) c c2.
Proof.
  induction 1 as [c | d l fresh c c' H IH]; intros H2; simpl; [exact H2|].
  econstructor. apply IH, H2.
Qed.
End Replay.

(* ===================================================================== *)
(** * A pass as the processing of the records it fetches *)
(* ===================================================================== *)

Section PassByRecords.
Variable env : Env.
Variable pages : nat -> option (list WooCommerceOrder.t).
Hypothesis served :
  forall t page, remote_orders env t page perPage (afterDate env) = pages page.

(** A relation between the stores before and after a list of records is
    processed, closed under concatenation, that holds of every single
    record. *)
Variable R : list WooCommerceOrder.t ->
             list (Doc Order.t) * list (Doc Product.t) ->
             list (Doc Order.t) * list (Doc Product.t) -> Prop.
Hypothesis R_nil : forall s, R [] s s.
Hypothesis R_app : forall l1 l2 s s1 s2, R l1 s s1 -> R l2 s1 s2 -> R (l1 ++ l2) s s2.
Hypothesis R_record :
  forall c o w, R [o] (stores w) (stores (snd (syncOrders_record env c o w))).

Lemma R_page orders : forall c w,
  R orders (stores w) (stores (snd (syncOrders_page env orders c w))).
Proof.
  unfold syncOrders_page. induction orders as [|o orders IH]; intros c w.
  - apply R_nil.
  - rewrite for_of_cons.
    destruct (syncOrders_record_returns env c o w) as [c1 Hr].
    assert (H1 := R_record c o w).
    destruct (syncOrders_record env c o w) as [r w1]. simpl in Hr, H1. subst r.
    change (o :: orders) with ([o] ++ orders).
    eapply R_app; [exact H1 | apply IH].
Qed.

Lemma R_loop : forall fuel page synced errors w,
  R (fetched pages fuel page) (stores w)
    (stores (snd (syncOrders_loop env fuel page synced errors w))).
Proof.
  induction fuel as [|fuel IH]; intros page s e w.
  - apply R_nil.
  - cbn [fetched]. destruct (pages page) as [data|] eqn:E.
    + rewrite (syncOrders_loop_round env fuel page s e w (data := data))
        by (rewrite served; exact E).
      destruct (List.length data =? 0); [apply R_nil|].
      match goal with |- context [syncOrders_page env data (s, e) ?w1] =>
        destruct (syncOrders_page_returns env data (s, e) w1) as [[s' e'] Hr];
        assert (Hp := R_page data (s, e) w1);
        destruct (syncOrders_page env data (s, e) w1) as [r w2] end.
      simpl in Hr, Hp. subst r.
      destruct (List.length data <? perPage); [exact Hp|].
      eapply R_app; [exact Hp | apply IH].
    + rewrite (syncOrders_loop_fetch_failed env fuel page s e w)
        by (rewrite served; exact E).
      apply R_nil.
Qed.

Lemma R_pass fuel w :
  R (fetched pages fuel 1) (stores w) (stores (snd (syncOrders env fuel w))).
Proof.
  rewrite syncOrders_of_loop.
  assert (H := R_loop fuel 1 0 0 (add_log (SyncServiceLog, INFO, StartingOrderSync) w)).
  destruct (syncOrders_loop env fuel 1 0 0 _) as [[[s e]|err|] w']; exact H.
Qed.
End PassByRecords.

(** ** The three relations of idempotency *)

Section Steady.
Variable env : Env.
Hypothesis Hsteady : steady env.

Lemma settled_mono (c c' : list (Doc Product.t)) id :
  (forall k, In k (keys Product.wooCommerceId c) -> In k (keys Product.wooCommerceId c')) ->
  settled env c id -> settled env c' id.
Proof. intros Hm [H|H]; [left; auto | right; exact H]. Qed.

(** After the backfill of an identifier nothing is left to backfill for
    it. *)
Lemma backfillProduct_settles orderId productId w :
  settled env (db_products (snd (backfillProduct env orderId productId w))) productId.
Proof.
  rewrite backfillProduct_run. unfold settled, backfill_blocked.
  rewrite (steady_db Hsteady (clock w) 0).
  destruct (db_fault env 0 (ProductFindOne productId)); [right; reflexivity|].
  destruct (findOne _ (db_products w)) as [doc|] eqn:E.
  - left. simpl. unfold findOne in E. apply find_some in E. destruct E as [Hin Hk].
    unfold has_key in Hk. apply Z.eqb_eq in Hk. rewrite <- Hk.
    unfold keys. apply in_map_iff. eauto.
  - rewrite (steady_products Hsteady (S (clock w)) 0).
    destruct (remote_product env 0 productId) as [wooProduct|] eqn:Er;
      [|right; reflexivity].
    rewrite (steady_db Hsteady (S (S (clock w))) 0).
    destruct (db_fault env 0 (ProductFindOneAndUpdate _)); [right; reflexivity|].
    left. simpl. rewrite db_products_upsert_product.
    apply In_keys_upsert; [reflexivity|]. left. symmetry.
    apply (steady_ids Hsteady _ _ Er).
Qed.

(** When nothing is left to backfill for an identifier, its backfill changes
    no product. *)
Lemma backfillProduct_settled orderId productId w :
  settled env (db_products w) productId ->
  db_products (snd (backfillProduct env orderId productId w)) = db_products w.
Proof.
  intros Hs. rewrite backfillProduct_run.
  rewrite (steady_db Hsteady (clock w) 0).
  destruct (db_fault env 0 (ProductFindOne productId)) eqn:Elookup; [reflexivity|].
  destruct (findOne _ (db_products w)) as [doc|] eqn:E; [reflexivity|].
  destruct Hs as [Hin|Hblocked].
  - apply findOne_has_key_None in E. contradiction.
  - unfold backfill_blocked in Hblocked. rewrite Elookup in Hblocked.
    simpl in Hblocked.
    rewrite (steady_products Hsteady (S (clock w)) 0).
    destruct (remote_product env 0 productId) as [wooProduct|]; [|reflexivity].
    rewrite (steady_db Hsteady (S (S (clock w))) 0), Hblocked. reflexivity.
Qed.

Lemma backfill_loop_settles orderId (ids : list Z) : forall w,
  forall id, In id ids ->
    settled env
      (db_products (snd (for_of (fun _ productId => backfillProduct env orderId productId)
                                ids tt w))) id.
Proof.
  induction ids as [|x ids IH]; intros w id Hin; [destruct Hin|].
  rewrite for_of_cons.
  assert (Hr := backfillProduct_returns env orderId x w).
  assert (Hs := backfillProduct_settles orderId x w).
  destruct (backfillProduct env orderId x w) as [r w1]. simpl in Hr, Hs. subst r.
  destruct Hin as [->|Hin]; [|apply IH, Hin].
  eapply settled_mono; [|exact Hs].
  assert (Hreach : reach backfill_step w1
                     (snd (for_of (fun _ productId => backfillProduct env orderId productId)
                                  ids tt w1))).
  { assert (H : preserves (reach backfill_step w1)
                  (for_of (fun (_ : unit) productId =>
                             backfillProduct env orderId productId) ids tt)).
    { apply preserves_for_of. intros. apply backfill_backfillProduct.
      intros w2 w3 Hstep Hr2. econstructor; eauto. }
    apply H. constructor. }
  apply (proj2 (proj2 (backfill_reach_facts Hreach))).
Qed.

Lemma backfill_loop_settled orderId (ids : list Z) : forall w,
  (forall id, In id ids -> settled env (db_products w) id) ->
  db_products (snd (for_of (fun _ productId => backfillProduct env orderId productId)
                           ids tt w)) = db_products w.
Proof.
  induction ids as [|x ids IH]; intros w Hs; [reflexivity|].
  rewrite for_of_cons.
  assert (Hr := backfillProduct_returns env orderId x w).
  assert (Hx := @backfillProduct_settled orderId x w (Hs x (or_introl eq_refl))).
  destruct (backfillProduct env orderId x w) as [r w1]. simpl in Hr, Hx. subst r.
  rewrite IH; [exact Hx|].
  intros id Hid. rewrite Hx. apply Hs. simpl. auto.
Qed.

(** The stores after one record: as before when its upsert throws, and
    otherwise the upsert followed by the backfill. *)
Lemma syncOrders_record_steady c wooOrder w :
  stores (snd (syncOrders_record env c wooOrder w))
  = if writable env wooOrder then
      stores (snd (syncProductsFromOrder env wooOrder
                     (record_call (OrderFindOneAndUpdate (WooCommerceOrder.id wooOrder))
                        true
                        (upsert_order (WooCommerceOrder.id wooOrder)
                           (orderData_of env wooOrder) w))))
    else stores w.
Proof.
  destruct c as [s e]. rewrite syncOrders_record_run. unfold writable.
  rewrite (steady_db Hsteady (clock w) 0).
  destruct (db_fault env 0 _); reflexivity.
Qed.

Lemma record_upserted c wooOrder w :
  upserted Order.wooCommerceId
           (map (orderData_of env) (filter (writable env) [wooOrder]))
           (fst (stores w)) (fst (stores (snd (syncOrders_record env c wooOrder w)))).
Proof.
  rewrite syncOrders_record_steady. simpl.
  destruct (writable env wooOrder); [|constructor].
  match goal with |- context [syncProductsFromOrder env wooOrder ?w1] =>
    destruct (backfill_reach_facts (syncProductsFromOrder_reach env wooOrder w1))
      as [Ho _] end.
  simpl. rewrite Ho. simpl. rewrite db_orders_upsert_order.
  eapply upserted_cons. apply upserted_nil.
Qed.

Lemma record_settles c wooOrder w :
  (forall k, In k (keys Product.wooCommerceId (snd (stores w))) ->
             In k (keys Product.wooCommerceId
                        (snd (stores (snd (syncOrders_record env c wooOrder w))))))
  /\ forall o, In o [wooOrder] -> writable env o = true ->
       forall id, In id (productIds_of o) ->
       settled env (snd (stores (snd (syncOrders_record env c wooOrder w)))) id.
Proof.
  rewrite syncOrders_record_steady. split.
  - intros k Hk. destruct (writable env wooOrder); [|exact Hk].
    match goal with |- context [syncProductsFromOrder env wooOrder ?w1] =>
      destruct (backfill_reach_facts (syncProductsFromOrder_reach env wooOrder w1))
        as [_ [_ Hp]] end.
    apply Hp. simpl. rewrite db_products_upsert_order. exact Hk.
  - intros o [<-|[]] Hw id Hid. rewrite Hw. apply backfill_loop_settles. exact Hid.
Qed.

Lemma record_settled c wooOrder w :
  (forall o, In o [wooOrder] -> writable env o = true ->
             forall id, In id (productIds_of o) -> settled env (snd (stores w)) id) ->
  snd (stores (snd (syncOrders_record env c wooOrder w))) = snd (stores w).
Proof.
  intros Hs. rewrite syncOrders_record_steady.
  destruct (writable env wooOrder) eqn:Hw; [|reflexivity]. simpl.
  unfold syncProductsFromOrder. rewrite backfill_loop_settled.
  - simpl. apply db_products_upsert_order.
  - intros id Hid. simpl. rewrite db_products_upsert_order.
    apply (Hs wooOrder (or_introl eq_refl) Hw). exact Hid.
Qed.

(** Running the pass again leaves both collections as the first run left
    them. *)
Lemma syncOrders_twice fuel w :
  stores (snd (syncOrders env fuel (snd (syncOrders env fuel w))))
  = stores (snd (syncOrders env fuel w)).
Proof.
  set (pages := fun page => remote_orders env 0 page perPage (afterDate env)).
  assert (served : forall t page,
             remote_orders env t page perPage (afterDate env) = pages page).
  { intros t page. apply (steady_orders Hsteady). }
  set (w1 := snd (syncOrders env fuel w)).
  (* orders *)
  assert (Ho : forall w0,
             upserted Order.wooCommerceId
                      (map (orderData_of env)
                           (filter (writable env) (fetched pages fuel 1)))
                      (fst (stores w0)) (fst (stores (snd (syncOrders env fuel w0))))).
  { intros w0.
    apply (R_pass env pages served
             (fun l s s' =>
                upserted Order.wooCommerceId
                         (map (orderData_of env) (filter (writable env) l))
                         (fst s) (fst s'))).
    - intros s. constructor.
    - intros l1 l2 s s1 s2 H1 H2. rewrite filter_app, map_app.
      eapply upserted_app; eauto.
    - intros c o w2. apply record_upserted. }
  (* products, first run *)
  assert (Hp1 : forall o, In o (fetched pages fuel 1) -> writable env o = true ->
               forall id, In id (productIds_of o) -> settled env (snd (stores w1)) id).
  { apply (R_pass env pages served
             (fun l s s' =>
                (forall k, In k (keys Product.wooCommerceId (snd s)) ->
                           In k (keys Product.wooCommerceId (snd s')))
                /\ forall o, In o l -> writable env o = true ->
                     forall id, In id (productIds_of o) -> settled env (snd s') id)).
    - intros s. split; [auto | intros o []].
    - intros l1 l2 s s1 s2 [Hm1 Hs1] [Hm2 Hs2]. split; [auto|].
      intros o Hin Hw id Hid. apply in_app_or in Hin. destruct Hin as [Hin|Hin].
      + eapply settled_mono; [exact Hm2 | eapply Hs1; eauto].
      + eapply Hs2; eauto.
    - intros c o w2. apply record_settles. }
  (* products, second run *)
  assert (Hp2 : snd (stores (snd (syncOrders env fuel w1))) = snd (stores w1)).
  { apply (R_pass env pages served
             (fun l s s' =>
                (forall o, In o l -> writable env o = true ->
                           forall id, In id (productIds_of o) -> settled env (snd s) id) ->
                snd s' = snd s)).
    - intros s _. reflexivity.
    - intros l1 l2 s s1 s2 H1 H2 Hs.
      assert (E1 : snd s1 = snd s).
      { apply H1. intros o Hin. apply Hs, in_or_app. auto. }
      rewrite H2; [exact E1|]. rewrite E1. intros o Hin. apply Hs, in_or_app. auto.
    - intros c o w2. apply record_settled.
    - exact Hp1. }
  assert (Ho2 := upserted_twice (Ho w) (Ho w1)). fold w1 in Ho2.
  unfold stores in *. simpl in *. rewrite Ho2, Hp2. reflexivity.
Qed.
End Steady.

(* ===================================================================== *)
(** * The properties of the specification *)
(* ===================================================================== *)

(** Membership in a list that has been computed. *)
Ltac in_list := repeat (first [left; reflexivity | right]).

(** ** Retention safety *)

(** C1. Every Catalog Record a retention pass deletes is unreferenced at the
    moment of its deletion.  The calls of a pass split into a first phase
    that only selects and deletes orders and a second phase that only checks
    and deletes products; a product deletion that came back was preceded by a
    lookup that found no referencing order in the store as the order
    deletions left it, which is the store the pass ends with; and a product
    document that is gone after the pass is referenced by no surviving
    order. *)
Theorem retention_deletes_only_unreferenced_products :
  forall (env : Env) (w : World),
    (exists phase1 phase2,
        calls_during w (snd (cleanupOldOrders env w)) = phase2 ++ phase1
        /\ (forall ev, In ev phase1 -> delete_call (fst ev) = true)
        /\ (forall ev, In ev phase2 -> delete_call (fst ev) = false)
        /\ (forall id, In (ProductFindOneAndDelete id, true) phase2 ->
              forall o, In o (db_orders (snd (cleanupOldOrders env w))) ->
                        references id o = false))
    /\ (forall id,
          In (ProductFindOneAndDelete id, true)
             (calls_during w (snd (cleanupOldOrders env w))) ->
          forall o, In o (db_orders (snd (cleanupOldOrders env w))) ->
                    references id o = false)
    /\ (forall doc,
          In doc (db_products w) ->
          ~ In doc (db_products (snd (cleanupOldOrders env w))) ->
          forall o, In o (db_orders (snd (cleanupOldOrders env w))) ->
                    references (Product.wooCommerceId (fields doc)) o = false).
Proof.
  intros env w.
  destruct (cleanupOldOrders_facts env w)
    as [[phase1 [phase2 [Hcalls [H1 [H2 Hdel]]]]] [_ Hdocs]].
  assert (Hphase2 : forall ev, In ev phase2 -> delete_call (fst ev) = false).
  { intros [c ok] Hin. specialize (H2 _ Hin). destruct c; simpl in *; tauto. }
  split; [|split].
  - exists phase1, phase2. repeat split; auto.
    intros id Hin o Ho. eapply find_none; [apply Hdel, Hin | exact Ho].
  - intros id Hin o Ho. rewrite Hcalls in Hin. apply in_app_or in Hin.
    destruct Hin as [Hin|Hin].
    + eapply find_none; [apply Hdel, Hin | exact Ho].
    + apply H1 in Hin. discriminate.
  - intros doc Hdoc Hgone o Ho. destruct (Hdocs doc Hdoc) as [Hin|[_ Hnone]].
    + contradiction.
    + eapply find_none; [exact Hnone | exact Ho].
Qed.

(** The stale order for products 7 and 8 is deleted; product 7 is deleted and
    no remaining order references it. *)
Lemma retention_deletes_only_unreferenced_products_witness :
  In (ProductFindOneAndDelete 7, true)
     (calls_during Sample.world_retention
        (snd (cleanupOldOrders (Sample.shop Sample.pages_retention)
                               Sample.world_retention)))
  /\ forall o,
       In o (db_orders (snd (cleanupOldOrders (Sample.shop Sample.pages_retention)
                                              Sample.world_retention))) ->
       references 7 o = false.
Proof.
  assert (H : In (ProductFindOneAndDelete 7, true)
                 (calls_during Sample.world_retention
                    (snd (cleanupOldOrders (Sample.shop Sample.pages_retention)
                                           Sample.world_retention)))).
  { vm_compute. in_list. }
  split; [exact H|].
  exact (proj1 (proj2 (retention_deletes_only_unreferenced_products
                         (Sample.shop Sample.pages_retention)
                         Sample.world_retention)) 7%Z H).
Defined.

(** ** Pagination *)

(** C2, as the code has it.  When the shop serves full pages [1 .. k-1] and a
    page [k] of fewer than 100 records (possibly none), a sync pass with
    enough fuel returns, and it has requested exactly the pages
    [1, 2, ..., k], in this order. *)
Theorem sync_pass_stops_at_first_short_page :
  forall (env : Env) (pages : nat -> list WooCommerceOrder.t) (k fuel : nat)
         (w : World),
    1 <= k ->
    (forall t p, 1 <= p <= k ->
                 remote_orders env t p perPage (afterDate env) = Some (pages p)) ->
    (forall p, 1 <= p < k -> perPage <= List.length (pages p)) ->
    List.length (pages k) < perPage ->
    k <= fuel ->
    exists r w',
      syncOrders env fuel w = (Ret r, w')
      /\ pages_requested (calls_during w w') = seq 1 k.
Proof.
  intros env pages k fuel w Hk Hserve Hfull Hshort Hfuel.
  destruct k as [|n]; [lia|].
  destruct (syncOrders_loop_terminates env pages (n := n) (page := 1) 0 0
              (add_log (SyncServiceLog, INFO, StartingOrderSync) w) (fuel := fuel))
    as [[s e] [w' [Hrun [new [Ht Hp]]]]].
  - intros t p Hp. apply Hserve. lia.
  - intros p Hp. apply Hfull. lia.
  - exact Hshort.
  - lia.
  - rewrite syncOrders_of_loop, Hrun. do 2 eexists. split; [reflexivity|].
    erewrite calls_during_app by (simpl; exact Ht). exact Hp.
Qed.

(** 150 orders served as pages of 100 and 50: the pass returns after
    requesting pages 1 and 2. *)
Lemma sync_pass_stops_at_first_short_page_witness :
  exists r w',
    syncOrders (Sample.shop Sample.pages150) 2 Sample.empty_world = (Ret r, w')
    /\ pages_requested (calls_during Sample.empty_world w') = [1; 2].
Proof.
  apply (sync_pass_stops_at_first_short_page
           (Sample.shop Sample.pages150) Sample.stream150 (k := 2)).
  - lia.
  - intros t p Hp. assert (E : p = 1 \/ p = 2) by lia.
    destruct E as [->| ->]; reflexivity.
  - intros p Hp. assert (E : p = 1) by lia. subst p.
    unfold Sample.stream150. rewrite length_orders_from. apply le_n.
  - unfold Sample.stream150. rewrite length_orders_from. unfold perPage. lia.
  - apply le_n.
Defined.

(** The scenario, computed: 150 synced, no error, two page requests. *)
Lemma sync_150_orders_in_two_pages :
  fst (syncOrders (Sample.shop Sample.pages150) 3 Sample.empty_world) = Ret (150, 0)
  /\ pages_requested
       (trace (snd (syncOrders (Sample.shop Sample.pages150) 3 Sample.empty_world)))
     = [1; 2].
Proof. split; vm_compute; reflexivity. Qed.

(** C2 as stated fails: every page fetch of this shop succeeds, and the pass
    does not return with any amount of fuel; with fuel [n] it has requested
    pages [1 .. n] and goes on to the next. *)
Lemma sync_pass_never_returns_on_full_pages :
  (forall t page,
      remote_orders Sample.endless t page perPage (afterDate Sample.endless) <> None)
  /\ forall fuel,
       fst (syncOrders Sample.endless fuel Sample.empty_world) = OutOfFuel
       /\ pages_requested
            (trace (snd (syncOrders Sample.endless fuel Sample.empty_world)))
          = seq 1 fuel.
Proof.
  split; [intros t page; discriminate|].
  intros fuel. rewrite syncOrders_of_loop.
  destruct (syncOrders_loop_endless fuel 1 0 0
              (add_log (SyncServiceLog, INFO, StartingOrderSync) Sample.empty_world))
    as [Hout [new [Ht Hp]]].
  destruct (syncOrders_loop Sample.endless fuel 1 0 0 _) as [r w'].
  simpl in Hout, Ht. subst r. simpl. rewrite Ht, app_nil_r. split; [reflexivity | exact Hp].
Qed.

(** ** Failure isolation per record *)

(** C3. While a page is processed, one upsert is attempted for every record,
    in page order, whatever happened to the records before it; [synced] grows
    by the number of upserts that came back and [errors] by the number that
    threw, so that a page of N records with one failing upsert adds N-1 to
    [synced] and 1 to [errors]; every record whose upsert came back is stored
    when the page is done.  The result of a whole pass counts the same way
    over all its pages. *)
Theorem upsert_failures_are_counted_and_isolated :
  forall (env : Env) (orders : list WooCommerceOrder.t) (synced errors : nat)
         (w : World),
    map fst (order_upserts
               (calls_during w (snd (syncOrders_page env orders (synced, errors) w))))
    = map WooCommerceOrder.id orders
    /\ fst (syncOrders_page env orders (synced, errors) w)
       = Ret (synced + count_outcome true
                         (order_upserts
                            (calls_during w
                               (snd (syncOrders_page env orders (synced, errors) w)))),
              errors + count_outcome false
                         (order_upserts
                            (calls_during w
                               (snd (syncOrders_page env orders (synced, errors) w)))))
    /\ count_outcome true
         (order_upserts
            (calls_during w (snd (syncOrders_page env orders (synced, errors) w))))
       + count_outcome false
           (order_upserts
              (calls_during w (snd (syncOrders_page env orders (synced, errors) w))))
       = List.length orders
    /\ (forall id,
          In (id, true)
             (order_upserts
                (calls_during w (snd (syncOrders_page env orders (synced, errors) w)))) ->
          In id (keys Order.wooCommerceId
                      (db_orders (snd (syncOrders_page env orders (synced, errors) w)))))
    /\ (forall fuel synced' errors' w',
          syncOrders env fuel w = (Ret (synced', errors'), w') ->
          synced' = count_outcome true (order_upserts (calls_during w w'))
          /\ errors' = count_outcome false (order_upserts (calls_during w w'))
          /\ forall id, In (id, true) (order_upserts (calls_during w w')) ->
                        In id (keys Order.wooCommerceId (db_orders w'))).
Proof.
  intros env orders synced errors w.
  destruct (syncOrders_page_effect env orders synced errors w)
    as [new [Ht [Hu [Hr Hin]]]].
  rewrite (calls_during_app _ _ _ Ht).
  split; [exact Hu | split; [exact Hr | split; [|split; [exact Hin|]]]].
  - rewrite count_outcome_total, <- (length_map fst), Hu, length_map. reflexivity.
  - intros fuel s' e' w' Hrun.
    destruct (syncOrders_counts _ _ _ Hrun) as [Hs He].
    split; [exact Hs | split; [exact He|]].
    intros id Hid. apply order_upserts_In in Hid.
    assert (Hreach := syncOrders_reach env fuel w). rewrite Hrun in Hreach.
    simpl in Hreach.
    destruct (sync_reach_facts Hreach) as [[new' [Ht' [_ Hw']]] _].
    rewrite (calls_during_app _ _ _ Ht') in Hid. apply Hw', Hid.
Qed.

(** A page of three orders where the upsert of the second throws:
    [{synced: 2, errors: 1}], and orders 1 and 3 are stored. *)
Lemma upsert_failures_are_counted_and_isolated_witness :
  fst (syncOrders_page Sample.flaky
         [Sample.order 1 "recent" [7%Z]; Sample.order 2 "recent" [8%Z];
          Sample.order 3 "recent" [9%Z]] (0, 0) Sample.empty_world)
  = Ret (2, 1)
  /\ fst (syncOrders Sample.flaky 2 Sample.empty_world) = Ret (2, 1)
  /\ keys Order.wooCommerceId
          (db_orders (snd (syncOrders Sample.flaky 2 Sample.empty_world)))
     = [1%Z; 3%Z].
Proof.
  split; [|split].
  - rewrite (proj1 (proj2 (upsert_failures_are_counted_and_isolated
                             Sample.flaky
                             [Sample.order 1 "recent" [7%Z]; Sample.order 2 "recent" [8%Z];
                              Sample.order 3 "recent" [9%Z]] 0 0 Sample.empty_world))).
    vm_compute. reflexivity.
  - vm_compute. reflexivity.
  - vm_compute. reflexivity.
Defined.

(** ** Failure isolation of the backfill *)

(** C4, as the code has it.  When the upsert of a transaction comes back, the
    transaction counts as synced and [errors] is unchanged, whatever happens
    to the backfill of the products it references, and the order collection
    holds the upsert of the transaction.  The backfill of an identifier never
    throws: a failing lookup, product fetch or product write is caught and
    logged inside [syncProductsFromOrder].  The [errors] a pass returns is
    the number of order upserts that threw, and nothing else. *)
Theorem backfill_failures_leave_the_order_synced :
  forall (env : Env) (synced errors : nat) (wooOrder : WooCommerceOrder.t)
         (w : World),
    db_fault env (clock w) (OrderFindOneAndUpdate (WooCommerceOrder.id wooOrder))
    = false ->
    fst (syncOrders_record env (synced, errors) wooOrder w) = Ret (S synced, errors)
    /\ db_orders (snd (syncOrders_record env (synced, errors) wooOrder w))
       = upsert Order.wooCommerceId (WooCommerceOrder.id wooOrder)
                (orderData_of env wooOrder) (next_id w) (db_orders w)
    /\ (forall productId w0,
          fst (backfillProduct env (WooCommerceOrder.id wooOrder) productId w0) = Ret tt
          /\ forall c,
               In (c, false)
                  (calls_during w0
                     (snd (backfillProduct env (WooCommerceOrder.id wooOrder)
                                           productId w0))) ->
               In (SyncServiceLog, ERROR,
                   ErrorSyncingProductFromOrder productId (WooCommerceOrder.id wooOrder)
                                                (Failed c))
                  (logs (snd (backfillProduct env (WooCommerceOrder.id wooOrder)
                                              productId w0))))
    /\ (forall fuel synced' errors' w',
          syncOrders env fuel w = (Ret (synced', errors'), w') ->
          errors' = count_outcome false (order_upserts (calls_during w w'))).
Proof.
  intros env synced errors wooOrder w Hok. split; [|split; [|split]].
  - rewrite syncOrders_record_counts, Hok. reflexivity.
  - rewrite syncOrders_record_run, Hok. cbn [snd add_log db_orders].
    match goal with |- context [syncProductsFromOrder env wooOrder ?w1] =>
      destruct (backfill_reach_facts (syncProductsFromOrder_reach env wooOrder w1))
        as [Ho _] end.
    rewrite Ho. simpl. apply db_orders_upsert_order.
  - intros productId w0. split; [apply backfillProduct_returns|].
    intros c. rewrite backfillProduct_run.
    destruct (db_fault env (clock w0) (ProductFindOne productId)).
    + erewrite (calls_during_app _ _ [(ProductFindOne productId, false)])
        by reflexivity.
      intros [Heq|[]]. inversion Heq; subst c. simpl. auto.
    + destruct (findOne _ (db_products w0)).
      * erewrite (calls_during_app _ _ [(ProductFindOne productId, true)])
          by reflexivity.
        intros [Heq|[]]. discriminate.
      * destruct (remote_product env (S (clock w0)) productId) as [wooProduct|].
        -- destruct (db_fault env (S (S (clock w0))) _).
           ++ erewrite (calls_during_app _ _
                         [(ProductFindOneAndUpdate (WooCommerceProduct.id wooProduct),
                           false);
                          (FetchProduct productId, true);
                          (ProductFindOne productId, true)]) by reflexivity.
              intros [Heq|[Heq|[Heq|[]]]]; try discriminate.
              inversion Heq; subst c. simpl. auto.
           ++ erewrite (calls_during_app _ _
                          [(ProductFindOneAndUpdate (WooCommerceProduct.id wooProduct),
                            true);
                           (FetchProduct productId, true);
                           (ProductFindOne productId, true)])
                by (simpl; rewrite trace_upsert_product; reflexivity).
              intros [Heq|[Heq|[Heq|[]]]]; discriminate.
        -- rewrite (calls_during_app _ _
                      [(FetchProduct productId, false);
                       (ProductFindOne productId, true)]) by reflexivity.
           intros [Heq|[Heq|[]]]; try discriminate.
           inversion Heq; subst c. simpl. auto.
  - intros fuel s' e' w' Hrun. apply (syncOrders_counts _ _ _ Hrun).
Qed.

(** An order for product 9 while every product fetch fails: it counts as
    synced. *)
Lemma backfill_failures_leave_the_order_synced_witness :
  db_fault (Sample.shop_without_products Sample.pages_one) (clock Sample.empty_world)
           (OrderFindOneAndUpdate (WooCommerceOrder.id (Sample.order 1 "recent" [9%Z])))
  = false
  /\ fst (syncOrders_record (Sample.shop_without_products Sample.pages_one) (0, 0)
                            (Sample.order 1 "recent" [9%Z]) Sample.empty_world)
     = Ret (1, 0).
Proof.
  split; [reflexivity|].
  apply (backfill_failures_leave_the_order_synced
           (Sample.shop_without_products Sample.pages_one) 0 0
           (Sample.order 1 "recent" [9%Z]) Sample.empty_world).
  reflexivity.
Defined.

(** C4 as stated fails: the fetch of product 9 fails during the pass, and the
    pass returns [{synced: 1, errors: 0}]. *)
Lemma backfill_failure_is_not_counted :
  In (FetchProduct 9, false)
     (trace (snd (syncOrders (Sample.shop_without_products Sample.pages_one) 2
                             Sample.empty_world)))
  /\ fst (syncOrders (Sample.shop_without_products Sample.pages_one) 2
                     Sample.empty_world)
     = Ret (1, 0).
Proof. split; [vm_compute; in_list | vm_compute; reflexivity]. Qed.

(** ** Idempotency *)

(** C5. Against an environment that answers the same request the same way at
    all times (remote data that does not change, products served under the
    identifier they were asked by, database operations that fail every time
    or never), a second sync pass leaves the order collection and the product
    collection exactly as the first pass left them: every order upsert of the
    second pass updates in place a document the first pass wrote, the last
    write to an identifier carrying the same fields both times
    ([last_modified] among them, which is the remote's [date_modified]); and
    no product is written, since each referenced product either is stored
    or cannot be backfilled. *)
Theorem sync_pass_is_idempotent :
  forall (env : Env) (fuel : nat) (w : World),
    steady env ->
    db_orders (snd (syncOrders env fuel (snd (syncOrders env fuel w))))
    = db_orders (snd (syncOrders env fuel w))
    /\ db_products (snd (syncOrders env fuel (snd (syncOrders env fuel w))))
       = db_products (snd (syncOrders env fuel w)).
Proof.
  intros env fuel w Hsteady.
  assert (H := syncOrders_twice Hsteady fuel w). unfold stores in H.
  inversion H. split; reflexivity.
Qed.

(** Three orders synced twice into an empty store by a database that fails
    to write the second, both times. *)
Lemma sync_pass_is_idempotent_witness :
  steady Sample.flaky
  /\ db_orders (snd (syncOrders Sample.flaky 2
                       (snd (syncOrders Sample.flaky 2 Sample.empty_world))))
     = db_orders (snd (syncOrders Sample.flaky 2 Sample.empty_world)).
Proof.
  assert (H : steady Sample.flaky).
  { constructor.
    - intros t t' page. reflexivity.
    - intros t t' id. reflexivity.
    - intros t id wooProduct E. inversion E. reflexivity.
    - intros t t' c. reflexivity. }
  split; [exact H|].
  apply (sync_pass_is_idempotent 2 Sample.empty_world H).
Defined.

(** ** Backfill *)

Lemma stored_nil_iff {D} (key : D -> Z) k (c : list (Doc D)) :
  stored key k c = [] <-> ~ In k (keys key c).
Proof.
  unfold stored, keys. induction c as [|x c IH]; simpl; [tauto|].
  unfold has_key at 1. destruct (key (fields x) =? k)%Z eqn:E.
  - apply Z.eqb_eq in E. split; [discriminate | intros H; exfalso; apply H; auto].
  - apply Z.eqb_neq in E. rewrite IH. tauto.
Qed.

(** What an insert under an identifier that is not stored changes. *)
Lemma stored_insert {D} (key : D -> Z) k k' d fresh (c : list (Doc D)) :
  key d = k -> ~ In k (keys key c) ->
  stored key k' (upsert key k d fresh c)
  = if (k =? k')%Z then [{| _id := fresh; fields := d |}] else stored key k' c.
Proof.
  intros Hd Habsent. unfold upsert.
  rewrite (proj2 (existsb_has_key_false key k c) Habsent).
  unfold stored. rewrite filter_app. simpl. unfold has_key at 2. simpl. rewrite Hd.
  destruct (k =? k')%Z eqn:E; [|apply app_nil_r].
  apply Z.eqb_eq in E. subst k'.
  apply (stored_nil_iff key) in Habsent. unfold stored in Habsent. rewrite Habsent.
  reflexivity.
Qed.

(** The outcomes of one round of the loop of [syncProductsFromOrder]: the
    calls it makes, newest first, and what it does to the products. *)
Lemma backfillProduct_cases env orderId id w :
  exists new,
    trace (snd (backfillProduct env orderId id w)) = new ++ trace w
    /\ ((new = [(ProductFindOne id, false)]
         /\ db_products (snd (backfillProduct env orderId id w)) = db_products w)
        \/ (In id (keys Product.wooCommerceId (db_products w))
            /\ new = [(ProductFindOne id, true)]
            /\ db_products (snd (backfillProduct env orderId id w)) = db_products w)
        \/ (~ In id (keys Product.wooCommerceId (db_products w))
            /\ new = [(FetchProduct id, false); (ProductFindOne id, true)]
            /\ db_products (snd (backfillProduct env orderId id w)) = db_products w)
        \/ (~ In id (keys Product.wooCommerceId (db_products w))
            /\ exists wooProduct,
                 remote_product env (S (clock w)) id = Some wooProduct
                 /\ new = [(ProductFindOneAndUpdate (WooCommerceProduct.id wooProduct),
                            false);
                           (FetchProduct id, true); (ProductFindOne id, true)]
                 /\ db_products (snd (backfillProduct env orderId id w))
                    = db_products w)
        \/ (~ In id (keys Product.wooCommerceId (db_products w))
            /\ exists wooProduct,
                 remote_product env (S (clock w)) id = Some wooProduct
                 /\ new = [(ProductFindOneAndUpdate (WooCommerceProduct.id wooProduct),
                            true);
                           (FetchProduct id, true); (ProductFindOne id, true)]
                 /\ db_products (snd (backfillProduct env orderId id w))
                    = upsert Product.wooCommerceId (WooCommerceProduct.id wooProduct)
                             (productData_of env wooProduct) (next_id w)
                             (db_products w))).
Proof.
  rewrite backfillProduct_run.
  destruct (db_fault env (clock w) (ProductFindOne id)).
  { exists [(ProductFindOne id, false)]. split; [reflexivity|]. left.
    split; reflexivity. }
  destruct (findOne (has_key Product.wooCommerceId id) (db_products w)) eqn:Efind.
  { exists [(ProductFindOne id, true)]. split; [reflexivity|]. right. left.
    split; [|split; reflexivity].
    destruct (in_dec Z.eq_dec id (keys Product.wooCommerceId (db_products w)))
      as [Hin|Hout]; [exact Hin|].
    apply findOne_has_key_None in Hout. congruence. }
  apply findOne_has_key_None in Efind.
  destruct (remote_product env (S (clock w)) id) as [wooProduct|] eqn:Er.
  2:{ exists [(FetchProduct id, false); (ProductFindOne id, true)].
      split; [reflexivity|]. right. right. left.
      split; [exact Efind | split; reflexivity]. }
  destruct (db_fault env (S (S (clock w))) _).
  - exists [(ProductFindOneAndUpdate (WooCommerceProduct.id wooProduct), false);
            (FetchProduct id, true); (ProductFindOne id, true)].
    split; [reflexivity|]. right. right. right. left.
    split; [exact Efind|]. exists wooProduct. split; [reflexivity|].
    split; reflexivity.
  - exists [(ProductFindOneAndUpdate (WooCommerceProduct.id wooProduct), true);
            (FetchProduct id, true); (ProductFindOne id, true)].
    split; [simpl; rewrite trace_upsert_product; reflexivity|].
    right. right. right. right.
    split; [exact Efind|]. exists wooProduct. split; [reflexivity|].
    split; [reflexivity|]. simpl. rewrite db_products_upsert_product. reflexivity.
Qed.

Section BackfillLoop.
Variable env : Env.
Variable orderId : Z.
Hypothesis Hserve : serves_requested_product env.

(** The calls of one round name its identifier only, and the round changes
    what is stored under its identifier only. *)
Lemma backfillProduct_own id w :
  exists new,
    trace (snd (backfillProduct env orderId id w)) = new ++ trace w
    /\ (forall c ok, In (c, ok) new ->
          c = ProductFindOne id \/ c = FetchProduct id
          \/ c = ProductFindOneAndUpdate id)
    /\ (forall k, k <> id ->
          stored Product.wooCommerceId k
                 (db_products (snd (backfillProduct env orderId id w)))
          = stored Product.wooCommerceId k (db_products w)).
Proof.
  destruct (backfillProduct_cases env orderId id w) as [new [Ht Hc]].
  exists new. split; [exact Ht|].
  destruct Hc as [[-> Hp]|[[_ [-> Hp]]|[[_ [-> Hp]]|[[_ [wp [Hr [-> Hp]]]]
                                                     |[Habsent [wp [Hr [-> Hp]]]]]]]];
    try rewrite (Hserve _ _ Hr) in *; rewrite Hp.
  - split; [|reflexivity]. intros c ok [E|[]]. inversion E. auto.
  - split; [|reflexivity]. intros c ok [E|[]]. inversion E. auto.
  - split; [|reflexivity]. intros c ok [E|[E|[]]]; inversion E; auto.
  - split; [|reflexivity]. intros c ok [E|[E|[E|[]]]]; inversion E; auto.
  - split; [intros c ok [E|[E|[E|[]]]]; inversion E; auto|].
    intros k Hk.
    rewrite stored_insert; [|simpl; eapply Hserve; exact Hr | exact Habsent].
    assert (F : (id =? k)%Z = false) by (apply Z.eqb_neq; congruence).
    rewrite F. reflexivity.
Qed.

Lemma loop_cons id ids w :
  backfill_loop env orderId (id :: ids) w = backfill_loop env orderId ids (snd (backfillProduct env orderId id w)).
Proof.
  unfold backfill_loop. rewrite for_of_cons.
  assert (H := backfillProduct_returns env orderId id w).
  destruct (backfillProduct env orderId id w) as [r w1]. simpl in H. subst r.
  reflexivity.
Qed.

(** The calls of the loop name the identifiers of the loop only, and the
    loop changes what is stored under them only. *)
Lemma loop_own : forall ids w,
  exists new,
    trace (backfill_loop env orderId ids w) = new ++ trace w
    /\ (forall c ok, In (c, ok) new ->
          exists id, In id ids
                     /\ (c = ProductFindOne id \/ c = FetchProduct id
                         \/ c = ProductFindOneAndUpdate id))
    /\ (forall k, ~ In k ids ->
          stored Product.wooCommerceId k (db_products (backfill_loop env orderId ids w))
          = stored Product.wooCommerceId k (db_products w)).
Proof.
  induction ids as [|id ids IH]; intros w.
  - exists []. split; [reflexivity|]. split; [intros c ok []|reflexivity].
  - rewrite loop_cons.
    destruct (backfillProduct_own id w) as [new1 [Ht1 [Hc1 Hs1]]].
    destruct (IH (snd (backfillProduct env orderId id w))) as [new2 [Ht2 [Hc2 Hs2]]].
    exists (new2 ++ new1). split; [rewrite Ht2, Ht1, app_assoc; reflexivity|]. split.
    + intros c ok Hin. apply in_app_or in Hin. destruct Hin as [Hin|Hin].
      * destruct (Hc2 c ok Hin) as [id' [Hid' Hc]]. exists id'. split; [right|]; auto.
      * exists id. split; [left; reflexivity | apply (Hc1 c ok Hin)].
    + intros k Hk. rewrite Hs2 by (intros H; apply Hk; right; exact H).
      apply Hs1. intros ->. apply Hk. left. reflexivity.
Qed.

(** The round of an identifier in the loop: the world [w0] it starts from
    stores under the identifier what the loop started with, and what it
    leaves there is what the loop ends with; the calls that name the
    identifier are those of its round. *)
Lemma loop_round : forall ids w id,
  NoDup ids -> In id ids ->
  exists w0 before after,
    calls_during w (backfill_loop env orderId ids w)
    = after ++ calls_during w0 (snd (backfillProduct env orderId id w0)) ++ before
    /\ (forall c ok, In (c, ok) (after ++ before) ->
          c <> ProductFindOne id /\ c <> FetchProduct id
          /\ c <> ProductFindOneAndUpdate id)
    /\ stored Product.wooCommerceId id (db_products w0)
       = stored Product.wooCommerceId id (db_products w)
    /\ stored Product.wooCommerceId id (db_products (backfill_loop env orderId ids w))
       = stored Product.wooCommerceId id
                (db_products (snd (backfillProduct env orderId id w0))).
Proof.
  induction ids as [|x ids IH]; intros w id Hn Hin; [contradiction|].
  inversion Hn as [|? ? Hx Hn']; subst.
  rewrite loop_cons.
  destruct (backfillProduct_own x w) as [new1 [Ht1 [Hc1 Hs1]]].
  destruct (loop_own ids (snd (backfillProduct env orderId x w)))
    as [new2 [Ht2 [Hc2 Hs2]]].
  assert (Hcalls : calls_during w (backfill_loop env orderId ids (snd (backfillProduct env orderId x w)))
                   = new2 ++ new1).
  { apply calls_during_app. rewrite Ht2, Ht1, app_assoc. reflexivity. }
  destruct (Z.eq_dec id x) as [->|Hne].
  - exists w, [], new2. rewrite app_nil_r.
    rewrite (calls_during_app _ _ _ Ht1). split; [exact Hcalls|]. split.
    + intros c ok Hc. rewrite app_nil_r in Hc.
      destruct (Hc2 c ok Hc) as [id' [Hid' Hc']].
      assert (id' <> x) by (intros ->; contradiction).
      destruct Hc' as [->|[->| ->]]; repeat split; congruence.
    + split; [reflexivity | apply Hs2, Hx].
  - destruct Hin as [->|Hin]; [congruence|].
    destruct (IH (snd (backfillProduct env orderId x w)) id Hn' Hin)
      as [w0 [before [after [Hsplit [Hother [Hs0 Hs']]]]]].
    exists w0, (before ++ new1), after. split.
    + rewrite Hcalls. rewrite (calls_during_app _ _ _ Ht2) in Hsplit.
      rewrite Hsplit, <- !app_assoc. reflexivity.
    + split; [|split; [rewrite Hs0; apply Hs1, Hne | exact Hs']].
      intros c ok Hc. rewrite app_assoc in Hc. apply in_app_or in Hc.
      destruct Hc as [Hc|Hc]; [apply (Hother c ok Hc)|].
      destruct (Hc1 c ok Hc) as [->|[->| ->]]; repeat split; congruence.
Qed.
End BackfillLoop.

(** C6. [syncProductsFromOrder] never throws and leaves the orders alone.
    When the shop answers a product request with the product of the
    requested identifier, then for every product identifier of the line
    items of the record:
    - the product is looked up in the store;
    - when it is stored before the backfill, no request and no write is made
      for it, and what is stored under it is unchanged;
    - when it is not, a lookup that comes back is followed by the request
      for it, and a request that comes back by the upsert;
    - an upsert that comes back leaves one document under the identifier,
      and every field of it is that of the product the shop answered with;
    - without such an upsert nothing is stored under the identifier: when
      the request fails, no write is made for it and no document, with
      however few fields, is stored.
    A request is made for a referenced product that is not stored only. *)
Theorem backfill_fetches_only_missing_products :
  forall (env : Env) (wooOrder : WooCommerceOrder.t) (w : World),
    fst (syncProductsFromOrder env wooOrder w) = Ret tt
    /\ db_orders (snd (syncProductsFromOrder env wooOrder w)) = db_orders w
    /\ (serves_requested_product env ->
        (forall id ok,
            In (FetchProduct id, ok)
               (calls_during w (snd (syncProductsFromOrder env wooOrder w))) ->
            (exists item, In item (WooCommerceOrder.line_items wooOrder)
                          /\ LineItem.product_id item = id)
            /\ ~ In id (keys Product.wooCommerceId (db_products w)))
        /\ forall id,
             (exists item, In item (WooCommerceOrder.line_items wooOrder)
                           /\ LineItem.product_id item = id) ->
             (exists ok,
                 In (ProductFindOne id, ok)
                    (calls_during w (snd (syncProductsFromOrder env wooOrder w))))
             /\ (In id (keys Product.wooCommerceId (db_products w)) ->
                 (forall ok,
                     ~ In (FetchProduct id, ok)
                          (calls_during w (snd (syncProductsFromOrder env wooOrder w))))
                 /\ (forall ok,
                       ~ In (ProductFindOneAndUpdate id, ok)
                            (calls_during w
                               (snd (syncProductsFromOrder env wooOrder w))))
                 /\ stored Product.wooCommerceId id
                           (db_products (snd (syncProductsFromOrder env wooOrder w)))
                    = stored Product.wooCommerceId id (db_products w))
             /\ (~ In id (keys Product.wooCommerceId (db_products w)) ->
                 (In (ProductFindOne id, true)
                     (calls_during w (snd (syncProductsFromOrder env wooOrder w))) ->
                  exists ok,
                    In (FetchProduct id, ok)
                       (calls_during w (snd (syncProductsFromOrder env wooOrder w))))
                 /\ (In (FetchProduct id, true)
                        (calls_during w (snd (syncProductsFromOrder env wooOrder w))) ->
                     exists ok,
                       In (ProductFindOneAndUpdate id, ok)
                          (calls_during w
                             (snd (syncProductsFromOrder env wooOrder w))))
                 /\ (In (ProductFindOneAndUpdate id, true)
                        (calls_during w (snd (syncProductsFromOrder env wooOrder w))) ->
                     exists t p doc,
                       remote_product env t id = Some p
                       /\ stored Product.wooCommerceId id
                                 (db_products
                                    (snd (syncProductsFromOrder env wooOrder w)))
                          = [doc]
                       /\ fields doc
                          = {| Product.wooCommerceId := WooCommerceProduct.id p;
                               Product.name := WooCommerceProduct.name p;
                               Product.slug := WooCommerceProduct.slug p;
                               Product.type := WooCommerceProduct.type p;
                               Product.status := WooCommerceProduct.status p;
                               Product.featured := WooCommerceProduct.featured p;
                               Product.catalog_visibility :=
                                 WooCommerceProduct.catalog_visibility p;
                               Product.description := WooCommerceProduct.description p;
                               Product.short_description :=
                                 WooCommerceProduct.short_description p;
                               Product.sku := WooCommerceProduct.sku p;
                               Product.price := WooCommerceProduct.price p;
                               Product.regular_price :=
                                 WooCommerceProduct.regular_price p;
                               Product.sale_price := WooCommerceProduct.sale_price p;
                               Product.on_sale := WooCommerceProduct.on_sale p;
                               Product.purchasable := WooCommerceProduct.purchasable p;
                               Product.total_sales := WooCommerceProduct.total_sales p;
                               Product.virtual := WooCommerceProduct.virtual p;
                               Product.downloadable :=
                                 WooCommerceProduct.downloadable p;
                               Product.tax_status := WooCommerceProduct.tax_status p;
                               Product.tax_class := WooCommerceProduct.tax_class p;
                               Product.manage_stock :=
                                 WooCommerceProduct.manage_stock p;
                               Product.stock_quantity :=
                                 WooCommerceProduct.stock_quantity p;
                               Product.stock_status :=
                                 WooCommerceProduct.stock_status p;
                               Product.backorders := WooCommerceProduct.backorders p;
                               Product.backorders_allowed :=
                                 WooCommerceProduct.backorders_allowed p;
                               Product.backordered := WooCommerceProduct.backordered p;
                               Product.sold_individually :=
                                 WooCommerceProduct.sold_individually p;
                               Product.weight := WooCommerceProduct.weight p;
                               Product.dimensions := WooCommerceProduct.dimensions p;
                               Product.shipping_required :=
                                 WooCommerceProduct.shipping_required p;
                               Product.shipping_taxable :=
                                 WooCommerceProduct.shipping_taxable p;
                               Product.shipping_class :=
                                 WooCommerceProduct.shipping_class p;
                               Product.shipping_class_id :=
                                 WooCommerceProduct.shipping_class_id p;
                               Product.reviews_allowed :=
                                 WooCommerceProduct.reviews_allowed p;
                               Product.average_rating :=
                                 WooCommerceProduct.average_rating p;
                               Product.rating_count :=
                                 WooCommerceProduct.rating_count p;
                               Product.images := WooCommerceProduct.images p;
                               Product.categories := WooCommerceProduct.categories p;
                               Product.tags := WooCommerceProduct.tags p;
                               Product.date_created :=
                                 parseDate env (WooCommerceProduct.date_created p);
                               Product.date_modified :=
                                 parseDate env (WooCommerceProduct.date_modified p) |})
                 /\ (~ In (ProductFindOneAndUpdate id, true)
                          (calls_during w
                             (snd (syncProductsFromOrder env wooOrder w))) ->
                     ~ In id (keys Product.wooCommerceId
                                   (db_products
                                      (snd (syncProductsFromOrder env wooOrder w)))))
                 /\ (In (FetchProduct id, false)
                        (calls_during w (snd (syncProductsFromOrder env wooOrder w))) ->
                     (forall ok,
                         ~ In (ProductFindOneAndUpdate id, ok)
                              (calls_during w
                                 (snd (syncProductsFromOrder env wooOrder w))))
                     /\ ~ In id (keys Product.wooCommerceId
                                      (db_products
                                         (snd (syncProductsFromOrder env wooOrder w))))))).
Proof.
  intros env wooOrder w.
  split; [apply syncProductsFromOrder_returns|]. split.
  { apply (backfill_reach_facts (syncProductsFromOrder_reach env wooOrder w)). }
  intros Hserve.
  set (ids := JsSet.of_array (map LineItem.product_id
                                  (WooCommerceOrder.line_items wooOrder))).
  assert (Hids : forall id,
             In id ids <-> exists item, In item (WooCommerceOrder.line_items wooOrder)
                                        /\ LineItem.product_id item = id).
  { intros id. unfold ids. rewrite JsSet_of_array_In, in_map_iff. split.
    - intros [item [E Hi]]. eauto.
    - intros [item [Hi E]]. eauto. }
  assert (Hnodup : NoDup ids) by apply JsSet_of_array_NoDup.
  change (snd (syncProductsFromOrder env wooOrder w))
    with (backfill_loop env (WooCommerceOrder.id wooOrder) ids w).
  set (w' := backfill_loop env (WooCommerceOrder.id wooOrder) ids w).
  (* the facts of one identifier, from its round *)
  assert (Hround : forall id, In id ids ->
            exists w0 new,
              (forall c ok,
                  c = ProductFindOne id \/ c = FetchProduct id
                  \/ c = ProductFindOneAndUpdate id ->
                  (In (c, ok) (calls_during w w') <-> In (c, ok) new))
              /\ (In id (keys Product.wooCommerceId (db_products w0))
                  <-> In id (keys Product.wooCommerceId (db_products w)))
              /\ ((new = [(ProductFindOne id, false)]
                   /\ stored Product.wooCommerceId id (db_products w')
                      = stored Product.wooCommerceId id (db_products w))
                  \/ (In id (keys Product.wooCommerceId (db_products w0))
                      /\ new = [(ProductFindOne id, true)]
                      /\ stored Product.wooCommerceId id (db_products w')
                         = stored Product.wooCommerceId id (db_products w))
                  \/ (~ In id (keys Product.wooCommerceId (db_products w0))
                      /\ new = [(FetchProduct id, false); (ProductFindOne id, true)]
                      /\ stored Product.wooCommerceId id (db_products w')
                         = stored Product.wooCommerceId id (db_products w))
                  \/ (~ In id (keys Product.wooCommerceId (db_products w0))
                      /\ new = [(ProductFindOneAndUpdate id, false);
                                (FetchProduct id, true); (ProductFindOne id, true)]
                      /\ stored Product.wooCommerceId id (db_products w')
                         = stored Product.wooCommerceId id (db_products w))
                  \/ (~ In id (keys Product.wooCommerceId (db_products w0))
                      /\ exists p,
                           remote_product env (S (clock w0)) id = Some p
                           /\ new = [(ProductFindOneAndUpdate id, true);
                                     (FetchProduct id, true); (ProductFindOne id, true)]
                           /\ stored Product.wooCommerceId id (db_products w')
                              = [{| _id := next_id w0;
                                    fields := productData_of env p |}]))).
  { intros id Hid.
    destruct (@loop_round env (WooCommerceOrder.id wooOrder) Hserve ids w id Hnodup Hid)
      as [w0 [before [after [Hsplit [Hother [Hs0 Hs']]]]]].
    fold w' in Hsplit, Hs'.
    destruct (backfillProduct_cases env (WooCommerceOrder.id wooOrder) id w0)
      as [new [Ht Hc]].
    rewrite (calls_during_app _ _ _ Ht) in Hsplit.
    exists w0, new. split; [|split].
    - intros c ok Hc'. rewrite Hsplit. rewrite !in_app_iff. split; [|tauto].
      intros [H|[H|H]]; [|exact H|];
        exfalso;
        (assert (Hin : In (c, ok) (after ++ before)) by (apply in_or_app; tauto));
        destruct (Hother c ok Hin) as [H1 [H2 H3]];
        destruct Hc' as [->|[->| ->]]; congruence.
    - rewrite <- !(stored_nil_iff Product.wooCommerceId) in *.
      assert (E : stored Product.wooCommerceId id (db_products w0) = []
                  <-> stored Product.wooCommerceId id (db_products w) = [])
        by (rewrite Hs0; tauto).
      pose proof (stored_nil_iff Product.wooCommerceId id (db_products w0)) as E0.
      pose proof (stored_nil_iff Product.wooCommerceId id (db_products w)) as E1.
      destruct (in_dec Z.eq_dec id (keys Product.wooCommerceId (db_products w0)));
        destruct (in_dec Z.eq_dec id (keys Product.wooCommerceId (db_products w)));
        tauto.
    - rewrite Hs'.
      destruct Hc as [[-> Hp]|[[Hin [-> Hp]]|[[Hout [-> Hp]]
                     |[[Hout [p [Hr [-> Hp]]]]|[Hout [p [Hr [-> Hp]]]]]]]];
        try rewrite (Hserve _ _ _ Hr) in *; rewrite Hp.
      + left. auto.
      + right. left. auto.
      + right. right. left. auto.
      + right. right. right. left. auto.
      + right. right. right. right. split; [exact Hout|]. exists p.
        split; [exact Hr|]. split; [reflexivity|].
        rewrite stored_insert; [|simpl; apply (Hserve _ _ _ Hr) | exact Hout].
        rewrite Z.eqb_refl. reflexivity. }
  split.
  - intros id ok Hfetch.
    destruct (@loop_own env (WooCommerceOrder.id wooOrder) Hserve ids w)
      as [new [Ht [Hc _]]].
    fold w' in Ht. rewrite (calls_during_app _ _ _ Ht) in Hfetch.
    destruct (Hc _ _ Hfetch) as [id' [Hid' [E|[E|E]]]]; try discriminate.
    inversion E; subst id'. split; [apply Hids, Hid'|].
    rewrite <- (calls_during_app _ _ _ Ht) in Hfetch.
    destruct (Hround id Hid') as [w0 [mine [Hmine [Hkeys Hcase]]]].
    apply (Hmine (FetchProduct id) ok) in Hfetch; [|auto].
    rewrite <- Hkeys.
    destruct Hcase as [[-> _]|[[_ [-> _]]|[[Hout _]|[[Hout _]|[Hout _]]]]];
      try exact Hout; simpl in Hfetch;
      repeat (destruct Hfetch as [Hfetch|Hfetch]; [discriminate Hfetch|]);
      contradiction.
  - intros id Hid. apply Hids in Hid.
    destruct (Hround id Hid) as [w0 [mine [Hmine [Hkeys Hcase]]]].
    assert (Hl := fun ok => Hmine (ProductFindOne id) ok (or_introl eq_refl)).
    assert (Hf := fun ok => Hmine (FetchProduct id) ok (or_intror (or_introl eq_refl))).
    assert (Hu := fun ok => Hmine (ProductFindOneAndUpdate id) ok
                              (or_intror (or_intror eq_refl))).
    assert (Hstored : forall c,
               stored Product.wooCommerceId id c = []
               <-> ~ In id (keys Product.wooCommerceId c))
      by (intros c; apply stored_nil_iff).
    split; [|split].
    + destruct Hcase as [[-> _]|[[_ [-> _]]|[[_ [-> _]]|[[_ [-> _]]
                                                         |[_ [p [_ [-> _]]]]]]]];
        eexists; apply Hl; simpl; eauto.
    + intros Hin. apply Hkeys in Hin.
      destruct Hcase as [[-> Hp]|[[_ [-> Hp]]|[[Hout _]|[[Hout _]|[Hout _]]]]];
        try contradiction;
        (split; [|split; [|exact Hp]]); intros ok H;
        [apply Hf in H | apply Hu in H | apply Hf in H | apply Hu in H];
        simpl in H; intuition discriminate.
    + intros Hout. assert (Hout0 := Hout). rewrite <- Hkeys in Hout0.
      apply Hstored in Hout.
      destruct Hcase as [[-> Hp]|[[Hin _]|[[_ [-> Hp]]|[[_ [-> Hp]]
                                                       |[_ [p [Hr [-> Hp]]]]]]]];
        try contradiction.
      * split; [|split; [|split; [|split]]].
        -- intros H. apply Hl in H. simpl in H. intuition discriminate.
        -- intros H. apply Hf in H. simpl in H. intuition discriminate.
        -- intros H. apply Hu in H. simpl in H. intuition discriminate.
        -- intros _. apply Hstored. rewrite Hp. exact Hout.
        -- intros H. apply Hf in H. simpl in H. intuition discriminate.
      * split; [|split; [|split; [|split]]].
        -- intros _. exists false. apply Hf. simpl. auto.
        -- intros H. apply Hf in H. simpl in H. intuition discriminate.
        -- intros H. apply Hu in H. simpl in H. intuition discriminate.
        -- intros _. apply Hstored. rewrite Hp. exact Hout.
        -- intros _. split; [|apply Hstored; rewrite Hp; exact Hout].
           intros ok H. apply Hu in H. simpl in H. intuition discriminate.
      * split; [|split; [|split; [|split]]].
        -- intros _. exists true. apply Hf. simpl. auto.
        -- intros _. exists false. apply Hu. simpl. auto.
        -- intros H. apply Hu in H. simpl in H. intuition discriminate.
        -- intros _. apply Hstored. rewrite Hp. exact Hout.
        -- intros H. apply Hf in H. simpl in H. intuition discriminate.
      * split; [|split; [|split; [|split]]].
        -- intros _. exists true. apply Hf. simpl. auto.
        -- intros _. exists true. apply Hu. simpl. auto.
        -- intros _. exists (S (clock w0)), p. eexists.
           split; [exact Hr|]. split; [exact Hp | reflexivity].
        -- intros H. exfalso. apply H. apply Hu. simpl. auto.
        -- intros H. apply Hf in H. simpl in H. intuition discriminate.
Qed.

(** An order for products 7 and 5 arrives when product 7 is stored and
    product 5 is not.  Product 7 is looked up and left alone; product 5 is
    requested and stored with the fields the shop answered.  When the shop
    does not answer, nothing is stored for product 5. *)
Lemma backfill_fetches_only_missing_products_witness :
  serves_requested_product (Sample.shop Sample.pages_retention)
  /\ In 7%Z (keys Product.wooCommerceId (db_products Sample.world_retention))
  /\ (forall ok,
        ~ In (FetchProduct 7, ok)
             (calls_during Sample.world_retention
                (snd (syncProductsFromOrder (Sample.shop Sample.pages_retention)
                        (Sample.order 4 "recent" [7%Z; 5%Z])
                        Sample.world_retention))))
  /\ ~ In 5%Z (keys Product.wooCommerceId (db_products Sample.world_retention))
  /\ (exists t p doc,
        remote_product (Sample.shop Sample.pages_retention) t 5 = Some p
        /\ stored Product.wooCommerceId 5
                  (db_products
                     (snd (syncProductsFromOrder (Sample.shop Sample.pages_retention)
                             (Sample.order 4 "recent" [7%Z; 5%Z])
                             Sample.world_retention)))
           = [doc]
        /\ Product.name (fields doc) = WooCommerceProduct.name p
        /\ Product.price (fields doc) = WooCommerceProduct.price p)
  /\ ~ In 5%Z (keys Product.wooCommerceId
                    (db_products
                       (snd (syncProductsFromOrder
                               (Sample.shop_without_products Sample.pages_retention)
                               (Sample.order 4 "recent" [7%Z; 5%Z])
                               Sample.world_retention)))).
Proof.
  assert (Hserve : serves_requested_product (Sample.shop Sample.pages_retention)).
  { intros t id p E. inversion E. reflexivity. }
  assert (Hnone : serves_requested_product
                    (Sample.shop_without_products Sample.pages_retention)).
  { intros t id p E. discriminate E. }
  assert (H7 : In 7%Z (keys Product.wooCommerceId (db_products Sample.world_retention))).
  { vm_compute. in_list. }
  assert (H5 : ~ In 5%Z (keys Product.wooCommerceId (db_products Sample.world_retention))).
  { assert (F : forallb (fun k => negb (k =? 5)%Z)
                        (keys Product.wooCommerceId (db_products Sample.world_retention))
                = true) by (vm_compute; reflexivity).
    intros Hin. rewrite forallb_forall in F. specialize (F _ Hin). discriminate. }
  assert (R7 : exists item,
             In item (WooCommerceOrder.line_items (Sample.order 4 "recent" [7%Z; 5%Z]))
             /\ LineItem.product_id item = 7%Z).
  { exists (Sample.item 7). split; [left|]; reflexivity. }
  assert (R5 : exists item,
             In item (WooCommerceOrder.line_items (Sample.order 4 "recent" [7%Z; 5%Z]))
             /\ LineItem.product_id item = 5%Z).
  { exists (Sample.item 5). split; [right; left|]; reflexivity. }
  destruct (backfill_fetches_only_missing_products
              (Sample.shop Sample.pages_retention)
              (Sample.order 4 "recent" [7%Z; 5%Z]) Sample.world_retention)
    as [_ [_ Hshop]].
  destruct (Hshop Hserve) as [_ Hid].
  destruct (Hid 7%Z R7) as [_ [Hstored _]].
  destruct (Hid 5%Z R5) as [_ [_ Habsent]].
  destruct (Habsent H5) as [_ [_ [Hupsert _]]].
  destruct (backfill_fetches_only_missing_products
              (Sample.shop_without_products Sample.pages_retention)
              (Sample.order 4 "recent" [7%Z; 5%Z]) Sample.world_retention)
    as [_ [_ Hclosed]].
  destruct (Hclosed Hnone) as [_ Hid'].
  destruct (Hid' 5%Z R5) as [_ [_ Habsent']].
  destruct (Habsent' H5) as [_ [_ [_ [_ Hfailed]]]].
  split; [exact Hserve|]. split; [exact H7|]. split; [|split; [exact H5|split]].
  - exact (proj1 (Hstored H7)).
  - destruct Hupsert as [t [p [doc [Hp [Hdoc Hfields]]]]].
    { vm_compute. in_list. }
    exists t, p, doc. split; [exact Hp|]. split; [exact Hdoc|].
    rewrite Hfields. split; reflexivity.
  - apply Hfailed. vm_compute. in_list.
Defined.

(** ** What escapes a pass *)

(** C7. A sync pass throws only the error of a failed page request, and the
    failed request is the last call it made.  However a pass ends, every
    order whose upsert came back during the pass is stored at its end.  When
    pages [1 .. N-1] are full and the request for page [N] fails, the pass
    throws the error of that request, and every record of the earlier pages
    whose upsert cannot fail is stored. *)
Theorem only_page_fetch_failures_escape_and_nothing_is_rolled_back :
  forall (env : Env) (fuel : nat) (w : World),
    (forall e w',
        syncOrders env fuel w = (Throw e, w') ->
        exists page,
          e = Failed (FetchOrders page perPage (afterDate env))
          /\ exists earlier,
               calls_during w w'
               = (FetchOrders page perPage (afterDate env), false) :: earlier)
    /\ (forall id,
          In (OrderFindOneAndUpdate id, true)
             (calls_during w (snd (syncOrders env fuel w))) ->
          In id (keys Order.wooCommerceId (db_orders (snd (syncOrders env fuel w)))))
    /\ (forall (pages : nat -> list WooCommerceOrder.t) (N : nat),
          1 <= N <= fuel ->
          (forall t p, 1 <= p < N ->
                       remote_orders env t p perPage (afterDate env) = Some (pages p)) ->
          (forall p, 1 <= p < N -> perPage <= List.length (pages p)) ->
          (forall t, remote_orders env t N perPage (afterDate env) = None) ->
          fst (syncOrders env fuel w)
          = Throw (Failed (FetchOrders N perPage (afterDate env)))
          /\ forall p o,
               1 <= p < N -> In o (pages p) ->
               (forall t, db_fault env t
                                   (OrderFindOneAndUpdate (WooCommerceOrder.id o))
                          = false) ->
               In (WooCommerceOrder.id o)
                  (keys Order.wooCommerceId
                        (db_orders (snd (syncOrders env fuel w))))).
Proof.
  intros env fuel w. split; [|split].
  - intros e w' H. rewrite syncOrders_of_loop in H.
    destruct (syncOrders_loop env fuel 1 0 0 _) as [[[s e0]|err|] w1] eqn:E;
      inversion H; subst.
    destruct (syncOrders_loop_throws _ _ _ _ _ _ E) as [p [earlier [He Ht]]].
    exists p. split; [exact He|]. exists earlier.
    apply calls_during_app. simpl. exact Ht.
  - intros id Hin.
    destruct (sync_reach_facts (syncOrders_reach env fuel w)) as [[new [Ht [_ Hw]]] _].
    rewrite (calls_during_app _ _ _ Ht) in Hin. apply Hw, Hin.
  - intros pages N HN Hserve Hfull Hfail.
    destruct N as [|n]; [lia|].
    destruct (syncOrders_loop_broken env pages (n := n) (page := 1) 0 0
                (add_log (SyncServiceLog, INFO, StartingOrderSync) w) (fuel := fuel))
      as [w' [Hrun Hkept]].
    + intros t p Hp. apply Hserve. lia.
    + intros p Hp. apply Hfull. lia.
    + exact Hfail.
    + lia.
    + rewrite syncOrders_of_loop, Hrun. simpl. split; [reflexivity|].
      intros p o Hp. apply Hkept. lia.
Qed.

(** One full page, then a failing request for page 2: the pass throws the
    error of that request, and order 100 of page 1 is stored. *)
Lemma only_page_fetch_failures_escape_and_nothing_is_rolled_back_witness :
  fst (syncOrders (Sample.shop Sample.pages_broken) 3 Sample.empty_world)
  = Throw (Failed (FetchOrders 2 perPage
                               (afterDate (Sample.shop Sample.pages_broken))))
  /\ In 100%Z
        (keys Order.wooCommerceId
              (db_orders (snd (syncOrders (Sample.shop Sample.pages_broken) 3
                                          Sample.empty_world)))).
Proof.
  destruct (proj2 (proj2 (only_page_fetch_failures_escape_and_nothing_is_rolled_back
                            (Sample.shop Sample.pages_broken) 3 Sample.empty_world))
                  Sample.stream150 2) as [Hthrow Hkept].
  - lia.
  - intros t p Hp. assert (E : p = 1) by lia. subst p. reflexivity.
  - intros p Hp. assert (E : p = 1) by lia. subst p.
    unfold Sample.stream150. rewrite length_orders_from. apply le_n.
  - intros t. reflexivity.
  - split; [exact Hthrow|].
    apply (Hkept 1 (Sample.order 100 "recent" [7%Z])).
    + lia.
    + unfold Sample.stream150, Sample.orders_from. apply in_map_iff.
      exists 99. split; [reflexivity | apply in_seq; lia].
    + intros t. reflexivity.
Defined.

(** ** Uniqueness *)

(** C8. After any sequence of sync passes over a store that holds no
    identifier twice, the store holds at most one Transaction Record and at
    most one Catalog Record under any identifier, and exactly one under every
    identifier whose upsert came back during the passes. *)
Theorem one_record_per_remote_identifier :
  forall (passes : list (Env * nat)) (w : World),
    NoDup (keys Order.wooCommerceId (db_orders w)) ->
    NoDup (keys Product.wooCommerceId (db_products w)) ->
    (forall id,
        List.length (stored Order.wooCommerceId id
                            (db_orders (run_passes passes w))) <= 1)
    /\ (forall id,
          List.length (stored Product.wooCommerceId id
                              (db_products (run_passes passes w))) <= 1)
    /\ (forall id,
          In (OrderFindOneAndUpdate id, true)
             (calls_during w (run_passes passes w)) ->
          List.length (stored Order.wooCommerceId id
                              (db_orders (run_passes passes w))) = 1)
    /\ (forall id,
          In (ProductFindOneAndUpdate id, true)
             (calls_during w (run_passes passes w)) ->
          List.length (stored Product.wooCommerceId id
                              (db_products (run_passes passes w))) = 1).
Proof.
  intros passes w Hwo Hwp.
  assert (H : one_per_id (trace w) (run_passes passes w)).
  { eapply reach_invariant;
      [apply one_per_id_step | apply run_passes_reach |].
    constructor; [exact Hwo | exact Hwp |].
    exists []. split; [reflexivity|]. split; intros id []. }
  destruct H as [Ho Hp [new [Ht [Ho' Hp']]]].
  rewrite (calls_during_app _ _ _ Ht).
  repeat split; intros id.
  - apply stored_at_most_one, Ho.
  - apply stored_at_most_one, Hp.
  - intros Hin. apply stored_exactly_one; auto.
  - intros Hin. apply stored_exactly_one; auto.
Qed.

(** The same three orders synced twice into an empty store: order 2 is
    stored once. *)
Lemma one_record_per_remote_identifier_witness :
  NoDup (keys Order.wooCommerceId (db_orders Sample.empty_world))
  /\ NoDup (keys Product.wooCommerceId (db_products Sample.empty_world))
  /\ List.length
       (stored Order.wooCommerceId 2
          (db_orders (run_passes [(Sample.shop Sample.pages_retention, 2);
                                  (Sample.shop Sample.pages_retention, 2)]
                                 Sample.empty_world))) = 1.
Proof.
  assert (Ho : NoDup (keys Order.wooCommerceId (db_orders Sample.empty_world)))
    by constructor.
  assert (Hp : NoDup (keys Product.wooCommerceId (db_products Sample.empty_world)))
    by constructor.
  split; [exact Ho | split; [exact Hp|]].
  apply (proj1 (proj2 (proj2 (one_record_per_remote_identifier
                                [(Sample.shop Sample.pages_retention, 2);
                                 (Sample.shop Sample.pages_retention, 2)]
                                Sample.empty_world Ho Hp)))).
  vm_compute. in_list.
Defined.

(** ** Scheduler *)

(** C9. When the connectivity test answers [false], a scheduled run makes
    that one call and nothing else: it returns, the stores are as before, no
    sync pass is started, and the log gains the start entry, the result of
    the test and the skip entry (written by [logger.error]), but no
    "Daily sync failed" entry.  The manual triggers log one entry and then
    are the Reconciler's pass itself, result or thrown error included, and
    they never call the connectivity test. *)
Theorem scheduled_sync_is_gated_and_manual_triggers_are_direct :
  forall (env : Env) (fuel : nat) (w : World),
    (remote_alive env (clock w) = false ->
     runDailySync env fuel w =
       (Ret tt,
        add_log (SchedulerLog, ERROR, ConnectionFailedSkippingSync)
          (add_log (SyncServiceLog, INFO, ConnectionTest false)
             (record_call TestConnection false
                (add_log (SchedulerLog, INFO, StartingDailySync) w)))))
    /\ triggerManualSync env fuel w
       = syncOrders env fuel (add_log (SchedulerLog, INFO, ManualSyncTriggered) w)
    /\ triggerManualCleanup env w
       = cleanupOldOrders env (add_log (SchedulerLog, INFO, ManualCleanupTriggered) w)
    /\ (forall ok,
          ~ In (TestConnection, ok)
               (calls_during w (snd (triggerManualSync env fuel w))))
    /\ (forall ok,
          ~ In (TestConnection, ok)
               (calls_during w (snd (triggerManualCleanup env w)))).
Proof.
  intros env fuel w. split; [|split; [reflexivity | split; [reflexivity | split]]].
  - intros Hdown.
    unfold runDailySync, testConnection, WooCommerceService_testConnection,
      try_catch, bind, log, ret.
    change (clock (add_log (SchedulerLog, INFO, StartingDailySync) w)) with (clock w).
    rewrite Hdown. reflexivity.
  - intros ok Hin.
    change (triggerManualSync env fuel w)
      with (syncOrders env fuel (add_log (SchedulerLog, INFO, ManualSyncTriggered) w))
      in Hin.
    destruct (sync_reach_facts
                (syncOrders_reach env fuel
                   (add_log (SchedulerLog, INFO, ManualSyncTriggered) w)))
      as [[new [Ht [Hc _]]] _].
    erewrite calls_during_app in Hin by exact Ht.
    specialize (Hc _ Hin). discriminate.
  - intros ok Hin.
    change (triggerManualCleanup env w)
      with (cleanupOldOrders env (add_log (SchedulerLog, INFO, ManualCleanupTriggered) w))
      in Hin.
    destruct (cleanupOldOrders_facts env
                (add_log (SchedulerLog, INFO, ManualCleanupTriggered) w))
      as [[phase1 [phase2 [Hcalls [H1 [H2 _]]]]] _].
    change (calls_during w) with
      (calls_during (add_log (SchedulerLog, INFO, ManualCleanupTriggered) w)) in Hin.
    rewrite Hcalls in Hin. apply in_app_or in Hin. destruct Hin as [Hin|Hin].
    + exact (H2 _ Hin).
    + specialize (H1 _ Hin). discriminate.
Qed.

(** With the shop unreachable the scheduled run only tests the connection. *)
Lemma scheduled_sync_is_gated_and_manual_triggers_are_direct_witness :
  remote_alive Sample.offline (clock Sample.empty_world) = false
  /\ runDailySync Sample.offline 5 Sample.empty_world =
       (Ret tt,
        add_log (SchedulerLog, ERROR, ConnectionFailedSkippingSync)
          (add_log (SyncServiceLog, INFO, ConnectionTest false)
             (record_call TestConnection false
                (add_log (SchedulerLog, INFO, StartingDailySync)
                         Sample.empty_world)))).
Proof.
  split; [reflexivity|].
  apply (proj1 (scheduled_sync_is_gated_and_manual_triggers_are_direct
                  Sample.offline 5 Sample.empty_world)).
  reflexivity.
Defined.

(** ** Retention frame *)

(** C10. A retention pass issues product deletions only for identifiers in
    the line items of an order it selected for deletion, a product document
    that is gone after the pass has such an identifier, and the documents
    stored under any other identifier are the same after the pass as
    before. *)
Theorem retention_leaves_other_products_unchanged :
  forall (env : Env) (w : World),
    (forall id ok,
        In (ProductFindOneAndDelete id, ok)
           (calls_during w (snd (cleanupOldOrders env w))) ->
        exists o, In o (ordersToDelete_of env w) /\ references id o = true)
    /\ (forall doc,
          In doc (db_products w) ->
          ~ In doc (db_products (snd (cleanupOldOrders env w))) ->
          exists o, In o (ordersToDelete_of env w)
                    /\ references (Product.wooCommerceId (fields doc)) o = true)
    /\ (forall id,
          (forall o, In o (ordersToDelete_of env w) -> references id o = false) ->
          stored Product.wooCommerceId id (db_products (snd (cleanupOldOrders env w)))
          = stored Product.wooCommerceId id (db_products w)).
Proof.
  intros env w.
  destruct (cleanupOldOrders_facts env w)
    as [[phase1 [phase2 [Hcalls [H1 [H2 _]]]]] [Hstored Hdocs]].
  assert (Hcand : forall id,
             In id (productIdsToCheck_of (ordersToDelete_of env w) []) ->
             exists o, In o (ordersToDelete_of env w) /\ references id o = true).
  { intros id Hid. apply productIdsToCheck_of_In in Hid.
    destruct Hid as [[]|Hid]. exact Hid. }
  split; [|split].
  - intros id ok Hin. rewrite Hcalls in Hin. apply in_app_or in Hin.
    destruct Hin as [Hin|Hin].
    + apply Hcand. exact (H2 _ Hin).
    + apply H1 in Hin. discriminate.
  - intros doc Hdoc Hgone. destruct (Hdocs doc Hdoc) as [Hin|[Hc _]].
    + contradiction.
    + apply Hcand, Hc.
  - intros id Hid. apply Hstored. intros Hin.
    destruct (Hcand id Hin) as [o [Ho Hr]]. rewrite (Hid o Ho) in Hr. discriminate.
Qed.

(** Product 9 is referenced only by a recent order: it is stored after the
    pass as before. *)
Lemma retention_leaves_other_products_unchanged_witness :
  (forall o, In o (ordersToDelete_of (Sample.shop Sample.pages_retention)
                                     Sample.world_retention) ->
             references 9 o = false)
  /\ stored Product.wooCommerceId 9
            (db_products (snd (cleanupOldOrders (Sample.shop Sample.pages_retention)
                                                Sample.world_retention)))
     = stored Product.wooCommerceId 9 (db_products Sample.world_retention).
Proof.
  assert (H : forall o, In o (ordersToDelete_of (Sample.shop Sample.pages_retention)
                                                Sample.world_retention) ->
                        references 9 o = false).
  { assert (F : forallb (fun o => negb (references 9 o))
                       (ordersToDelete_of (Sample.shop Sample.pages_retention)
                                          Sample.world_retention) = true)
      by (vm_compute; reflexivity).
    intros o Ho. rewrite forallb_forall in F. specialize (F o Ho).
    destruct (references 9 o); [discriminate | reflexivity]. }
  split; [exact H|].
  exact (proj2 (proj2 (retention_leaves_other_products_unchanged
                         (Sample.shop Sample.pages_retention)
                         Sample.world_retention)) 9%Z H).
Defined.

(* ===================================================================== *)
(** * Further properties of the retention pass *)
(* ===================================================================== *)

Lemma order_deletes_app a b : order_deletes (a ++ b) = order_deletes b ++ order_deletes a.
Proof. unfold order_deletes. rewrite rev_app_distr, flat_map_app. reflexivity. Qed.

Lemma product_deletes_app a b :
  product_deletes (a ++ b) = product_deletes b ++ product_deletes a.
Proof. unfold product_deletes. rewrite rev_app_distr, flat_map_app. reflexivity. Qed.

Lemma order_deletes_cons ev tr :
  order_deletes (ev :: tr) = order_deletes tr ++ order_deletes [ev].
Proof. apply (order_deletes_app [ev] tr). Qed.

Lemma product_deletes_cons ev tr :
  product_deletes (ev :: tr) = product_deletes tr ++ product_deletes [ev].
Proof. apply (product_deletes_app [ev] tr). Qed.

Lemma order_deletes_In id tr :
  In id (order_deletes tr) <-> In (OrderFindByIdAndDelete id, true) tr.
Proof.
  unfold order_deletes. rewrite in_flat_map. split.
  - intros [[c ok] [Hin Hev]]. apply in_rev in Hin.
    destruct c; try contradiction. destruct ok; [|contradiction].
    destruct Hev as [<-|[]]. exact Hin.
  - intros Hin. exists (OrderFindByIdAndDelete id, true).
    split; [apply in_rev in Hin; exact Hin | left; reflexivity].
Qed.

Lemma product_deletes_In id tr :
  In id (product_deletes tr) <-> In (ProductFindOneAndDelete id, true) tr.
Proof.
  unfold product_deletes. rewrite in_flat_map. split.
  - intros [[c ok] [Hin Hev]]. apply in_rev in Hin.
    destruct c; try contradiction. destruct ok; [|contradiction].
    destruct Hev as [<-|[]]. exact Hin.
  - intros Hin. exists (ProductFindOneAndDelete id, true).
    split; [apply in_rev in Hin; exact Hin | left; reflexivity].
Qed.

(** ** Deleting by ObjectId *)

Section ObjectIds.
Context {D : Type}.

Lemma object_ids_filter (p : Doc D -> bool) (c : list (Doc D)) :
  NoDup (object_ids c) -> NoDup (object_ids (filter p c)).
Proof.
  unfold object_ids. induction c as [|x c IH]; simpl; intros H; [constructor|].
  inversion H as [|? ? Hx Hc]; subst. destruct (p x); simpl; [|auto].
  constructor; [|auto]. intros Hin. apply Hx.
  apply in_map_iff in Hin. destruct Hin as [y [Hy Hin]].
  apply filter_In in Hin. apply in_map_iff. exists y. tauto.
Qed.

Lemma deleteFirst_by_id (id : nat) (c : list (Doc D)) :
  NoDup (object_ids c) ->
  deleteFirst (fun o => _id o =? id) c = filter (fun o => negb (_id o =? id)) c.
Proof.
  unfold object_ids. induction c as [|x c IH]; simpl; intros H; [reflexivity|].
  inversion H as [|? ? Hx Hc]; subst.
  destruct (_id x =? id) eqn:E; simpl.
  - apply Nat.eqb_eq in E. symmetry. apply forallb_filter_id.
    apply forallb_forall. intros y Hy. apply negb_true_iff, Nat.eqb_neq.
    intros Heq. apply Hx. apply in_map_iff. exists y. split; [congruence | exact Hy].
  - f_equal. apply IH, Hc.
Qed.

Lemma same_id_same_doc (c : list (Doc D)) x y :
  NoDup (object_ids c) -> In x c -> In y c -> _id x = _id y -> x = y.
Proof.
  unfold object_ids. induction c as [|z c IH]; simpl; intros H Hx Hy E; [contradiction|].
  inversion H as [|? ? Hz Hc]; subst.
  destruct Hx as [->|Hx], Hy as [->|Hy]; auto.
  - exfalso. apply Hz. rewrite E. apply in_map, Hy.
  - exfalso. apply Hz. rewrite <- E. apply in_map, Hx.
Qed.
End ObjectIds.

Lemma filter_twice {A} (p q : A -> bool) (l : list A) :
  filter p (filter q l) = filter (fun x => q x && p x) l.
Proof.
  induction l as [|x l IH]; simpl; [reflexivity|].
  destruct (q x); simpl; [destruct (p x); simpl; congruence | exact IH].
Qed.

Lemma delete_orders_filter ids : forall c,
  NoDup (object_ids c) ->
  delete_orders ids c = filter (fun o => negb (existsb (Nat.eqb (_id o)) ids)) c.
Proof.
  unfold delete_orders. induction ids as [|id ids IH]; intros c H; simpl.
  - symmetry. apply forallb_filter_id. apply forallb_forall. reflexivity.
  - rewrite deleteFirst_by_id by exact H.
    rewrite IH by (apply object_ids_filter, H).
    rewrite filter_twice. apply filter_ext. intros o.
    rewrite negb_orb. reflexivity.
Qed.

Lemma length_deleteFirst {D} (p : Doc D -> bool) (c : list (Doc D)) :
  List.length c <= S (List.length (deleteFirst p c)).
Proof.
  induction c as [|x c IH]; simpl; [lia|]. destruct (p x); simpl; lia.
Qed.

(** ** The first loop, run *)

Lemma cleanupOldOrders_record_run env n ids o w :
  cleanupOldOrders_record env (n, ids) o w =
    if db_fault env (clock w) (OrderFindByIdAndDelete (_id o)) then
      (Ret (n, productIdsToCheck_of [o] ids),
       add_log (SyncServiceLog, ERROR,
                ErrorDeletingOrder (Order.wooCommerceId (fields o))
                  (Failed (OrderFindByIdAndDelete (_id o))))
         (record_call (OrderFindByIdAndDelete (_id o)) false w))
    else
      (Ret (S n, productIdsToCheck_of [o] ids),
       add_log (SyncServiceLog, DEBUG, DeletedOrder (Order.wooCommerceId (fields o)))
         (record_call (OrderFindByIdAndDelete (_id o)) true (delete_order (_id o) w))).
Proof.
  unfold cleanupOldOrders_record, try_catch, bind, Order_findByIdAndDelete,
    db_call, log, ret.
  destruct (db_fault env (clock w) (OrderFindByIdAndDelete (_id o))); reflexivity.
Qed.

Lemma cleanupOldOrders_delete_effect env (l : list (Doc Order.t)) : forall n ids w,
  exists new kept,
    trace (snd (for_of (cleanupOldOrders_record env) l (n, ids) w)) = new ++ trace w
    /\ fst (for_of (cleanupOldOrders_record env) l (n, ids) w)
       = Ret (n + List.length kept, productIdsToCheck_of l ids)
    /\ order_deletes new = object_ids kept
    /\ product_deletes new = []
    /\ incl kept l
    /\ (NoDup (object_ids l) -> NoDup (object_ids kept))
    /\ ((forall t id, db_fault env t (OrderFindByIdAndDelete id) = false) -> kept = l)
    /\ db_products (snd (for_of (cleanupOldOrders_record env) l (n, ids) w))
       = db_products w
    /\ db_orders (snd (for_of (cleanupOldOrders_record env) l (n, ids) w))
       = delete_orders (object_ids kept) (db_orders w).
Proof.
  induction l as [|o l IH]; intros n ids w.
  - exists [], []. simpl. rewrite Nat.add_0_r.
    repeat split; auto. apply incl_refl.
  - rewrite for_of_cons, cleanupOldOrders_record_run.
    destruct (db_fault env (clock w) (OrderFindByIdAndDelete (_id o))) eqn:E.
    + match goal with |- context [for_of _ l (n, ?ids1) ?w1] =>
        destruct (IH n ids1 w1)
          as [new [kept [Ht [Hr [Hd [Hp [Hi [Hn [Hk [Hprod Hord]]]]]]]]]] end.
      exists (new ++ [(OrderFindByIdAndDelete (_id o), false)]), kept.
      split; [rewrite Ht; simpl; rewrite <- app_assoc; reflexivity|].
      split; [exact Hr|].
      split; [rewrite order_deletes_app, Hd; reflexivity|].
      split; [rewrite product_deletes_app, Hp; reflexivity|].
      split; [apply incl_tl, Hi|].
      split; [intros H; apply Hn; inversion H; assumption|].
      split; [intros H; rewrite H in E; discriminate|].
      split; [exact Hprod | exact Hord].
    + match goal with |- context [for_of _ l (S n, ?ids1) ?w1] =>
        destruct (IH (S n) ids1 w1)
          as [new [kept [Ht [Hr [Hd [Hp [Hi [Hn [Hk [Hprod Hord]]]]]]]]]] end.
      exists (new ++ [(OrderFindByIdAndDelete (_id o), true)]), (o :: kept).
      split; [rewrite Ht; simpl; rewrite <- app_assoc; reflexivity|].
      split; [rewrite Hr; simpl; do 2 f_equal; lia|].
      split; [rewrite order_deletes_app, Hd; reflexivity|].
      split; [rewrite product_deletes_app, Hp; reflexivity|].
      split; [intros x [<-|Hx]; [left; reflexivity | right; apply Hi, Hx]|].
      split.
      { intros H. inversion H as [|? ? Ho Hl]; subst. simpl. constructor; [|auto].
        intros Hin. apply Ho. unfold object_ids in *.
        apply in_map_iff in Hin. destruct Hin as [x [Hx Hin]].
        apply in_map_iff. exists x. split; [exact Hx | apply Hi, Hin]. }
      split; [intros H; rewrite (Hk H); reflexivity|].
      split; [exact Hprod | exact Hord].
Qed.

(** ** The second loop, run *)

Lemma cleanupUnusedProducts_id_run env n id w :
  cleanupUnusedProducts_id env n id w =
    if db_fault env (clock w) (OrderFindOneByProduct id) then
      (Ret n,
       add_log (SyncServiceLog, ERROR,
                ErrorCheckingProduct id (Failed (OrderFindOneByProduct id)))
         (record_call (OrderFindOneByProduct id) false w))
    else
      match findOne (references id) (db_orders w) with
      | Some _ => (Ret n, record_call (OrderFindOneByProduct id) true w)
      | None =>
          if db_fault env (S (clock w)) (ProductFindOneAndDelete id) then
            (Ret n,
             add_log (SyncServiceLog, ERROR,
                      ErrorCheckingProduct id (Failed (ProductFindOneAndDelete id)))
               (record_call (ProductFindOneAndDelete id) false
                  (record_call (OrderFindOneByProduct id) true w)))
          else
            (Ret (S n),
             add_log (SyncServiceLog, DEBUG, DeletedUnusedProduct id)
               (record_call (ProductFindOneAndDelete id) true
                  (delete_product id (record_call (OrderFindOneByProduct id) true w))))
      end.
Proof.
  unfold cleanupUnusedProducts_id, try_catch, bind, Order_findOne_by_product,
    Product_findOneAndDelete, db_call, log, ret.
  destruct (db_fault env (clock w) (OrderFindOneByProduct id)); [reflexivity|].
  cbn [fst snd].
  destruct (findOne (references id) (db_orders w)); [reflexivity|].
  change (clock (record_call (OrderFindOneByProduct id) true w)) with (S (clock w)).
  destruct (db_fault env (S (clock w)) (ProductFindOneAndDelete id)); reflexivity.
Qed.

Ltac prune_round IH n1 tail :=
  match goal with |- context [for_of _ _ n1 ?w1] =>
    let new := fresh "new" in
    let Ht := fresh "Ht" in let Hr := fresh "Hr" in let Hd := fresh "Hd" in
    let Ho := fresh "Ho" in let Hl := fresh "Hl" in
    destruct (IH n1 w1) as [new [Ht [Hr [Hd [Ho [Hl _]]]]]];
    exists (new ++ tail);
    simpl in Ht, Ho, Hl;
    (split; [rewrite Ht, <- app_assoc; reflexivity|]);
    (split; [rewrite Hr, product_deletes_app, length_app; simpl; f_equal; lia|]);
    (split; [rewrite order_deletes_app, Hd; reflexivity|]);
    (split; [rewrite Ho; reflexivity|]);
    (split; [rewrite product_deletes_app, length_app; simpl; lia | discriminate])
  end.

Lemma cleanupUnusedProducts_effect env (ids : list Z) : forall n w,
  exists new,
    trace (snd (for_of (cleanupUnusedProducts_id env) ids n w)) = new ++ trace w
    /\ fst (for_of (cleanupUnusedProducts_id env) ids n w)
       = Ret (n + List.length (product_deletes new))
    /\ order_deletes new = []
    /\ db_orders (snd (for_of (cleanupUnusedProducts_id env) ids n w)) = db_orders w
    /\ List.length (db_products w)
       <= List.length (db_products (snd (for_of (cleanupUnusedProducts_id env) ids n w)))
          + List.length (product_deletes new)
    /\ (ids = [] -> new = []
        /\ db_products (snd (for_of (cleanupUnusedProducts_id env) ids n w))
           = db_products w).
Proof.
  induction ids as [|id ids IH]; intros n w.
  - exists []. simpl. rewrite Nat.add_0_r. repeat split; auto. lia.
  - rewrite for_of_cons, cleanupUnusedProducts_id_run.
    assert (G := length_deleteFirst (has_key Product.wooCommerceId id) (db_products w)).
    destruct (db_fault env (clock w) (OrderFindOneByProduct id)).
    + prune_round IH n [(OrderFindOneByProduct id, false)].
    + destruct (findOne (references id) (db_orders w)).
      * prune_round IH n [(OrderFindOneByProduct id, true)].
      * destruct (db_fault env (S (clock w)) (ProductFindOneAndDelete id)).
        -- prune_round IH n [(ProductFindOneAndDelete id, false);
                             (OrderFindOneByProduct id, true)].
        -- prune_round IH (S n) [(ProductFindOneAndDelete id, true);
                                 (OrderFindOneByProduct id, true)].
Qed.

(** ** The pass, run *)

Lemma cleanupOldOrders_failed env w :
  db_fault env (clock w) (OrderFind (threeMonthsAgo env)) = true ->
  cleanupOldOrders env w =
    (Throw (Failed (OrderFind (threeMonthsAgo env))),
     add_log (SyncServiceLog, ERROR,
              ErrorDuringCleanup (Failed (OrderFind (threeMonthsAgo env))))
       (record_call (OrderFind (threeMonthsAgo env)) false
          (add_log (SyncServiceLog, INFO, StartingCleanup) w))).
Proof.
  intros H. unfold cleanupOldOrders.
  unfold bind at 1. unfold log at 1. unfold try_catch at 1. unfold bind at 1.
  unfold Order_find, db_call.
  change (clock (add_log (SyncServiceLog, INFO, StartingCleanup) w)) with (clock w).
  rewrite H. reflexivity.
Qed.

Lemma cleanupOldOrders_run env w :
  db_fault env (clock w) (OrderFind (threeMonthsAgo env)) = false ->
  cleanupOldOrders env w =
    match for_of (cleanupOldOrders_record env) (ordersToDelete_of env w) (0, [])
            (add_log (SyncServiceLog, INFO,
                      FoundOrdersToDelete (List.length (ordersToDelete_of env w)))
               (record_call (OrderFind (threeMonthsAgo env)) true
                  (add_log (SyncServiceLog, INFO, StartingCleanup) w))) with
    | (Ret (n, ids), w1) =>
        match for_of (cleanupUnusedProducts_id env) ids 0 w1 with
        | (Ret m, w2) =>
            (Ret (n, m), add_log (SyncServiceLog, INFO, CleanupCompleted n m) w2)
        | (Throw e, w2) =>
            (Throw e, add_log (SyncServiceLog, ERROR, ErrorDuringCleanup e) w2)
        | (OutOfFuel, w2) => (OutOfFuel, w2)
        end
    | (Throw e, w1) =>
        (Throw e, add_log (SyncServiceLog, ERROR, ErrorDuringCleanup e) w1)
    | (OutOfFuel, w1) => (OutOfFuel, w1)
    end.
Proof.
  intros H. unfold cleanupOldOrders, cleanupOldOrders_delete, cleanupUnusedProducts.
  unfold bind at 1. unfold log at 1. unfold try_catch at 1. unfold bind at 1.
  unfold Order_find, db_call.
  change (clock (add_log (SyncServiceLog, INFO, StartingCleanup) w)) with (clock w).
  rewrite H. cbn [fst snd db_orders add_log record_call].
  fold (ordersToDelete_of env w).
  unfold bind at 1. unfold log at 1. unfold bind at 1.
  match goal with |- context [for_of (cleanupOldOrders_record env) ?l (0, []) ?wA] =>
    destruct (for_of (cleanupOldOrders_record env) l (0, []) wA) as [[[n ids]|e|] w1]
  end; try reflexivity.
  unfold bind at 1.
  destruct (for_of (cleanupUnusedProducts_id env) ids 0 w1) as [[m|e|] w2];
    reflexivity.
Qed.

Lemma cleanupOldOrders_effect env w :
  db_fault env (clock w) (OrderFind (threeMonthsAgo env)) = false ->
  exists new1 new2 kept,
    fst (cleanupOldOrders env w)
    = Ret (List.length kept, List.length (product_deletes new2))
    /\ trace (snd (cleanupOldOrders env w))
       = new2 ++ new1 ++ (OrderFind (threeMonthsAgo env), true) :: trace w
    /\ order_deletes new1 = object_ids kept
    /\ product_deletes new1 = []
    /\ order_deletes new2 = []
    /\ incl kept (ordersToDelete_of env w)
    /\ (NoDup (object_ids (ordersToDelete_of env w)) -> NoDup (object_ids kept))
    /\ ((forall t id, db_fault env t (OrderFindByIdAndDelete id) = false) ->
        kept = ordersToDelete_of env w)
    /\ db_orders (snd (cleanupOldOrders env w))
       = delete_orders (object_ids kept) (db_orders w)
    /\ List.length (db_products w)
       <= List.length (db_products (snd (cleanupOldOrders env w)))
          + List.length (product_deletes new2)
    /\ (productIdsToCheck_of (ordersToDelete_of env w) [] = [] ->
        new2 = [] /\ db_products (snd (cleanupOldOrders env w)) = db_products w).
Proof.
  intros H. rewrite (cleanupOldOrders_run env w H).
  set (l := ordersToDelete_of env w).
  match goal with |- context [for_of (cleanupOldOrders_record env) l (0, []) ?wA] =>
    destruct (cleanupOldOrders_delete_effect env l 0 [] wA)
      as [new1 [kept [Ht1 [Hr1 [Hd1 [Hp1 [Hi1 [Hn1 [Hk1 [Hprod1 Hord1]]]]]]]]]];
    destruct (for_of (cleanupOldOrders_record env) l (0, []) wA) as [r1 w1]
  end.
  simpl in Ht1, Hr1, Hprod1, Hord1. subst r1.
  destruct (cleanupUnusedProducts_effect env (productIdsToCheck_of l []) 0 w1)
    as [new2 [Ht2 [Hr2 [Hd2 [Ho2 [Hl2 He2]]]]]].
  destruct (for_of (cleanupUnusedProducts_id env) (productIdsToCheck_of l []) 0 w1)
    as [r2 w2].
  simpl in Ht2, Hr2, Ho2, Hl2, He2. subst r2.
  cbn [fst snd add_log trace db_orders db_products].
  exists new1, new2, kept.
  split; [reflexivity|].
  split; [rewrite Ht2, Ht1; reflexivity|].
  split; [exact Hd1|]. split; [exact Hp1|]. split; [exact Hd2|].
  split; [exact Hi1|]. split; [exact Hn1|]. split; [exact Hk1|].
  split; [rewrite Ho2; exact Hord1|].
  split; [rewrite <- Hprod1; exact Hl2|].
  intros E. destruct (He2 E) as [-> Hsame]. split; [reflexivity|].
  rewrite Hsame. exact Hprod1.
Qed.

Lemma length_delete_orders ids : forall c,
  NoDup ids -> incl ids (object_ids c) ->
  List.length ids + List.length (delete_orders ids c) = List.length c.
Proof.
  unfold delete_orders, object_ids.
  induction ids as [|id ids IH]; intros c Hn Hi; simpl; [reflexivity|].
  inversion Hn as [|? ? Hid Hids]; subst.
  assert (Hlen : S (List.length (deleteFirst (fun o => _id o =? id) c)) = List.length c).
  { assert (Hin : In id (map (@_id Order.t) c)) by (apply Hi; left; reflexivity).
    clear - Hin. induction c as [|x c IHc]; simpl in *; [contradiction|].
    destruct (_id x =? id) eqn:E; [reflexivity|].
    apply Nat.eqb_neq in E. destruct Hin as [Hx|Hin]; [contradiction|].
    simpl. f_equal. apply IHc, Hin. }
  rewrite <- Hlen, <- (IH (deleteFirst (fun o => _id o =? id) c) Hids); [lia|].
  intros id' Hid'.
  assert (Hin : In id' (map (@_id Order.t) c)) by (apply Hi; right; exact Hid').
  assert (Hne : id' <> id) by (intros ->; contradiction).
  clear - Hin Hne. induction c as [|x c IHc]; simpl in *; [contradiction|].
  destruct (_id x =? id) eqn:E.
  - apply Nat.eqb_eq in E. destruct Hin as [Hx|Hin]; [congruence | exact Hin].
  - simpl. destruct Hin as [Hx|Hin]; [left; exact Hx | right; apply IHc, Hin].
Qed.

(** What a retention pass does to the orders, whether or not the selection
    came back. *)
Lemma cleanupOldOrders_deletes env w :
  exists kept,
    order_deletes (calls_during w (snd (cleanupOldOrders env w))) = object_ids kept
    /\ incl kept (ordersToDelete_of env w)
    /\ (NoDup (object_ids (db_orders w)) -> NoDup (object_ids kept))
    /\ ((forall t c, delete_call c = true -> db_fault env t c = false) ->
        kept = ordersToDelete_of env w)
    /\ db_orders (snd (cleanupOldOrders env w))
       = delete_orders (object_ids kept) (db_orders w).
Proof.
  destruct (db_fault env (clock w) (OrderFind (threeMonthsAgo env))) eqn:E.
  - rewrite (cleanupOldOrders_failed env w E). exists [].
    erewrite (calls_during_app _ _ [(OrderFind (threeMonthsAgo env), false)])
      by reflexivity.
    split; [reflexivity|]. split; [intros x []|]. split; [constructor|].
    split; [|reflexivity].
    intros H. rewrite (H _ (OrderFind (threeMonthsAgo env)) eq_refl) in E. discriminate.
  - destruct (cleanupOldOrders_effect env w E)
      as [new1 [new2 [kept [_ [Ht [Hd1 [_ [Hd2 [Hi [Hn [Hk [Ho _]]]]]]]]]]]].
    exists kept.
    erewrite (calls_during_app _ _
                (new2 ++ new1 ++ [(OrderFind (threeMonthsAgo env), true)]))
      by (rewrite Ht, <- !app_assoc; reflexivity).
    rewrite !order_deletes_app, Hd1, Hd2, app_nil_r.
    split; [reflexivity|]. split; [exact Hi|].
    split; [intros H; apply Hn, object_ids_filter, H|].
    split; [intros H; apply Hk; intros; apply H; reflexivity | exact Ho].
Qed.

Lemma existsb_object_ids_stale env (c : list (Doc Order.t)) o :
  NoDup (object_ids c) -> In o c ->
  existsb (Nat.eqb (_id o)) (object_ids (filter (stale env) c)) = stale env o.
Proof.
  intros Hn Ho. destruct (stale env o) eqn:E.
  - apply existsb_exists. exists (_id o). split; [|apply Nat.eqb_refl].
    apply in_map, filter_In. auto.
  - destruct (existsb _ _) eqn:Ex; [|reflexivity].
    apply existsb_exists in Ex. destruct Ex as [id [Hin Heq]].
    apply Nat.eqb_eq in Heq. subst id.
    apply in_map_iff in Hin. destruct Hin as [o' [Hid Hin]].
    apply filter_In in Hin. destruct Hin as [Hin Hs].
    rewrite (same_id_same_doc c o' o Hn Hin Ho Hid) in Hs. congruence.
Qed.

(** ** Which orders a retention pass removes *)

(** X1. A retention pass removes from the order collection exactly the
    documents whose deletion came back, each of them a document it selected
    as last modified before the threshold; an order modified at or after the
    threshold is never removed, whatever fails. *)
Theorem retention_removes_only_selected_orders :
  forall (env : Env) (w : World),
    NoDup (object_ids (db_orders w)) ->
    db_orders (snd (cleanupOldOrders env w))
    = filter (fun o => negb (existsb (Nat.eqb (_id o))
                               (order_deletes
                                  (calls_during w (snd (cleanupOldOrders env w))))))
             (db_orders w)
    /\ (forall id,
          In id (order_deletes (calls_during w (snd (cleanupOldOrders env w)))) ->
          exists o, In o (db_orders w) /\ _id o = id /\ stale env o = true)
    /\ (forall o, In o (db_orders w) -> stale env o = false ->
                  In o (db_orders (snd (cleanupOldOrders env w)))).
Proof.
  intros env w Hn.
  destruct (cleanupOldOrders_deletes env w) as [kept [Hd [Hi [_ [_ Ho]]]]].
  rewrite Hd, Ho, delete_orders_filter by exact Hn.
  assert (Hsel : forall id, In id (object_ids kept) ->
            exists o, In o (db_orders w) /\ _id o = id /\ stale env o = true).
  { intros id Hid. apply in_map_iff in Hid. destruct Hid as [o [Hid Hin]].
    apply Hi, filter_In in Hin. exists o. tauto. }
  split; [reflexivity | split; [exact Hsel|]].
  intros o Hin Hs. apply filter_In. split; [exact Hin|].
  apply negb_true_iff. destruct (existsb _ _) eqn:Ex; [|reflexivity].
  apply existsb_exists in Ex. destruct Ex as [id [Hid Heq]].
  apply Nat.eqb_eq in Heq. subst id.
  destruct (Hsel _ Hid) as [o' [Hin' [Heq Hs']]].
  rewrite (same_id_same_doc _ o' o Hn Hin' Hin Heq) in Hs'. congruence.
Qed.

(** With no deletion failing, the orders left are those not stale. *)
Lemma cleanupOldOrders_keeps_fresh env w :
  NoDup (object_ids (db_orders w)) ->
  (forall t c, delete_call c = true -> db_fault env t c = false) ->
  db_orders (snd (cleanupOldOrders env w))
  = filter (fun o => negb (stale env o)) (db_orders w).
Proof.
  intros Hn Hok.
  destruct (cleanupOldOrders_deletes env w) as [kept [_ [_ [_ [Hk Ho]]]]].
  rewrite Ho, (Hk Hok), delete_orders_filter by exact Hn.
  apply filter_ext_in. intros o Hin. f_equal.
  apply existsb_object_ids_stale; assumption.
Qed.

(** A retention pass ends: it returns or throws. *)
Lemma cleanupOldOrders_ends env w : fst (cleanupOldOrders env w) <> OutOfFuel.
Proof.
  destruct (db_fault env (clock w) (OrderFind (threeMonthsAgo env))) eqn:E.
  - rewrite (cleanupOldOrders_failed env w E). discriminate.
  - destruct (cleanupOldOrders_effect env w E) as [new1 [new2 [kept [Hr _]]]].
    rewrite Hr. discriminate.
Qed.

(** X2. When the selection and the order deletions do not fail, a retention
    pass leaves exactly the orders last modified at or after the threshold,
    in their order, and reports as [deletedOrders] the number of orders that
    were older. *)
Theorem retention_removes_every_stale_order :
  forall (env : Env) (w : World),
    NoDup (object_ids (db_orders w)) ->
    (forall t c, delete_call c = true -> db_fault env t c = false) ->
    db_orders (snd (cleanupOldOrders env w))
    = filter (fun o => negb (stale env o)) (db_orders w)
    /\ exists deletedProducts,
         fst (cleanupOldOrders env w)
         = Ret (List.length (filter (stale env) (db_orders w)), deletedProducts).
Proof.
  intros env w Hn Hok. split.
  - apply cleanupOldOrders_keeps_fresh; assumption.
  - destruct (cleanupOldOrders_effect env w (Hok _ (OrderFind (threeMonthsAgo env)) eq_refl))
      as [new1 [new2 [kept' [Hr [_ [_ [_ [_ [_ [_ [Hk' _]]]]]]]]]]].
    rewrite Hr, Hk' by (intros; apply Hok; reflexivity). eauto.
Qed.

(** A list of numbers that has been computed holds no number twice. *)
Ltac nodup_list :=
  repeat (constructor; [simpl; intuition discriminate|]); constructor.

(** Orders 1 (stale), 2 and 3 are stored under distinct ObjectIds; after the
    pass order 1 has gone, orders 2 and 3 are stored. *)
Lemma retention_removes_only_selected_orders_witness :
  NoDup (object_ids (db_orders Sample.world_retention))
  /\ keys Order.wooCommerceId
          (db_orders (snd (cleanupOldOrders (Sample.shop Sample.pages_retention)
                                            Sample.world_retention)))
     = [2%Z; 3%Z].
Proof.
  assert (Hn : NoDup (object_ids (db_orders Sample.world_retention))).
  { vm_compute. nodup_list. }
  split; [exact Hn|].
  rewrite (proj1 (@retention_removes_only_selected_orders
                    (Sample.shop Sample.pages_retention) Sample.world_retention Hn)).
  vm_compute. reflexivity.
Defined.

Lemma retention_removes_every_stale_order_witness :
  NoDup (object_ids (db_orders Sample.world_retention))
  /\ (forall t c, delete_call c = true ->
                  db_fault (Sample.shop Sample.pages_retention) t c = false)
  /\ keys Order.wooCommerceId
          (db_orders (snd (cleanupOldOrders (Sample.shop Sample.pages_retention)
                                            Sample.world_retention)))
     = [2%Z; 3%Z].
Proof.
  assert (Hn : NoDup (object_ids (db_orders Sample.world_retention))).
  { vm_compute. nodup_list. }
  assert (Hok : forall t c, delete_call c = true ->
                            db_fault (Sample.shop Sample.pages_retention) t c = false).
  { intros t c _. reflexivity. }
  split; [exact Hn | split; [exact Hok|]].
  rewrite (proj1 (@retention_removes_every_stale_order _ _ Hn Hok)).
  vm_compute. reflexivity.
Defined.

(** X3. The pair a retention pass returns counts the deletion calls that came
    back: [deletedOrders] is the number of documents removed from the order
    collection, while [deletedProducts] counts the [findOneAndDelete] calls on
    products, whether or not a product was stored under the identifier, so
    that it bounds the number of product documents removed from above. *)
Theorem retention_reports_deletion_calls :
  forall (env : Env) (w w' : World) (deletedOrders deletedProducts : nat),
    cleanupOldOrders env w = (Ret (deletedOrders, deletedProducts), w') ->
    deletedOrders = List.length (order_deletes (calls_during w w'))
    /\ deletedProducts = List.length (product_deletes (calls_during w w'))
    /\ List.length (db_products w) <= List.length (db_products w') + deletedProducts
    /\ (NoDup (object_ids (db_orders w)) ->
        deletedOrders + List.length (db_orders w') = List.length (db_orders w)).
Proof.
  intros env w w' n m Hrun.
  destruct (db_fault env (clock w) (OrderFind (threeMonthsAgo env))) eqn:E.
  - rewrite (cleanupOldOrders_failed env w E) in Hrun. discriminate.
  - destruct (cleanupOldOrders_effect env w E)
      as [new1 [new2 [kept [Hr [Ht [Hd1 [Hp1 [Hd2 [Hi [Hn [_ [Ho [Hl _]]]]]]]]]]]]].
    rewrite Hrun in Hr, Ht, Ho, Hl. simpl in Hr, Ht, Ho, Hl.
    inversion Hr; subst n m.
    erewrite (calls_during_app _ _
                (new2 ++ new1 ++ [(OrderFind (threeMonthsAgo env), true)]))
      by (rewrite Ht, <- !app_assoc; reflexivity).
    rewrite !order_deletes_app, !product_deletes_app, Hd1, Hd2, Hp1, app_nil_r.
    simpl. unfold object_ids at 1. rewrite length_map.
    split; [reflexivity | split; [reflexivity | split; [exact Hl|]]].
    intros Hnodup. rewrite Ho, <- (length_map (@_id Order.t) kept).
    apply length_delete_orders.
    + apply Hn, object_ids_filter, Hnodup.
    + intros id Hid. apply in_map_iff in Hid. destruct Hid as [o [Hid Hin]].
      apply Hi, filter_In in Hin. apply in_map_iff. exists o. tauto.
Qed.

(** Order 1 references products 7 and 8, neither of which was ever stored,
    and order 2 references product 8.  The pass deletes order 1, then calls
    [findOneAndDelete] for product 7: it reports one deleted product although
    the product collection was and stays empty. *)
Lemma retention_reports_deletion_calls_witness :
  fst (cleanupOldOrders (Sample.shop Sample.pages_retention)
                        Sample2.world_without_products) = Ret (1, 1)
  /\ db_products Sample2.world_without_products = []
  /\ 1 = List.length
           (product_deletes
              (calls_during Sample2.world_without_products
                 (snd (cleanupOldOrders (Sample.shop Sample.pages_retention)
                                        Sample2.world_without_products)))).
Proof.
  assert (Hrun : cleanupOldOrders (Sample.shop Sample.pages_retention)
                                  Sample2.world_without_products
                 = (Ret (1, 1),
                    snd (cleanupOldOrders (Sample.shop Sample.pages_retention)
                                          Sample2.world_without_products))).
  { vm_compute. reflexivity. }
  split; [rewrite Hrun; reflexivity|]. split; [vm_compute; reflexivity|].
  exact (proj1 (proj2 (@retention_reports_deletion_calls _ _ _ _ _ Hrun))).
Defined.

(** X4. A retention pass throws only when its selection query fails, it then
    throws the error of that query with nothing deleted, and it never fails
    to end: the deletion of an order or of a product that fails is logged and
    the pass goes on. *)
Theorem retention_throws_only_when_selection_fails :
  forall (env : Env) (w : World),
    match fst (cleanupOldOrders env w) with
    | Ret _ => db_fault env (clock w) (OrderFind (threeMonthsAgo env)) = false
    | Throw e =>
        e = Failed (OrderFind (threeMonthsAgo env))
        /\ db_fault env (clock w) (OrderFind (threeMonthsAgo env)) = true
        /\ calls_during w (snd (cleanupOldOrders env w))
           = [(OrderFind (threeMonthsAgo env), false)]
        /\ db_orders (snd (cleanupOldOrders env w)) = db_orders w
        /\ db_products (snd (cleanupOldOrders env w)) = db_products w
    | OutOfFuel => False
    end.
Proof.
  intros env w.
  destruct (db_fault env (clock w) (OrderFind (threeMonthsAgo env))) eqn:E.
  - rewrite (cleanupOldOrders_failed env w E). simpl.
    repeat split. apply calls_during_app. reflexivity.
  - destruct (cleanupOldOrders_effect env w E) as [new1 [new2 [kept [Hr _]]]].
    rewrite Hr. reflexivity.
Qed.

(** X5. Retention is idempotent when the database does not fail: a second
    pass right after the first selects nothing, deletes nothing and reports
    [(0, 0)]. *)
Theorem retention_is_idempotent :
  forall (env : Env) (w : World),
    NoDup (object_ids (db_orders w)) ->
    db_reliable env ->
    fst (cleanupOldOrders env (snd (cleanupOldOrders env w))) = Ret (0, 0)
    /\ db_orders (snd (cleanupOldOrders env (snd (cleanupOldOrders env w))))
       = db_orders (snd (cleanupOldOrders env w))
    /\ db_products (snd (cleanupOldOrders env (snd (cleanupOldOrders env w))))
       = db_products (snd (cleanupOldOrders env w)).
Proof.
  intros env w Hn Hok.
  assert (Ho := @cleanupOldOrders_keeps_fresh env w Hn (fun t c _ => Hok t c)).
  set (w1 := snd (cleanupOldOrders env w)) in *.
  assert (Hnone : ordersToDelete_of env w1 = []).
  { unfold ordersToDelete_of, findAll. rewrite Ho.
    change (fun o : Doc Order.t => (Order.last_modified (fields o) <? threeMonthsAgo env)%Z)
      with (stale env).
    rewrite filter_twice. clear.
    induction (db_orders w) as [|o c IH]; simpl; [reflexivity|].
    destruct (stale env o); simpl; exact IH. }
  destruct (cleanupOldOrders_effect env w1 (Hok _ _))
    as [new1 [new2 [kept [Hr [_ [_ [_ [_ [Hi [_ [_ [Ho' [_ He]]]]]]]]]]]]].
  rewrite Hnone in Hi, He.
  assert (Hk : kept = []).
  { destruct kept as [|o kept]; [reflexivity|]. destruct (Hi o (or_introl eq_refl)). }
  subst kept. destruct (He eq_refl) as [-> Hp].
  split; [exact Hr | split; [exact Ho' | exact Hp]].
Qed.

Lemma retention_is_idempotent_witness :
  NoDup (object_ids (db_orders Sample.world_retention))
  /\ db_reliable (Sample.shop Sample.pages_retention)
  /\ fst (cleanupOldOrders (Sample.shop Sample.pages_retention)
            (snd (cleanupOldOrders (Sample.shop Sample.pages_retention)
                                   Sample.world_retention)))
     = Ret (0, 0).
Proof.
  assert (Hn : NoDup (object_ids (db_orders Sample.world_retention))).
  { vm_compute. nodup_list. }
  assert (Hok : db_reliable (Sample.shop Sample.pages_retention)).
  { intros t c. reflexivity. }
  split; [exact Hn | split; [exact Hok|]].
  exact (proj1 (@retention_is_idempotent _ _ Hn Hok)).
Defined.

(* ===================================================================== *)
(** * Further properties of the sync pass *)
(* ===================================================================== *)

Section UpsertFacts.
Context {D : Type}.
Variable key : D -> Z.

Lemma object_ids_updateFirst (p : Doc D -> bool) d (c : list (Doc D)) :
  object_ids (updateFirst p d c) = object_ids c.
Proof.
  unfold object_ids. induction c as [|x c IH]; simpl; [reflexivity|].
  destruct (p x); simpl; [reflexivity | f_equal; exact IH].
Qed.

Lemma object_ids_upsert k d fresh (c : list (Doc D)) :
  exists added,
    object_ids (upsert key k d fresh c) = object_ids c ++ added.
Proof.
  unfold upsert. destruct (existsb (has_key key k) c).
  - exists []. rewrite object_ids_updateFirst, app_nil_r. reflexivity.
  - exists [fresh]. unfold object_ids. rewrite map_app. reflexivity.
Qed.

Lemma stored_updateFirst_other k k' d (c : list (Doc D)) :
  key d = k -> k' <> k ->
  stored key k' (updateFirst (has_key key k) d c) = stored key k' c.
Proof.
  intros Hd Hne. unfold stored. induction c as [|x c IH]; simpl; [reflexivity|].
  destruct (has_key key k x) eqn:E; simpl.
  - unfold has_key in *. simpl. apply Z.eqb_eq in E. rewrite Hd, E.
    assert (F : (k =? k')%Z = false) by (apply Z.eqb_neq; congruence).
    rewrite F. reflexivity.
  - rewrite IH. reflexivity.
Qed.

Lemma stored_upsert_other k k' d fresh (c : list (Doc D)) :
  key d = k -> k' <> k ->
  stored key k' (upsert key k d fresh c) = stored key k' c.
Proof.
  intros Hd Hne. unfold upsert. destruct (existsb (has_key key k) c).
  - apply stored_updateFirst_other; assumption.
  - unfold stored. rewrite filter_app. simpl. unfold has_key at 2. simpl.
    assert (F : (key d =? k')%Z = false) by (apply Z.eqb_neq; congruence).
    rewrite F. apply app_nil_r.
Qed.
End UpsertFacts.

Lemma orders_in_place_step base w1 w2 :
  sync_step w1 w2 -> orders_in_place base w1 -> orders_in_place base w2.
Proof.
  intros Hs [[added Hids] [new [Ht Hst]]].
  assert (Hcall : forall c ok w,
             db_orders w = db_orders w1 -> trace w = trace w1 ->
             (forall id, c <> OrderFindOneAndUpdate id \/ ok = false) ->
             orders_in_place base (record_call c ok w)).
  { intros c ok w Ho Htr Hc. split; simpl; rewrite Ho; [eauto|].
    exists ((c, ok) :: new). rewrite Htr, Ht. split; [reflexivity|].
    intros id Hid. apply Hst. intros Hin. apply Hid. right. exact Hin. }
  destruct Hs as [w1 w2 Hs | page pp after ok w1].
  - destruct Hs as [w1 w2 Hs | id w1 | d w1].
    + destruct Hs as [e w1 | c w1 Hc | c w1 Hc | d w1].
      * split; simpl; eauto.
      * apply Hcall; auto.
      * apply Hcall; auto. intros id. left. intros ->. discriminate.
      * apply Hcall; autorewrite with world; auto. intros id. left. discriminate.
    + apply Hcall; auto.
    + split; simpl; rewrite db_orders_upsert_order.
      * destruct (object_ids_upsert Order.wooCommerceId (Order.wooCommerceId d) d
                    (next_id w1) (db_orders w1)) as [more Hmore].
        exists (added ++ more). rewrite Hmore, Hids, app_assoc. reflexivity.
      * exists ((OrderFindOneAndUpdate (Order.wooCommerceId d), true) :: new).
        rewrite trace_upsert_order, Ht. split; [reflexivity|].
        intros id Hid. rewrite stored_upsert_other.
        -- apply Hst. intros Hin. apply Hid. right. exact Hin.
        -- reflexivity.
        -- intros ->. apply Hid. left. reflexivity.
  - apply Hcall; auto. intros id. left. discriminate.
Qed.

(** X6. A sync pass updates orders in place and appends the new ones: no
    order is removed or moved, every document keeps its ObjectId, and what
    is stored under an identifier is untouched unless an upsert of that
    identifier came back during the pass.  In particular the orders the shop
    no longer lists (created before the window of the pass) stay as they
    are. *)
Theorem sync_updates_orders_in_place :
  forall (env : Env) (fuel : nat) (w : World),
    (exists added,
        object_ids (db_orders (snd (syncOrders env fuel w)))
        = object_ids (db_orders w) ++ added)
    /\ (forall id,
          ~ In (OrderFindOneAndUpdate id, true)
               (calls_during w (snd (syncOrders env fuel w))) ->
          stored Order.wooCommerceId id (db_orders (snd (syncOrders env fuel w)))
          = stored Order.wooCommerceId id (db_orders w)).
Proof.
  intros env fuel w.
  assert (H : orders_in_place w (snd (syncOrders env fuel w))).
  { eapply reach_invariant;
      [apply orders_in_place_step | apply syncOrders_reach |].
    split; [exists []; rewrite app_nil_r; reflexivity|].
    exists []. split; [reflexivity | reflexivity]. }
  destruct H as [Hids [new [Ht Hst]]]. split; [exact Hids|].
  rewrite (calls_during_app _ _ _ Ht). exact Hst.
Qed.

(** ** Stored products are never refreshed *)

Section PassInvariant.
Variable env : Env.
Variable I : World -> Prop.
Hypothesis I_log : forall e w, I w -> I (add_log e w).
Hypothesis I_call : forall c ok w, I w -> I (record_call c ok w).
Hypothesis I_order :
  forall d w, I w ->
    I (record_call (OrderFindOneAndUpdate (Order.wooCommerceId d)) true
                   (upsert_order (Order.wooCommerceId d) d w)).
Hypothesis I_backfill :
  forall orderId productId, preserves I (backfillProduct env orderId productId).

Lemma invariant_log lg lvl msg : preserves I (log lg lvl msg).
Proof. apply preserves_log, I_log. Qed.

Lemma invariant_syncOrders_record c wooOrder :
  preserves I (syncOrders_record env c wooOrder).
Proof.
  destruct c as [synced errors]. unfold syncOrders_record. apply preserves_try_catch.
  - apply preserves_bind.
    + unfold syncOrder. apply preserves_bind.
      * apply preserves_db_call; [intros; apply I_call; assumption|].
        intros w Hw. apply (I_order (orderData_of env wooOrder)), Hw.
      * intros _. apply preserves_for_of. intros; apply I_backfill.
    + intros _. apply preserves_bind; [apply invariant_log|]. intros _.
      apply preserves_ret.
  - intros e. apply preserves_bind; [apply invariant_log|]. intros _. apply preserves_ret.
Qed.

Lemma invariant_syncOrders_loop fuel :
  forall page synced errors, preserves I (syncOrders_loop env fuel page synced errors).
Proof.
  induction fuel as [|fuel IH]; intros page synced errors; simpl.
  - intros w Hw. exact Hw.
  - apply preserves_bind; [apply invariant_log|]. intros _.
    apply preserves_bind.
    { apply hoare_fetchOrders; intros; apply I_call; assumption. }
    intros orders. apply preserves_if.
    + apply preserves_bind; [apply invariant_log|]. intros _. apply preserves_ret.
    + apply preserves_bind.
      { apply preserves_for_of. intros; apply invariant_syncOrders_record. }
      intros [s e]. apply preserves_if; [apply preserves_ret | apply IH].
Qed.

Lemma invariant_syncOrders fuel : preserves I (syncOrders env fuel).
Proof.
  apply preserves_bind; [apply invariant_log|]. intros _.
  apply preserves_try_catch.
  - apply preserves_bind; [apply invariant_syncOrders_loop|]. intros [s e].
    apply preserves_bind; [apply invariant_log|]. intros _. apply preserves_ret.
  - intros e. apply preserves_bind; [apply invariant_log|]. intros _.
    apply preserves_throw.
Qed.
End PassInvariant.

Lemma products_kept_backfill env base orderId productId :
  serves_requested_product env ->
  preserves (products_kept base) (backfillProduct env orderId productId).
Proof.
  intros Hserve w [added Hw]. unfold products_kept. rewrite backfillProduct_run.
  destruct (db_fault env (clock w) (ProductFindOne productId)); [simpl; eauto|].
  destruct (findOne (has_key Product.wooCommerceId productId) (db_products w)) eqn:Efind;
    [simpl; eauto|].
  destruct (remote_product env (S (clock w)) productId) as [wooProduct|] eqn:Er;
    [|simpl; eauto].
  destruct (db_fault env (S (S (clock w))) _); [simpl; eauto|].
  cbn [fst snd add_log record_call db_products].
  rewrite db_products_upsert_product. cbn [db_products record_call].
  rewrite (Hserve _ _ _ Er). unfold upsert.
  apply findOne_has_key_None, existsb_has_key_false in Efind. rewrite Efind.
  exists (added ++ [{| _id := next_id w;
                       fields := productData_of env wooProduct |}]).
  rewrite Hw, app_assoc. reflexivity.
Qed.

(** X7. When the shop answers a product request with the product of the
    requested identifier, a sync pass never rewrites a product that is
    already stored: the product collection after the pass is the collection
    before it, unchanged, followed by the products the pass inserted.  A
    change of a product in the shop does not reach its stored copy. *)
Theorem sync_never_rewrites_a_stored_product :
  forall (env : Env) (fuel : nat) (w : World),
    serves_requested_product env ->
    exists added,
      db_products (snd (syncOrders env fuel w)) = db_products w ++ added.
Proof.
  intros env fuel w Hserve.
  assert (H : preserves (products_kept (db_products w)) (syncOrders env fuel)).
  { apply invariant_syncOrders.
    - intros e w1 Hw1. exact Hw1.
    - intros c ok w1 Hw1. exact Hw1.
    - intros d w1 [added Hw1]. exists added. simpl.
      rewrite db_products_upsert_order. exact Hw1.
    - intros orderId productId. apply products_kept_backfill, Hserve. }
  apply H. exists []. rewrite app_nil_r. reflexivity.
Qed.

(** Product 7 is stored; the shop now lists it under another name, and the
    pass that syncs the three orders again leaves the stored copy as it
    was. *)
Lemma sync_never_rewrites_a_stored_product_witness :
  serves_requested_product Sample2.renamed
  /\ exists added,
       db_products (snd (syncOrders Sample2.renamed 2 Sample.world_retention))
       = db_products Sample.world_retention ++ added.
Proof.
  assert (H : serves_requested_product Sample2.renamed).
  { intros t id wooProduct E. inversion E. reflexivity. }
  split; [exact H|].
  apply (@sync_never_rewrites_a_stored_product Sample2.renamed 2
           Sample.world_retention H).
Defined.

(* ===================================================================== *)
(** * Statistics and the scheduled entry points *)
(* ===================================================================== *)

Lemma getSyncStats_run env w :
  getSyncStats env w =
    let f1 := db_fault env (clock w) OrderCount in
    let w1 := record_call OrderCount (negb f1) w in
    let f2 := db_fault env (S (clock w)) ProductCount in
    let w2 := record_call ProductCount (negb f2) w1 in
    let f3 := db_fault env (S (S (clock w))) OrderFindLatest in
    let w3 := record_call OrderFindLatest (negb f3) w2 in
    if f1 then
      (Throw (Failed OrderCount),
       add_log (SyncServiceLog, ERROR, ErrorGettingSyncStats (Failed OrderCount)) w3)
    else if f2 then
      (Throw (Failed ProductCount),
       add_log (SyncServiceLog, ERROR, ErrorGettingSyncStats (Failed ProductCount)) w3)
    else if f3 then
      (Throw (Failed OrderFindLatest),
       add_log (SyncServiceLog, ERROR, ErrorGettingSyncStats (Failed OrderFindLatest)) w3)
    else (Ret (List.length (db_orders w), List.length (db_products w)), w3).
Proof.
  unfold getSyncStats, try_catch, Order_countDocuments, Product_countDocuments,
    Order_findLatest, db_call, bind, log, throw.
  destruct (db_fault env (clock w) OrderCount); cbn [fst snd negb];
    match goal with |- context [clock (record_call ?c ?b w)] =>
      change (clock (record_call c b w)) with (S (clock w)) end;
    destruct (db_fault env (S (clock w)) ProductCount); cbn [fst snd negb];
    match goal with |- context [clock (record_call ?c ?b (record_call ?c' ?b' w))] =>
      change (clock (record_call c b (record_call c' b' w))) with (S (S (clock w))) end;
    destruct (db_fault env (S (S (clock w))) OrderFindLatest); reflexivity.
Qed.

(** X8. [getSyncStats] issues its three queries whatever happens to each of
    them, and changes neither collection.  When none of them fails it
    returns the number of stored orders and the number of stored products;
    when one fails it logs and throws the error of a query that failed. *)
Theorem sync_stats_count_the_collections :
  forall (env : Env) (w : World),
    db_orders (snd (getSyncStats env w)) = db_orders w
    /\ db_products (snd (getSyncStats env w)) = db_products w
    /\ map fst (calls_during w (snd (getSyncStats env w)))
       = [OrderFindLatest; ProductCount; OrderCount]
    /\ ((forall c, ~ In (c, false) (calls_during w (snd (getSyncStats env w)))) ->
        fst (getSyncStats env w)
        = Ret (List.length (db_orders w), List.length (db_products w)))
    /\ (forall c, In (c, false) (calls_during w (snd (getSyncStats env w))) ->
          exists c',
            In (c', false) (calls_during w (snd (getSyncStats env w)))
            /\ fst (getSyncStats env w) = Throw (Failed c')
            /\ In (SyncServiceLog, ERROR, ErrorGettingSyncStats (Failed c'))
                  (logs (snd (getSyncStats env w)))).
Proof.
  intros env w. rewrite getSyncStats_run. cbv zeta.
  assert (Hc : forall f1 f2 f3 lg,
             calls_during w
               (add_log lg
                  (record_call OrderFindLatest f3
                     (record_call ProductCount f2 (record_call OrderCount f1 w))))
             = [(OrderFindLatest, f3); (ProductCount, f2); (OrderCount, f1)]).
  { intros. apply calls_during_app. reflexivity. }
  assert (Hc' : forall f1 f2 f3,
             calls_during w
               (record_call OrderFindLatest f3
                  (record_call ProductCount f2 (record_call OrderCount f1 w)))
             = [(OrderFindLatest, f3); (ProductCount, f2); (OrderCount, f1)]).
  { intros. apply calls_during_app. reflexivity. }
  destruct (db_fault env (clock w) OrderCount),
           (db_fault env (S (clock w)) ProductCount),
           (db_fault env (S (S (clock w))) OrderFindLatest);
    cbn [fst snd negb]; rewrite ?Hc, ?Hc';
    (split; [reflexivity|]); (split; [reflexivity|]); (split; [reflexivity|]);
    (split;
     [ first [ reflexivity
             | intros H; exfalso;
               first [ apply (H OrderCount); simpl; tauto
                     | apply (H ProductCount); simpl; tauto
                     | apply (H OrderFindLatest); simpl; tauto ] ]
     | first [ intros c [H|[H|[H|[]]]]; discriminate
             | intros c _;
               first [ exists OrderCount; simpl;
                       split; [tauto | split; [reflexivity | tauto]]
                     | exists ProductCount; simpl;
                       split; [tauto | split; [reflexivity | tauto]]
                     | exists OrderFindLatest; simpl;
                       split; [tauto | split; [reflexivity | tauto]] ] ] ]).
Qed.

Lemma runDailySync_run env fuel w :
  runDailySync env fuel w =
    let alive := remote_alive env (clock w) in
    let w1 := add_log (SyncServiceLog, INFO, ConnectionTest alive)
                (record_call TestConnection alive
                   (add_log (SchedulerLog, INFO, StartingDailySync) w)) in
    if alive then
      match syncOrders env fuel w1 with
      | (Ret (synced, errors), w2) =>
          match getSyncStats env
                  (add_log (SchedulerLog, INFO, DailySyncCompleted synced errors) w2) with
          | (Ret (totalOrders, totalProducts), w3) =>
              (Ret tt,
               add_log (SchedulerLog, INFO, SyncStatistics totalOrders totalProducts) w3)
          | (Throw e, w3) => (Ret tt, add_log (SchedulerLog, ERROR, DailySyncFailed e) w3)
          | (OutOfFuel, w3) => (OutOfFuel, w3)
          end
      | (Throw e, w2) => (Ret tt, add_log (SchedulerLog, ERROR, DailySyncFailed e) w2)
      | (OutOfFuel, w2) => (OutOfFuel, w2)
      end
    else (Ret tt, add_log (SchedulerLog, ERROR, ConnectionFailedSkippingSync) w1).
Proof.
  unfold runDailySync, testConnection, WooCommerceService_testConnection.
  unfold bind at 1. unfold log at 1. unfold try_catch at 1. unfold bind at 1.
  unfold try_catch at 1. unfold bind at 1. unfold bind at 1. unfold log at 1.
  unfold ret at 1.
  change (clock (add_log (SchedulerLog, INFO, StartingDailySync) w)) with (clock w).
  cbv zeta. destruct (remote_alive env (clock w)); cbn [negb fst snd]; [|reflexivity].
  unfold bind at 1.
  destruct (syncOrders env fuel _) as [[[s e]|err|] w2]; try reflexivity.
  unfold bind at 1. unfold log at 1. unfold bind at 1.
  destruct (getSyncStats env _) as [[[a b]|err|] w3]; reflexivity.
Qed.

Lemma runCleanup_run env w :
  runCleanup env w =
    match cleanupOldOrders env (add_log (SchedulerLog, INFO, StartingCleanupProcess) w) with
    | (Ret (deletedOrders, deletedProducts), w1) =>
        (Ret tt,
         add_log (SchedulerLog, INFO,
                  CleanupCompletedSuccessfully deletedOrders deletedProducts) w1)
    | (Throw e, w1) => (Ret tt, add_log (SchedulerLog, ERROR, CleanupFailed e) w1)
    | (OutOfFuel, w1) => (OutOfFuel, w1)
    end.
Proof.
  unfold runCleanup. unfold bind at 1. unfold log at 1. unfold try_catch, bind.
  destruct (cleanupOldOrders env _) as [[[n m]|err|] w1]; reflexivity.
Qed.

(** X9. The two scheduled callbacks never throw: whatever the pass they wrap
    does, the error is logged by the scheduler and the callback returns.  A
    scheduled retention run always returns.  A scheduled sync run that
    returns has logged last either that the sync was skipped, or that it
    failed, or the statistics, and these are then the sizes of the two
    collections as the run leaves them. *)
Theorem scheduled_runs_never_throw :
  forall (env : Env) (fuel : nat) (w : World),
    fst (runCleanup env w) = Ret tt
    /\ (forall e, fst (runDailySync env fuel w) <> Throw e)
    /\ (fst (runDailySync env fuel w) = Ret tt ->
        exists msg rest,
          logs (snd (runDailySync env fuel w)) = msg :: rest
          /\ (msg = (SchedulerLog, ERROR, ConnectionFailedSkippingSync)
              \/ (exists e, msg = (SchedulerLog, ERROR, DailySyncFailed e))
              \/ msg = (SchedulerLog, INFO,
                        SyncStatistics
                          (List.length (db_orders (snd (runDailySync env fuel w))))
                          (List.length (db_products (snd (runDailySync env fuel w))))))).
Proof.
  intros env fuel w. split; [|split].
  - rewrite runCleanup_run.
    assert (H := cleanupOldOrders_ends env
                   (add_log (SchedulerLog, INFO, StartingCleanupProcess) w)).
    destruct (cleanupOldOrders env _) as [[[n m]|err|] w1]; simpl in *;
      [reflexivity | reflexivity | congruence].
  - intros e. rewrite runDailySync_run. cbv zeta.
    destruct (remote_alive env (clock w)); [|discriminate].
    destruct (syncOrders env fuel _) as [[[s e0]|err|] w2]; try discriminate.
    destruct (getSyncStats env _) as [[[a b]|err|] w3]; discriminate.
  - rewrite runDailySync_run. cbv zeta.
    destruct (remote_alive env (clock w));
      [|intros _; simpl; do 2 eexists; split; [reflexivity | left; reflexivity]].
    destruct (syncOrders env fuel _) as [[[s e0]|err|] w2];
      [ | intros _; simpl; do 2 eexists;
          split; [reflexivity | right; left; eexists; reflexivity]
        | intros H; discriminate H ].
    match goal with |- context [getSyncStats env ?w0] =>
      assert (Hrun := getSyncStats_run env w0);
      destruct (getSyncStats env w0) as [[[a b]|err|] w3]
    end;
      [ | intros _; simpl; do 2 eexists;
          split; [reflexivity | right; left; eexists; reflexivity]
        | intros H; discriminate H ].
    intros _. simpl in *. do 2 eexists. split; [reflexivity|]. right. right.
    cbv zeta in Hrun.
    destruct (db_fault env _ OrderCount); [discriminate|].
    destruct (db_fault env _ ProductCount); [discriminate|].
    destruct (db_fault env _ OrderFindLatest); [discriminate|].
    inversion Hrun; subst. reflexivity.
Qed.

(** The 150 orders of the sample shop, synced by a scheduled run into an
    empty store: the run returns, and the statistics it logs last are 150
    orders and 1 product. *)
Lemma scheduled_runs_never_throw_witness :
  fst (runDailySync (Sample.shop Sample.pages150) 3 Sample.empty_world) = Ret tt
  /\ exists rest,
       logs (snd (runDailySync (Sample.shop Sample.pages150) 3 Sample.empty_world))
       = (SchedulerLog, INFO, SyncStatistics 150 1) :: rest.
Proof.
  assert (H : fst (runDailySync (Sample.shop Sample.pages150) 3 Sample.empty_world)
              = Ret tt) by (vm_compute; reflexivity).
  split; [exact H|].
  destruct (proj2 (proj2 (scheduled_runs_never_throw
                            (Sample.shop Sample.pages150) 3 Sample.empty_world)) H)
    as [msg [rest [Hlogs _]]].
  exists rest. rewrite Hlogs. f_equal.
  assert (E : hd (SchedulerLog, INFO, StartingDailySync)
                 (logs (snd (runDailySync (Sample.shop Sample.pages150) 3
                                          Sample.empty_world)))
              = (SchedulerLog, INFO, SyncStatistics 150 1)) by (vm_compute; reflexivity).
  rewrite Hlogs in E. exact E.
Defined.

(* ===================================================================== *)
(** * The scheduler object *)
(* ===================================================================== *)

Lemma Cron_stop_app_l h (l1 l2 : list Cron.ScheduledTask) :
  h < List.length l1 -> Cron.stop h (l1 ++ l2) = Cron.stop h l1 ++ l2.
Proof.
  revert h. induction l1 as [|t l1 IH]; intros h Hh; simpl in *; [lia|].
  destruct h as [|h]; [reflexivity|]. simpl. f_equal. apply IH. lia.
Qed.

Lemma Cron_stop_app_r k (l1 l2 : list Cron.ScheduledTask) :
  Cron.stop (List.length l1 + k) (l1 ++ l2) = l1 ++ Cron.stop k l2.
Proof.
  induction l1 as [|t l1 IH]; simpl; [reflexivity|].
  destruct l2; simpl; f_equal; exact IH.
Qed.

Lemma tasks_start s :
  SyncScheduler.tasks (SyncScheduler.start s)
  = SyncScheduler.tasks s
    ++ [{| Cron.expression := "* 12 * * *"; Cron.timezone := "Asia/Kathmandu";
           Cron.callback := Cron.RunDailySync; Cron.running := true |};
        {| Cron.expression := "0 2 * * 0"; Cron.timezone := "UTC";
           Cron.callback := Cron.RunCleanup; Cron.running := true |}].
Proof.
  unfold SyncScheduler.start, Cron.schedule. simpl. rewrite <- app_assoc. reflexivity.
Qed.

Lemma tasks_stop_start s :
  SyncScheduler.tasks (SyncScheduler.stop (SyncScheduler.start s))
  = SyncScheduler.tasks s
    ++ [{| Cron.expression := "* 12 * * *"; Cron.timezone := "Asia/Kathmandu";
           Cron.callback := Cron.RunDailySync; Cron.running := false |};
        {| Cron.expression := "0 2 * * 0"; Cron.timezone := "UTC";
           Cron.callback := Cron.RunCleanup; Cron.running := false |}].
Proof.
  unfold SyncScheduler.stop, SyncScheduler.start, Cron.schedule. simpl.
  rewrite <- app_assoc. simpl.
  rewrite <- (Nat.add_0_r (List.length (SyncScheduler.tasks s))) at 1.
  rewrite Cron_stop_app_r. simpl.
  rewrite length_app. simpl.
  replace (List.length (SyncScheduler.tasks s) + 1)
    with (List.length (SyncScheduler.tasks s) + 1) by reflexivity.
  rewrite Cron_stop_app_r. reflexivity.
Qed.

(** X10. [stop] stops the two jobs but keeps their handles, and [getStatus]
    reads [isRunning] off the handles: after [start] and [stop] no task is
    left running, and the status still says that the scheduler is
    running. *)
Theorem status_reports_running_after_stop :
  forall (zone : JsDate.Zone) (s : SyncScheduler.State) (now : Z),
    SyncScheduler.active s = [] ->
    SyncScheduler.active (SyncScheduler.stop (SyncScheduler.start s)) = []
    /\ SyncScheduler.isRunning
         (SyncScheduler.getStatus zone
            (SyncScheduler.stop (SyncScheduler.start s)) now)
       = true
    /\ SyncScheduler.isRunning
         (SyncScheduler.getStatus zone (SyncScheduler.stop s) now)
       = SyncScheduler.isRunning (SyncScheduler.getStatus zone s now).
Proof.
  intros zone s now Hidle. split; [|split].
  - unfold SyncScheduler.active in *. rewrite tasks_stop_start, filter_app, Hidle.
    reflexivity.
  - reflexivity.
  - destruct s as [[syncJob|] [cleanupJob|] tasks journal]; reflexivity.
Qed.

Lemma status_reports_running_after_stop_witness :
  SyncScheduler.active SyncScheduler.create = []
  /\ SyncScheduler.active
       (SyncScheduler.stop (SyncScheduler.start SyncScheduler.create)) = []
  /\ SyncScheduler.isRunning
       (SyncScheduler.getStatus Sample3.kathmandu
          (SyncScheduler.stop (SyncScheduler.start SyncScheduler.create)) 0)
     = true.
Proof.
  split; [reflexivity|].
  destruct (@status_reports_running_after_stop Sample3.kathmandu
              SyncScheduler.create 0%Z eq_refl) as [H1 [H2 _]].
  split; [exact H1 | exact H2].
Defined.

(** X11. [start] overwrites the handles of the jobs it scheduled before
    without stopping them: after a second [start], [stop] stops the second
    pair only, and the first daily-sync job and the first cleanup job keep
    running. *)
Theorem second_start_leaves_first_jobs_running :
  forall (s : SyncScheduler.State),
    SyncScheduler.active s = [] ->
    SyncScheduler.active
      (SyncScheduler.stop (SyncScheduler.start (SyncScheduler.start s)))
    = [{| Cron.expression := "* 12 * * *"; Cron.timezone := "Asia/Kathmandu";
          Cron.callback := Cron.RunDailySync; Cron.running := true |};
       {| Cron.expression := "0 2 * * 0"; Cron.timezone := "UTC";
          Cron.callback := Cron.RunCleanup; Cron.running := true |}].
Proof.
  intros s Hidle. unfold SyncScheduler.active in *.
  rewrite tasks_stop_start, tasks_start, !filter_app, Hidle. reflexivity.
Qed.

Lemma second_start_leaves_first_jobs_running_witness :
  SyncScheduler.active SyncScheduler.create = []
  /\ List.length
       (SyncScheduler.active
          (SyncScheduler.stop
             (SyncScheduler.start (SyncScheduler.start SyncScheduler.create)))) = 2.
Proof.
  split; [reflexivity|].
  rewrite (@second_start_leaves_first_jobs_running SyncScheduler.create eq_refl).
  reflexivity.
Defined.

(** X12. The job [start] registers for the daily sync is due at every minute
    of the hour from 12:00 to 12:59 on the clock of Asia/Kathmandu, sixty
    times a day, and at no other minute; the cleanup job is due at 02:00 on
    Sundays on the UTC clock and at no other minute. *)
Theorem daily_sync_job_is_due_every_minute_of_an_hour :
  forall (s : SyncScheduler.State),
    exists sync cleanup,
      SyncScheduler.tasks (SyncScheduler.start s)
      = SyncScheduler.tasks s ++ [sync; cleanup]
      /\ Cron.callback sync = Cron.RunDailySync
      /\ Cron.timezone sync = "Asia/Kathmandu"%string
      /\ (forall t, Cron.due (Cron.expression sync) t = (Cron.hour t =? 12))
      /\ Cron.callback cleanup = Cron.RunCleanup
      /\ Cron.timezone cleanup = "UTC"%string
      /\ (forall t, Cron.due (Cron.expression cleanup) t
                    = (Cron.minute t =? 0) && (Cron.hour t =? 2)
                      && (Cron.weekday t =? 0)).
Proof.
  intros s. do 2 eexists. split; [apply tasks_start|].
  repeat split.
  - intros t. unfold Cron.due. simpl. rewrite !andb_true_r. reflexivity.
  - intros t. unfold Cron.due. simpl. rewrite !andb_true_r. reflexivity.
Qed.

Lemma Day_of_day_and_time x y :
  (0 <= y < JsDate.msPerDay)%Z ->
  JsDate.Day (x * JsDate.msPerDay + y) = x
  /\ JsDate.TimeWithinDay (x * JsDate.msPerDay + y) = y.
Proof.
  intros Hy. unfold JsDate.Day, JsDate.TimeWithinDay.
  assert (HD : (0 < JsDate.msPerDay)%Z) by reflexivity.
  split.
  - symmetry. apply Z.div_unique with (r := y); [left; exact Hy | lia].
  - symmetry. apply Z.mod_unique with (q := x); [left; exact Hy | lia].
Qed.

Lemma day_and_time t :
  t = (JsDate.Day t * JsDate.msPerDay + JsDate.TimeWithinDay t)%Z
  /\ (0 <= JsDate.TimeWithinDay t < JsDate.msPerDay)%Z.
Proof.
  unfold JsDate.Day, JsDate.TimeWithinDay.
  assert (HD : (0 < JsDate.msPerDay)%Z) by reflexivity.
  split; [rewrite Z.mul_comm; apply Z.div_mod; lia | apply Z.mod_pos_bound, HD].
Qed.

(** X13. In a time zone whose offset does not change, the times [getStatus]
    reports are computed from the current local date alone.  The next sync
    is reported for local noon of the next calendar day,
    more than 12 and at most 36 hours ahead, also when it is asked before
    noon.  The next cleanup is reported for 02:00 local time of the first
    Sunday from today on, today included: it lies on a Sunday, at most six
    days ahead, and it lies in the past exactly when it is asked on a Sunday
    after 02:00. *)
Theorem status_times_are_computed_from_today :
  forall (zone : JsDate.Zone) (s : SyncScheduler.State) (now : Z),
    JsDate.fixed zone ->
    (43200000 < SyncScheduler.nextSyncTime (SyncScheduler.getStatus zone s now) - now
     <= 129600000)%Z
    /\ JsDate.Day (JsDate.LocalTime zone
                     (SyncScheduler.nextSyncTime (SyncScheduler.getStatus zone s now)))
       = (JsDate.Day (JsDate.LocalTime zone now) + 1)%Z
    /\ JsDate.TimeWithinDay
         (JsDate.LocalTime zone
            (SyncScheduler.nextSyncTime (SyncScheduler.getStatus zone s now)))
       = 43200000%Z
    /\ JsDate.getDay zone
         (SyncScheduler.nextCleanupTime (SyncScheduler.getStatus zone s now)) = 0%Z
    /\ JsDate.TimeWithinDay
         (JsDate.LocalTime zone
            (SyncScheduler.nextCleanupTime (SyncScheduler.getStatus zone s now)))
       = 7200000%Z
    /\ (0 <= JsDate.Day
               (JsDate.LocalTime zone
                  (SyncScheduler.nextCleanupTime (SyncScheduler.getStatus zone s now)))
             - JsDate.Day (JsDate.LocalTime zone now) <= 6)%Z
    /\ ((SyncScheduler.nextCleanupTime (SyncScheduler.getStatus zone s now) - now < 0)%Z
        <-> (JsDate.getDay zone now = 0
             /\ 7200000 < JsDate.TimeWithinDay (JsDate.LocalTime zone now))%Z).
Proof.
  intros zone s now [c [Hat Hof]].
  unfold SyncScheduler.getStatus.
  cbn [SyncScheduler.nextSyncTime SyncScheduler.nextCleanupTime].
  unfold JsDate.getDay, JsDate.setHours, JsDate.addDays, JsDate.LocalTime, JsDate.UTC.
  rewrite !Hat, !Hof.
  destruct (day_and_time (now + c)) as [Hnow Hm].
  set (d := JsDate.Day (now + c)) in *.
  set (m := JsDate.TimeWithinDay (now + c)) in *.
  assert (Hg : (0 <= (d + 4) mod 7 < 7)%Z) by (apply Z.mod_pos_bound; lia).
  set (g := ((d + 4) mod 7)%Z) in *.
  assert (Hk : (Z.rem (7 - g) 7 = if g =? 0 then 0 else 7 - g)%Z).
  { assert (E : (g = 0 \/ g = 1 \/ g = 2 \/ g = 3 \/ g = 4 \/ g = 5 \/ g = 6)%Z) by lia.
    destruct E as [E|[E|[E|[E|[E|[E|E]]]]]]; rewrite E; reflexivity. }
  rewrite Hk. set (k := (if g =? 0 then 0 else 7 - g)%Z).
  assert (Hk' : (0 <= k <= 6 /\ (g + k) mod 7 = 0
                 /\ (k = 0 <-> g = 0))%Z).
  { unfold k. destruct (g =? 0)%Z eqn:E.
    - apply Z.eqb_eq in E. rewrite E. split; [lia|]. split; [reflexivity | tauto].
    - apply Z.eqb_neq in E. split; [lia|]. split; [|lia].
      replace (g + (7 - g))%Z with 7%Z by lia. reflexivity. }
  clearbody k. clear Hk.
  replace ((d + 1) * JsDate.msPerDay + m - c + c)%Z
    with ((d + 1) * JsDate.msPerDay + m)%Z by lia.
  replace ((d + k) * JsDate.msPerDay + m - c + c)%Z
    with ((d + k) * JsDate.msPerDay + m)%Z by lia.
  destruct (@Day_of_day_and_time (d + 1)%Z m Hm) as [-> _].
  destruct (@Day_of_day_and_time (d + k)%Z m Hm) as [-> _].
  change (12 * JsDate.msPerHour)%Z with 43200000%Z.
  change (2 * JsDate.msPerHour)%Z with 7200000%Z.
  replace ((d + 1) * JsDate.msPerDay + 43200000 - c + c)%Z
    with ((d + 1) * JsDate.msPerDay + 43200000)%Z by lia.
  replace ((d + k) * JsDate.msPerDay + 7200000 - c + c)%Z
    with ((d + k) * JsDate.msPerDay + 7200000)%Z by lia.
  destruct (@Day_of_day_and_time (d + 1)%Z 43200000%Z) as [-> ->];
    [unfold JsDate.msPerDay; lia|].
  destruct (@Day_of_day_and_time (d + k)%Z 7200000%Z) as [-> ->];
    [unfold JsDate.msPerDay; lia|].
  assert (Hsun : ((d + k + 4) mod 7 = 0)%Z).
  { destruct Hk' as [_ [H7 _]]. unfold g in H7.
    rewrite Zplus_mod_idemp_l in H7.
    replace (d + k + 4)%Z with (d + 4 + k)%Z by lia. exact H7. }
  unfold JsDate.msPerDay in *.
  split; [lia|]. split; [reflexivity|]. split; [reflexivity|].
  split; [exact Hsun|]. split; [reflexivity|]. split; [lia|].
  destruct Hk' as [Hk1 [_ Hk0]]. split.
  - intros H. assert (k = 0)%Z by lia. split; [apply Hk0; assumption | lia].
  - intros [H0 H2]. apply Hk0 in H0. lia.
Qed.

(** Asked at 09:00 local time on 1970-01-01, a Thursday, in a zone that
    keeps the offset +05:45: the next sync is 27 hours ahead, and the next
    cleanup is on 1970-01-04 at 02:00 local time. *)
Lemma status_times_are_computed_from_today_witness :
  JsDate.fixed Sample3.kathmandu
  /\ (43200000
      < SyncScheduler.nextSyncTime
          (SyncScheduler.getStatus Sample3.kathmandu SyncScheduler.create 11700000)
        - 11700000
      <= 129600000)%Z
  /\ SyncScheduler.nextCleanupTime
       (SyncScheduler.getStatus Sample3.kathmandu SyncScheduler.create 11700000)
     = 245700000%Z.
Proof.
  assert (H : JsDate.fixed Sample3.kathmandu).
  { exists 20700000%Z. split; intros; reflexivity. }
  split; [exact H|]. split; [|reflexivity].
  exact (proj1 (@status_times_are_computed_from_today Sample3.kathmandu
                  SyncScheduler.create 11700000%Z H)).
Defined.

(* ===================================================================== *)
(** * Numbers written and read back *)
(* ===================================================================== *)

(** ** Rounding to a double *)

Lemma fl_small z : (Z.abs z < 2 ^ 53)%Z -> Js.fl z = Js.Int z.
Proof.
  intros H. unfold Js.fl. apply Z.ltb_lt in H. rewrite H. reflexivity.
Qed.

(** How an integer of 54 bits or more is rounded: to [q' * 2^e], where
    [q'] is its 53 leading bits [q] or the next number. *)
Lemma fl_round z :
  (2 ^ 53 <= Z.abs z)%Z ->
  exists e q r q',
    (1 <= e)%Z /\ Z.abs z = (q * 2 ^ e + r)%Z /\ (0 <= r < 2 ^ e)%Z
    /\ (2 ^ 52 <= q < 2 ^ 53)%Z /\ (q <= q' <= q + 1)%Z /\ (r = 0%Z -> q' = q)
    /\ Js.fl z = if (2 ^ 1024 <=? q' * 2 ^ e)%Z
                 then (if (z <? 0)%Z then Js.NegInfinity else Js.Infinity)
                 else Js.Int (Z.sgn z * (q' * 2 ^ e)).
Proof.
  intros H. unfold Js.fl.
  assert (E : (Z.abs z <? 2 ^ 53)%Z = false) by (apply Z.ltb_ge; exact H).
  rewrite E. clear E. cbv zeta.
  set (a := Z.abs z) in *. set (e := (Z.log2 a - 52)%Z).
  assert (Ha : (0 < a)%Z).
  { assert (0 < 2 ^ 53)%Z by (apply Z.pow_pos_nonneg; lia). lia. }
  destruct (Z.log2_spec a Ha) as [Hlo Hhi].
  assert (He : (1 <= e)%Z).
  { unfold e. assert (53 <= Z.log2 a)%Z; [|lia].
    apply Z.log2_le_pow2; [exact Ha | exact H]. }
  assert (HP : (0 < 2 ^ e)%Z) by (apply Z.pow_pos_nonneg; lia).
  assert (Hlo' : (2 ^ e * 2 ^ 52 <= a)%Z).
  { rewrite <- Z.pow_add_r by lia. replace (e + 52)%Z with (Z.log2 a) by (unfold e; lia).
    exact Hlo. }
  assert (Hhi' : (a < 2 ^ e * 2 ^ 53)%Z).
  { rewrite <- Z.pow_add_r by lia.
    replace (e + 53)%Z with (Z.succ (Z.log2 a)) by (unfold e; lia). exact Hhi. }
  exists e, (a / 2 ^ e)%Z, (a mod 2 ^ e)%Z.
  eexists. split; [exact He|]. split.
  { rewrite Z.mul_comm. apply Z.div_mod. lia. }
  split; [apply Z.mod_pos_bound; exact HP|]. split.
  { split; [apply Z.div_le_lower_bound; assumption
           | apply Z.div_lt_upper_bound; assumption]. }
  split; [|split; [|reflexivity]].
  - destruct ((2 ^ e <? 2 * (a mod 2 ^ e))%Z
              || ((2 * (a mod 2 ^ e) =? 2 ^ e)%Z && Z.odd (a / 2 ^ e))); lia.
  - intros Hr. rewrite Hr.
    assert (E1 : (2 ^ e <? 2 * 0)%Z = false) by (apply Z.ltb_ge; lia).
    assert (E2 : (2 * 0 =? 2 ^ e)%Z = false) by (apply Z.eqb_neq; lia).
    rewrite E1, E2. reflexivity.
Qed.

(** Rounding keeps the sign. *)
Lemma fl_negative z :
  (z < 0)%Z ->
  match Js.fl z with
  | Js.Int q => (q < 0)%Z
  | Js.NegInfinity => True
  | _ => False
  end.
Proof.
  intros Hz. destruct (Z.lt_ge_cases (Z.abs z) (2 ^ 53)) as [H|H].
  - rewrite fl_small by exact H. exact Hz.
  - destruct (fl_round z H) as [e [q [r [q' [He [_ [_ [Hq [Hq' [_ ->]]]]]]]]]].
    assert (HP : (0 < 2 ^ e)%Z) by (apply Z.pow_pos_nonneg; lia).
    assert (H52 : (0 < 2 ^ 52)%Z) by (apply Z.pow_pos_nonneg; lia).
    assert (E : (z <? 0)%Z = true) by (apply Z.ltb_lt; exact Hz). rewrite E.
    destruct (2 ^ 1024 <=? q' * 2 ^ e)%Z; [exact I|].
    rewrite Z.sgn_neg by exact Hz.
    assert (0 < q' * 2 ^ e)%Z by (apply Z.mul_pos_pos; lia). lia.
Qed.

Lemma fl_nonnegative z :
  (0 <= z)%Z ->
  match Js.fl z with
  | Js.Int q => (0 <= q)%Z
  | Js.Infinity => True
  | _ => False
  end.
Proof.
  intros Hz. destruct (Z.lt_ge_cases (Z.abs z) (2 ^ 53)) as [H|H].
  - rewrite fl_small by exact H. exact Hz.
  - destruct (fl_round z H) as [e [q [r [q' [He [_ [_ [Hq [Hq' [_ ->]]]]]]]]]].
    assert (HP : (0 < 2 ^ e)%Z) by (apply Z.pow_pos_nonneg; lia).
    assert (H52 : (0 < 2 ^ 52)%Z) by (apply Z.pow_pos_nonneg; lia).
    assert (E : (z <? 0)%Z = false) by (apply Z.ltb_ge; exact Hz). rewrite E.
    destruct (2 ^ 1024 <=? q' * 2 ^ e)%Z; [exact I|].
    assert (0 < q' * 2 ^ e)%Z by (apply Z.mul_pos_pos; lia).
    assert (0 <= Z.sgn z)%Z by (apply Z.sgn_nonneg; exact Hz).
    apply Z.mul_nonneg_nonneg; lia.
Qed.

(** The powers of two around the largest double. *)
Lemma pow2_around e :
  (1 <= e)%Z ->
  (2 * 2 ^ e <= 2 ^ 971 \/ 2 ^ e = 2 ^ 971 \/ 2 * 2 ^ 971 <= 2 ^ e)%Z.
Proof.
  intros He.
  assert (Hs : forall k, (0 <= k)%Z -> (2 * 2 ^ k = 2 ^ (k + 1))%Z).
  { intros k Hk. rewrite Z.pow_add_r by lia. rewrite Z.pow_1_r. lia. }
  destruct (Z.lt_trichotomy e 971) as [Hl|[->|Hg]].
  - left. rewrite Hs by lia. apply Z.pow_le_mono_r; lia.
  - right. left. reflexivity.
  - right. right. rewrite Hs by lia. apply Z.pow_le_mono_r; lia.
Qed.

Lemma pow2_1024 : (2 ^ 1024 = 2 ^ 53 * 2 ^ 971)%Z.
Proof. rewrite <- Z.pow_add_r by lia. reflexivity. Qed.

(** A finite result of rounding is at most the largest double. *)
Lemma fl_Int_bound z p :
  Js.fl z = Js.Int p -> (Z.abs p <= (2 ^ 53 - 1) * 2 ^ 971)%Z.
Proof.
  intros Hfl.
  assert (HA : (0 < 2 ^ 971)%Z) by (apply Z.pow_pos_nonneg; lia).
  assert (H52 : (2 ^ 52 = 4503599627370496)%Z) by reflexivity.
  assert (H53 : (2 ^ 53 = 9007199254740992)%Z) by reflexivity.
  destruct (Z.lt_ge_cases (Z.abs z) (2 ^ 53)) as [H|H].
  - rewrite fl_small in Hfl by exact H. inversion Hfl; subst p.
    rewrite H53 in *. nia.
  - destruct (fl_round z H) as [e [q [r [q' [He [_ [_ [Hq [Hq' [_ E]]]]]]]]]].
    rewrite E in Hfl. clear E.
    destruct (2 ^ 1024 <=? q' * 2 ^ e)%Z eqn:Eo.
    { destruct (z <? 0)%Z; discriminate. }
    apply Z.leb_gt in Eo. rewrite pow2_1024 in Eo. inversion Hfl; subst p.
    assert (HP : (0 < 2 ^ e)%Z) by (apply Z.pow_pos_nonneg; lia).
    assert (Hs : (Z.abs (Z.sgn z * (q' * 2 ^ e)) <= q' * 2 ^ e)%Z).
    { rewrite Z.abs_mul. assert (Z.abs (Z.sgn z) <= 1)%Z by (destruct z; simpl; lia).
      rewrite (Z.abs_eq (q' * 2 ^ e)) by nia. nia. }
    apply Z.le_trans with (m := (q' * 2 ^ e)%Z); [exact Hs|].
    rewrite H52, H53 in *.
    set (P := (2 ^ e)%Z) in *. set (A := (2 ^ 971)%Z) in *.
    destruct (@pow2_around e He) as [Hc|[Hc|Hc]]; fold P in Hc; fold A in Hc.
    + nia.
    + rewrite Hc in *. nia.
    + nia.
Qed.

(** An integer up to the largest double is rounded to a double. *)
Lemma fl_finite z :
  (Z.abs z <= (2 ^ 53 - 1) * 2 ^ 971)%Z -> exists p, Js.fl z = Js.Int p.
Proof.
  intros Hz.
  assert (HA : (0 < 2 ^ 971)%Z) by (apply Z.pow_pos_nonneg; lia).
  assert (H52 : (2 ^ 52 = 4503599627370496)%Z) by reflexivity.
  assert (H53 : (2 ^ 53 = 9007199254740992)%Z) by reflexivity.
  destruct (Z.lt_ge_cases (Z.abs z) (2 ^ 53)) as [H|H].
  - rewrite fl_small by exact H. eauto.
  - destruct (fl_round z H) as [e [q [r [q' [He [Ha [Hr [Hq [Hq' [Hr0 ->]]]]]]]]]].
    assert (HP : (0 < 2 ^ e)%Z) by (apply Z.pow_pos_nonneg; lia).
    assert (Eo : (2 ^ 1024 <=? q' * 2 ^ e)%Z = false).
    { apply Z.leb_gt. rewrite pow2_1024. rewrite Ha in Hz.
      rewrite H52, H53 in *.
      set (P := (2 ^ e)%Z) in *. set (A := (2 ^ 971)%Z) in *.
      destruct (@pow2_around e He) as [Hc|[Hc|Hc]]; fold P in Hc; fold A in Hc.
      - nia.
      - rewrite Hc in *.
        assert (Hq1 : (q <= 9007199254740991)%Z) by nia.
        destruct (Z.eq_dec q 9007199254740991) as [Eq|Nq]; [|nia].
        assert (r = 0)%Z by nia. rewrite (Hr0 H0). nia.
      - nia. }
    rewrite Eo. eauto.
Qed.

(** The number before a double that is at least 1 is a double. *)
Lemma minus_one_finite p :
  (1 <= p)%Z -> (Z.abs p <= (2 ^ 53 - 1) * 2 ^ 971)%Z ->
  exists q, Js.minus_one (Js.Int p) = Js.Int q /\ (0 <= q)%Z.
Proof.
  intros Hp Hb. cbn [Js.minus_one].
  destruct (@fl_finite (p - 1)%Z) as [q Hq]; [lia|].
  exists q. split; [exact Hq|].
  assert (H := @fl_nonnegative (p - 1)%Z ltac:(lia)). rewrite Hq in H. exact H.
Qed.

(** ** Numerals *)

Lemma digit_char d :
  (0 <= d < 10)%Z ->
  Js.digit (ascii_of_nat (48 + Z.to_nat d)) = Some d
  /\ Js.is_white_space (ascii_of_nat (48 + Z.to_nat d)) = false
  /\ ascii_of_nat (48 + Z.to_nat d) <> "-"%char
  /\ ascii_of_nat (48 + Z.to_nat d) <> "+"%char.
Proof.
  intros H.
  assert (E : (d = 0 \/ d = 1 \/ d = 2 \/ d = 3 \/ d = 4 \/ d = 5 \/ d = 6
               \/ d = 7 \/ d = 8 \/ d = 9)%Z) by lia.
  destruct E as [->|[->|[->|[->|[->|[->|[->|[->|[->| ->]]]]]]]]];
    (split; [reflexivity | split; [reflexivity | split; discriminate]]).
Qed.

(** Reading the digits [decimal] wrote gives back the number, after what was
    read before. *)
Lemma digits_decimal fuel : forall n rest,
  (0 <= n < 2 ^ Z.of_nat (S fuel))%Z ->
  exists k, forall acc seen,
    Js.digits (Js.decimal (S fuel) n rest) acc seen
    = Js.digits rest (acc * k + n) true.
Proof.
  induction fuel as [|fuel IH]; intros n rest Hn.
  - change (2 ^ Z.of_nat 1)%Z with 2%Z in Hn. cbn [Js.decimal].
    assert (Hd : (0 <= n mod 10 < 10)%Z) by (apply Z.mod_pos_bound; lia).
    destruct (digit_char Hd) as [Hdigit _].
    assert (E : (n <? 10)%Z = true) by (apply Z.ltb_lt; lia). rewrite E.
    exists 10%Z. intros acc seen. cbn [Js.digits].
    rewrite Hdigit. rewrite Z.mod_small by lia. f_equal. lia.
  - cbn [Js.decimal].
    assert (Hd : (0 <= n mod 10 < 10)%Z) by (apply Z.mod_pos_bound; lia).
    destruct (digit_char Hd) as [Hdigit _].
    destruct (n <? 10)%Z eqn:E.
    + apply Z.ltb_lt in E. exists 10%Z. intros acc seen. cbn [Js.digits].
      rewrite Hdigit. rewrite Z.mod_small by lia. f_equal. lia.
    + apply Z.ltb_ge in E.
      destruct (IH (n / 10)%Z
                   (String (ascii_of_nat (48 + Z.to_nat (n mod 10))) rest)) as [k Hk].
      { split; [apply Z.div_pos; lia|].
        apply Z.div_lt_upper_bound; [lia|].
        replace (Z.of_nat (S (S fuel))) with (Z.of_nat (S fuel) + 1)%Z in Hn by lia.
        rewrite Z.pow_add_r in Hn by lia. change (2 ^ 1)%Z with 2%Z in Hn.
        assert (0 < 2 ^ Z.of_nat (S fuel))%Z by (apply Z.pow_pos_nonneg; lia).
        lia. }
      exists (10 * k)%Z. intros acc seen. rewrite Hk. cbn [Js.digits]. rewrite Hdigit.
      f_equal. rewrite (Z.div_mod n 10) at 3 by lia. lia.
Qed.

Lemma decimal_head fuel n rest :
  exists d r,
    (0 <= d < 10)%Z
    /\ Js.decimal (S fuel) n rest = String (ascii_of_nat (48 + Z.to_nat d)) r.
Proof.
  revert n rest. induction fuel as [|fuel IH]; intros n rest.
  - exists (n mod 10)%Z. cbn [Js.decimal].
    assert (Hd : (0 <= n mod 10 < 10)%Z) by (apply Z.mod_pos_bound; lia).
    destruct (n <? 10)%Z; eauto.
  - cbn [Js.decimal]. destruct (n <? 10)%Z.
    + exists (n mod 10)%Z. eexists. split; [apply Z.mod_pos_bound; lia | reflexivity].
    + apply (IH (n / 10)%Z).
Qed.

(** Reading a numeral gives back the number. *)
Lemma digits_numeral n :
  (0 <= n)%Z ->
  exists k, forall acc seen,
    Js.digits (Js.numeral n) acc seen = Some (acc * k + n)%Z.
Proof.
  intros Hn. unfold Js.numeral.
  destruct (@digits_decimal (Z.to_nat (Z.log2 n)) n EmptyString) as [k Hk].
  { split; [exact Hn|].
    replace (Z.of_nat (S (Z.to_nat (Z.log2 n)))) with (Z.succ (Z.log2 n))
      by (assert (0 <= Z.log2 n)%Z by apply Z.log2_nonneg; lia).
    destruct (Z.eq_dec n 0) as [->|Hne]; [reflexivity|].
    apply Z.log2_spec. lia. }
  exists k. intros acc seen. rewrite Hk. reflexivity.
Qed.

(** The numeral of a page counter, read back: the same number, for the
    integers a double holds without rounding. *)
Lemma parseInt_toString n :
  (Z.abs n < 2 ^ 53)%Z -> Js.parseInt (Js.toString (Js.Int n)) = Js.Int n.
Proof.
  intros Hb.
  assert (H53 : (2 ^ 53 = 9007199254740992)%Z) by reflexivity.
  assert (H21 : (10 ^ 21 = 1000000000000000000000)%Z) by reflexivity.
  cbn [Js.toString]. unfold Js.unsigned. destruct (n <? 0)%Z eqn:E.
  - apply Z.ltb_lt in E.
    assert (E21 : (- n <? 10 ^ 21)%Z = true) by (apply Z.ltb_lt; lia).
    rewrite E21. unfold Js.parseInt. cbn [Js.trimStart].
    change (Js.is_white_space "-") with false. cbv iota.
    destruct (@digits_numeral (- n)%Z) as [k Hk]; [lia|].
    rewrite Hk.
    assert (F : (0 * k + - n =? 0)%Z = false) by (apply Z.eqb_neq; lia).
    rewrite F. replace (- (0 * k + - n))%Z with n by lia. apply fl_small, Hb.
  - apply Z.ltb_ge in E.
    assert (E21 : (n <? 10 ^ 21)%Z = true) by (apply Z.ltb_lt; lia).
    rewrite E21.
    destruct (decimal_head (Z.to_nat (Z.log2 n)) n EmptyString) as [d [r [Hd Hr]]].
    fold (Js.numeral n) in Hr.
    destruct (digit_char Hd) as [_ [Hw [Hm Hp]]].
    destruct (@digits_numeral n) as [k Hk]; [lia|].
    unfold Js.parseInt. rewrite Hr. cbn [Js.trimStart]. rewrite Hw.
    assert (Hsign : (match String (ascii_of_nat (48 + Z.to_nat d)) r with
                     | String "-" s' => (true, s')
                     | String "+" s' => (false, s')
                     | _ => (false, String (ascii_of_nat (48 + Z.to_nat d)) r)
                     end) = (false, String (ascii_of_nat (48 + Z.to_nat d)) r)).
    { destruct (ascii_of_nat (48 + Z.to_nat d)) as [[] [] [] [] [] [] [] []];
        try reflexivity; congruence. }
    rewrite Hsign, <- Hr, Hk. replace (0 * k + n)%Z with n by lia. apply fl_small, Hb.
Qed.

(** What [parseInt] reads is a double. *)
Lemma parseInt_bound s p :
  Js.parseInt s = Js.Int p -> (Z.abs p <= (2 ^ 53 - 1) * 2 ^ 971)%Z.
Proof.
  unfold Js.parseInt.
  destruct (match Js.trimStart s with
            | String "-" s' => (true, s')
            | String "+" s' => (false, s')
            | _ => (false, Js.trimStart s)
            end) as [negative rest].
  destruct (Js.digits rest 0 false) as [n|]; [|discriminate].
  destruct negative; [destruct (n =? 0)%Z; [discriminate|]|]; apply fl_Int_bound.
Qed.

Lemma number_or_bound default given p :
  (Z.abs default < 2 ^ 53)%Z ->
  OrderController.number_or default given = Js.Int p ->
  (Z.abs p <= (2 ^ 53 - 1) * 2 ^ 971)%Z.
Proof.
  intros Hd. unfold OrderController.number_or. destruct given as [s|].
  - apply parseInt_bound.
  - intros E. inversion E; subst p.
    assert (H53 : (2 ^ 53 = 9007199254740992)%Z) by reflexivity.
    assert (HA : (1 <= 2 ^ 971)%Z).
    { assert (0 < 2 ^ 971)%Z by (apply Z.pow_pos_nonneg; lia). lia. }
    rewrite H53 in *. nia.
Qed.

(* ===================================================================== *)
(** * Pagination *)
(* ===================================================================== *)

(** The skip of a page: exact as long as the last index of the page is an
    integer a double holds without rounding. *)
Lemma times_page p n :
  (1 <= p)%Z -> (1 <= n)%Z -> (p * n <= 2 ^ 53)%Z ->
  Js.times (Js.minus_one (Js.Int p)) (Js.Int n) = Js.Int ((p - 1) * n).
Proof.
  intros Hp Hn Hb.
  assert (H53 : (2 ^ 53 = 9007199254740992)%Z) by reflexivity.
  rewrite H53 in Hb.
  cbn [Js.minus_one]. rewrite fl_small by (rewrite H53; nia).
  unfold Js.times, Js.is_negative, Js.integer.
  assert (E1 : (p - 1 <? 0)%Z = false) by (apply Z.ltb_ge; lia).
  assert (E2 : (n <? 0)%Z = false) by (apply Z.ltb_ge; lia).
  rewrite E1, E2. simpl xorb. cbv iota.
  destruct ((p - 1) * n =? 0)%Z eqn:E.
  - apply Z.eqb_eq in E. rewrite E. reflexivity.
  - apply fl_small. rewrite H53. nia.
Qed.

Lemma ceil_div_pos total n :
  (1 <= n)%Z ->
  Js.ceil_div total (Js.Int n) = Js.Int ((Z.of_nat total + n - 1) / n).
Proof.
  intros Hn. unfold Js.ceil_div. destruct n as [|n|n]; try lia. reflexivity.
Qed.

(** There is a next page exactly when results remain after this one. *)
Lemma next_page_exact p n total :
  (1 <= n)%Z -> (p <? (total + n - 1) / n)%Z = (p * n <? total)%Z.
Proof.
  intros Hn. destruct (p * n <? total)%Z eqn:E.
  - apply Z.ltb_lt in E. apply Z.ltb_lt.
    apply Z.lt_le_trans with (m := ((p + 1) * n / n)%Z).
    + rewrite Z.div_mul by lia. lia.
    + apply Z.div_le_mono; lia.
  - apply Z.ltb_ge in E. apply Z.ltb_ge.
    apply Z.lt_succ_r. apply Z.div_lt_upper_bound; lia.
Qed.

Lemma window_page {D} drv s n (l : list D) :
  (0 <= s)%Z -> (1 <= n)%Z ->
  Mongo.window drv (Js.Int s) (Js.Int n) l
  = Some (firstn (Z.to_nat n) (skipn (Z.to_nat s) l)).
Proof.
  intros Hs Hn. unfold Mongo.window.
  assert (E : (0 <=? s)%Z = true) by (apply Z.leb_le; lia). rewrite E.
  destruct n as [|n|n]; try lia. rewrite Z.abs_eq by lia. reflexivity.
Qed.

(** Cutting a list into windows of [n] and putting them together again. *)
Lemma windows_cover {D} (n : nat) : forall (k : nat) (l : list D),
  0 < n -> List.length l <= k * n ->
  List.concat (map (fun i => firstn n (skipn (i * n) l)) (seq 0 k)) = l.
Proof.
  induction k as [|k IH]; intros l Hn Hl.
  - destruct l; [reflexivity | simpl in Hl; lia].
  - cbn [seq map List.concat]. rewrite <- seq_shift, map_map. simpl skipn.
    transitivity (firstn n l ++ skipn n l); [|apply firstn_skipn]. f_equal.
    rewrite <- (IH (skipn n l) Hn) at 1.
    + f_equal. apply map_ext. intros i. f_equal.
      rewrite skipn_skipn. f_equal. lia.
    + rewrite length_skipn. simpl in Hl. lia.
Qed.

(** [getOrders], run for a page number and a page size that are positive
    integers. *)
Lemma getOrders_run drv orders req filter_ p n :
  OrderController.number_or 1 (Http.lookup "page" (Http.query req)) = Js.Int p ->
  OrderController.number_or 20 (Http.lookup "limit" (Http.query req)) = Js.Int n ->
  (1 <= p)%Z -> (1 <= n)%Z -> (p * n < 2 ^ 53)%Z ->
  OrderController.getOrders_filter drv req = Some filter_ ->
  existsb Mongo.order_cast_fails filter_ = false ->
  Mongo.fails drv Mongo.FindOrders = false ->
  Mongo.fails drv Mongo.CountOrders = false ->
  OrderController.getOrders drv orders req
  = Http.json
      (Http.OrdersPage
         (firstn (Z.to_nat n)
                 (skipn (Z.to_nat ((p - 1) * n)) (sorted_matches drv orders req filter_)))
         {| Http.currentPage := Js.Int p;
            Http.totalPages :=
              Js.Int ((Z.of_nat (List.length (Mongo.matching_orders orders filter_))
                       + n - 1) / n);
            Http.totalItems := List.length (Mongo.matching_orders orders filter_);
            Http.itemsPerPage := Js.Int n;
            Http.hasNextPage :=
              Some (p * n <? Z.of_nat (List.length (Mongo.matching_orders orders filter_)))%Z;
            Http.hasPrevPage := Some (1 <? p)%Z |}).
Proof.
  intros Hpage Hlimit Hp Hn Hb Hfilter Hcast Hfind Hcount.
  unfold OrderController.getOrders.
  rewrite Hpage, Hlimit, Hfilter. cbv zeta.
  unfold Mongo.Order_find, Mongo.Order_countDocuments.
  rewrite Hcast, Hfind, Hcount. cbn [orb].
  rewrite times_page by (try assumption; apply Z.lt_le_incl, Hb).
  rewrite window_page by (try assumption; nia).
  rewrite ceil_div_pos by assumption.
  unfold Js.gt. cbn [Js.lt Js.integer].
  rewrite next_page_exact by assumption. reflexivity.
Qed.

(** X14. For a page number [p >= 1] and a page size [n >= 1] whose product
    is below 2^53, where the arithmetic of the handler is exact, and a
    collection of fewer than 2^53 orders, [getOrders]
    answers 200 with the [p]-th window of [n] of the matching orders in the
    order of the sort, and with the page count
    [ceil (total / n)]; [hasNextPage] is true exactly when matching orders
    remain after this window, [hasPrevPage] exactly when [p > 1], and a page
    past the last is an empty list, not an error. *)
Theorem getOrders_answers_one_window :
  forall (drv : Mongo.Driver) (orders : list (Doc Order.t)) (req : Http.Request)
         (filter_ : list Mongo.OrderCondition) (p n : Z),
    OrderController.number_or 1 (Http.lookup "page" (Http.query req)) = Js.Int p ->
    OrderController.number_or 20 (Http.lookup "limit" (Http.query req)) = Js.Int n ->
    (1 <= p)%Z -> (1 <= n)%Z -> (p * n < 2 ^ 53)%Z ->
    (Z.of_nat (List.length orders) < 2 ^ 53)%Z ->
    OrderController.getOrders_filter drv req = Some filter_ ->
    existsb Mongo.order_cast_fails filter_ = false ->
    Mongo.fails drv Mongo.FindOrders = false ->
    Mongo.fails drv Mongo.CountOrders = false ->
    exists pagination,
      OrderController.getOrders drv orders req
      = Http.json
          (Http.OrdersPage
             (firstn (Z.to_nat n)
                     (skipn (Z.to_nat ((p - 1) * n))
                            (sorted_matches drv orders req filter_)))
             pagination)
      /\ Http.currentPage pagination = Js.Int p
      /\ Http.itemsPerPage pagination = Js.Int n
      /\ Http.totalItems pagination
         = List.length (Mongo.matching_orders orders filter_)
      /\ (exists pages,
            Http.totalPages pagination = Js.Int pages
            /\ ((pages - 1) * n < Z.of_nat (Http.totalItems pagination) <= pages * n)%Z)
      /\ (Http.hasNextPage pagination = Some true
          <-> (p * n < Z.of_nat (Http.totalItems pagination))%Z)
      /\ (Http.hasPrevPage pagination = Some true <-> (1 < p)%Z)
      /\ (List.length (sorted_matches drv orders req filter_) <= Z.to_nat ((p - 1) * n) ->
          page_orders (OrderController.getOrders drv orders req) = []).
Proof.
  intros drv orders req filter_ p n Hpage Hlimit Hp Hn Hb _ Hfilter Hcast Hfind Hcount.
  rewrite (@getOrders_run drv orders req filter_ p n
             Hpage Hlimit Hp Hn Hb Hfilter Hcast Hfind Hcount).
  eexists. split; [reflexivity|]. cbn [Http.currentPage Http.itemsPerPage
    Http.totalItems Http.totalPages Http.hasNextPage Http.hasPrevPage].
  split; [reflexivity|]. split; [reflexivity|]. split; [reflexivity|].
  set (total := Z.of_nat (List.length (Mongo.matching_orders orders filter_))).
  split; [|split; [|split]].
  - eexists. split; [reflexivity|].
    assert (H1 := Z.mul_div_le (total + n - 1) n ltac:(lia)).
    assert (H2 := Z.mul_succ_div_gt (total + n - 1) n ltac:(lia)).
    nia.
  - split.
    + intros H. inversion H as [E]. apply Z.ltb_lt, E.
    + intros H. f_equal. apply Z.ltb_lt, H.
  - split.
    + intros H. inversion H as [E]. apply Z.ltb_lt, E.
    + intros H. f_equal. apply Z.ltb_lt, H.
  - intros Hlen. unfold page_orders. cbn [Http.body Http.json].
    rewrite skipn_all2 by exact Hlen. apply firstn_nil.
Qed.

(** Page 2 of the three stored orders, two per page. *)
Lemma getOrders_answers_one_window_witness :
  exists pagination,
    OrderController.getOrders Sample3.driver Sample3.orders
      {| Http.query := [("page", "2"); ("limit", "2")]%string; Http.params := [] |}
    = Http.json
        (Http.OrdersPage
           (firstn (Z.to_nat 2)
              (skipn (Z.to_nat ((2 - 1) * 2))
                 (sorted_matches Sample3.driver Sample3.orders
                    {| Http.query := [("page", "2"); ("limit", "2")]%string;
                       Http.params := [] |} [])))
           pagination)
    /\ Http.currentPage pagination = Js.Int 2
    /\ Http.hasPrevPage pagination = Some true.
Proof.
  destruct (@getOrders_answers_one_window Sample3.driver Sample3.orders
              {| Http.query := [("page", "2"); ("limit", "2")]%string;
                 Http.params := [] |} [] 2 2
              eq_refl eq_refl ltac:(lia) ltac:(lia) eq_refl eq_refl
              eq_refl eq_refl eq_refl eq_refl)
    as [pagination [Hrun [Hpage [_ [_ [_ [_ [Hprev _]]]]]]]].
  exists pagination. split; [exact Hrun | split; [exact Hpage|]].
  apply Hprev. lia.
Defined.

Lemma getOrders_filter_page_request drv p n rest :
  OrderController.getOrders_filter drv (page_request p n rest)
  = OrderController.getOrders_filter drv (page_request 1 n rest).
Proof. reflexivity. Qed.

Lemma sorted_matches_page_request drv orders p n rest filter_ :
  sorted_matches drv orders (page_request p n rest) filter_
  = sorted_matches drv orders (page_request 1 n rest) filter_.
Proof. reflexivity. Qed.

Lemma getOrders_page_request drv orders p n rest filter_ :
  (1 <= p)%Z -> (1 <= n)%Z -> (p * n < 2 ^ 53)%Z ->
  OrderController.getOrders_filter drv (page_request 1 n rest) = Some filter_ ->
  existsb Mongo.order_cast_fails filter_ = false ->
  Mongo.fails drv Mongo.FindOrders = false ->
  Mongo.fails drv Mongo.CountOrders = false ->
  page_orders (OrderController.getOrders drv orders (page_request p n rest))
  = firstn (Z.to_nat n)
           (skipn (Z.to_nat ((p - 1) * n))
                  (sorted_matches drv orders (page_request 1 n rest) filter_)).
Proof.
  intros Hp Hn Hb Hfilter Hcast Hfind Hcount.
  assert (H53 : (2 ^ 53 = 9007199254740992)%Z) by reflexivity.
  rewrite (@getOrders_run drv orders (page_request p n rest) filter_ p n);
    try assumption; try reflexivity.
  - apply (@parseInt_toString p). rewrite H53 in *. nia.
  - apply (@parseInt_toString n). rewrite H53 in *. nia.
Qed.

(** X15. Asked page after page with the same page size and the same other
    parameters, over a collection that does not change, [getOrders] hands out
    the matching orders in consecutive windows: the pages [1 .. totalPages]
    put end to end are the matching orders in the order of the sort, so that
    each matching order is on exactly one page.  The page size and the
    number of stored orders together stay below 2^53, so that every page
    number is written and read back without rounding. *)
Theorem getOrders_pages_partition_the_matches :
  forall (drv : Mongo.Driver) (orders : list (Doc Order.t))
         (rest : list (string * string)) (filter_ : list Mongo.OrderCondition)
         (n : Z),
    well_behaved drv ->
    (1 <= n)%Z ->
    (Z.of_nat (List.length orders) + n < 2 ^ 53)%Z ->
    OrderController.getOrders_filter drv (page_request 1 n rest) = Some filter_ ->
    existsb Mongo.order_cast_fails filter_ = false ->
    List.concat
      (map (fun i =>
              page_orders
                (OrderController.getOrders drv orders (page_request (Z.of_nat i) n rest)))
           (seq 1 (Z.to_nat ((Z.of_nat (List.length (Mongo.matching_orders orders filter_))
                              + n - 1) / n))))
    = sorted_matches drv orders (page_request 1 n rest) filter_
    /\ Permutation
         (List.concat
            (map (fun i =>
                    page_orders
                      (OrderController.getOrders drv orders
                         (page_request (Z.of_nat i) n rest)))
                 (seq 1 (Z.to_nat
                           ((Z.of_nat (List.length (Mongo.matching_orders orders filter_))
                             + n - 1) / n)))))
         (Mongo.matching_orders orders filter_).
Proof.
  intros drv orders rest filter_ n [Hreach Hsort _] Hn Hb Hfilter Hcast.
  assert (H53 : (2 ^ 53 = 9007199254740992)%Z) by reflexivity.
  rewrite H53 in Hb.
  assert (Hm : List.length (Mongo.matching_orders orders filter_)
               <= List.length orders) by apply filter_length_le.
  set (total := List.length (Mongo.matching_orders orders filter_)) in *.
  set (pages := Z.to_nat ((Z.of_nat total + n - 1) / n)).
  set (sorted := sorted_matches drv orders (page_request 1 n rest) filter_).
  assert (Hlen : List.length sorted = total).
  { apply Permutation_length. apply Hsort. }
  assert (Hcover :
            List.concat
              (map (fun i =>
                      page_orders
                        (OrderController.getOrders drv orders
                           (page_request (Z.of_nat i) n rest)))
                   (seq 1 pages)) = sorted).
  { rewrite <- seq_shift, map_map.
    transitivity
      (List.concat
         (map (fun i => firstn (Z.to_nat n) (skipn (i * Z.to_nat n) sorted))
              (seq 0 pages))); [|apply windows_cover].
    - f_equal. apply map_ext_in. intros i Hi. apply in_seq in Hi.
      assert (Hi' : (Z.of_nat (S i) * n < 2 ^ 53)%Z).
      { rewrite H53.
        assert (H1 := Z.mul_div_le (Z.of_nat total + n - 1) n ltac:(lia)).
        assert (H3 : (0 <= (Z.of_nat total + n - 1) / n)%Z)
          by (apply Z.div_pos; lia).
        assert (H4 : (Z.of_nat (S i) <= (Z.of_nat total + n - 1) / n)%Z)
          by (unfold pages in Hi; lia).
        nia. }
      rewrite (@getOrders_page_request drv orders (Z.of_nat (S i)) n rest filter_);
        try assumption; try apply Hreach; try lia.
      fold sorted. do 2 f_equal. nia.
    - lia.
    - rewrite Hlen. unfold pages.
      assert (H2 := Z.mul_succ_div_gt (Z.of_nat total + n - 1) n ltac:(lia)).
      assert (H3 : (0 <= (Z.of_nat total + n - 1) / n)%Z)
        by (apply Z.div_pos; lia).
      nia. }
  split; [exact Hcover|]. rewrite Hcover. apply Hsort.
Qed.

Lemma sample_driver_well_behaved : well_behaved Sample3.driver.
Proof.
  constructor.
  - intros op. reflexivity.
  - intros key descending l. apply Permutation_refl.
  - intros key descending l. apply Permutation_refl.
Qed.

(** The three stored orders, two per page: the pages put together are the
    three orders. *)
Lemma getOrders_pages_partition_the_matches_witness :
  well_behaved Sample3.driver
  /\ Permutation
       (List.concat
          (map (fun i =>
                  page_orders
                    (OrderController.getOrders Sample3.driver Sample3.orders
                       (page_request (Z.of_nat i) 2 [])))
               (seq 1 (Z.to_nat
                         ((Z.of_nat (List.length
                                       (Mongo.matching_orders Sample3.orders []))
                           + 2 - 1) / 2)))))
       (Mongo.matching_orders Sample3.orders []).
Proof.
  split; [exact sample_driver_well_behaved|].
  exact (proj2 (@getOrders_pages_partition_the_matches Sample3.driver Sample3.orders
                  [] [] 2 sample_driver_well_behaved ltac:(lia) eq_refl
                  eq_refl eq_refl)).
Defined.

(* ===================================================================== *)
(** * Edge cases and failures of [getOrders] *)
(* ===================================================================== *)

(** X16. A page size of 0 is no page size: [limit(0)] sets no limit and the
    skip [(page - 1) * 0] is 0, so that every page number [p >= 1] gets all
    matching orders at once; the page count [ceil (total / 0)] is
    [Infinity] (which JSON writes as [null]) when an order matches and [NaN]
    when none does, and a next page is announced whenever an order
    matches. *)
Theorem getOrders_with_limit_zero_returns_everything :
  forall (drv : Mongo.Driver) (orders : list (Doc Order.t)) (req : Http.Request)
         (filter_ : list Mongo.OrderCondition) (p : Z),
    OrderController.number_or 1 (Http.lookup "page" (Http.query req)) = Js.Int p ->
    OrderController.number_or 20 (Http.lookup "limit" (Http.query req)) = Js.Int 0 ->
    (1 <= p)%Z ->
    OrderController.getOrders_filter drv req = Some filter_ ->
    existsb Mongo.order_cast_fails filter_ = false ->
    Mongo.fails drv Mongo.FindOrders = false ->
    Mongo.fails drv Mongo.CountOrders = false ->
    OrderController.getOrders drv orders req
    = Http.json
        (Http.OrdersPage
           (sorted_matches drv orders req filter_)
           {| Http.currentPage := Js.Int p;
              Http.totalPages :=
                if List.length (Mongo.matching_orders orders filter_) =? 0
                then Js.NaN else Js.Infinity;
              Http.totalItems := List.length (Mongo.matching_orders orders filter_);
              Http.itemsPerPage := Js.Int 0;
              Http.hasNextPage :=
                Some (negb (List.length (Mongo.matching_orders orders filter_) =? 0));
              Http.hasPrevPage := Some (1 <? p)%Z |}).
Proof.
  intros drv orders req filter_ p Hpage Hlimit Hp Hfilter Hcast Hfind Hcount.
  unfold OrderController.getOrders.
  rewrite Hpage, Hlimit, Hfilter. cbv zeta.
  unfold Mongo.Order_find, Mongo.Order_countDocuments.
  rewrite Hcast, Hfind, Hcount. cbn [orb].
  assert (Hskip : Js.times (Js.minus_one (Js.Int p)) (Js.Int 0) = Js.Int 0).
  { destruct (@minus_one_finite p Hp) as [q [-> Hq]].
    - apply (@number_or_bound 1 (Http.lookup "page" (Http.query req)));
        [reflexivity | exact Hpage].
    - unfold Js.times, Js.is_negative, Js.integer.
      assert (E1 : (q <? 0)%Z = false) by (apply Z.ltb_ge; lia).
      rewrite E1, Z.mul_0_r. reflexivity. }
  rewrite Hskip. unfold Mongo.window. cbn [Z.leb Z.compare Z.to_nat skipn].
  unfold Js.ceil_div, Js.gt.
  destruct (List.length (Mongo.matching_orders orders filter_) =? 0); reflexivity.
Qed.

Lemma getOrders_with_limit_zero_returns_everything_witness :
  page_orders
    (OrderController.getOrders Sample3.driver Sample3.orders
       {| Http.query := [("page", "7"); ("limit", "0")]%string; Http.params := [] |})
  = sorted_matches Sample3.driver Sample3.orders
      {| Http.query := [("page", "7"); ("limit", "0")]%string; Http.params := [] |} [].
Proof.
  rewrite (@getOrders_with_limit_zero_returns_everything Sample3.driver Sample3.orders
             {| Http.query := [("page", "7"); ("limit", "0")]%string;
                Http.params := [] |} [] 7
             eq_refl eq_refl ltac:(lia) eq_refl eq_refl eq_refl eq_refl).
  reflexivity.
Defined.

Lemma existsb_cast_fails_app a b :
  existsb Mongo.order_cast_fails (a ++ b)
  = existsb Mongo.order_cast_fails a || existsb Mongo.order_cast_fails b.
Proof. apply existsb_app. Qed.

(** X17. [getOrders] answers either 200 with a page or 500 with the message
    "Failed to fetch orders", and nothing else; it has no answer for a bad
    request.  In particular it answers 500 when the search text is not a
    regular expression, when [productId] does not start with a number, and
    when the page number is less than 1 (the skip is then negative, which
    the database rejects). *)
Theorem getOrders_answers_bad_requests_with_500 :
  forall (drv : Mongo.Driver) (orders : list (Doc Order.t)) (req : Http.Request),
    ((exists found pagination,
         OrderController.getOrders drv orders req
         = Http.json (Http.OrdersPage found pagination))
     \/ OrderController.getOrders drv orders req
        = Http.failure 500 "Error fetching orders:" "Failed to fetch orders")
    /\ (forall s,
          Http.lookup "search" (Http.query req) = Some s -> s <> EmptyString ->
          Mongo.regExp drv s = None ->
          Http.status (OrderController.getOrders drv orders req) = 500)
    /\ (forall s,
          Http.lookup "productId" (Http.query req) = Some s -> s <> EmptyString ->
          Js.parseInt s = Js.NaN ->
          Http.status (OrderController.getOrders drv orders req) = 500)
    /\ (forall p n,
          OrderController.number_or 1 (Http.lookup "page" (Http.query req)) = Js.Int p ->
          OrderController.number_or 20 (Http.lookup "limit" (Http.query req))
          = Js.Int n ->
          (p < 1)%Z -> (1 <= n)%Z ->
          Http.status (OrderController.getOrders drv orders req) = 500).
Proof.
  intros drv orders req. split; [|split; [|split]].
  - unfold OrderController.getOrders.
    destruct (OrderController.getOrders_filter drv req) as [filter_|]; [|right; reflexivity].
    cbv zeta. destruct (Mongo.Order_find _ _ _ _ _ _ _) as [found|];
      [|right; reflexivity].
    destruct (Mongo.Order_countDocuments _ _ _) as [total|]; [|right; reflexivity].
    left. eauto.
  - intros s Hs Hne Hre. unfold OrderController.getOrders, OrderController.getOrders_filter.
    rewrite Hs. destruct s as [|c s]; [congruence|]. cbn [Js.truthy].
    rewrite Hre. reflexivity.
  - intros s Hs Hne Hnan.
    unfold OrderController.getOrders.
    destruct (OrderController.getOrders_filter drv req) as [filter_|] eqn:Ef;
      [|reflexivity].
    assert (Hcast : existsb Mongo.order_cast_fails filter_ = true).
    { unfold OrderController.getOrders_filter in Ef. rewrite Hs in Ef.
      destruct s as [|c s]; [congruence|]. cbn [Js.truthy] in Ef. rewrite Hnan in Ef.
      match type of Ef with
      | match ?x with _ => _ end = _ => destruct x as [text|]; [|discriminate]
      end.
      inversion Ef; subst filter_.
      rewrite !existsb_cast_fails_app. simpl. rewrite !orb_true_r. reflexivity. }
    cbv zeta. unfold Mongo.Order_find, Mongo.Order_countDocuments.
    rewrite Hcast, !orb_true_r. reflexivity.
  - intros p n Hpage Hlimit Hp Hn.
    unfold OrderController.getOrders. rewrite Hpage, Hlimit.
    destruct (OrderController.getOrders_filter drv req) as [filter_|]; [|reflexivity].
    cbv zeta. unfold Mongo.Order_find.
    destruct (Mongo.fails drv Mongo.FindOrders || existsb Mongo.order_cast_fails filter_);
      [reflexivity|].
    assert (Hskip : (exists s, Js.times (Js.minus_one (Js.Int p)) (Js.Int n) = Js.Int s
                               /\ (s < 0)%Z)
                    \/ Js.times (Js.minus_one (Js.Int p)) (Js.Int n) = Js.NegInfinity).
    { cbn [Js.minus_one].
      assert (H1 := @fl_negative (p - 1)%Z ltac:(lia)).
      destruct (Js.fl (p - 1)) as [q| | | |]; try contradiction.
      - unfold Js.times, Js.is_negative, Js.integer.
        assert (E : (q * n =? 0)%Z = false) by (apply Z.eqb_neq; nia).
        rewrite E.
        assert (H2 := @fl_negative (q * n)%Z ltac:(nia)).
        destruct (Js.fl (q * n)) as [s| | | |]; try contradiction; eauto.
      - right. unfold Js.times, Js.is_negative, Js.integer, Js.is_zero.
        assert (E : (n <? 0)%Z = false) by (apply Z.ltb_ge; lia).
        rewrite E. destruct n; try lia; reflexivity. }
    destruct Hskip as [[s [-> Hs]] | ->]; unfold Mongo.window; [|reflexivity].
    assert (E : (0 <=? s)%Z = false) by (apply Z.leb_gt; exact Hs). rewrite E.
    reflexivity.
Qed.

Lemma getOrders_answers_bad_requests_with_500_witness :
  Http.status
    (OrderController.getOrders Sample3.driver Sample3.orders
       {| Http.query := [("search", "(")]%string; Http.params := [] |}) = 500.
Proof.
  apply (proj1 (proj2 (getOrders_answers_bad_requests_with_500
                         Sample3.driver Sample3.orders
                         {| Http.query := [("search", "(")]%string;
                            Http.params := [] |})) "("%string).
  - reflexivity.
  - discriminate.
  - reflexivity.
Defined.

Lemma window_incl {D} drv skip limit (l found : list D) :
  Mongo.window drv skip limit l = Some found -> incl found l.
Proof.
  unfold Mongo.window. intros H.
  assert (Hskip : forall l', match skip with
                             | Js.Int s => if (0 <=? s)%Z
                                           then Some (skipn (Z.to_nat s) l) else None
                             | Js.NegZero => Some l
                             | Js.NaN => if Mongo.accepts_nan drv then Some l else None
                             | _ => None
                             end = Some l' -> incl l' l).
  { intros l' E. destruct skip as [s| | | |]; try discriminate.
    - destruct (0 <=? s)%Z; [|discriminate]. inversion E; subst.
      intros x Hx. rewrite <- (firstn_skipn (Z.to_nat s) l). apply in_or_app. auto.
    - inversion E; subst. apply incl_refl.
    - destruct (Mongo.accepts_nan drv); [|discriminate]. inversion E; subst.
      apply incl_refl. }
  destruct (match skip with
            | Js.Int s => _ | Js.NegZero => _ | Js.NaN => _ | _ => None end)
    as [l'|]; [|discriminate].
  specialize (Hskip l' eq_refl).
  assert (Hfirst : forall k, incl (firstn k l') l').
  { intros k x Hx. rewrite <- (firstn_skipn k l'). apply in_or_app. auto. }
  destruct limit as [n| | | |]; try discriminate.
  - destruct n as [|n|n]; inversion H; subst;
      [exact Hskip | |]; eapply incl_tran; eauto.
  - inversion H; subst. exact Hskip.
  - destruct (Mongo.accepts_nan drv); [|discriminate]. inversion H; subst. exact Hskip.
Qed.

(** X18. Every order on a page [getOrders] answers with is an order of the
    collection that passes all the filters of the request at once: its
    status is the [status] asked for, one of its line items is for the
    [productId] asked for, and the regular expression of [search] matches
    its number, a billing or shipping name, the billing e-mail or the name
    of a line item.  An empty parameter filters nothing. *)
Theorem getOrders_returns_only_matching_orders :
  forall (drv : Mongo.Driver) (orders : list (Doc Order.t)) (req : Http.Request)
         (found : list (Doc Order.t)) (pagination : Http.Pagination) (o : Doc Order.t),
    well_behaved drv ->
    OrderController.getOrders drv orders req
    = Http.json (Http.OrdersPage found pagination) ->
    In o found ->
    In o orders
    /\ (forall s,
          Http.lookup "status" (Http.query req) = Some s -> s <> EmptyString ->
          Order.status (fields o) = s)
    /\ (forall s,
          Http.lookup "productId" (Http.query req) = Some s -> s <> EmptyString ->
          exists id item,
            Js.integer (Js.parseInt s) = Some id
            /\ In item (Order.line_items (fields o))
            /\ LineItem.product_id item = id)
    /\ (forall s,
          Http.lookup "search" (Http.query req) = Some s -> s <> EmptyString ->
          exists test value,
            Mongo.regExp drv s = Some test
            /\ test value = true
            /\ In value
                  ([Order.number (fields o);
                    Billing.first_name (Order.billing (fields o));
                    Billing.last_name (Order.billing (fields o));
                    Billing.email (Order.billing (fields o));
                    Shipping.first_name (Order.shipping (fields o));
                    Shipping.last_name (Order.shipping (fields o))]
                   ++ map LineItem.name (Order.line_items (fields o)))).
Proof.
  intros drv orders req found pagination o [_ Hsort _] Hrun Hin.
  unfold OrderController.getOrders in Hrun.
  destruct (OrderController.getOrders_filter drv req) as [filter_|] eqn:Ef;
    [|discriminate].
  cbv zeta in Hrun.
  destruct (Mongo.Order_find _ _ _ _ _ _ _) as [found'|] eqn:Efind; [|discriminate].
  destruct (Mongo.Order_countDocuments _ _ _) as [total|]; [|discriminate].
  inversion Hrun; subst found'. clear Hrun.
  unfold Mongo.Order_find in Efind.
  destruct (Mongo.fails drv Mongo.FindOrders || existsb Mongo.order_cast_fails filter_);
    [discriminate|].
  apply window_incl in Efind. apply Efind in Hin.
  apply (Permutation_in _ (Hsort _ _ _)) in Hin.
  apply filter_In in Hin. destruct Hin as [Hin Hall].
  rewrite forallb_forall in Hall.
  split; [exact Hin|].
  unfold OrderController.getOrders_filter in Ef.
  split; [|split].
  - intros s Hs Hne. rewrite Hs in Ef. destruct s as [|c s]; [congruence|].
    cbn [Js.truthy] in Ef.
    match type of Ef with
    | match ?x with _ => _ end = _ => destruct x as [text|]; [|discriminate]
    end.
    inversion Ef; subst filter_.
    assert (H : Mongo.order_matches (Mongo.OrderStatusIs (String c s)) o = true).
    { apply Hall. rewrite !in_app_iff. simpl. auto. }
    cbn [Mongo.order_matches] in H.
    apply String.eqb_eq in H. exact H.
  - intros s Hs Hne. rewrite Hs in Ef. destruct s as [|c s]; [congruence|].
    cbn [Js.truthy] in Ef.
    match type of Ef with
    | match ?x with _ => _ end = _ => destruct x as [text|]; [|discriminate]
    end.
    inversion Ef; subst filter_.
    assert (H : Mongo.order_matches
                  (Mongo.OrderHasProduct (Js.parseInt (String c s))) o = true).
    { apply Hall. rewrite !in_app_iff. simpl. auto. }
    cbn [Mongo.order_matches] in H.
    destruct (Js.integer (Js.parseInt (String c s))) as [id|]; [|discriminate].
    apply references_iff in H. destruct H as [item [Hitem Hid]]. eauto.
  - intros s Hs Hne. rewrite Hs in Ef. destruct s as [|c s]; [congruence|].
    cbn [Js.truthy] in Ef.
    destruct (Mongo.regExp drv (String c s)) as [test|]; [|discriminate].
    cbn [option_map] in Ef. inversion Ef; subst filter_.
    assert (H := Hall _ (or_introl eq_refl)).
    cbn [Mongo.order_matches] in H.
    apply existsb_exists in H. destruct H as [f [Hf H]].
    apply existsb_exists in H. destruct H as [value [Hvalue Htest]].
    exists test, value. split; [reflexivity | split; [exact Htest|]].
    destruct Hf as [<-|[<-|[<-|[<-|[<-|[<-|[<-|[]]]]]]]];
      cbn [Mongo.order_field] in Hvalue;
      try (destruct Hvalue as [<-|[]]; simpl; tauto).
    apply in_or_app. right. exact Hvalue.
Qed.

(** Asked for the orders with product 9, the sample store answers with
    orders that have a line item for product 9. *)
Lemma getOrders_returns_only_matching_orders_witness :
  well_behaved Sample3.driver
  /\ List.length
       (page_orders
          (OrderController.getOrders Sample3.driver Sample3.orders
             {| Http.query := [("productId", "9")]%string; Http.params := [] |})) = 1
  /\ Forall (fun o => exists id item,
                Js.integer (Js.parseInt "9") = Some id
                /\ In item (Order.line_items (fields o))
                /\ LineItem.product_id item = id)
            (page_orders
               (OrderController.getOrders Sample3.driver Sample3.orders
                  {| Http.query := [("productId", "9")]%string; Http.params := [] |})).
Proof.
  split; [exact sample_driver_well_behaved|]. split; [reflexivity|].
  apply Forall_forall. intros o Ho.
  assert (Hrun := @getOrders_run Sample3.driver Sample3.orders
              {| Http.query := [("productId", "9")]%string; Http.params := [] |}
              [Mongo.OrderHasProduct (Js.Int 9)] 1 20
              eq_refl eq_refl ltac:(lia) ltac:(lia) eq_refl
              eq_refl eq_refl eq_refl eq_refl).
  rewrite Hrun in Ho.
  exact (proj1 (proj2 (proj2
           (@getOrders_returns_only_matching_orders Sample3.driver Sample3.orders
              _ _ _ o sample_driver_well_behaved Hrun Ho)))
           "9"%string eq_refl ltac:(discriminate)).
Defined.

(* ===================================================================== *)
(** * Lookups by identifier *)
(* ===================================================================== *)

(** X19. [getOrderById] tells an unknown identifier from a malformed one:
    it answers 500 "Failed to fetch order" exactly when the query fails or
    the string is not an ObjectId; otherwise it answers 200 with the order
    stored under the ObjectId when there is one, and 404 "Order not found"
    when no stored order has it. *)
Theorem getOrderById_tells_unknown_from_malformed :
  forall (drv : Mongo.Driver) (orders : list (Doc Order.t)) (id : string),
    (Mongo.fails drv Mongo.FindOrderById = true \/ Mongo.objectId drv id = None ->
     OrderController.getOrderById drv orders id
     = Http.failure 500 "Error fetching order:" "Failed to fetch order")
    /\ (forall n,
          Mongo.fails drv Mongo.FindOrderById = false ->
          Mongo.objectId drv id = Some n ->
          (exists o,
              In o orders /\ _id o = n
              /\ OrderController.getOrderById drv orders id
                 = Http.json (Http.OneOrder o))
          \/ ((forall o, In o orders -> _id o <> n)
              /\ OrderController.getOrderById drv orders id
                 = {| Http.status := 404;
                      Http.body := Http.ErrorMessage "Order not found";
                      Http.console_error := None |}))
    /\ (Http.status (OrderController.getOrderById drv orders id) = 500
        <-> Mongo.fails drv Mongo.FindOrderById = true
            \/ Mongo.objectId drv id = None)
    /\ (Http.status (OrderController.getOrderById drv orders id) = 404
        <-> Mongo.fails drv Mongo.FindOrderById = false
            /\ exists n, Mongo.objectId drv id = Some n
                         /\ forall o, In o orders -> _id o <> n).
Proof.
  intros drv orders id. unfold OrderController.getOrderById, Mongo.Order_findById.
  destruct (Mongo.fails drv Mongo.FindOrderById) eqn:Ef.
  { split; [reflexivity|]. split; [discriminate|]. split.
    - split; [auto | reflexivity].
    - split; [discriminate | intros [H _]; discriminate H]. }
  destruct (Mongo.objectId drv id) as [n|] eqn:Eo.
  2:{ split; [reflexivity|]. split; [discriminate|]. split.
      - split; [auto | reflexivity].
      - split; [discriminate | intros [_ [n [H _]]]; discriminate H]. }
  destruct (find (fun o => _id o =? n) orders) as [o|] eqn:E.
  - apply find_some in E. destruct E as [Hin Hid]. apply Nat.eqb_eq in Hid.
    split; [intros [H|H]; discriminate H|]. split.
    { intros n' _ Hn. inversion Hn; subst n'. left. exists o. auto. }
    split.
    + split; [discriminate | intros [H|H]; discriminate H].
    + split; [discriminate|]. intros [_ [n' [Hn Hnone]]]. inversion Hn; subst n'.
      exfalso. apply (Hnone o Hin Hid).
  - assert (Hnone : forall o, In o orders -> _id o <> n).
    { intros o Hin Heq. apply (find_none _ _ E) in Hin. apply Nat.eqb_neq in Hin.
      contradiction. }
    split; [intros [H|H]; discriminate H|]. split.
    { intros n' _ Hn. inversion Hn; subst n'. right. auto. }
    split.
    + split; [discriminate | intros [H|H]; discriminate H].
    + split; [intros _; split; [reflexivity | eauto] | reflexivity].
Qed.

(** The sample store: order 3 is found, 9 is an ObjectId of no order, and
    "zz" is no ObjectId. *)
Lemma getOrderById_tells_unknown_from_malformed_witness :
  Http.status (OrderController.getOrderById Sample3.driver Sample3.orders "3") = 200
  /\ Http.status (OrderController.getOrderById Sample3.driver Sample3.orders "9") = 404
  /\ Http.status (OrderController.getOrderById Sample3.driver Sample3.orders "zz") = 500.
Proof.
  split; [reflexivity|]. split.
  - apply (proj2 (proj2 (proj2 (getOrderById_tells_unknown_from_malformed
                                  Sample3.driver Sample3.orders "9")))).
    split; [reflexivity|]. exists 9. split; [reflexivity|].
    intros o [<-|[<-|[<-|[]]]]; discriminate.
  - apply (proj1 (proj2 (proj2 (getOrderById_tells_unknown_from_malformed
                                  Sample3.driver Sample3.orders "zz")))).
    right. reflexivity.
Defined.

(* ===================================================================== *)
(** * Order counts of products *)
(* ===================================================================== *)

Lemma addOrderCounts_Some drv orders found : forall views,
  ProductController.addOrderCounts drv orders found = Some views ->
  map Http.product views = found
  /\ forall v, In v views ->
       Http.orderCount v
       = Some (List.length
                 (filter (references (Product.wooCommerceId (fields (Http.product v))))
                         orders)).
Proof.
  induction found as [|p found IH]; intros views H; simpl in H.
  - inversion H. split; [reflexivity | intros v []].
  - unfold ProductController.getProductOrderCount in H.
    destruct (Mongo.fails drv _); [discriminate|].
    destruct (ProductController.addOrderCounts drv orders found) as [views'|];
      [|discriminate].
    inversion H; subst views. destruct (IH views' eq_refl) as [Hmap Hcount].
    split; [simpl; f_equal; exact Hmap|].
    intros v [<-|Hv]; [reflexivity | apply Hcount, Hv].
Qed.

Lemma addOrderCounts_None drv orders found :
  ProductController.addOrderCounts drv orders found = None
  <-> exists p, In p found
                /\ Mongo.fails drv (Mongo.CountOrdersOfProduct
                                      (Product.wooCommerceId (fields p))) = true.
Proof.
  induction found as [|p found IH]; simpl.
  - split; [discriminate | intros [p [[] _]]].
  - unfold ProductController.getProductOrderCount.
    destruct (Mongo.fails drv (Mongo.CountOrdersOfProduct
                                 (Product.wooCommerceId (fields p)))) eqn:E.
    + split; [intros _; exists p; auto | reflexivity].
    + destruct (ProductController.addOrderCounts drv orders found) as [views|].
      * split; [discriminate|]. intros [q [[<-|Hq] Hf]]; [congruence|].
        assert (F : Some views = None) by (apply IH; eauto). discriminate F.
      * split; [|reflexivity]. intros _. destruct (proj1 IH eq_refl) as [q [Hq Hf]].
        exists q. auto.
Qed.

(** X20. [addOrderCounts] answers with the products it was given, in their
    order, each with the number of stored orders that have a line item for
    the product; an order with several such line items counts once.  The
    call is rejected, and no product answered, exactly when the count of one
    of the products fails. *)
Theorem addOrderCounts_counts_orders_per_product :
  forall (drv : Mongo.Driver) (orders : list (Doc Order.t))
         (found : list (Doc Product.t)),
    (ProductController.addOrderCounts drv orders found = None
     <-> exists p, In p found
                   /\ Mongo.fails drv (Mongo.CountOrdersOfProduct
                                         (Product.wooCommerceId (fields p))) = true)
    /\ (forall views,
          ProductController.addOrderCounts drv orders found = Some views ->
          map Http.product views = found
          /\ (forall v, In v views ->
                exists n,
                  Http.orderCount v = Some n
                  /\ n = List.length
                           (filter (references
                                      (Product.wooCommerceId (fields (Http.product v))))
                                   orders)
                  /\ n <= List.length orders))
    /\ ((forall p, In p found ->
                   Mongo.fails drv (Mongo.CountOrdersOfProduct
                                      (Product.wooCommerceId (fields p))) = false) ->
        exists views, ProductController.addOrderCounts drv orders found = Some views).
Proof.
  intros drv orders found. split; [apply addOrderCounts_None|]. split.
  - intros views E. destruct (addOrderCounts_Some _ _ _ E) as [Hmap Hcount].
    split; [exact Hmap|]. intros v Hv. eexists. split; [apply Hcount, Hv|].
    split; [reflexivity | apply filter_length_le].
  - intros Hok.
    destruct (ProductController.addOrderCounts drv orders found) as [views|] eqn:E;
      [eauto|].
    apply addOrderCounts_None in E. destruct E as [p [Hp Hf]].
    rewrite (Hok p Hp) in Hf. discriminate.
Qed.

(** No count fails in the sample store: the three products are answered
    with their counts, in their order. *)
Lemma addOrderCounts_counts_orders_per_product_witness :
  exists views,
    ProductController.addOrderCounts Sample3.driver Sample3.orders Sample3.products
    = Some views
    /\ map Http.product views = Sample3.products.
Proof.
  destruct (proj2 (proj2 (addOrderCounts_counts_orders_per_product
                            Sample3.driver Sample3.orders Sample3.products))
                  (fun p _ => eq_refl)) as [views E].
  exists views. split; [exact E|].
  exact (proj1 (proj1 (proj2 (addOrderCounts_counts_orders_per_product
                                Sample3.driver Sample3.orders Sample3.products))
                      views E)).
Defined.

(** X21. Retention and the interface agree on what an unused product is: a
    product whose deletion came back during a retention pass has, in the
    order collection the pass leaves, the order count 0 that
    [getProductOrderCount] reports. *)
Theorem retention_deletes_products_with_order_count_zero :
  forall (env : Env) (w : World) (drv : Mongo.Driver) (id : Z),
    In id (product_deletes (calls_during w (snd (cleanupOldOrders env w)))) ->
    Mongo.fails drv (Mongo.CountOrdersOfProduct id) = false ->
    ProductController.getProductOrderCount drv
      (db_orders (snd (cleanupOldOrders env w))) id = Some 0.
Proof.
  intros env w drv id Hin Hok.
  unfold ProductController.getProductOrderCount. rewrite Hok. f_equal.
  apply product_deletes_In in Hin.
  destruct (cleanupOldOrders_facts env w)
    as [[phase1 [phase2 [Hcalls [H1 [_ Hdel]]]]] _].
  cbv zeta in Hcalls, Hdel. rewrite Hcalls in Hin. apply in_app_or in Hin.
  destruct Hin as [Hin|Hin]; [|apply H1 in Hin; discriminate].
  specialize (Hdel id Hin).
  induction (db_orders (snd (cleanupOldOrders env w))) as [|o c IH];
    [reflexivity|].
  simpl in Hdel |- *. unfold findOne in *. simpl in Hdel.
  destruct (references id o); [discriminate | apply IH, Hdel].
Qed.

(** Product 7 is deleted by the pass over the sample store, and its order
    count afterwards is 0. *)
Lemma retention_deletes_products_with_order_count_zero_witness :
  In 7%Z (product_deletes
            (calls_during Sample.world_retention
               (snd (cleanupOldOrders (Sample.shop Sample.pages_retention)
                                      Sample.world_retention))))
  /\ ProductController.getProductOrderCount Sample3.driver
       (db_orders (snd (cleanupOldOrders (Sample.shop Sample.pages_retention)
                                         Sample.world_retention))) 7 = Some 0.
Proof.
  assert (H : In 7%Z (product_deletes
                        (calls_during Sample.world_retention
                           (snd (cleanupOldOrders (Sample.shop Sample.pages_retention)
                                                  Sample.world_retention))))).
  { vm_compute. in_list. }
  split; [exact H|].
  exact (@retention_deletes_products_with_order_count_zero
           (Sample.shop Sample.pages_retention) Sample.world_retention
           Sample3.driver 7 H eq_refl).
Defined.

(* ===================================================================== *)
(** * The aggregation of [getCategories] *)
(* ===================================================================== *)

Section Grouping.
Import Http ProductController.

Lemma group_count_add c groups id :
  group_count id (add_to_group c groups)
  = group_count id groups + (if Z.eq_dec (Term.id c) id then 1 else 0).
Proof.
  unfold group_count. induction groups as [|g groups IH]; simpl.
  - destruct (Z.eq_dec (Term.id c) id) as [E|E].
    + apply Z.eqb_eq in E. rewrite E. reflexivity.
    + apply Z.eqb_neq in E. rewrite E. reflexivity.
  - destruct (category_id g =? Term.id c)%Z eqn:Eg; simpl.
    + apply Z.eqb_eq in Eg. destruct (Z.eq_dec (Term.id c) id) as [E|E].
      * assert (F : (category_id g =? id)%Z = true) by (apply Z.eqb_eq; congruence).
        rewrite F. simpl. lia.
      * assert (F : (category_id g =? id)%Z = false) by (apply Z.eqb_neq; congruence).
        rewrite F. simpl. lia.
    + destruct (category_id g =? id)%Z eqn:F; [|exact IH].
      apply Z.eqb_neq in Eg. apply Z.eqb_eq in F.
      destruct (Z.eq_dec (Term.id c) id) as [E|E]; [congruence | lia].
Qed.

Lemma ids_add_to_group c groups :
  map category_id (add_to_group c groups)
  = if existsb (fun g => (category_id g =? Term.id c)%Z) groups
    then map category_id groups
    else map category_id groups ++ [Term.id c].
Proof.
  induction groups as [|g groups IH]; simpl; [reflexivity|].
  destruct (category_id g =? Term.id c)%Z; simpl; [reflexivity|].
  rewrite IH. destruct (existsb _ groups); reflexivity.
Qed.

Lemma sum_add_to_group c groups :
  list_sum (map count (add_to_group c groups)) = S (list_sum (map count groups)).
Proof.
  induction groups as [|g groups IH]; simpl; [reflexivity|].
  destruct (category_id g =? Term.id c)%Z; simpl; [lia | rewrite IH; lia].
Qed.

Lemma grouped_add seen groups c :
  grouped seen groups -> grouped (seen ++ [c]) (add_to_group c groups).
Proof.
  intros [Hn [Hc [Hg Hs]]]. split; [|split; [|split]].
  - rewrite ids_add_to_group.
    destruct (existsb _ groups) eqn:E; [exact Hn|].
    apply NoDup_rev in Hn. rewrite <- (rev_involutive (_ ++ _)).
    apply NoDup_rev. rewrite rev_app_distr. simpl. constructor; [|exact Hn].
    rewrite <- in_rev. intros Hin. apply in_map_iff in Hin.
    destruct Hin as [g [Hid Hin]].
    assert (F : existsb (fun g => (category_id g =? Term.id c)%Z) groups = true).
    { apply existsb_exists. exists g. split; [exact Hin | apply Z.eqb_eq, Hid]. }
    congruence.
  - intros id. rewrite group_count_add, Hc, map_app, count_occ_app. simpl.
    destruct (Z.eq_dec (Term.id c) id); reflexivity.
  - intros g Hin. clear Hn Hc Hs.
    induction groups as [|h groups IH]; simpl in Hin.
    + destruct Hin as [<-|[]]. simpl. split; [lia|].
      exists c. split; [apply in_or_app; right; left; reflexivity | auto].
    + destruct (category_id h =? Term.id c)%Z.
      * destruct Hin as [<-|Hin].
        -- destruct (Hg h (or_introl eq_refl)) as [H1 [c' [Hc' Hrest]]]. simpl.
           split; [lia|]. exists c'. split; [apply in_or_app; auto | exact Hrest].
        -- destruct (Hg g (or_intror Hin)) as [H1 [c' [Hc' Hrest]]].
           split; [exact H1|]. exists c'. split; [apply in_or_app; auto | exact Hrest].
      * destruct Hin as [<-|Hin].
        -- destruct (Hg h (or_introl eq_refl)) as [H1 [c' [Hc' Hrest]]].
           split; [exact H1|]. exists c'. split; [apply in_or_app; auto | exact Hrest].
        -- apply IH; [|exact Hin]. intros g' Hg'. apply Hg. right. exact Hg'.
  - rewrite sum_add_to_group, Hs, length_app. simpl. lia.
Qed.

Lemma grouped_group entries : grouped entries (group entries).
Proof.
  unfold group.
  assert (G : forall seen groups,
             grouped seen groups ->
             grouped (seen ++ entries)
                     (fold_left (fun groups c => add_to_group c groups) entries groups)).
  { induction entries as [|c entries IH]; intros seen groups H; simpl.
    - rewrite app_nil_r. exact H.
    - replace (seen ++ c :: entries) with ((seen ++ [c]) ++ entries)
        by (rewrite <- app_assoc; reflexivity).
      apply IH, grouped_add, H. }
  apply (G [] []). split; [constructor|]. split; [reflexivity|].
  split; [intros g []|reflexivity].
Qed.

Lemma group_count_of_member groups g :
  NoDup (map category_id groups) -> In g groups ->
  group_count (category_id g) groups = count g.
Proof.
  unfold group_count. induction groups as [|h groups IH]; simpl; intros Hn Hin;
    [contradiction|].
  inversion Hn as [|? ? Hh Hrest]; subst.
  destruct Hin as [->|Hin]; [rewrite Z.eqb_refl; reflexivity|].
  destruct (category_id h =? category_id g)%Z eqn:E; [|apply IH; assumption].
  exfalso. apply Hh. apply Z.eqb_eq in E. rewrite E. apply in_map, Hin.
Qed.

Lemma insert_by_count_perm g l : Permutation (insert_by_count g l) (g :: l).
Proof.
  induction l as [|h l IH]; simpl; [apply Permutation_refl|].
  destruct (count h <=? count g); [apply Permutation_refl|].
  apply perm_trans with (l' := h :: g :: l); [apply perm_skip, IH | apply perm_swap].
Qed.

Lemma sort_by_count_perm l : Permutation (sort_by_count l) l.
Proof.
  induction l as [|g l IH]; simpl; [constructor|].
  apply perm_trans with (l' := g :: sort_by_count l);
    [apply insert_by_count_perm | apply perm_skip, IH].
Qed.

Lemma insert_by_count_sorted g l :
  Sorted (fun a b => count b <= count a) l ->
  Sorted (fun a b => count b <= count a) (insert_by_count g l).
Proof.
  induction l as [|h l IH]; simpl; intros Hs.
  - constructor; constructor.
  - inversion Hs as [|? ? Hl Hh]; subst.
    destruct (count h <=? count g) eqn:E.
    + apply Nat.leb_le in E. constructor; [exact Hs | constructor; exact E].
    + apply Nat.leb_gt in E. constructor; [apply IH, Hl|].
      destruct l as [|k l]; simpl.
      * constructor. lia.
      * destruct (count k <=? count g); constructor; [lia|].
        inversion Hh; assumption.
Qed.

Lemma sort_by_count_sorted l :
  StronglySorted (fun a b => count b <= count a) (sort_by_count l).
Proof.
  apply Sorted_StronglySorted.
  - intros a b c Hab Hbc. lia.
  - induction l as [|g l IH]; simpl; [constructor | apply insert_by_count_sorted, IH].
Qed.

Lemma list_sum_perm (l l' : list nat) : Permutation l l' -> list_sum l = list_sum l'.
Proof. induction 1; simpl; lia. Qed.

(** The aggregation, characterised. *)
Lemma categories_facts (products : list (Doc Product.t)) :
  let categories := sort_by_count (group (unwind products)) in
  NoDup (map category_id categories)
  /\ (forall g, In g categories ->
        1 <= count g
        /\ count g = count_occ Z.eq_dec (map Term.id (unwind products)) (category_id g)
        /\ exists c, In c (unwind products) /\ Term.id c = category_id g
                     /\ Term.name c = category_name g
                     /\ Term.slug c = category_slug g)
  /\ (forall c, In c (unwind products) ->
        In (Term.id c) (map category_id categories))
  /\ list_sum (map count categories) = List.length (unwind products)
  /\ StronglySorted (fun a b => count b <= count a) categories.
Proof.
  intros categories.
  destruct (grouped_group (unwind products)) as [Hn [Hc [Hg Hs]]].
  assert (Hp : Permutation categories (group (unwind products)))
    by apply sort_by_count_perm.
  split; [|split; [|split; [|split]]].
  - apply (Permutation_NoDup (Permutation_sym (Permutation_map category_id Hp))), Hn.
  - intros g Hin.
    assert (Hin' : In g (group (unwind products))) by (apply (Permutation_in _ Hp), Hin).
    destruct (Hg g Hin') as [H1 Hex]. split; [exact H1|]. split; [|exact Hex].
    rewrite <- Hc. symmetry. apply group_count_of_member; assumption.
  - intros c Hin.
    apply (Permutation_in _ (Permutation_sym (Permutation_map category_id Hp))).
    assert (Hpos : 1 <= group_count (Term.id c) (group (unwind products))).
    { rewrite Hc. apply count_occ_In. apply in_map, Hin. }
    unfold group_count in Hpos.
    destruct (find _ (group (unwind products))) as [g|] eqn:E; [|lia].
    apply find_some in E. destruct E as [Hg' Hid]. apply Z.eqb_eq in Hid.
    rewrite <- Hid. apply in_map, Hg'.
  - rewrite (list_sum_perm (Permutation_map count Hp)). exact Hs.
  - apply sort_by_count_sorted.
Qed.
End Grouping.

(** X22. [getCategories] answers 500 "Failed to fetch categories" when the
    aggregation is rejected, and when it is not, 200 with one entry per
    category id that occurs among the products: the ids
    of the entries are distinct, every category of a product has its entry,
    the count of an entry is the number of products' category entries with
    its id (at least 1), its name and slug are those of one of them, the
    counts add up to the number of category entries of all products, and the
    entries come with the largest count first. *)
Theorem getCategories_counts_products_per_category :
  forall (drv : Mongo.Driver) (products : list (Doc Product.t)),
    if Mongo.fails drv Mongo.AggregateCategories then
      ProductController.getCategories drv products
      = Http.failure 500 "Error fetching categories:" "Failed to fetch categories"
    else
      exists categories,
        ProductController.getCategories drv products
        = Http.json (Http.Categories categories)
        /\ NoDup (map Http.category_id categories)
        /\ (forall g, In g categories ->
              1 <= Http.count g
              /\ Http.count g
                 = count_occ Z.eq_dec
                     (map Term.id (ProductController.unwind products))
                     (Http.category_id g)
              /\ exists c, In c (ProductController.unwind products)
                           /\ Term.id c = Http.category_id g
                           /\ Term.name c = Http.category_name g
                           /\ Term.slug c = Http.category_slug g)
        /\ (forall p c, In p products -> In c (Product.categories (fields p)) ->
              In (Term.id c) (map Http.category_id categories))
        /\ list_sum (map Http.count categories)
           = List.length (ProductController.unwind products)
        /\ StronglySorted (fun a b => Http.count b <= Http.count a) categories.
Proof.
  intros drv products. unfold ProductController.getCategories.
  destruct (Mongo.fails drv Mongo.AggregateCategories); [reflexivity|].
  eexists. split; [reflexivity|].
  destruct (categories_facts products) as [Hn [Hg [Hc [Hs Ho]]]].
  split; [exact Hn|]. split; [exact Hg|]. split; [|split; [exact Hs | exact Ho]].
  intros p c Hp Hc'. apply Hc. unfold ProductController.unwind.
  apply in_flat_map. exists p. split; assumption.
Qed.

(* ===================================================================== *)
(** * The filters of [getProducts] *)
(* ===================================================================== *)

(** X23. [getProducts] reads [featured] as the comparison with the string
    "true": when the parameter is present, every product of the page has
    [featured] equal to whether the parameter is exactly "true", so that
    any other value ("1", "yes", "True", the empty string) selects the
    products that are not featured.  Every product of a page is a product of
    the collection, with the [status] asked for when one is. *)
Theorem getProducts_featured_is_the_string_true :
  forall (drv : Mongo.Driver) (orders : list (Doc Order.t))
         (products : list (Doc Product.t)) (req : Http.Request)
         (views : list Http.ProductView) (pagination : Http.Pagination)
         (v : Http.ProductView),
    well_behaved drv ->
    ProductController.getProducts drv orders products req
    = Http.json (Http.ProductsPage views pagination) ->
    In v views ->
    In (Http.product v) products
    /\ (forall s,
          Http.lookup "featured" (Http.query req) = Some s ->
          Product.featured (fields (Http.product v)) = String.eqb s "true")
    /\ (forall s,
          Http.lookup "status" (Http.query req) = Some s -> s <> EmptyString ->
          Product.status (fields (Http.product v)) = s).
Proof.
  intros drv orders products req views pagination v [_ _ Hsort] Hrun Hin.
  unfold ProductController.getProducts in Hrun.
  destruct (ProductController.getProducts_filter drv req) as [filter_|] eqn:Ef;
    [|discriminate].
  cbv zeta in Hrun.
  destruct (Mongo.Product_find _ _ _ _ _ _ _) as [found|] eqn:Efind; [|discriminate].
  destruct (Mongo.Product_countDocuments _ _ _) as [total|]; [|discriminate].
  assert (Hv : In (Http.product v) found).
  { destruct (String.eqb _ "true").
    - destruct (ProductController.addOrderCounts drv orders found) as [views'|] eqn:Ea;
        [|discriminate].
      inversion Hrun; subst views'. clear Hrun.
      revert views Ea Hin. clear. induction found as [|p found IH]; simpl; intros views Ea Hin.
      + inversion Ea; subst. contradiction.
      + destruct (ProductController.getProductOrderCount _ _ _) as [n|]; [|discriminate].
        destruct (ProductController.addOrderCounts drv orders found) as [views'|];
          [|discriminate].
        inversion Ea; subst. destruct Hin as [<-|Hin]; [left; reflexivity|].
        right. eapply IH; [reflexivity | exact Hin].
    - inversion Hrun; subst views. clear Hrun.
      unfold ProductController.plain in Hin. apply in_map_iff in Hin.
      destruct Hin as [p [<- Hp]]. exact Hp. }
  clear Hrun Hin.
  unfold Mongo.Product_find in Efind.
  destruct (Mongo.fails drv Mongo.FindProducts); [discriminate|].
  apply window_incl in Efind. apply Efind in Hv.
  apply (Permutation_in _ (Hsort _ _ _)) in Hv.
  apply filter_In in Hv. destruct Hv as [Hv Hall].
  rewrite forallb_forall in Hall.
  split; [exact Hv|].
  unfold ProductController.getProducts_filter in Ef.
  match type of Ef with
  | match ?x with _ => _ end = _ => destruct x as [text|]; [|discriminate]
  end.
  inversion Ef; subst filter_. clear Ef.
  split.
  - intros s Hs. rewrite Hs in Hall.
    assert (H : Mongo.product_matches
                  (Mongo.ProductFeaturedIs (String.eqb s "true")) (Http.product v) = true).
    { apply Hall. rewrite !in_app_iff. simpl. auto. }
    cbn [Mongo.product_matches] in H. apply Bool.eqb_prop in H. exact H.
  - intros s Hs Hne. rewrite Hs in Hall. destruct s as [|c s]; [congruence|].
    cbn [Js.truthy] in Hall.
    assert (H : Mongo.product_matches
                  (Mongo.ProductStatusIs (String c s)) (Http.product v) = true).
    { apply Hall. rewrite !in_app_iff. simpl. auto. }
    cbn [Mongo.product_matches] in H. apply String.eqb_eq in H. exact H.
Qed.

(** Three products are stored, none featured: [featured=yes] selects them
    all. *)
Lemma getProducts_featured_is_the_string_true_witness :
  well_behaved Sample3.driver
  /\ Forall (fun p => Product.featured (fields p) = String.eqb "yes" "true")
            Sample3.products.
Proof.
  split; [exact sample_driver_well_behaved|].
  apply Forall_forall. intros p Hp.
  refine (proj1 (proj2 (@getProducts_featured_is_the_string_true
                          Sample3.driver Sample3.orders Sample3.products
                          {| Http.query := [("featured", "yes")]%string;
                             Http.params := [] |}
                          (ProductController.plain Sample3.products) _
                          {| Http.product := p; Http.orderCount := None |}
                          sample_driver_well_behaved eq_refl _)) "yes"%string eq_refl).
  unfold ProductController.plain.
  apply (in_map (fun p => {| Http.product := p; Http.orderCount := None |})), Hp.
Defined.

(* ===================================================================== *)
(** * The client's request, answered by [getOrders] *)
(* ===================================================================== *)

Lemma client_request_sort page limit search status productId key :
  key = "sortBy"%string \/ key = "sortOrder"%string ->
  Http.lookup key (Client.orderService_getOrders page limit search status productId)
  = None.
Proof.
  intros [-> | ->];
    destruct search as [[|a s]|], status as [[|b t]|], productId as [[|c u]|];
    unfold Client.orderService_getOrders; cbn [Js.truthy andb negb app];
    try reflexivity;
    destruct (String.eqb (String b t) "all"); reflexivity.
Qed.

Lemma client_request_status_all page limit search productId :
  Http.lookup "status"
    (Client.orderService_getOrders page limit search (Some "all"%string) productId)
  = None.
Proof.
  destruct search as [[|a s]|], productId as [[|c u]|]; reflexivity.
Qed.

(** X24. The query [orderService.getOrders] of the client writes for a page
    [page >= 1] of [limit >= 1] orders, integers whose product is below 2^53
    (so that they are written as plain numerals and read back without
    rounding), is read back by [getOrders] as that
    page and that page size: the answer is the window of [limit] orders
    after the first [(page - 1) * limit], of the matching orders sorted by
    [date_created], newest first (the client sends no sort), and its
    pagination names [page] and [limit].  The status "all" is not sent, so
    that it filters nothing. *)
Theorem client_getOrders_round_trip :
  forall (drv : Mongo.Driver) (orders : list (Doc Order.t)) (page limit : Z)
         (search status productId : option string)
         (filter_ : list Mongo.OrderCondition),
    (1 <= page)%Z -> (1 <= limit)%Z -> (page * limit < 2 ^ 53)%Z ->
    (Z.of_nat (List.length orders) < 2 ^ 53)%Z ->
    OrderController.getOrders_filter drv
      {| Http.query :=
           Client.orderService_getOrders (Js.Int page) (Js.Int limit)
                                         search status productId;
         Http.params := [] |} = Some filter_ ->
    existsb Mongo.order_cast_fails filter_ = false ->
    Mongo.fails drv Mongo.FindOrders = false ->
    Mongo.fails drv Mongo.CountOrders = false ->
    (exists pagination,
        OrderController.getOrders drv orders
          {| Http.query :=
               Client.orderService_getOrders (Js.Int page) (Js.Int limit)
                                             search status productId;
             Http.params := [] |}
        = Http.json
            (Http.OrdersPage
               (firstn (Z.to_nat limit)
                  (skipn (Z.to_nat ((page - 1) * limit))
                     (Mongo.sort_orders drv "date_created" true
                        (Mongo.matching_orders orders filter_))))
               pagination)
        /\ Http.currentPage pagination = Js.Int page
        /\ Http.itemsPerPage pagination = Js.Int limit)
    /\ (status = Some "all"%string ->
        forall s, ~ In (Mongo.OrderStatusIs s) filter_).
Proof.
  intros drv orders page limit search status productId filter_
         Hpage Hlimit Hb _ Hfilter Hcast Hfind Hcount.
  assert (H53 : (2 ^ 53 = 9007199254740992)%Z) by reflexivity.
  split.
  - rewrite (@getOrders_run drv orders _ filter_ page limit); try assumption.
    + unfold sorted_matches, orders_sort_key, orders_sort_descending.
      cbn [Http.query].
      rewrite !client_request_sort by auto.
      eexists. split; [reflexivity | split; reflexivity].
    + apply (@parseInt_toString page). rewrite H53 in *. nia.
    + apply (@parseInt_toString limit). rewrite H53 in *. nia.
  - intros -> s Hin.
    unfold OrderController.getOrders_filter in Hfilter. cbn [Http.query] in Hfilter.
    rewrite client_request_status_all in Hfilter. cbn [Js.truthy] in Hfilter.
    match type of Hfilter with
    | match ?x with _ => _ end = _ => destruct x as [text|] eqn:Etext; [|discriminate]
    end.
    inversion Hfilter; subst filter_. clear Hfilter.
    rewrite !in_app_iff in Hin. destruct Hin as [Hin|Hin].
    + match type of Etext with
      | (if ?b then _ else _) = _ =>
          destruct b; [|inversion Etext; subst; contradiction]
      end.
      match type of Etext with
      | match ?x with _ => _ end = _ =>
          destruct x as [q|]; [|inversion Etext; subst; contradiction]
      end.
      destruct (Mongo.regExp drv q); [|discriminate].
      inversion Etext; subst. destruct Hin as [Hin|[]]. discriminate Hin.
    + match type of Hin with
      | In _ (if ?b then _ else _) => destruct b; [|contradiction]
      end.
      match type of Hin with
      | In _ (match ?x with _ => _ end) => destruct x; [|contradiction]
      end.
      destruct Hin as [Hin|[]]. discriminate Hin.
Qed.

(** Page 2 of two orders for the status "all": the third stored order. *)
Lemma client_getOrders_round_trip_witness :
  exists pagination,
    OrderController.getOrders Sample3.driver Sample3.orders
      {| Http.query :=
           Client.orderService_getOrders (Js.Int 2) (Js.Int 2) None
                                         (Some "all"%string) None;
         Http.params := [] |}
    = Http.json
        (Http.OrdersPage
           (firstn (Z.to_nat 2)
              (skipn (Z.to_nat ((2 - 1) * 2))
                 (Mongo.sort_orders Sample3.driver "date_created" true
                    (Mongo.matching_orders Sample3.orders []))))
           pagination)
    /\ Http.currentPage pagination = Js.Int 2
    /\ Http.itemsPerPage pagination = Js.Int 2.
Proof.
  exact (proj1 (@client_getOrders_round_trip Sample3.driver Sample3.orders 2 2
                  None (Some "all"%string) None []
                  ltac:(lia) ltac:(lia) eq_refl eq_refl
                  eq_refl eq_refl eq_refl eq_refl)).
Defined.

(* ===================================================================== *)
(** * The orders of a customer *)
(* ===================================================================== *)

(** X25. [getOrdersByCustomer] reads the customer off the start of the path
    parameter, as [parseInt] does: every order of the page it answers with
    is a stored order of the customer whose number the parameter starts
    with, so that "12abc" asks for customer 12.  A parameter that starts
    with no number is answered with 500 and the message "Failed to fetch
    customer orders", not as a bad request or as an empty page. *)
Theorem getOrdersByCustomer_reads_a_leading_number :
  forall (drv : Mongo.Driver) (orders : list (Doc Order.t)) (customerId : string)
         (req : Http.Request),
    (Js.parseInt customerId = Js.NaN ->
     OrderController.getOrdersByCustomer drv orders customerId req
     = Http.failure 500 "Error fetching customer orders:"
                    "Failed to fetch customer orders")
    /\ (forall found pagination o,
          well_behaved drv ->
          OrderController.getOrdersByCustomer drv orders customerId req
          = Http.json (Http.OrdersPage found pagination) ->
          In o found ->
          In o orders
          /\ Js.integer (Js.parseInt customerId) = Some (Order.customer_id (fields o))).
Proof.
  intros drv orders customerId req. unfold OrderController.getOrdersByCustomer.
  cbv zeta. split.
  - intros E. rewrite E. unfold Mongo.Order_find.
    cbn [existsb Mongo.order_cast_fails]. rewrite Bool.orb_true_r. reflexivity.
  - intros found pagination o [_ Hsort _] Hrun Hin.
    destruct (Mongo.Order_find _ _ _ _ _ _ _) as [found'|] eqn:Efind; [|discriminate].
    destruct (Mongo.Order_countDocuments _ _ _) as [total|]; [|discriminate].
    inversion Hrun; subst found'. clear Hrun.
    unfold Mongo.Order_find in Efind.
    destruct (Mongo.fails drv Mongo.FindOrders || _); [discriminate|].
    apply window_incl in Efind. apply Efind in Hin.
    apply (Permutation_in _ (Hsort _ _ _)) in Hin.
    apply filter_In in Hin. destruct Hin as [Hin Hall].
    split; [exact Hin|].
    cbn [forallb Mongo.order_matches] in Hall. rewrite Bool.andb_true_r in Hall.
    destruct (Js.integer (Js.parseInt customerId)) as [id|]; [|discriminate].
    apply Z.eqb_eq in Hall. congruence.
Qed.

(** Customer 1 placed the three sample orders; asked as "1x", they are
    answered. *)
Lemma getOrdersByCustomer_reads_a_leading_number_witness :
  well_behaved Sample3.driver
  /\ List.length
       (page_orders
          (OrderController.getOrdersByCustomer Sample3.driver Sample3.orders "1x"
             {| Http.query := []; Http.params := [] |})) = 3
  /\ Forall (fun o => Js.integer (Js.parseInt "1x")
                      = Some (Order.customer_id (fields o)))
            (page_orders
               (OrderController.getOrdersByCustomer Sample3.driver Sample3.orders "1x"
                  {| Http.query := []; Http.params := [] |})).
Proof.
  split; [exact sample_driver_well_behaved|]. split; [reflexivity|].
  apply Forall_forall. intros o Ho.
  exact (proj2 (proj2 (@getOrdersByCustomer_reads_a_leading_number
                         Sample3.driver Sample3.orders "1x"%string
                         {| Http.query := []; Http.params := [] |})
                      _ _ o sample_driver_well_behaved eq_refl Ho)).
Defined.
